(** * Synapse Plugin Store: the plugin version lifecycle engine

    A shallow embedding of the NestJS/Supabase marketplace backend:
    the version-compatibility resolver (SQL function
    [find_latest_compatible_version] and [PluginsService]), the review
    state machine ([PluginReviewService]), the artifact store adapter
    ([SupabaseStorageService]) and the submission workflow
    ([DeveloperService], [PluginsService.submitPlugin]).

    The relational store and the blob store are external services.  They
    are modelled by an explicit [World]: two tables keyed by their primary
    key, a bucket/path-addressed object store, and an oracle [Env] that
    decides, call by call, what the clock reads, which UUID is drawn and
    whether the external call reports an error.  Logger calls have no
    effect on any of this and are left out. *)

From Stdlib Require Import Ascii DecimalString.
From stdpp Require Import gmap strings list fin_maps sorting.

Set Default Proof Using "Type".
Open Scope string_scope.
Open Scope Z_scope.

(** ** Enumerations (common/enums) *)

Module PluginStatus.
Inductive t := SUBMITTED | PENDING_REVIEW | PUBLISHED | REJECTED.
#[global] Instance PluginStatus_eq_dec : EqDecision t.
Proof. solve_decision. Defined.
End PluginStatus.

Module VersionStatus.
Inductive t := SUBMITTED | PENDING_REVIEW | PUBLISHED | REJECTED | FLAGGED.
#[global] Instance VersionStatus_eq_dec : EqDecision t.
Proof. solve_decision. Defined.
Definition to_string (s : t) : string :=
  match s with
  | SUBMITTED => "SUBMITTED"
  | PENDING_REVIEW => "PENDING_REVIEW"
  | PUBLISHED => "PUBLISHED"
  | REJECTED => "REJECTED"
  | FLAGGED => "FLAGGED"
  end.
End VersionStatus.

Module ReviewDecision.
Inductive t := PUBLISH | REJECT.
#[global] Instance ReviewDecision_eq_dec : EqDecision t.
Proof. solve_decision. Defined.
Definition to_string (d : t) : string :=
  match d with PUBLISH => "PUBLISH" | REJECT => "REJECT" end.
End ReviewDecision.

(** ** Exceptions (common/exceptions) *)

Inductive Exception :=
| ResourceNotFoundException (resource field value : string)
| InvalidVersionException (message : string)
| VersionConflictException (packageId version : string)
| InvalidTransitionException (message : string)
| Error (message : string).

#[global] Instance Exception_eq_dec : EqDecision Exception.
Proof. solve_decision. Defined.

Definition is_InvalidTransition (e : Exception) : bool :=
  match e with InvalidTransitionException _ => true | _ => false end.

(** [error.message] of an exception, as the template literals read it. *)
Definition message_of (e : Exception) : string :=
  match e with
  | ResourceNotFoundException r f v => r +:+ " with " +:+ f +:+ " '" +:+ v +:+ "' not found"
  | InvalidVersionException m => m
  | VersionConflictException p v =>
      "Version " +:+ v +:+ " already exists for plugin " +:+ p
      +:+ ". Please increment your version number."
  | InvalidTransitionException m => m
  | Error m => m
  end.

(** ** JavaScript values the services test for truthiness

    A [string | null | undefined] is an [option string]; the empty string
    is falsy. *)

Definition truthy (o : option string) : bool :=
  match o with Some s => negb (String.eqb s "") | None => false end.

(** [x || null] on an optional string. *)
Definition or_null (o : option string) : option string :=
  if truthy o then o else None.

(** [x || d] on an optional string. *)
Definition or_default (o : option string) (d : string) : string :=
  match o with Some s => if String.eqb s "" then d else s | None => d end.

(** [n || null] on an optional number. *)
Definition or_null_num (o : option Z) : option Z :=
  match o with Some 0 => None | _ => o end.

(** [String.prototype.trimStart].  A string holds the UTF-8 bytes of the
    JavaScript string; what is stripped is the white space and the line
    terminators of ECMAScript: U+0009 to U+000D and U+0020 (one byte),
    U+00A0 (two bytes), and U+1680, U+2000 to U+200A, U+2028, U+2029,
    U+202F, U+205F, U+3000 and U+FEFF (three bytes).  [s.trim().length] is
    0 exactly when [trimStart s] is empty. *)
Definition white_space_1 (c : Ascii.ascii) : bool :=
  let n := Ascii.nat_of_ascii c in
  (n =? 32)%nat || ((9 <=? n)%nat && (n <=? 13)%nat).

Definition white_space_2 (c1 c2 : Ascii.ascii) : bool :=
  (Ascii.nat_of_ascii c1 =? 194)%nat && (Ascii.nat_of_ascii c2 =? 160)%nat.

Definition white_space_3 (c1 c2 c3 : Ascii.ascii) : bool :=
  let n1 := Ascii.nat_of_ascii c1 in
  let n2 := Ascii.nat_of_ascii c2 in
  let n3 := Ascii.nat_of_ascii c3 in
  ((n1 =? 225) && (n2 =? 154) && (n3 =? 128))%nat
  || ((n1 =? 226) && (n2 =? 128)
      && (((128 <=? n3) && (n3 <=? 138)) || (n3 =? 168) || (n3 =? 169) || (n3 =? 175)))%nat
  || ((n1 =? 226) && (n2 =? 129) && (n3 =? 159))%nat
  || ((n1 =? 227) && (n2 =? 128) && (n3 =? 128))%nat
  || ((n1 =? 239) && (n2 =? 187) && (n3 =? 191))%nat.

Fixpoint trimStart (s : string) : string :=
  match s with
  | EmptyString => EmptyString
  | String c1 r1 =>
      if white_space_1 c1 then trimStart r1
      else
        match r1 with
        | String c2 r2 =>
            if white_space_2 c1 c2 then trimStart r2
            else
              match r2 with
              | String c3 r3 => if white_space_3 c1 c2 c3 then trimStart r3 else s
              | EmptyString => s
              end
        | EmptyString => s
        end
  end.

Abbreviation Buffer := (list Byte.byte).

(** A number inside a template literal: its decimal digits. *)
Definition String_of_number (n : Z) : string := NilZero.string_of_int (Z.to_int n).

(** ** Data model

    The manifest is an open JSON document; the core reads five of its
    fields by name. *)

Record Manifest := {
  m_name : option string;
  m_version : option string;
  m_description : option string;
  m_author : option string;
  m_minAppVersion : option string;
}.

(** Table [plugins]; the primary key [id] is the key of the table. *)
Module plugins.
Record row := {
  package_id : string;
  name : string;
  description : option string;
  author : string;
  icon_key : option string;
  status : PluginStatus.t;
  latest_version_id : option string;
  category : option string;
  tags : option string;
  source_url : option string;
  created_at : Z;
  updated_at : Z;
}.
End plugins.

(** Table [plugin_versions]. *)
Module plugin_versions.
Record row := {
  plugin_id : string;
  version : string;
  storage_path : option string;
  storage_bucket : option string;
  temp_storage_path : option string;
  file_size_bytes : option Z;
  checksum_sha256 : option string;
  manifest : Manifest;
  min_app_version : string;
  release_notes : option string;
  status : VersionStatus.t;
  rejection_reason : option string;
  reviewed_by : option string;
  created_at : Z;
  reviewed_at : option Z;
  published_at : option Z;
  download_count : Z;
  is_flagged : bool;
  flag_reason : option string;
}.
End plugin_versions.

(** Entity [Plugin] (common/entities/plugin.entity.ts). *)
Module Plugin.
Record t := {
  id : string;
  packageId : string;
  name : string;
  description : option string;
  author : string;
  iconKey : option string;
  status : PluginStatus.t;
  latestVersionId : option string;
  category : option string;
  tags : option string;
  sourceUrl : option string;
  createdAt : Z;
  updatedAt : Z;
}.
End Plugin.

(** Entity [PluginVersion] (plugin-version.entity.ts). *)
Module PluginVersion.
Record t := {
  id : string;
  pluginId : string;
  version : string;
  storagePath : option string;
  storageBucket : option string;
  tempStoragePath : option string;
  fileSizeBytes : option Z;
  checksumSha256 : option string;
  manifest : Manifest;
  minAppVersion : string;
  releaseNotes : option string;
  status : VersionStatus.t;
  rejectionReason : option string;
  reviewedBy : option string;
  createdAt : Z;
  reviewedAt : option Z;
  publishedAt : option Z;
  downloadCount : Z;
  isFlagged : bool;
  flagReason : option string;
}.
End PluginVersion.

Record CreatePluginDto := {
  cp_packageId : string;
  cp_name : string;
  cp_description : option string;
  cp_author : string;
  cp_iconKey : option string;
  cp_category : option string;
  cp_tags : option string;
  cp_sourceUrl : option string;
}.

(** [UpdatePluginDto]: an absent (undefined) field is [None]; a field set
    to null is [Some None]. *)
Record UpdatePluginDto := {
  up_name : option string;
  up_description : option (option string);
  up_iconKey : option (option string);
  up_category : option (option string);
  up_tags : option (option string);
  up_sourceUrl : option (option string);
  up_status : option PluginStatus.t;
  up_latestVersionId : option (option string);
}.

Definition UpdatePluginDto_empty : UpdatePluginDto :=
  {| up_name := None; up_description := None; up_iconKey := None;
     up_category := None; up_tags := None; up_sourceUrl := None;
     up_status := None; up_latestVersionId := None |}.

Record CreatePluginVersionDto := {
  cv_pluginId : string;
  cv_version : string;
  cv_manifest : Manifest;
  cv_minAppVersion : string;
  cv_releaseNotes : option string;
  cv_storagePath : option string;
  cv_storageBucket : option string;
  cv_tempStoragePath : option string;
  cv_fileSizeBytes : option Z;
  cv_checksumSha256 : option string;
}.

(** [Partial<PluginVersion>] as [PluginVersionsRepository.update] reads it. *)
Record PluginVersionUpdates := {
  uv_status : option VersionStatus.t;
  uv_storagePath : option (option string);
  uv_storageBucket : option (option string);
  uv_tempStoragePath : option (option string);
  uv_rejectionReason : option (option string);
  uv_reviewedBy : option (option string);
  uv_reviewedAt : option (option Z);
  uv_publishedAt : option (option Z);
  uv_downloadCount : option Z;
  uv_isFlagged : option bool;
  uv_flagReason : option (option string);
}.

Definition PluginVersionUpdates_empty : PluginVersionUpdates :=
  {| uv_status := None; uv_storagePath := None; uv_storageBucket := None;
     uv_tempStoragePath := None; uv_rejectionReason := None;
     uv_reviewedBy := None; uv_reviewedAt := None; uv_publishedAt := None;
     uv_downloadCount := None; uv_isFlagged := None; uv_flagReason := None |}.

Record ReviewDecisionRequestDto := {
  rd_decision : ReviewDecision.t;
  rd_rejectionReason : option string;
  rd_reviewedBy : string;
}.

(** ** The external world *)

(** Calls made on the blob store, with whether the store acknowledged. *)
Inductive StorageCall :=
| Upload (bucket path : string) (ok : bool)
| Download (bucket path : string) (ok : bool)
| Remove (bucket path : string) (ok : bool)
| Sign (bucket path : string) (ok : bool).

#[global] Instance StorageCall_eq_dec : EqDecision StorageCall.
Proof. solve_decision. Defined.

(** config/supabase.config.ts, the part the storage adapter reads. *)
Record SupabaseConfig := {
  projectUrl : string;
  signedUrlTtlSeconds : Z;
  pluginsBucket : string;
  iconsBucket : string;
  tempUploadsBucket : string;
}.

(** The configuration when no environment variable overrides it. *)
Definition supabaseConfig (SUPABASE_URL : string) : SupabaseConfig :=
  {| projectUrl := SUPABASE_URL;
     signedUrlTtlSeconds := 3600;
     pluginsBucket := "plugins";
     iconsBucket := "icons";
     tempUploadsBucket := "temp_uploads" |}.

(** An entry of a ZIP archive as AdmZip presents it. *)
Record ZipEntry := {
  entryName : string;
  isDirectory : bool;
  getData : Buffer;
}.

(** What lies outside the process: the configuration it was started with,
    the libraries it calls (SHA-256, AdmZip, JSON.parse) and what the
    environment answers at the [n]-th external interaction. *)
Record Env := {
  config : SupabaseConfig;
  sha256_hex : Buffer → string;             (* crypto.createHash('sha256') *)
  AdmZip : Buffer → option (list ZipEntry); (* None: not a ZIP archive *)
  JSON_parse : Buffer → option Manifest;    (* None: SyntaxError *)
  clock : nat → Z;              (* Date.now(), in milliseconds *)
  uuid : nat → string;          (* crypto.randomUUID() *)
  fault : nat → option string;  (* error.message reported by Supabase *)
}.

Record World := {
  env : Env;
  tick : nat;
  plugins_table : gmap string plugins.row;
  plugin_versions_table : gmap string plugin_versions.row;
  objects : gmap (string * string) Buffer;   (* (bucket, path) *)
  calls : list StorageCall;                  (* oldest first *)
}.

Definition set_tick (n : nat) (w : World) : World :=
  {| env := env w; tick := n; plugins_table := plugins_table w;
     plugin_versions_table := plugin_versions_table w;
     objects := objects w; calls := calls w |}.
Definition set_plugins (t : gmap string plugins.row) (w : World) : World :=
  {| env := env w; tick := tick w; plugins_table := t;
     plugin_versions_table := plugin_versions_table w;
     objects := objects w; calls := calls w |}.
Definition set_plugin_versions (t : gmap string plugin_versions.row) (w : World) : World :=
  {| env := env w; tick := tick w; plugins_table := plugins_table w;
     plugin_versions_table := t; objects := objects w; calls := calls w |}.
Definition set_objects (o : gmap (string * string) Buffer) (w : World) : World :=
  {| env := env w; tick := tick w; plugins_table := plugins_table w;
     plugin_versions_table := plugin_versions_table w;
     objects := o; calls := calls w |}.
Definition record_call (c : StorageCall) (w : World) : World :=
  {| env := env w; tick := tick w; plugins_table := plugins_table w;
     plugin_versions_table := plugin_versions_table w;
     objects := objects w; calls := calls w ++ [c] |}.

(** ** Promises that may reject: a state and exception monad *)

Inductive Outcome (A : Type) :=
| Returned (a : A)
| Thrown (e : Exception).
Arguments Returned {A} a.
Arguments Thrown {A} e.

(** A computation over a state [Σ]; the effects of a computation that
    throws are kept. *)
Definition St (Σ A : Type) : Type := Σ → Outcome A * Σ.

(** The services run on the [World]. *)
Definition M (A : Type) : Type := St World A.

Definition ret {Σ A} (a : A) : St Σ A := λ w, (Returned a, w).
Definition throw {Σ A} (e : Exception) : St Σ A := λ w, (Thrown e, w).
Definition bind {Σ A B} (m : St Σ A) (k : A → St Σ B) : St Σ B :=
  λ w, match m w with
       | (Returned a, w') => k a w'
       | (Thrown e, w') => (Thrown e, w')
       end.
(** [try { m } catch (error) { h error }] *)
Definition try_catch {Σ A} (m : St Σ A) (h : Exception → St Σ A) : St Σ A :=
  λ w, match m w with
       | (Returned a, w') => (Returned a, w')
       | (Thrown e, w') => h e w'
       end.
Definition get {Σ} : St Σ Σ := λ w, (Returned w, w).
Definition modify {Σ} (f : Σ → Σ) : St Σ unit := λ w, (Returned tt, f w).

Declare Scope m_scope.
Delimit Scope m_scope with M.
Notation "x <- m ;; k" := (bind m (λ x, k))
  (at level 100, m at next level, right associativity) : m_scope.
Notation "m ;;; k" := (bind m (λ _, k))
  (at level 100, right associativity) : m_scope.
Open Scope m_scope.

(** One interaction with the outside: read the oracle, advance. *)
Definition interact {A} (f : Env → nat → A) : M A :=
  λ w, (Returned (f (env w) (tick w)), set_tick (S (tick w)) w).

Definition asks {A} (f : Env → A) : M A := λ w, (Returned (f (env w)), w).

Definition Date_now : M Z := interact clock.
Definition randomUUID : M string := interact uuid.
Definition supabase_error : M (option string) := interact fault.

(** ** The relational store (PostgREST through supabase-js)

    Every request consults the oracle once; a reported error leaves the
    tables untouched.  The triggers of the schema script, which set
    [updated_at] before an update, are not modelled as such: a database
    that refuses an update because of one (the table [plugin_versions] has
    no such column) is among the answers of the oracle. *)

Definition no_single : string :=
  "JSON object requested, multiple (or no) rows returned".

(** [.single()]: exactly one row, or an error. *)
Definition single {R} (rows : list R) : string + R :=
  match rows with
  | [r] => inr r
  | _ => inl no_single
  end.

(** [ORDER BY created_at DESC] on version rows. *)
Definition created_desc (a b : string * plugin_versions.row) : Prop :=
  plugin_versions.created_at b.2 ≤ plugin_versions.created_at a.2.

#[global] Instance created_desc_dec a b : Decision (created_desc a b).
Proof. unfold created_desc. apply _. Defined.

#[global] Instance created_desc_total : Total created_desc.
Proof. intros a b. unfold created_desc. lia. Qed.

#[global] Instance created_desc_trans : Transitive created_desc.
Proof. intros a b c. unfold created_desc. lia. Qed.

(** [SELECT * FROM plugin_versions WHERE p]: the rows in storage order. *)
Definition select_versions (p : string * plugin_versions.row → bool)
    (w : World) : list (string * plugin_versions.row) :=
  filter (λ r, p r = true) (map_to_list (plugin_versions_table w)).

Definition select_plugins (p : string * plugins.row → bool)
    (w : World) : list (string * plugins.row) :=
  filter (λ r, p r = true) (map_to_list (plugins_table w)).

(** A read request: [{ data, error }] with [data] the rows selected. *)
Definition db_read {R} (q : World → string + R) : M (string + R) :=
  err <- supabase_error ;;
  match err with
  | Some msg => ret (inl msg)
  | None => w <- get ;; ret (q w)
  end.

(** [data] when the request reported no error, else null. *)
Definition data_of {R} (r : string + R) : option R :=
  match r with
  | inr d => Some d
  | inl _ => None
  end.

(** [INSERT INTO plugins]: primary key and [UNIQUE (package_id)]. *)
Definition insert_plugin (id : string) (r : plugins.row) : M (string + (string * plugins.row)) :=
  err <- supabase_error ;;
  match err with
  | Some msg => ret (inl msg)
  | None =>
      w <- get ;;
      if bool_decide (is_Some (plugins_table w !! id)) then
        ret (inl "duplicate key value violates unique constraint plugins_pkey")
      else if bool_decide
           (select_plugins (λ x, String.eqb (plugins.package_id x.2) (plugins.package_id r)) w ≠ [])
      then ret (inl "duplicate key value violates unique constraint plugins_package_id_key")
      else modify (set_plugins (<[id := r]> (plugins_table w))) ;;; ret (inr (id, r))
  end.

(** [INSERT INTO plugin_versions]: primary key, [unique_plugin_version]
    and the foreign key to [plugins]. *)
Definition insert_version (id : string) (r : plugin_versions.row)
    : M (string + (string * plugin_versions.row)) :=
  err <- supabase_error ;;
  match err with
  | Some msg => ret (inl msg)
  | None =>
      w <- get ;;
      if bool_decide (is_Some (plugin_versions_table w !! id)) then
        ret (inl "duplicate key value violates unique constraint plugin_versions_pkey")
      else if bool_decide
           (select_versions (λ x, String.eqb (plugin_versions.plugin_id x.2) (plugin_versions.plugin_id r)
                                  && String.eqb (plugin_versions.version x.2) (plugin_versions.version r)) w ≠ [])
      then ret (inl "duplicate key value violates unique constraint unique_plugin_version")
      else if bool_decide (plugins_table w !! plugin_versions.plugin_id r = None) then
        ret (inl "insert or update on table plugin_versions violates foreign key constraint")
      else modify (set_plugin_versions (<[id := r]> (plugin_versions_table w))) ;;; ret (inr (id, r))
  end.

(** [UPDATE plugins SET ... WHERE id = ...] followed by [.select().single()]. *)
Definition update_plugin_row (id : string) (f : plugins.row → plugins.row)
    : M (string + (string * plugins.row)) :=
  err <- supabase_error ;;
  match err with
  | Some msg => ret (inl msg)
  | None =>
      w <- get ;;
      match plugins_table w !! id with
      | None => ret (inl no_single)
      | Some r => modify (set_plugins (<[id := f r]> (plugins_table w))) ;;; ret (inr (id, f r))
      end
  end.

Definition update_version_row (id : string) (f : plugin_versions.row → plugin_versions.row)
    : M (string + (string * plugin_versions.row)) :=
  err <- supabase_error ;;
  match err with
  | Some msg => ret (inl msg)
  | None =>
      w <- get ;;
      match plugin_versions_table w !! id with
      | None => ret (inl no_single)
      | Some r =>
          modify (set_plugin_versions (<[id := f r]> (plugin_versions_table w))) ;;;
          ret (inr (id, f r))
      end
  end.

(** ** Version strings in SQL (migration: find_latest_compatible_version) *)

(** [a <= b] on [VARCHAR]: comparison of the texts, character by
    character (on digits and dots every collation orders ["1"] before
    ["9"] and a proper prefix before its extensions). *)
Definition text_le (a b : string) : bool :=
  match String.compare a b with
  | Gt => false
  | _ => true
  end.

Fixpoint split (d : Ascii.ascii) (s : string) : list string :=
  match s with
  | EmptyString => [EmptyString]
  | String c s' =>
      if Ascii.eqb c d then EmptyString :: split d s'
      else match split d s' with
           | h :: t => String c h :: t
           | [] => [String c EmptyString]
           end
  end.

(** [STRING_TO_ARRAY(s, '.')]; the empty text gives the empty array. *)
Definition STRING_TO_ARRAY (s : string) (d : Ascii.ascii) : list string :=
  if String.eqb s "" then [] else split d s.

Definition digit_of (c : Ascii.ascii) : option Z :=
  let n := Z.of_nat (Ascii.nat_of_ascii c) in
  if (48 <=? n) && (n <=? 57) then Some (n - 48) else None.

Definition is_space (c : Ascii.ascii) : bool :=
  let n := Ascii.nat_of_ascii c in
  (n =? 32)%nat || ((9 <=? n)%nat && (n <=? 13)%nat).

Fixpoint skip_spaces (s : string) : string :=
  match s with
  | String c s' => if is_space c then skip_spaces s' else s
  | EmptyString => EmptyString
  end.

Fixpoint take_digits (s : string) (acc : option Z) : option Z * string :=
  match s with
  | String c s' =>
      match digit_of c with
      | Some d => take_digits s' (Some (10 * default 0 acc + d))
      | None => (acc, s)
      end
  | EmptyString => (acc, EmptyString)
  end.

(** The cast of one text to [INT]: optional blanks, an optional sign,
    decimal digits, optional blanks; the value must fit 32 bits. *)
Definition int4in (s : string) : option Z :=
  let '(sign, body) :=
    match skip_spaces s with
    | String "-"%char s' => (-1, s')
    | String "+"%char s' => (1, s')
    | s' => (1, s')
    end in
  match take_digits body None with
  | (Some v, rest) =>
      if String.eqb (skip_spaces rest) "" && (-2147483648 <=? sign * v) && (sign * v <=? 2147483647)
      then Some (sign * v) else None
  | (None, _) => None
  end.

(** [STRING_TO_ARRAY(s, '.')::INT[]]; [None] when the cast raises. *)
Definition int_array (s : string) : option (list Z) :=
  mapM int4in (STRING_TO_ARRAY s "."%char).

(** Order of integer arrays: element by element, a proper prefix first. *)
Fixpoint array_cmp (a b : list Z) : comparison :=
  match a, b with
  | [], [] => Eq
  | [], _ :: _ => Lt
  | _ :: _, [] => Gt
  | x :: a', y :: b' =>
      match x ?= y with
      | Eq => array_cmp a' b'
      | c => c
      end
  end.

(** [ORDER BY key DESC, created_at DESC] on rows paired with their key. *)
Definition compat_order (a b : list Z * (string * plugin_versions.row)) : Prop :=
  match array_cmp a.1 b.1 with
  | Gt => True
  | Eq => plugin_versions.created_at b.2.2 ≤ plugin_versions.created_at a.2.2
  | Lt => False
  end.

#[global] Instance compat_order_dec a b : Decision (compat_order a b).
Proof. unfold compat_order. destruct (array_cmp a.1 b.1); apply _. Defined.

(** The SQL function: the rows it returns (at most one), or the error it
    raises when a [min_app_version] that passed the [WHERE] clause does
    not cast to [INT[]]. *)
Definition find_latest_compatible_version (p_plugin_id p_app_version : string)
    (w : World) : string + list (string * plugin_versions.row) :=
  let rows :=
    select_versions
      (λ v, String.eqb (plugin_versions.plugin_id v.2) p_plugin_id
            && bool_decide (plugin_versions.status v.2 = VersionStatus.PUBLISHED)
            && text_le (plugin_versions.min_app_version v.2) p_app_version) w in
  match mapM (λ v, k ← int_array (plugin_versions.min_app_version v.2); Some (k, v)) rows with
  | None => inl "invalid input syntax for type integer"
  | Some keyed => inr (take 1 (snd <$> merge_sort compat_order keyed))
  end.

(** [SELECT increment_download_count(id)] *)
Definition increment_download_count (p_version_id : string) : M unit :=
  err <- supabase_error ;;
  match err with
  | Some _ => ret tt
  | None =>
      modify (λ w, set_plugin_versions
                (alter (λ r, {|
                   plugin_versions.plugin_id := plugin_versions.plugin_id r;
                   plugin_versions.version := plugin_versions.version r;
                   plugin_versions.storage_path := plugin_versions.storage_path r;
                   plugin_versions.storage_bucket := plugin_versions.storage_bucket r;
                   plugin_versions.temp_storage_path := plugin_versions.temp_storage_path r;
                   plugin_versions.file_size_bytes := plugin_versions.file_size_bytes r;
                   plugin_versions.checksum_sha256 := plugin_versions.checksum_sha256 r;
                   plugin_versions.manifest := plugin_versions.manifest r;
                   plugin_versions.min_app_version := plugin_versions.min_app_version r;
                   plugin_versions.release_notes := plugin_versions.release_notes r;
                   plugin_versions.status := plugin_versions.status r;
                   plugin_versions.rejection_reason := plugin_versions.rejection_reason r;
                   plugin_versions.reviewed_by := plugin_versions.reviewed_by r;
                   plugin_versions.created_at := plugin_versions.created_at r;
                   plugin_versions.reviewed_at := plugin_versions.reviewed_at r;
                   plugin_versions.published_at := plugin_versions.published_at r;
                   plugin_versions.download_count := plugin_versions.download_count r + 1;
                   plugin_versions.is_flagged := plugin_versions.is_flagged r;
                   plugin_versions.flag_reason := plugin_versions.flag_reason r |})
                 p_version_id (plugin_versions_table w)) w)
  end.

(** ** Orders the repositories ask for *)

(** [ORDER BY created_at ASC] on version rows. *)
Definition created_asc (a b : string * plugin_versions.row) : Prop :=
  plugin_versions.created_at a.2 ≤ plugin_versions.created_at b.2.

#[global] Instance created_asc_dec a b : Decision (created_asc a b).
Proof. unfold created_asc. apply _. Defined.

#[global] Instance created_asc_total : Total created_asc.
Proof. intros a b. unfold created_asc. lia. Qed.

#[global] Instance created_asc_trans : Transitive created_asc.
Proof. intros a b c. unfold created_asc. lia. Qed.

(** [ORDER BY created_at DESC] on plugin rows. *)
Definition plugin_created_desc (a b : string * plugins.row) : Prop :=
  plugins.created_at b.2 ≤ plugins.created_at a.2.

#[global] Instance plugin_created_desc_dec a b : Decision (plugin_created_desc a b).
Proof. unfold plugin_created_desc. apply _. Defined.

#[global] Instance plugin_created_desc_total : Total plugin_created_desc.
Proof. intros a b. unfold plugin_created_desc. lia. Qed.

#[global] Instance plugin_created_desc_trans : Transitive plugin_created_desc.
Proof. intros a b c. unfold plugin_created_desc. lia. Qed.

(** ** plugins/plugin-versions.repository.ts *)

Module PluginVersionsRepository.

Definition mapToEntity (data : string * plugin_versions.row) : PluginVersion.t :=
  {| PluginVersion.id := data.1;
     PluginVersion.pluginId := plugin_versions.plugin_id data.2;
     PluginVersion.version := plugin_versions.version data.2;
     PluginVersion.storagePath := plugin_versions.storage_path data.2;
     PluginVersion.storageBucket := plugin_versions.storage_bucket data.2;
     PluginVersion.tempStoragePath := plugin_versions.temp_storage_path data.2;
     PluginVersion.fileSizeBytes := plugin_versions.file_size_bytes data.2;
     PluginVersion.checksumSha256 := plugin_versions.checksum_sha256 data.2;
     PluginVersion.manifest := plugin_versions.manifest data.2;
     PluginVersion.minAppVersion := plugin_versions.min_app_version data.2;
     PluginVersion.releaseNotes := plugin_versions.release_notes data.2;
     PluginVersion.status := plugin_versions.status data.2;
     PluginVersion.rejectionReason := plugin_versions.rejection_reason data.2;
     PluginVersion.reviewedBy := plugin_versions.reviewed_by data.2;
     PluginVersion.createdAt := plugin_versions.created_at data.2;
     PluginVersion.reviewedAt := plugin_versions.reviewed_at data.2;
     PluginVersion.publishedAt := plugin_versions.published_at data.2;
     PluginVersion.downloadCount := plugin_versions.download_count data.2;
     PluginVersion.isFlagged := plugin_versions.is_flagged data.2;
     PluginVersion.flagReason := plugin_versions.flag_reason data.2 |}.

(** [.eq('id', id)] on a table keyed by [id].  The key of a row is the
    text PostgreSQL prints for its uuid, and the row is found under that
    text.  PostgreSQL compares uuid values, so it also finds the row under
    another spelling of the same uuid (upper case, braces); a caller is
    taken to pass an id as the store printed it, and what is proved about
    a lookup is proved for the id as it is stored. *)
Definition by_id (id : string) (w : World) : list (string * plugin_versions.row) :=
  match plugin_versions_table w !! id with
  | Some r => [(id, r)]
  | None => []
  end.

Definition findById (id : string) : M (option PluginVersion.t) :=
  r <- db_read (λ w, single (by_id id w)) ;;
  ret (mapToEntity <$> data_of r).

Definition findByPluginIdAndVersion (pluginId version : string)
    : M (option PluginVersion.t) :=
  r <- db_read (λ w, single (select_versions
         (λ v, String.eqb (plugin_versions.plugin_id v.2) pluginId
               && String.eqb (plugin_versions.version v.2) version) w)) ;;
  ret (mapToEntity <$> data_of r).

Definition findPublishedVersions (pluginId : string) : M (list PluginVersion.t) :=
  r <- db_read (λ w, inr (merge_sort created_desc (select_versions
         (λ v, String.eqb (plugin_versions.plugin_id v.2) pluginId
               && bool_decide (plugin_versions.status v.2 = VersionStatus.PUBLISHED)) w))) ;;
  ret (mapToEntity <$> default [] (data_of r)).

Definition findLatestCompatibleVersion (pluginId appVersion : string)
    : M (option PluginVersion.t) :=
  r <- db_read (find_latest_compatible_version pluginId appVersion) ;;
  match data_of r with
  | None => ret None
  | Some data => ret (mapToEntity <$> head data)
  end.

Definition create (dto : CreatePluginVersionDto) : M PluginVersion.t :=
  id <- randomUUID ;;
  created_at <- Date_now ;;
  r <- insert_version id
        {| plugin_versions.plugin_id := cv_pluginId dto;
           plugin_versions.version := cv_version dto;
           plugin_versions.storage_path := or_null (cv_storagePath dto);
           plugin_versions.storage_bucket := or_null (cv_storageBucket dto);
           plugin_versions.temp_storage_path := or_null (cv_tempStoragePath dto);
           plugin_versions.file_size_bytes := or_null_num (cv_fileSizeBytes dto);
           plugin_versions.checksum_sha256 := or_null (cv_checksumSha256 dto);
           plugin_versions.manifest := cv_manifest dto;
           plugin_versions.min_app_version := cv_minAppVersion dto;
           plugin_versions.release_notes := or_null (cv_releaseNotes dto);
           plugin_versions.status := VersionStatus.SUBMITTED;
           plugin_versions.rejection_reason := None;
           plugin_versions.reviewed_by := None;
           plugin_versions.created_at := created_at;
           plugin_versions.reviewed_at := None;
           plugin_versions.published_at := None;
           plugin_versions.download_count := 0;
           plugin_versions.is_flagged := false;
           plugin_versions.flag_reason := None |} ;;
  match r with
  | inl msg => throw (Error ("Failed to create plugin version: " +:+ msg))
  | inr data => ret (mapToEntity data)
  end.

(** The columns [update] writes: those of [updates] that are not undefined. *)
Definition updateData (updates : PluginVersionUpdates) (r : plugin_versions.row)
    : plugin_versions.row :=
  {| plugin_versions.plugin_id := plugin_versions.plugin_id r;
     plugin_versions.version := plugin_versions.version r;
     plugin_versions.storage_path := default (plugin_versions.storage_path r) (uv_storagePath updates);
     plugin_versions.storage_bucket := default (plugin_versions.storage_bucket r) (uv_storageBucket updates);
     plugin_versions.temp_storage_path :=
       default (plugin_versions.temp_storage_path r) (uv_tempStoragePath updates);
     plugin_versions.file_size_bytes := plugin_versions.file_size_bytes r;
     plugin_versions.checksum_sha256 := plugin_versions.checksum_sha256 r;
     plugin_versions.manifest := plugin_versions.manifest r;
     plugin_versions.min_app_version := plugin_versions.min_app_version r;
     plugin_versions.release_notes := plugin_versions.release_notes r;
     plugin_versions.status := default (plugin_versions.status r) (uv_status updates);
     plugin_versions.rejection_reason :=
       default (plugin_versions.rejection_reason r) (uv_rejectionReason updates);
     plugin_versions.reviewed_by := default (plugin_versions.reviewed_by r) (uv_reviewedBy updates);
     plugin_versions.created_at := plugin_versions.created_at r;
     plugin_versions.reviewed_at := default (plugin_versions.reviewed_at r) (uv_reviewedAt updates);
     plugin_versions.published_at := default (plugin_versions.published_at r) (uv_publishedAt updates);
     plugin_versions.download_count :=
       default (plugin_versions.download_count r) (uv_downloadCount updates);
     plugin_versions.is_flagged := default (plugin_versions.is_flagged r) (uv_isFlagged updates);
     plugin_versions.flag_reason := default (plugin_versions.flag_reason r) (uv_flagReason updates) |}.

Definition update (id : string) (updates : PluginVersionUpdates) : M PluginVersion.t :=
  r <- update_version_row id (updateData updates) ;;
  match r with
  | inl msg => throw (Error ("Failed to update plugin version: " +:+ msg))
  | inr data => ret (mapToEntity data)
  end.

Definition incrementDownloadCount (id : string) : M unit :=
  increment_download_count id.


(** [!error && !!data] on the answer of [.select('id') ... .single()]. *)
Definition existsByPluginIdAndVersion (pluginId version : string) : M bool :=
  r <- db_read (λ w, single (select_versions
         (λ v, String.eqb (plugin_versions.plugin_id v.2) pluginId
               && String.eqb (plugin_versions.version v.2) version) w)) ;;
  ret (match data_of r with Some _ => true | None => false end).

Definition findByStatus (status : VersionStatus.t) : M (list PluginVersion.t) :=
  r <- db_read (λ w, inr (merge_sort created_asc (select_versions
         (λ v, bool_decide (plugin_versions.status v.2 = status)) w))) ;;
  ret (mapToEntity <$> default [] (data_of r)).

Definition findVersionsInReviewQueue : M (list PluginVersion.t) :=
  r <- db_read (λ w, inr (merge_sort created_asc (select_versions
         (λ v, bool_decide (plugin_versions.status v.2
                            ∈ [VersionStatus.SUBMITTED; VersionStatus.PENDING_REVIEW])) w))) ;;
  ret (mapToEntity <$> default [] (data_of r)).

Definition findFlaggedVersions : M (list PluginVersion.t) :=
  r <- db_read (λ w, inr (merge_sort created_desc (select_versions
         (λ v, bool_decide (plugin_versions.is_flagged v.2 = true)) w))) ;;
  ret (mapToEntity <$> default [] (data_of r)).


End PluginVersionsRepository.

(** ** plugins/plugins.repository.ts *)

Module PluginsRepository.

Definition mapToEntity (data : string * plugins.row) : Plugin.t :=
  {| Plugin.id := data.1;
     Plugin.packageId := plugins.package_id data.2;
     Plugin.name := plugins.name data.2;
     Plugin.description := plugins.description data.2;
     Plugin.author := plugins.author data.2;
     Plugin.iconKey := plugins.icon_key data.2;
     Plugin.status := plugins.status data.2;
     Plugin.latestVersionId := plugins.latest_version_id data.2;
     Plugin.category := plugins.category data.2;
     Plugin.tags := plugins.tags data.2;
     Plugin.sourceUrl := plugins.source_url data.2;
     Plugin.createdAt := plugins.created_at data.2;
     Plugin.updatedAt := plugins.updated_at data.2 |}.

(** [.eq('id', id)], as in [PluginVersionsRepository.by_id]. *)
Definition by_id (id : string) (w : World) : list (string * plugins.row) :=
  match plugins_table w !! id with
  | Some r => [(id, r)]
  | None => []
  end.

Definition findByPackageId (packageId : string) : M (option Plugin.t) :=
  r <- db_read (λ w, single (select_plugins
         (λ p, String.eqb (plugins.package_id p.2) packageId) w)) ;;
  ret (mapToEntity <$> data_of r).

Definition findById (id : string) : M (option Plugin.t) :=
  r <- db_read (λ w, single (by_id id w)) ;;
  ret (mapToEntity <$> data_of r).

Definition create (dto : CreatePluginDto) : M Plugin.t :=
  id <- randomUUID ;;
  created_at <- Date_now ;;
  updated_at <- Date_now ;;
  r <- insert_plugin id
        {| plugins.package_id := cp_packageId dto;
           plugins.name := cp_name dto;
           plugins.description := or_null (cp_description dto);
           plugins.author := cp_author dto;
           plugins.icon_key := or_null (cp_iconKey dto);
           plugins.status := PluginStatus.SUBMITTED;
           plugins.latest_version_id := None;
           plugins.category := or_null (cp_category dto);
           plugins.tags := or_null (cp_tags dto);
           plugins.source_url := or_null (cp_sourceUrl dto);
           plugins.created_at := created_at;
           plugins.updated_at := updated_at |} ;;
  match r with
  | inl msg => throw (Error ("Failed to create plugin: " +:+ msg))
  | inr data => ret (mapToEntity data)
  end.

Definition updateData (updated_at : Z) (dto : UpdatePluginDto) (r : plugins.row)
    : plugins.row :=
  {| plugins.package_id := plugins.package_id r;
     plugins.name := default (plugins.name r) (up_name dto);
     plugins.description := default (plugins.description r) (up_description dto);
     plugins.author := plugins.author r;
     plugins.icon_key := default (plugins.icon_key r) (up_iconKey dto);
     plugins.status := default (plugins.status r) (up_status dto);
     plugins.latest_version_id := default (plugins.latest_version_id r) (up_latestVersionId dto);
     plugins.category := default (plugins.category r) (up_category dto);
     plugins.tags := default (plugins.tags r) (up_tags dto);
     plugins.source_url := default (plugins.source_url r) (up_sourceUrl dto);
     plugins.created_at := plugins.created_at r;
     plugins.updated_at := updated_at |}.

Definition update (id : string) (dto : UpdatePluginDto) : M Plugin.t :=
  updated_at <- Date_now ;;
  r <- update_plugin_row id (updateData updated_at dto) ;;
  match r with
  | inl msg => throw (Error ("Failed to update plugin: " +:+ msg))
  | inr data => ret (mapToEntity data)
  end.

Definition existsByPackageId (packageId : string) : M bool :=
  r <- db_read (λ w, single (select_plugins
         (λ p, String.eqb (plugins.package_id p.2) packageId) w)) ;;
  ret (match data_of r with Some _ => true | None => false end).

Definition findByStatus (status : PluginStatus.t) : M (list Plugin.t) :=
  r <- db_read (λ w, inr (merge_sort plugin_created_desc (select_plugins
         (λ p, bool_decide (plugins.status p.2 = status)) w))) ;;
  ret (mapToEntity <$> default [] (data_of r)).

(** [.eq('category', category)]: a null category equals nothing. *)
Definition findByCategoryAndStatus (category : string) (status : PluginStatus.t)
    : M (list Plugin.t) :=
  r <- db_read (λ w, inr (merge_sort plugin_created_desc (select_plugins
         (λ p, bool_decide (plugins.category p.2 = Some category)
               && bool_decide (plugins.status p.2 = status)) w))) ;;
  ret (mapToEntity <$> default [] (data_of r)).

(** The [or] filter [name.ilike.%term%,description.ilike.%term%] is parsed
    by PostgREST and evaluated by PostgreSQL; [ilike searchTerm row] is
    their verdict on a row (false on every row when the filter is
    refused). *)
Definition searchPublishedPlugins (ilike : string → plugins.row → bool)
    (searchTerm : string) (status : PluginStatus.t) : M (list Plugin.t) :=
  r <- db_read (λ w, inr (merge_sort plugin_created_desc (select_plugins
         (λ p, bool_decide (plugins.status p.2 = status) && ilike searchTerm p.2) w))) ;;
  ret (mapToEntity <$> default [] (data_of r)).

Definition findByAuthor (author : string) : M (list Plugin.t) :=
  r <- db_read (λ w, inr (merge_sort plugin_created_desc (select_plugins
         (λ p, String.eqb (plugins.author p.2) author) w))) ;;
  ret (mapToEntity <$> default [] (data_of r)).

Definition findByLatestVersionId (latestVersionId : string) : M (list Plugin.t) :=
  r <- db_read (λ w, inr (select_plugins
         (λ p, bool_decide (plugins.latest_version_id p.2 = Some latestVersionId)) w)) ;;
  ret (mapToEntity <$> default [] (data_of r)).

Definition findParentByVersionId (versionId : string) : M (option Plugin.t) :=
  r <- db_read (λ w, single (select_plugins
         (λ p, bool_decide (plugins.latest_version_id p.2 = Some versionId)) w)) ;;
  ret (mapToEntity <$> data_of r).

End PluginsRepository.

(** ** The blob store (Supabase Storage)

    Objects are addressed by bucket and path and hold bytes.  Each request
    consults the oracle once and is recorded in [calls]; a request that
    reports an error leaves the objects untouched.  [remove] of a path
    that holds no object is acknowledged like any other.  Content types
    and cache headers are not kept. *)

Definition storage_upload (bucket path : string) (data : Buffer) : M (option string) :=
  err <- supabase_error ;;
  match err with
  | Some msg => modify (record_call (Upload bucket path false)) ;;; ret (Some msg)
  | None =>
      modify (λ w, record_call (Upload bucket path true)
                     (set_objects (<[(bucket, path) := data]> (objects w)) w)) ;;;
      ret None
  end.

Definition storage_download (bucket path : string) : M (string + Buffer) :=
  err <- supabase_error ;;
  w <- get ;;
  match err, objects w !! (bucket, path) with
  | Some msg, _ => modify (record_call (Download bucket path false)) ;;; ret (inl msg)
  | None, None => modify (record_call (Download bucket path false)) ;;; ret (inl "Object not found")
  | None, Some data => modify (record_call (Download bucket path true)) ;;; ret (inr data)
  end.

Definition storage_remove (bucket path : string) : M (option string) :=
  err <- supabase_error ;;
  match err with
  | Some msg => modify (record_call (Remove bucket path false)) ;;; ret (Some msg)
  | None =>
      modify (λ w, record_call (Remove bucket path true)
                     (set_objects (delete (bucket, path) (objects w)) w)) ;;;
      ret None
  end.

(** [axios.post(signUrl, ...)]: the [signedURL] of the response, or None
    when the request fails or names no object. *)
Definition storage_sign (bucket path : string) : M (option string) :=
  err <- supabase_error ;;
  w <- get ;;
  match err, objects w !! (bucket, path) with
  | None, Some _ =>
      modify (record_call (Sign bucket path true)) ;;;
      ret (Some ("/object/sign/" +:+ bucket +:+ "/" +:+ path))
  | _, _ => modify (record_call (Sign bucket path false)) ;;; ret None
  end.

(** ** storage/storage.service.ts, storage/supabase-storage.service.ts *)

Record ArtifactUploadResult := {
  ar_storagePath : string;
  ar_bucket : string;
  ar_fileSizeBytes : Z;
  ar_checksumSha256 : string;
  ar_contentType : string;
  ar_tempPath : string;
}.

Record SignedUrlResult := {
  signedUrl : string;
  expiresAt : Z;
}.

Module StorageService.

Definition getArtifactPath (packageId version : string) : string :=
  packageId +:+ "/v" +:+ version +:+ "/plugin.synx".

Definition calculateChecksum (buffer : Buffer) : M string :=
  h <- asks sha256_hex ;; ret (h buffer).

Definition uploadArtifact (buffer : Buffer) (contentType packageId version : string)
    : M ArtifactUploadResult :=
  checksum <- calculateChecksum buffer ;;
  let storagePath := getArtifactPath packageId version in
  now <- Date_now ;;
  let tempPath := "temp_" +:+ String_of_number now +:+ "/" +:+ storagePath in
  tempUploadsBucket <- asks (λ e, tempUploadsBucket (config e)) ;;
  error <- storage_upload tempUploadsBucket tempPath buffer ;;
  match error with
  | Some msg => throw (Error ("Artifact upload failed: " +:+ msg))
  | None =>
      ret {| ar_storagePath := storagePath;
             ar_bucket := tempUploadsBucket;
             ar_fileSizeBytes := Z.of_nat (length buffer);
             ar_checksumSha256 := checksum;
             ar_contentType := contentType;
             ar_tempPath := tempPath |}
  end.

Definition getSignedUrl (storagePath bucket : string) : M SignedUrlResult :=
  if String.eqb (trimStart storagePath) "" then
    throw (Error "Storage path cannot be null or empty")
  else
    cfg <- asks config ;;
    let actualBucket := if String.eqb bucket "" then pluginsBucket cfg else bucket in
    response <- storage_sign actualBucket storagePath ;;
    match response with
    | Some signedURL =>
        now <- Date_now ;;
        ret {| signedUrl := projectUrl cfg +:+ "/storage/v1" +:+ signedURL;
               expiresAt := now `div` 1000 + signedUrlTtlSeconds cfg |}
    | None => throw (Error "Signed URL generation failed")
    end.

Definition deleteArtifact (storagePath bucket : string) : M unit :=
  error <- storage_remove bucket storagePath ;;
  match error with
  | Some msg => throw (Error ("Artifact deletion failed: " +:+ msg))
  | None => ret tt
  end.

Definition moveArtifact (sourcePath packageId version : string) : M string :=
  let targetPath := getArtifactPath packageId version in
  cfg <- asks config ;;
  downloaded <- storage_download (tempUploadsBucket cfg) sourcePath ;;
  match downloaded with
  | inl msg => throw (Error ("Failed to download source file: " +:+ msg))
  | inr sourceData =>
      uploadError <- storage_upload (pluginsBucket cfg) targetPath sourceData ;;
      match uploadError with
      | Some msg => throw (Error ("Failed to upload to permanent storage: " +:+ msg))
      | None =>
          deleteArtifact sourcePath (tempUploadsBucket cfg) ;;;
          ret targetPath
      end
  end.

(** [iconName.substring(iconName.lastIndexOf('.'))], or the empty string
    when the name has no dot. *)
Fixpoint extension (iconName : string) : string :=
  match iconName with
  | EmptyString => EmptyString
  | String c rest =>
      match extension rest with
      | EmptyString => if Ascii.eqb c "."%char then iconName else EmptyString
      | ext => ext
      end
  end.

Definition uploadIcon (iconData : Buffer) (iconName iconKey : string) : M string :=
  let storagePath := iconKey +:+ extension iconName in
  iconsBucket <- asks (λ e, iconsBucket (config e)) ;;
  existing <- try_catch (getSignedUrl storagePath iconsBucket ;;; ret true)
                        (λ _, ret false) ;;
  if (existing : bool) then ret storagePath
  else
    error <- storage_upload iconsBucket storagePath iconData ;;
    match error with
    | Some msg => throw (Error ("Icon upload failed: " +:+ msg))
    | None => ret storagePath
    end.

End StorageService.

(** ** plugins/plugins.service.ts *)

(** common/dto/plugin-detail-response.dto.ts *)
Record PluginDetailResponse := {
  r_id : string;
  r_packageId : string;
  r_name : string;
  r_description : option string;
  r_author : string;
  r_iconKey : option string;
  r_status : PluginStatus.t;
  r_category : option string;
  r_tags : option string;
  r_sourceUrl : option string;
  r_pluginCreatedAt : Z;
  r_versionId : string;
  r_version : string;
  r_manifest : Manifest;
  r_minAppVersion : string;
  r_releaseNotes : option string;
  r_versionCreatedAt : Z;
  r_downloadCount : Z;
  r_downloadUrl : option string;
  r_expiresAt : option Z;
  r_fileSizeBytes : option Z;
  r_checksumSha256 : option string;
  r_storageBucket : option string;
  r_storagePath : option string;
}.

(** common/dto/plugin-response.dto.ts *)
Record PluginResponse := {
  pr_id : string;
  pr_packageId : string;
  pr_name : string;
  pr_description : option string;
  pr_author : string;
  pr_iconKey : option string;
  pr_status : PluginStatus.t;
  pr_latestVersionId : option string;
  pr_category : option string;
  pr_tags : option string;
  pr_sourceUrl : option string;
  pr_createdAt : Z;
  pr_updatedAt : Z;
}.

(** The quotient of two integers as a JavaScript number. *)
Inductive number :=
| Finite (n : Z)
| Infinity
| NaN.

Record PaginatedResponse (T : Type) := {
  pg_data : list T;
  pg_total : Z;
  pg_page : Z;
  pg_pageSize : Z;
  pg_totalPages : number;
}.
Arguments pg_data {T} _.
Arguments pg_total {T} _.
Arguments pg_page {T} _.
Arguments pg_pageSize {T} _.
Arguments pg_totalPages {T} _.

(** common/dto/plugin-version-response.dto.ts *)
Record PluginVersionResponse := {
  vr_id : string;
  vr_pluginId : string;
  vr_version : string;
  vr_manifest : Manifest;
  vr_minAppVersion : string;
  vr_releaseNotes : option string;
  vr_status : VersionStatus.t;
  vr_rejectionReason : option string;
  vr_reviewedBy : option string;
  vr_createdAt : Z;
  vr_reviewedAt : option Z;
  vr_publishedAt : option Z;
  vr_downloadCount : Z;
  vr_isFlagged : bool;
  vr_storagePath : option string;
  vr_storageBucket : option string;
  vr_fileSizeBytes : option Z;
  vr_checksumSha256 : option string;
}.


(** common/dto/plugin-review-item.dto.ts *)
Record PluginReviewItem := {
  ri_id : string;
  ri_pluginId : string;
  ri_packageId : string;
  ri_name : string;
  ri_description : string;
  ri_version : string;
  ri_author : string;
  ri_createdAt : Z;
  ri_status : VersionStatus.t;
  ri_isFlagged : bool;
  ri_flagReason : option string;
}.

(** [Array.prototype.slice(start, end)] on integer arguments: a negative
    index counts from the end, and both are clamped to the array. *)
Definition slice {A} (l : list A) (start end_ : Z) : list A :=
  let len := Z.of_nat (length l) in
  let k := if start <? 0 then Z.max (len + start) 0 else Z.min start len in
  let final := if end_ <? 0 then Z.max (len + end_) 0 else Z.min end_ len in
  take (Z.to_nat (final - k)) (drop (Z.to_nat k) l).

(** [Math.ceil(a / b)] on integers. *)
Definition ceil_div (a b : Z) : number :=
  if b =? 0 then (if a =? 0 then NaN else Infinity)
  else Finite (- ((- a) `div` b)).

(** config/app.config.ts: [pagination]. *)
Definition defaultPageSize : Z := 20.
Definition maxPageSize : Z := 100.

Module PluginsService.

Definition toPluginDetailResponse (plugin : Plugin.t) (version : PluginVersion.t)
    : M PluginDetailResponse :=
  let storagePath := PluginVersion.storagePath version in
  let storageBucket := PluginVersion.storageBucket version in
  signed <-
    (if truthy storagePath && truthy storageBucket then
       try_catch
         (s <- StorageService.getSignedUrl (default "" storagePath) (default "" storageBucket) ;;
          ret (Some s))
         (λ _, ret None)
     else ret None) ;;
  ret {| r_id := Plugin.id plugin;
         r_packageId := Plugin.packageId plugin;
         r_name := Plugin.name plugin;
         r_description := or_null (Plugin.description plugin);
         r_author := Plugin.author plugin;
         r_iconKey := or_null (Plugin.iconKey plugin);
         r_status := Plugin.status plugin;
         r_category := or_null (Plugin.category plugin);
         r_tags := or_null (Plugin.tags plugin);
         r_sourceUrl := or_null (Plugin.sourceUrl plugin);
         r_pluginCreatedAt := Plugin.createdAt plugin;
         r_versionId := PluginVersion.id version;
         r_version := PluginVersion.version version;
         r_manifest := PluginVersion.manifest version;
         r_minAppVersion := PluginVersion.minAppVersion version;
         r_releaseNotes := or_null (PluginVersion.releaseNotes version);
         r_versionCreatedAt := PluginVersion.createdAt version;
         r_downloadCount := PluginVersion.downloadCount version;
         r_downloadUrl := signedUrl <$> signed;
         r_expiresAt := expiresAt <$> signed;
         r_fileSizeBytes := or_null_num (PluginVersion.fileSizeBytes version);
         r_checksumSha256 := or_null (PluginVersion.checksumSha256 version);
         r_storageBucket := or_null storageBucket;
         r_storagePath := or_null storagePath |}.

Definition incrementDownloadCount (versionId : string) : M unit :=
  PluginVersionsRepository.incrementDownloadCount versionId.

(** The download count is incremented without being awaited; the request
    is issued at the call and its failure is only logged. *)
Definition getPluginByPackageId (packageId : string) (appVersion : option string)
    : M PluginDetailResponse :=
  found <- PluginsRepository.findByPackageId packageId ;;
  match found with
  | None => throw (ResourceNotFoundException "Plugin" "packageId" packageId)
  | Some plugin =>
      if negb (bool_decide (Plugin.status plugin = PluginStatus.PUBLISHED)) then
        throw (ResourceNotFoundException "Plugin" "packageId" packageId)
      else
        version <-
          (if truthy appVersion then
             compatible <- PluginVersionsRepository.findLatestCompatibleVersion
                             (Plugin.id plugin) (default "" appVersion) ;;
             match compatible with
             | None =>
                 throw (InvalidVersionException
                   ("No compatible version found for plugin '" +:+ packageId
                    +:+ "' with app version '" +:+ default "" appVersion +:+ "'. "
                    +:+ "The plugin requires a newer version of the app."))
             | Some v => ret v
             end
           else
             if negb (truthy (Plugin.latestVersionId plugin)) then
               throw (ResourceNotFoundException "PluginVersion" "id" "<none>")
             else
               latest <- PluginVersionsRepository.findById
                           (default "" (Plugin.latestVersionId plugin)) ;;
               match latest with
               | None =>
                   throw (InvalidVersionException
                     ("No published version available for plugin: " +:+ packageId))
               | Some v => ret v
               end) ;;
        try_catch (incrementDownloadCount (PluginVersion.id version)) (λ _, ret tt) ;;;
        toPluginDetailResponse plugin version
  end.

Definition submitPlugin (packageId name description author : string)
    (iconKey category tags sourceUrl : option string)
    (version : string) (manifest : Manifest) (minAppVersion : string)
    (releaseNotes storagePath storageBucket tempStoragePath : option string)
    (fileSizeBytes : option Z) (checksumSha256 : option string)
    : M PluginDetailResponse :=
  found <- PluginsRepository.findByPackageId packageId ;;
  plugin <-
    match found with
    | None =>
        PluginsRepository.create
          {| cp_packageId := packageId; cp_name := name;
             cp_description := Some description; cp_author := author;
             cp_iconKey := iconKey; cp_category := category;
             cp_tags := tags; cp_sourceUrl := sourceUrl |}
    | Some plugin =>
        existing <- PluginVersionsRepository.findByPluginIdAndVersion
                      (Plugin.id plugin) version ;;
        match existing with
        | Some _ => throw (VersionConflictException packageId version)
        | None => ret plugin
        end
    end ;;
  versionData <- PluginVersionsRepository.create
    {| cv_pluginId := Plugin.id plugin;
       cv_version := version;
       cv_manifest := manifest;
       cv_minAppVersion := minAppVersion;
       cv_releaseNotes := releaseNotes;
       cv_storagePath := storagePath;
       cv_storageBucket := storageBucket;
       cv_tempStoragePath := tempStoragePath;
       cv_fileSizeBytes := fileSizeBytes;
       cv_checksumSha256 := checksumSha256 |} ;;
  plugin <-
    (if bool_decide (Plugin.status plugin = PluginStatus.SUBMITTED) then
       PluginsRepository.update (Plugin.id plugin)
         {| up_name := None; up_description := None; up_iconKey := None;
            up_category := None; up_tags := None; up_sourceUrl := None;
            up_status := Some PluginStatus.PENDING_REVIEW;
            up_latestVersionId := None |}
     else ret plugin) ;;
  toPluginDetailResponse plugin versionData.

Definition toPluginResponse (plugin : Plugin.t) : PluginResponse :=
  {| pr_id := Plugin.id plugin;
     pr_packageId := Plugin.packageId plugin;
     pr_name := Plugin.name plugin;
     pr_description := or_null (Plugin.description plugin);
     pr_author := Plugin.author plugin;
     pr_iconKey := or_null (Plugin.iconKey plugin);
     pr_status := Plugin.status plugin;
     pr_latestVersionId := or_null (Plugin.latestVersionId plugin);
     pr_category := or_null (Plugin.category plugin);
     pr_tags := or_null (Plugin.tags plugin);
     pr_sourceUrl := or_null (Plugin.sourceUrl plugin);
     pr_createdAt := Plugin.createdAt plugin;
     pr_updatedAt := Plugin.updatedAt plugin |}.

Definition toPluginVersionResponse (version : PluginVersion.t) : PluginVersionResponse :=
  {| vr_id := PluginVersion.id version;
     vr_pluginId := PluginVersion.pluginId version;
     vr_version := PluginVersion.version version;
     vr_manifest := PluginVersion.manifest version;
     vr_minAppVersion := PluginVersion.minAppVersion version;
     vr_releaseNotes := or_null (PluginVersion.releaseNotes version);
     vr_status := PluginVersion.status version;
     vr_rejectionReason := or_null (PluginVersion.rejectionReason version);
     vr_reviewedBy := or_null (PluginVersion.reviewedBy version);
     vr_createdAt := PluginVersion.createdAt version;
     vr_reviewedAt := PluginVersion.reviewedAt version;
     vr_publishedAt := PluginVersion.publishedAt version;
     vr_downloadCount := PluginVersion.downloadCount version;
     vr_isFlagged := PluginVersion.isFlagged version;
     vr_storagePath := or_null (PluginVersion.storagePath version);
     vr_storageBucket := or_null (PluginVersion.storageBucket version);
     vr_fileSizeBytes := or_null_num (PluginVersion.fileSizeBytes version);
     vr_checksumSha256 := or_null (PluginVersion.checksumSha256 version) |}.

(** [page] and [pageSize] are integers; an absent one takes its default.
    [ilike] is the verdict of the search filter, see
    [PluginsRepository.searchPublishedPlugins]. *)
Definition listPublishedPlugins (ilike : string → plugins.row → bool)
    (category search : option string) (page pageSize : option Z)
    : M (PaginatedResponse PluginResponse) :=
  let page := default 0 page in
  let pageSize := default defaultPageSize pageSize in
  let actualPageSize := Z.min pageSize maxPageSize in
  let start := page * actualPageSize in
  plugins <-
    (if truthy search && negb (String.eqb (trimStart (default "" search)) "") then
       PluginsRepository.searchPublishedPlugins ilike (default "" search) PluginStatus.PUBLISHED
     else if truthy category && negb (String.eqb (trimStart (default "" category)) "") then
       PluginsRepository.findByCategoryAndStatus (default "" category) PluginStatus.PUBLISHED
     else PluginsRepository.findByStatus PluginStatus.PUBLISHED) ;;
  let paginatedPlugins := slice plugins start (start + actualPageSize) in
  let totalCount := Z.of_nat (length plugins) in
  let totalPages := ceil_div totalCount actualPageSize in
  ret {| pg_data := toPluginResponse <$> paginatedPlugins;
         pg_total := totalCount;
         pg_page := page;
         pg_pageSize := actualPageSize;
         pg_totalPages := totalPages |}.


Definition getVersionById (versionId : string) : M PluginVersionResponse :=
  version <- PluginVersionsRepository.findById versionId ;;
  match version with
  | None => throw (ResourceNotFoundException "PluginVersion" "id" versionId)
  | Some version => ret (toPluginVersionResponse version)
  end.


End PluginsService.

(** ** plugins/plugin-review.service.ts *)

Module PluginReviewService.

(** Placeholder implementation: always passes. *)
Definition performAutomatedSafetyCheck (version : PluginVersion.t) : bool := true.

Definition isValidTransition (currentStatus : VersionStatus.t)
    (decision : ReviewDecision.t) : bool :=
  match currentStatus with
  | VersionStatus.SUBMITTED | VersionStatus.PENDING_REVIEW => true
  | VersionStatus.PUBLISHED | VersionStatus.REJECTED | VersionStatus.FLAGGED => false
  end.

Definition getVersionForReview (versionId : string) : M PluginVersion.t :=
  version <- PluginVersionsRepository.findById versionId ;;
  match version with
  | None => throw (ResourceNotFoundException "PluginVersion" "id" versionId)
  | Some v => ret v
  end.

Definition handlePublishDecision (version : PluginVersion.t) (plugin : Plugin.t)
    (reviewedBy : string) : M unit :=
  (if truthy (PluginVersion.tempStoragePath version) then
     try_catch
       (storagePath <- StorageService.moveArtifact
                         (default "" (PluginVersion.tempStoragePath version))
                         (Plugin.packageId plugin) (PluginVersion.version version) ;;
        PluginVersionsRepository.update (PluginVersion.id version)
          {| uv_status := None;
             uv_storagePath := Some (Some storagePath);
             uv_storageBucket := Some (Some "plugins");
             uv_tempStoragePath := Some None;
             uv_rejectionReason := None; uv_reviewedBy := None;
             uv_reviewedAt := None; uv_publishedAt := None;
             uv_downloadCount := None; uv_isFlagged := None;
             uv_flagReason := None |} ;;;
        ret tt)
       (λ _, throw (Error "Failed to move artifact to permanent storage"))
   else ret tt) ;;;
  reviewedAt <- Date_now ;;
  publishedAt <- Date_now ;;
  PluginVersionsRepository.update (PluginVersion.id version)
    {| uv_status := Some VersionStatus.PUBLISHED;
       uv_storagePath := None; uv_storageBucket := None;
       uv_tempStoragePath := None;
       uv_rejectionReason := Some None;
       uv_reviewedBy := Some (Some reviewedBy);
       uv_reviewedAt := Some (Some reviewedAt);
       uv_publishedAt := Some (Some publishedAt);
       uv_downloadCount := None; uv_isFlagged := None;
       uv_flagReason := None |} ;;;
  PluginsRepository.update (Plugin.id plugin)
    {| up_name := None; up_description := None; up_iconKey := None;
       up_category := None; up_tags := None; up_sourceUrl := None;
       up_status := Some PluginStatus.PUBLISHED;
       up_latestVersionId := Some (Some (PluginVersion.id version)) |} ;;;
  ret tt.

Definition handleRejectDecision (version : PluginVersion.t) (plugin : Plugin.t)
    (decision : ReviewDecisionRequestDto) : M unit :=
  (if truthy (PluginVersion.tempStoragePath version) then
     try_catch
       (StorageService.deleteArtifact
          (default "" (PluginVersion.tempStoragePath version)) "temp_uploads")
       (λ _, ret tt)
   else ret tt) ;;;
  reviewedAt <- Date_now ;;
  PluginVersionsRepository.update (PluginVersion.id version)
    {| uv_status := Some VersionStatus.REJECTED;
       uv_storagePath := None; uv_storageBucket := None;
       uv_tempStoragePath := Some None;
       uv_rejectionReason := Some <$> rd_rejectionReason decision;
       uv_reviewedBy := Some (Some (rd_reviewedBy decision));
       uv_reviewedAt := Some (Some reviewedAt);
       uv_publishedAt := None;
       uv_downloadCount := None; uv_isFlagged := None;
       uv_flagReason := None |} ;;;
  if bool_decide (Some (PluginVersion.id version) = Plugin.latestVersionId plugin) then
    publishedVersions <- PluginVersionsRepository.findPublishedVersions (Plugin.id plugin) ;;
    match publishedVersions with
    | [] =>
        PluginsRepository.update (Plugin.id plugin)
          {| up_name := None; up_description := None; up_iconKey := None;
             up_category := None; up_tags := None; up_sourceUrl := None;
             up_status := Some PluginStatus.REJECTED;
             up_latestVersionId := Some None |} ;;;
        ret tt
    | first :: _ =>
        PluginsRepository.update (Plugin.id plugin)
          {| up_name := None; up_description := None; up_iconKey := None;
             up_category := None; up_tags := None; up_sourceUrl := None;
             up_status := None;
             up_latestVersionId := Some (Some (PluginVersion.id first)) |} ;;;
        ret tt
    end
  else ret tt.

(** [submitReviewDecision] with the safety check it consults made explicit;
    the service's own check is [performAutomatedSafetyCheck]. *)
Definition submitReviewDecision_with (safetyCheck : PluginVersion.t → bool)
    (versionId : string) (decision : ReviewDecisionRequestDto) : M unit :=
  version <- getVersionForReview versionId ;;
  found <- PluginsRepository.findById (PluginVersion.pluginId version) ;;
  match found with
  | None => throw (ResourceNotFoundException "Plugin" "id" (PluginVersion.pluginId version))
  | Some plugin =>
      if negb (isValidTransition (PluginVersion.status version) (rd_decision decision)) then
        throw (InvalidTransitionException
          ("Version status is " +:+ VersionStatus.to_string (PluginVersion.status version)
           +:+ ", cannot transition to "
           +:+ ReviewDecision.to_string (rd_decision decision)))
      else if bool_decide (rd_decision decision = ReviewDecision.PUBLISH)
              && negb (safetyCheck version) then
        throw (InvalidTransitionException
          "Automated safety check failed. Please review the code for security issues.")
      else
        match rd_decision decision with
        | ReviewDecision.PUBLISH => handlePublishDecision version plugin (rd_reviewedBy decision)
        | ReviewDecision.REJECT => handleRejectDecision version plugin decision
        end
  end.

Definition submitReviewDecision : string → ReviewDecisionRequestDto → M unit :=
  submitReviewDecision_with performAutomatedSafetyCheck.

Definition flagVersion (versionId reason flaggedBy : string) : M unit :=
  version <- getVersionForReview versionId ;;
  found <- PluginsRepository.findById (PluginVersion.pluginId version) ;;
  match found with
  | None => throw (ResourceNotFoundException "Plugin" "id" (PluginVersion.pluginId version))
  | Some plugin =>
      PluginVersionsRepository.update versionId
        {| uv_status := Some VersionStatus.FLAGGED;
           uv_storagePath := None; uv_storageBucket := None;
           uv_tempStoragePath := None; uv_rejectionReason := None;
           uv_reviewedBy := None; uv_reviewedAt := None; uv_publishedAt := None;
           uv_downloadCount := None;
           uv_isFlagged := Some true;
           uv_flagReason := Some (Some reason) |} ;;;
      if bool_decide (Some versionId = Plugin.latestVersionId plugin) then
        PluginsRepository.update (Plugin.id plugin)
          {| up_name := None; up_description := None; up_iconKey := None;
             up_category := None; up_tags := None; up_sourceUrl := None;
             up_status := Some PluginStatus.REJECTED;
             up_latestVersionId := Some None |} ;;;
        ret tt
      else ret tt
  end.

Definition unflagVersion (versionId : string) : M unit :=
  version <- getVersionForReview versionId ;;
  PluginVersionsRepository.update versionId
    {| uv_status := None;
       uv_storagePath := None; uv_storageBucket := None;
       uv_tempStoragePath := None; uv_rejectionReason := None;
       uv_reviewedBy := None; uv_reviewedAt := None; uv_publishedAt := None;
       uv_downloadCount := None;
       uv_isFlagged := Some false;
       uv_flagReason := Some None |} ;;;
  ret tt.

(** The loop of [getReviewQueue]: one [findById] per version, in order. *)
Fixpoint reviewItems (versions : list PluginVersion.t) (result : list PluginReviewItem)
    : M (list PluginReviewItem) :=
  match versions with
  | [] => ret result
  | version :: rest =>
      plugin <- PluginsRepository.findById (PluginVersion.pluginId version) ;;
      reviewItems rest
        (result ++
         [ {| ri_id := PluginVersion.id version;
              ri_pluginId := PluginVersion.pluginId version;
              ri_packageId := or_default (Plugin.packageId <$> plugin) "unknown";
              ri_name := or_default (Plugin.name <$> plugin) "Unknown";
              ri_description := or_default (plugin ≫= Plugin.description) "";
              ri_version := PluginVersion.version version;
              ri_author := or_default (Plugin.author <$> plugin) "Unknown";
              ri_createdAt := PluginVersion.createdAt version;
              ri_status := PluginVersion.status version;
              ri_isFlagged := PluginVersion.isFlagged version;
              ri_flagReason := or_null (PluginVersion.flagReason version) |} ])
  end.

Definition getReviewQueue : M (list PluginReviewItem) :=
  versions <- PluginVersionsRepository.findVersionsInReviewQueue ;;
  reviewItems versions [].

End PluginReviewService.

(** ** storage/synx-package.service.ts *)

Record SynxPackage := {
  manifest : Manifest;
  jsCode : Buffer;
  iconData : option Buffer;
  iconName : option string;
  readme : option Buffer;
}.

Module SynxPackageService.

Fixpoint includes (s sub : string) : bool :=
  String.prefix sub s ||
  match s with
  | EmptyString => false
  | String _ s' => includes s' sub
  end.

Definition extractManifest (parse : Buffer → option Manifest) (buffer : Buffer)
    : Exception + Manifest :=
  match parse buffer with
  | None => inl (Error "manifest.json is not valid JSON")
  | Some manifest =>
      if negb (truthy (m_name manifest)) then
        inl (Error "manifest.json missing required field: 'name'")
      else if negb (truthy (m_version manifest)) then
        inl (Error "manifest.json missing required field: 'version'")
      else inr manifest
  end.

(** The loop over the entries; [found] holds [foundManifest] and
    [foundPluginJs]. *)
Fixpoint entries_loop (parse : Buffer → option Manifest) (entries : list ZipEntry)
    (result : SynxPackage) (found : bool * bool)
    : Exception + (SynxPackage * (bool * bool)) :=
  match entries with
  | [] => inr (result, found)
  | entry :: rest =>
      let name := entryName entry in
      if isDirectory entry then entries_loop parse rest result found
      else if includes name ".." || String.prefix "/" name then
        inl (Error ("Invalid file path in archive: " +:+ name))
      else if String.eqb name "manifest.json" then
        match extractManifest parse (getData entry) with
        | inl e => inl e
        | inr m =>
            entries_loop parse rest
              {| manifest := m; jsCode := jsCode result; iconData := iconData result;
                 iconName := iconName result; readme := readme result |}
              (true, found.2)
        end
      else if String.eqb name "plugin.js" then
        entries_loop parse rest
          {| manifest := manifest result; jsCode := getData entry;
             iconData := iconData result; iconName := iconName result;
             readme := readme result |}
          (found.1, true)
      else if String.eqb name "icon.png" || String.eqb name "icon.jpg"
              || String.eqb name "icon.jpeg" || String.eqb name "icon.svg" then
        entries_loop parse rest
          {| manifest := manifest result; jsCode := jsCode result;
             iconData := Some (getData entry); iconName := Some name;
             readme := readme result |}
          found
      else if String.eqb name "README.md" then
        entries_loop parse rest
          {| manifest := manifest result; jsCode := jsCode result;
             iconData := iconData result; iconName := iconName result;
             readme := Some (getData entry) |}
          found
      else entries_loop parse rest result found
  end.

Definition extractPackage (buffer : Buffer) : M SynxPackage :=
  e <- asks (λ e, e) ;;
  match AdmZip e buffer with
  | None => throw (Error "File must be a valid ZIP archive")
  | Some entries =>
      match entries_loop (JSON_parse e) entries
              {| manifest := {| m_name := None; m_version := None; m_description := None;
                                m_author := None; m_minAppVersion := None |};
                 jsCode := []; iconData := None; iconName := None; readme := None |}
              (false, false) with
      | inl err => throw err
      | inr (result, (foundManifest, foundPluginJs)) =>
          if negb foundManifest then
            throw (Error "Required file 'manifest.json' not found in .synx package")
          else if negb foundPluginJs then
            throw (Error "Required file 'plugin.js' not found in .synx package")
          else ret result
      end
  end.

End SynxPackageService.

(** ** developer/developer.service.ts *)

(** [Express.Multer.File] *)
Record MulterFile := {
  originalname : string;
  mimetype : string;
  buffer : Buffer;
}.

(** [PluginsService.submitPluginWithStorage] (plugins/plugins.service.ts).
    There is no cleanup here: what [uploadArtifact] staged stays when
    [submitPlugin] fails. *)
Definition submitPluginWithStorage (file : MulterFile) (packageId : string)
    (manifest : Manifest) (jsCode name description author minAppVersion : string)
    : M PluginDetailResponse :=
  let version := or_default (m_version manifest) "1.0.0" in
  plugin <- PluginsRepository.findByPackageId packageId ;;
  match plugin with
  | Some plugin =>
      existing <- PluginVersionsRepository.findByPluginIdAndVersion
                    (Plugin.id plugin) version ;;
      match existing with
      | Some _ => throw (VersionConflictException packageId version)
      | None => ret tt
      end
  | None => ret tt
  end ;;;
  uploadResult <- StorageService.uploadArtifact (buffer file) (mimetype file) packageId version ;;
  PluginsService.submitPlugin packageId name description author None None None None
    version manifest minAppVersion None
    (Some (ar_storagePath uploadResult))
    (Some (ar_bucket uploadResult))
    (Some (ar_tempPath uploadResult))
    (Some (ar_fileSizeBytes uploadResult))
    (Some (ar_checksumSha256 uploadResult)).

(** Container for tracking partial upload state during execution. *)
Record PartialUploadState := {
  ps_packageId : string;
  uploadedIconKey : option string;
  artifactUploadResult : option ArtifactUploadResult;
}.

Module DeveloperService.

(** The body of the [try] block runs on the world and on the [state]
    object it mutates, so that the [catch] block sees what was recorded
    before the failure. *)
Definition T (A : Type) : Type := St (PartialUploadState * World) A.

Definition lift {A} (m : M A) : T A :=
  λ sw, match m sw.2 with
        | (r, w') => (r, (sw.1, w'))
        end.

Definition set_uploadedIconKey (k : option string) : T unit :=
  modify (λ sw, ({| ps_packageId := ps_packageId sw.1; uploadedIconKey := k;
                    artifactUploadResult := artifactUploadResult sw.1 |}, sw.2)).

Definition set_artifactUploadResult (r : option ArtifactUploadResult) : T unit :=
  modify (λ sw, ({| ps_packageId := ps_packageId sw.1;
                    uploadedIconKey := uploadedIconKey sw.1;
                    artifactUploadResult := r |}, sw.2)).

Definition cleanupFailedUpload (state : PartialUploadState) : M unit :=
  (if truthy (uploadedIconKey state) then
     try_catch (StorageService.deleteArtifact (default "" (uploadedIconKey state)) "icons")
               (λ _, ret tt)
   else ret tt) ;;;
  (if truthy (ar_tempPath <$> artifactUploadResult state) then
     try_catch (StorageService.deleteArtifact
                  (default "" (ar_tempPath <$> artifactUploadResult state)) "temp_uploads")
               (λ _, ret tt)
   else ret tt).

Definition clearState : T unit :=
  set_uploadedIconKey None ;;; set_artifactUploadResult None.

(** The [try] block of [submitPluginSynx]. *)
Definition submitPluginSynx_try (file : MulterFile) (packageId : string)
    : T PluginDetailResponse :=
  pkg <- lift (SynxPackageService.extractPackage (buffer file)) ;;
  let manifest := manifest pkg in
  let version := or_default (m_version manifest) "1.0.0" in
  let name := or_default (m_name manifest) packageId in
  let description := or_default (m_description manifest) "" in
  let author := or_default (m_author manifest) "Unknown" in
  let minAppVersion := or_default (m_minAppVersion manifest) "1.0.0" in
  match iconData pkg with
  | Some data =>
      if truthy (iconName pkg) then
        iconHash <- lift (StorageService.calculateChecksum data) ;;
        iconKey <- lift (StorageService.uploadIcon data (default "" (iconName pkg)) iconHash) ;;
        set_uploadedIconKey (Some iconKey)
      else ret tt
  | None => ret tt
  end ;;;
  uploadResult <- lift (StorageService.uploadArtifact (buffer file) (mimetype file)
                          packageId version) ;;
  set_artifactUploadResult (Some uploadResult) ;;;
  sw <- get ;;
  response <- lift (PluginsService.submitPlugin packageId name description author
                (or_null (uploadedIconKey sw.1)) None None None
                version manifest minAppVersion None
                (Some (ar_storagePath uploadResult))
                (Some (ar_bucket uploadResult))
                (Some (ar_tempPath uploadResult))
                (Some (ar_fileSizeBytes uploadResult))
                (Some (ar_checksumSha256 uploadResult))) ;;
  clearState ;;;
  ret response.

Definition initialState (packageId : string) : PartialUploadState :=
  {| ps_packageId := packageId; uploadedIconKey := None; artifactUploadResult := None |}.

Definition submitPluginSynx (file : MulterFile) (packageId : string)
    : M PluginDetailResponse :=
  λ w, match submitPluginSynx_try file packageId (initialState packageId, w) with
       | (Returned response, (_, w')) => (Returned response, w')
       | (Thrown error, (state, w')) => (cleanupFailedUpload state ;;; throw error) w'
       end.

End DeveloperService.

(** ** SemVer: the utility class for semantic versions

    The components are integers; [localeCompare] is
    [String.prototype.localeCompare] in the locale of the host. *)

Module SemVer.

Record t := {
  major : Z;
  minor : Z;
  patch : Z;
  prerelease : option string;
  build : option string;
}.



Definition toString (this : t) : string :=
  let result :=
    String_of_number (major this) +:+ "." +:+ String_of_number (minor this)
    +:+ "." +:+ String_of_number (patch this) in
  let result :=
    if truthy (prerelease this) then result +:+ "-" +:+ default "" (prerelease this)
    else result in
  if truthy (build this) then result +:+ "+" +:+ default "" (build this)
  else result.

End SemVer.

(** ** health/database-health.service.ts *)

Module DatabaseHealthService.

(** [getStatus(key, isHealthy, data)]: [{ [key]: { status, ...data } }]. *)
Record HealthIndicatorResult := {
  hi_key : string;
  hi_up : bool;
  hi_error : option string;
}.

Inductive HealthCheckError :=
| MkHealthCheckError (message : string) (causes : HealthIndicatorResult).

Definition hc_message (e : HealthCheckError) : string :=
  match e with MkHealthCheckError message _ => message end.

Definition getStatus (key : string) (isHealthy : bool) (error : option string)
    : HealthIndicatorResult :=
  {| hi_key := key; hi_up := isHealthy; hi_error := error |}.

(** [from('plugins').select('id').limit(1).single()], then the [try] block
    and its [catch]: a [HealthCheckError] is the left result. *)
Definition isHealthy : M (HealthCheckError + HealthIndicatorResult) :=
  r <- db_read (λ w, single (take 1 (map_to_list (plugins_table w)))) ;;
  let tried :=
    match r with
    | inl message =>
        inl (MkHealthCheckError "Database connection failed"
               (getStatus "database" false (Some message)))
    | inr _ => inr (getStatus "database" true None)
    end in
  match tried with
  | inl error =>
      ret (inl (MkHealthCheckError "Database health check failed"
                  (getStatus "database" false (Some (hc_message error)))))
  | inr result => ret (inr result)
  end.

End DatabaseHealthService.

(** ** common/interceptors/global-exception.filter.ts *)

Module GlobalExceptionFilter.

Record Request := {
  method : string;
  url : string;
}.

Record ErrorResponse := {
  er_statusCode : Z;
  er_timestamp : Z;
  er_path : string;
  er_method : string;
  er_message : string;
}.

(** [exception.getStatus()] of the exceptions that extend [HttpException];
    a plain [Error] is not one. *)
Definition getStatus (exception : Exception) : option Z :=
  match exception with
  | ResourceNotFoundException _ _ _ => Some 404
  | InvalidVersionException _ => Some 404
  | VersionConflictException _ _ => Some 409
  | InvalidTransitionException _ => Some 400
  | Error _ => None
  end.

(** The response the filter sends.  [getResponse()] of these exceptions is
    their message text, so the response has no [details]. *)
Definition catch (exception : Exception) (request : Request) : M ErrorResponse :=
  let status := default 500 (getStatus exception) in
  let message :=
    match getStatus exception with
    | Some _ => message_of exception
    | None => "Internal server error"
    end in
  timestamp <- Date_now ;;
  ret {| er_statusCode := status;
         er_timestamp := timestamp;
         er_path := url request;
         er_method := method request;
         er_message := message |}.

End GlobalExceptionFilter.

(** ** Worlds to run the services on *)

Definition quiet (cfg : SupabaseConfig) : Env :=
  {| config := cfg;
     sha256_hex := λ _, "9f86d081884c7d659a2feaa0c55ad015a3bf4f1b2b0b822cd15d6c15b0f00a08";
     AdmZip := λ _, None;
     JSON_parse := λ _, None;
     clock := λ n, Z.of_nat n + 1700000000000;
     uuid := λ n, "uuid-" +:+ NilZero.string_of_uint (Nat.to_uint n);
     fault := λ _, None |}.

Definition version_row (plugin_id version min_app_version : string)
    (status : VersionStatus.t) (created_at : Z)
    (storage_path storage_bucket temp_storage_path : option string)
    : plugin_versions.row :=
  {| plugin_versions.plugin_id := plugin_id;
     plugin_versions.version := version;
     plugin_versions.storage_path := storage_path;
     plugin_versions.storage_bucket := storage_bucket;
     plugin_versions.temp_storage_path := temp_storage_path;
     plugin_versions.file_size_bytes := None;
     plugin_versions.checksum_sha256 := None;
     plugin_versions.manifest :=
       {| m_name := Some "Tic Tac Toe"; m_version := Some version;
          m_description := None; m_author := None;
          m_minAppVersion := Some min_app_version |};
     plugin_versions.min_app_version := min_app_version;
     plugin_versions.release_notes := None;
     plugin_versions.status := status;
     plugin_versions.rejection_reason := None;
     plugin_versions.reviewed_by := None;
     plugin_versions.created_at := created_at;
     plugin_versions.reviewed_at := None;
     plugin_versions.published_at := None;
     plugin_versions.download_count := 0;
     plugin_versions.is_flagged := false;
     plugin_versions.flag_reason := None |}.

Definition plugin_row (package_id : string) (status : PluginStatus.t)
    (latest_version_id : option string) : plugins.row :=
  {| plugins.package_id := package_id;
     plugins.name := "Tic Tac Toe";
     plugins.description := Some "Classic two-player game";
     plugins.author := "Synapse Team";
     plugins.icon_key := None;
     plugins.status := status;
     plugins.latest_version_id := latest_version_id;
     plugins.category := Some "games";
     plugins.tags := None;
     plugins.source_url := None;
     plugins.created_at := 1690000000000;
     plugins.updated_at := 1690000000000 |}.

Definition world (e : Env) (ps : list (string * plugins.row))
    (vs : list (string * plugin_versions.row))
    (os : list (string * string * Buffer)) : World :=
  {| env := e; tick := 0%nat;
     plugins_table := list_to_map ps;
     plugin_versions_table := list_to_map vs;
     objects := list_to_map os;
     calls := [] |}.

(** A published plugin whose only version needs app 1.10.0. *)
Definition w_needs_1_10 : World :=
  world (quiet (supabaseConfig "https://example.supabase.co"))
    [("p1", plugin_row "com.synapse.tictic" PluginStatus.PUBLISHED (Some "v1"))]
    [("v1", version_row "p1" "2.0.0" "1.10.0" VersionStatus.PUBLISHED 1700000000000
              (Some "com.synapse.tictic/v2.0.0/plugin.synx") (Some "plugins") None)]
    [("plugins", "com.synapse.tictic/v2.0.0/plugin.synx", [])].

(** A published plugin whose only version needs app 1.9.0. *)
Definition w_needs_1_9 : World :=
  world (quiet (supabaseConfig "https://example.supabase.co"))
    [("p1", plugin_row "com.synapse.tictic" PluginStatus.PUBLISHED (Some "v1"))]
    [("v1", version_row "p1" "2.0.0" "1.9.0" VersionStatus.PUBLISHED 1700000000000
              (Some "com.synapse.tictic/v2.0.0/plugin.synx") (Some "plugins") None)]
    [("plugins", "com.synapse.tictic/v2.0.0/plugin.synx", [])].

(** A published plugin with versions needing app 1.0.0, 1.2.0 and 2.0.0. *)
Definition w_three_floors : World :=
  world (quiet (supabaseConfig "https://example.supabase.co"))
    [("p1", plugin_row "com.synapse.tictic" PluginStatus.PUBLISHED (Some "v3"))]
    [("v1", version_row "p1" "1.0.0" "1.0.0" VersionStatus.PUBLISHED 1700000100000
              (Some "com.synapse.tictic/v1.0.0/plugin.synx") (Some "plugins") None);
     ("v2", version_row "p1" "1.1.0" "1.2.0" VersionStatus.PUBLISHED 1700000200000
              (Some "com.synapse.tictic/v1.1.0/plugin.synx") (Some "plugins") None);
     ("v3", version_row "p1" "2.0.0" "2.0.0" VersionStatus.PUBLISHED 1700000300000
              (Some "com.synapse.tictic/v2.0.0/plugin.synx") (Some "plugins") None)]
    [].

Definition outcome {A} (r : Outcome A * World) : Outcome A := r.1.
Definition final {A} (r : Outcome A * World) : World := r.2.


(** * Predicates on runs, and the worlds of the examples *)

(** [raises P m]: whatever [m] throws satisfies [P]. *)
Definition raises {Σ A} (P : Exception → Prop) (m : St Σ A) : Prop :=
  ∀ w e, (m w).1 = Thrown e → P e.

Definition is_Error (e : Exception) : Prop :=
  match e with
  | Error _ => True
  | _ => False
  end.

(** [keeps f m]: the run of [m] does not change the part [f] of the world. *)
Definition keeps {X A} (f : World → X) (m : M A) : Prop :=
  ∀ w, f (m w).2 = f w.

(** The rows and objects of a world: what a request can mutate. *)
Definition data (w : World)
    : gmap string plugins.row * gmap string plugin_versions.row
      * gmap (string * string) Buffer * list StorageCall :=
  (plugins_table w, plugin_versions_table w, objects w, calls w).

(** The two tables. *)
Definition tables (w : World)
    : gmap string plugins.row * gmap string plugin_versions.row :=
  (plugins_table w, plugin_versions_table w).

(** The three statuses from which no review decision is accepted. *)
Definition terminal (s : VersionStatus.t) : Prop :=
  s = VersionStatus.PUBLISHED ∨ s = VersionStatus.REJECTED ∨ s = VersionStatus.FLAGGED.

Definition safety_check_failed : string :=
  "Automated safety check failed. Please review the code for security issues.".

(** [returns Q m]: whatever [m] returns satisfies [Q]. *)
Definition returns {Σ A} (Q : A → Prop) (m : St Σ A) : Prop :=
  ∀ w a w', m w = (Returned a, w') → Q a.

(** The columns the move writes once the artifact is in the permanent
    bucket. *)
Definition moved (storagePath : string) : PluginVersionUpdates :=
  {| uv_status := None;
     uv_storagePath := Some (Some storagePath);
     uv_storageBucket := Some (Some "plugins");
     uv_tempStoragePath := Some None;
     uv_rejectionReason := None; uv_reviewedBy := None;
     uv_reviewedAt := None; uv_publishedAt := None;
     uv_downloadCount := None; uv_isFlagged := None;
     uv_flagReason := None |}.

(** The rows [findPublishedVersions] selects. *)
Definition published_of (pluginId : string) (v : string * plugin_versions.row) : bool :=
  String.eqb (plugin_versions.plugin_id v.2) pluginId
  && bool_decide (plugin_versions.status v.2 = VersionStatus.PUBLISHED).

(** The other PUBLISHED versions of a plugin. *)
Definition other_published (w : World) (pluginId versionId id : string)
    (r : plugin_versions.row) : Prop :=
  plugin_versions_table w !! id = Some r
  ∧ id ≠ versionId
  ∧ plugin_versions.plugin_id r = pluginId
  ∧ plugin_versions.status r = VersionStatus.PUBLISHED.

(** The requests the cleanup makes, given whether each was acknowledged. *)
Definition cleanup_calls (state : PartialUploadState) (icon_removed temp_removed : bool)
    : list StorageCall :=
  (if truthy (uploadedIconKey state)
   then [Remove "icons" (default "" (uploadedIconKey state)) icon_removed] else [])
  ++ (if truthy (ar_tempPath <$> artifactUploadResult state)
      then [Remove "temp_uploads"
              (default "" (ar_tempPath <$> artifactUploadResult state)) temp_removed]
      else []).

(** The objects left by the cleanup. *)
Definition cleanup_objects (state : PartialUploadState) (icon_removed temp_removed : bool)
    (o : gmap (string * string) Buffer) : gmap (string * string) Buffer :=
  (if truthy (ar_tempPath <$> artifactUploadResult state) && temp_removed
   then delete ("temp_uploads", default "" (ar_tempPath <$> artifactUploadResult state))
   else id)
    ((if truthy (uploadedIconKey state) && icon_removed
      then delete ("icons", default "" (uploadedIconKey state)) else id) o).

(** Whether the store acknowledges the request made at interaction [n]. *)
Definition acknowledged (w : World) (n : nat) : bool :=
  match fault (env w) n with
  | None => true
  | Some _ => false
  end.

(** A plugin in review with one version, in the given status. *)
Definition w_one_version (s : VersionStatus.t) (latest temp : option string) : World :=
  world (quiet (supabaseConfig "https://example.supabase.co"))
    [("p1", plugin_row "com.synapse.tictic" PluginStatus.PENDING_REVIEW latest)]
    [("v1", version_row "p1" "1.0.0" "1.0.0" s 1700000000000 None None temp)]
    [].

Definition reject_by_admin : ReviewDecisionRequestDto :=
  {| rd_decision := ReviewDecision.REJECT;
     rd_rejectionReason := Some "policy";
     rd_reviewedBy := "admin" |}.

Definition publish_by_admin : ReviewDecisionRequestDto :=
  {| rd_decision := ReviewDecision.PUBLISH;
     rd_rejectionReason := None;
     rd_reviewedBy := "admin" |}.

Definition pending (s : VersionStatus.t) : Prop :=
  s = VersionStatus.SUBMITTED ∨ s = VersionStatus.PENDING_REVIEW.

(** A version in review whose artifact is staged in the temp bucket. *)
Definition w_staged : World :=
  world (quiet (supabaseConfig "https://example.supabase.co"))
    [("p1", plugin_row "com.synapse.tictic" PluginStatus.PENDING_REVIEW None)]
    [("v1", version_row "p1" "1.0.0" "1.0.0" VersionStatus.SUBMITTED 1700000000000
              (Some "com.synapse.tictic/v1.0.0/plugin.synx") (Some "temp_uploads")
              (Some "temp_1700000000000/com.synapse.tictic/v1.0.0/plugin.synx"))]
    [("temp_uploads", "temp_1700000000000/com.synapse.tictic/v1.0.0/plugin.synx", [])].

(** A plugin whose latest version v1 is in review, with two older
    published versions.  The services name a version as latest only once
    it is PUBLISHED; rows like these are written in SQL, as the note at
    the end of the schema script describes for its sample plugin (insert a
    version, then update the plugin's latest_version_id). *)
Definition w_three_versions : World :=
  world (quiet (supabaseConfig "https://example.supabase.co"))
    [("p1", plugin_row "com.synapse.tictic" PluginStatus.PUBLISHED (Some "v1"))]
    [("v1", version_row "p1" "3.0.0" "1.0.0" VersionStatus.PENDING_REVIEW 1700000300000
              None None None);
     ("v2", version_row "p1" "1.0.0" "1.0.0" VersionStatus.PUBLISHED 1700000100000
              None None None);
     ("v3", version_row "p1" "2.0.0" "1.0.0" VersionStatus.PUBLISHED 1700000200000
              None None None)]
    [].

(** A package with a manifest, the code and an icon, as AdmZip and
    JSON.parse present it. *)
Definition tictic_manifest : Manifest :=
  {| m_name := Some "Tic Tac Toe";
     m_version := Some "1.0.0";
     m_description := Some "Classic two-player game";
     m_author := Some "Synapse Team";
     m_minAppVersion := Some "1.0.0" |}.

Definition tictic_entries : list ZipEntry :=
  [ {| entryName := "manifest.json"; isDirectory := false; getData := [] |};
    {| entryName := "plugin.js"; isDirectory := false; getData := [] |};
    {| entryName := "icon.png"; isDirectory := false; getData := [] |} ].

Definition developer_env : Env :=
  let e := quiet (supabaseConfig "https://example.supabase.co") in
  {| config := config e;
     sha256_hex := sha256_hex e;
     AdmZip := λ _, Some tictic_entries;
     JSON_parse := λ _, Some tictic_manifest;
     clock := clock e;
     uuid := uuid e;
     fault := fault e |}.

Definition tictic_synx : MulterFile :=
  {| originalname := "tictic.synx"; mimetype := "application/zip"; buffer := [] |}.

(** The store before the first submission of the package. *)
Definition w_empty : World := world developer_env [] [] [].

(** What the first submission of the package answers. *)
Definition first_submission_response : PluginDetailResponse :=
  {| r_id := "uuid-5";
     r_packageId := "com.synapse.tictic";
     r_name := "Tic Tac Toe";
     r_description := Some "Classic two-player game";
     r_author := "Synapse Team";
     r_iconKey :=
       Some "9f86d081884c7d659a2feaa0c55ad015a3bf4f1b2b0b822cd15d6c15b0f00a08.png";
     r_status := PluginStatus.PENDING_REVIEW;
     r_category := None;
     r_tags := None;
     r_sourceUrl := None;
     r_pluginCreatedAt := 1700000000006;
     r_versionId := "uuid-9";
     r_version := "1.0.0";
     r_manifest := tictic_manifest;
     r_minAppVersion := "1.0.0";
     r_releaseNotes := None;
     r_versionCreatedAt := 1700000000010;
     r_downloadCount := 0;
     r_downloadUrl := None;
     r_expiresAt := None;
     r_fileSizeBytes := None;
     r_checksumSha256 :=
       Some "9f86d081884c7d659a2feaa0c55ad015a3bf4f1b2b0b822cd15d6c15b0f00a08";
     r_storageBucket := Some "temp_uploads";
     r_storagePath := Some "com.synapse.tictic/v1.0.0/plugin.synx" |}.

(** The store when version 1.0.0 of the package is already there. *)
Definition w_has_1_0_0 : World :=
  world developer_env
    [("p1", plugin_row "com.synapse.tictic" PluginStatus.PENDING_REVIEW None)]
    [("v1", version_row "p1" "1.0.0" "1.0.0" VersionStatus.SUBMITTED 1700000000000
              None None None)]
    [].

(** What a run returned, if it returned. *)
Definition returned {A} (r : Outcome A * World) : option A :=
  match r.1 with
  | Returned a => Some a
  | Thrown _ => None
  end.

(** * Further predicates and worlds *)

(** A file entry whose name cannot leave the extraction directory. *)
Definition safe_entry (e : ZipEntry) : Prop :=
  isDirectory e = false →
  (∀ a b, entryName e ≠ a +:+ ".." +:+ b) ∧ (∀ b, entryName e ≠ "/" +:+ b).

(** The constraints of the schema: [UNIQUE (package_id)],
    [UNIQUE (plugin_id, version)] and the foreign key of [plugin_versions]. *)
Definition package_ids_unique (w : World) : Prop :=
  ∀ id1 id2 r1 r2,
    plugins_table w !! id1 = Some r1 → plugins_table w !! id2 = Some r2 →
    plugins.package_id r1 = plugins.package_id r2 → id1 = id2.

Definition versions_unique (w : World) : Prop :=
  ∀ id1 id2 r1 r2,
    plugin_versions_table w !! id1 = Some r1 → plugin_versions_table w !! id2 = Some r2 →
    plugin_versions.plugin_id r1 = plugin_versions.plugin_id r2 →
    plugin_versions.version r1 = plugin_versions.version r2 → id1 = id2.

Definition versions_reference_plugins (w : World) : Prop :=
  ∀ id r,
    plugin_versions_table w !! id = Some r →
    is_Some (plugins_table w !! plugin_versions.plugin_id r).

(** What the services maintain: a plugin's [latest_version_id], when set,
    names a PUBLISHED version of that plugin. *)
Definition latest_is_published (w : World) : Prop :=
  ∀ id p v,
    plugins_table w !! id = Some p → plugins.latest_version_id p = Some v →
    ∃ r, plugin_versions_table w !! v = Some r
         ∧ plugin_versions.plugin_id r = id
         ∧ plugin_versions.status r = VersionStatus.PUBLISHED.

Definition consistent (w : World) : Prop :=
  package_ids_unique w ∧ versions_unique w ∧ versions_reference_plugins w
  ∧ latest_is_published w.

#[global] Instance package_ids_unique_dec w : Decision (package_ids_unique w).
Proof.
  refine (cast_if (decide (map_Forall (λ id1 r1, map_Forall (λ id2 r2,
            plugins.package_id r1 = plugins.package_id r2 → id1 = id2)
            (plugins_table w)) (plugins_table w))));
    unfold package_ids_unique, map_Forall in *; eauto.
Defined.

#[global] Instance versions_unique_dec w : Decision (versions_unique w).
Proof.
  refine (cast_if (decide (map_Forall (λ id1 r1, map_Forall (λ id2 r2,
            plugin_versions.plugin_id r1 = plugin_versions.plugin_id r2 →
            plugin_versions.version r1 = plugin_versions.version r2 → id1 = id2)
            (plugin_versions_table w)) (plugin_versions_table w))));
    unfold versions_unique, map_Forall in *; eauto.
Defined.

#[global] Instance versions_reference_plugins_dec w :
  Decision (versions_reference_plugins w).
Proof.
  refine (cast_if (decide (map_Forall (λ _ r,
            is_Some (plugins_table w !! plugin_versions.plugin_id r))
            (plugin_versions_table w))));
    unfold versions_reference_plugins, map_Forall in *; eauto.
Defined.

#[global] Instance latest_is_published_dec w : Decision (latest_is_published w).
Proof.
  refine (cast_if (decide (map_Forall (λ id p,
            match plugins.latest_version_id p with
            | Some v =>
                match plugin_versions_table w !! v with
                | Some r =>
                    bool_decide (plugin_versions.plugin_id r = id
                                 ∧ plugin_versions.status r = VersionStatus.PUBLISHED)
                | None => false
                end
            | None => true
            end = true) (plugins_table w))));
    unfold latest_is_published, map_Forall in *.
  - intros id p v Hp Hv. specialize (m id p Hp). rewrite Hv in m.
    destruct (plugin_versions_table w !! v) as [r|]; [| done].
    apply bool_decide_eq_true in m. eauto.
  - intros H. apply n. intros id p Hp.
    destruct (plugins.latest_version_id p) as [v|] eqn:Hv; [| done].
    destruct (H id p v Hp Hv) as (r & -> & Hr). by apply bool_decide_eq_true.
Defined.

#[global] Instance consistent_dec w : Decision (consistent w).
Proof. unfold consistent. apply _. Defined.

(** [hoare P m Q E]: from a state in [P], [m] returns [a] in a state in
    [Q a], or throws in a state in [E]. *)
Definition hoare {Σ A} (P : Σ → Prop) (m : St Σ A) (Q : A → Σ → Prop) (E : Σ → Prop)
    : Prop :=
  ∀ w, P w → match m w with
             | (Returned a, w') => Q a w'
             | (Thrown _, w') => E w'
             end.

(** What a later submission of version 3.0.0 to the published plugin of
    [w_three_floors] answers. *)
Definition resubmission_response : PluginDetailResponse :=
  {| r_id := "p1";
     r_packageId := "com.synapse.tictic";
     r_name := "Tic Tac Toe";
     r_description := Some "Classic two-player game";
     r_author := "Synapse Team";
     r_iconKey := None;
     r_status := PluginStatus.PUBLISHED;
     r_category := Some "games";
     r_tags := None;
     r_sourceUrl := None;
     r_pluginCreatedAt := 1690000000000;
     r_versionId := "uuid-2";
     r_version := "3.0.0";
     r_manifest := tictic_manifest;
     r_minAppVersion := "1.0.0";
     r_releaseNotes := None;
     r_versionCreatedAt := 1700000000003;
     r_downloadCount := 0;
     r_downloadUrl := None;
     r_expiresAt := None;
     r_fileSizeBytes := None;
     r_checksumSha256 := None;
     r_storageBucket := None;
     r_storagePath := None |}.

(** A row the [WHERE] clause of [find_latest_compatible_version] lets
    through. *)
Definition compatible_candidate (pluginId appVersion : string) (w : World)
    (id : string) (r : plugin_versions.row) : Prop :=
  plugin_versions_table w !! id = Some r
  ∧ plugin_versions.plugin_id r = pluginId
  ∧ plugin_versions.status r = VersionStatus.PUBLISHED
  ∧ text_le (plugin_versions.min_app_version r) appVersion = true.

(** The row after [increment_download_count]. *)
Definition count_download (r : plugin_versions.row) : plugin_versions.row :=
  {| plugin_versions.plugin_id := plugin_versions.plugin_id r;
     plugin_versions.version := plugin_versions.version r;
     plugin_versions.storage_path := plugin_versions.storage_path r;
     plugin_versions.storage_bucket := plugin_versions.storage_bucket r;
     plugin_versions.temp_storage_path := plugin_versions.temp_storage_path r;
     plugin_versions.file_size_bytes := plugin_versions.file_size_bytes r;
     plugin_versions.checksum_sha256 := plugin_versions.checksum_sha256 r;
     plugin_versions.manifest := plugin_versions.manifest r;
     plugin_versions.min_app_version := plugin_versions.min_app_version r;
     plugin_versions.release_notes := plugin_versions.release_notes r;
     plugin_versions.status := plugin_versions.status r;
     plugin_versions.rejection_reason := plugin_versions.rejection_reason r;
     plugin_versions.reviewed_by := plugin_versions.reviewed_by r;
     plugin_versions.created_at := plugin_versions.created_at r;
     plugin_versions.reviewed_at := plugin_versions.reviewed_at r;
     plugin_versions.published_at := plugin_versions.published_at r;
     plugin_versions.download_count := plugin_versions.download_count r + 1;
     plugin_versions.is_flagged := plugin_versions.is_flagged r;
     plugin_versions.flag_reason := plugin_versions.flag_reason r |}.

(** What the store answers an app at 1.5.0 that asks for the plugin of
    [w_three_floors]. *)
Definition served_response : PluginDetailResponse :=
  {| r_id := "p1";
     r_packageId := "com.synapse.tictic";
     r_name := "Tic Tac Toe";
     r_description := Some "Classic two-player game";
     r_author := "Synapse Team";
     r_iconKey := None;
     r_status := PluginStatus.PUBLISHED;
     r_category := Some "games";
     r_tags := None;
     r_sourceUrl := None;
     r_pluginCreatedAt := 1690000000000;
     r_versionId := "v2";
     r_version := "1.1.0";
     r_manifest :=
       {| m_name := Some "Tic Tac Toe"; m_version := Some "1.1.0";
          m_description := None; m_author := None;
          m_minAppVersion := Some "1.2.0" |};
     r_minAppVersion := "1.2.0";
     r_releaseNotes := None;
     r_versionCreatedAt := 1700000200000;
     r_downloadCount := 0;
     r_downloadUrl := None;
     r_expiresAt := None;
     r_fileSizeBytes := None;
     r_checksumSha256 := None;
     r_storageBucket := Some "plugins";
     r_storagePath := Some "com.synapse.tictic/v1.1.0/plugin.synx" |}.

(** A version row with other flag columns. *)
Definition set_flag (is_flagged : bool) (flag_reason : option string)
    (r : plugin_versions.row) : plugin_versions.row :=
  {| plugin_versions.plugin_id := plugin_versions.plugin_id r;
     plugin_versions.version := plugin_versions.version r;
     plugin_versions.storage_path := plugin_versions.storage_path r;
     plugin_versions.storage_bucket := plugin_versions.storage_bucket r;
     plugin_versions.temp_storage_path := plugin_versions.temp_storage_path r;
     plugin_versions.file_size_bytes := plugin_versions.file_size_bytes r;
     plugin_versions.checksum_sha256 := plugin_versions.checksum_sha256 r;
     plugin_versions.manifest := plugin_versions.manifest r;
     plugin_versions.min_app_version := plugin_versions.min_app_version r;
     plugin_versions.release_notes := plugin_versions.release_notes r;
     plugin_versions.status := plugin_versions.status r;
     plugin_versions.rejection_reason := plugin_versions.rejection_reason r;
     plugin_versions.reviewed_by := plugin_versions.reviewed_by r;
     plugin_versions.created_at := plugin_versions.created_at r;
     plugin_versions.reviewed_at := plugin_versions.reviewed_at r;
     plugin_versions.published_at := plugin_versions.published_at r;
     plugin_versions.download_count := plugin_versions.download_count r;
     plugin_versions.is_flagged := is_flagged;
     plugin_versions.flag_reason := flag_reason |}.

(** The status a review decision gives the version. *)
Definition decided (d : ReviewDecision.t) : VersionStatus.t :=
  match d with
  | ReviewDecision.PUBLISH => VersionStatus.PUBLISHED
  | ReviewDecision.REJECT => VersionStatus.REJECTED
  end.

(** An item of the review queue shows a version: the columns copied from
    the version. *)
Definition shows (item : PluginReviewItem) (v : PluginVersion.t) : Prop :=
  ri_id item = PluginVersion.id v
  ∧ ri_pluginId item = PluginVersion.pluginId v
  ∧ ri_version item = PluginVersion.version v
  ∧ ri_createdAt item = PluginVersion.createdAt v
  ∧ ri_status item = PluginVersion.status v
  ∧ ri_isFlagged item = PluginVersion.isFlagged v.



(** The version [vid] is there, belongs to plugin [pid] and has status
    [s]. *)
Definition has_version (vid pid : string) (s : VersionStatus.t) (w : World) : Prop :=
  ∃ r, plugin_versions_table w !! vid = Some r
       ∧ plugin_versions.plugin_id r = pid
       ∧ plugin_versions.status r = s.

(** What the store answers a request for the plugin of [w_three_floors]
    that names no app version. *)
Definition latest_response : PluginDetailResponse :=
  {| r_id := "p1";
     r_packageId := "com.synapse.tictic";
     r_name := "Tic Tac Toe";
     r_description := Some "Classic two-player game";
     r_author := "Synapse Team";
     r_iconKey := None;
     r_status := PluginStatus.PUBLISHED;
     r_category := Some "games";
     r_tags := None;
     r_sourceUrl := None;
     r_pluginCreatedAt := 1690000000000;
     r_versionId := "v3";
     r_version := "2.0.0";
     r_manifest :=
       {| m_name := Some "Tic Tac Toe"; m_version := Some "2.0.0";
          m_description := None; m_author := None;
          m_minAppVersion := Some "2.0.0" |};
     r_minAppVersion := "2.0.0";
     r_releaseNotes := None;
     r_versionCreatedAt := 1700000300000;
     r_downloadCount := 0;
     r_downloadUrl := None;
     r_expiresAt := None;
     r_fileSizeBytes := None;
     r_checksumSha256 := None;
     r_storageBucket := Some "plugins";
     r_storagePath := Some "com.synapse.tictic/v2.0.0/plugin.synx" |}.



(** The store of [w_three_floors] behind a connection that drops the
    fifth request. *)
Definition w_update_refused : World :=
  let e := quiet (supabaseConfig "https://example.supabase.co") in
  world {| config := config e;
           sha256_hex := sha256_hex e;
           AdmZip := AdmZip e;
           JSON_parse := JSON_parse e;
           clock := clock e;
           uuid := uuid e;
           fault := λ n, if Nat.eqb n 4 then Some "connection reset" else None |}
    [("p1", plugin_row "com.synapse.tictic" PluginStatus.PUBLISHED (Some "v3"))]
    [("v1", version_row "p1" "1.0.0" "1.0.0" VersionStatus.PUBLISHED 1700000100000
              (Some "com.synapse.tictic/v1.0.0/plugin.synx") (Some "plugins") None);
     ("v2", version_row "p1" "1.1.0" "1.2.0" VersionStatus.PUBLISHED 1700000200000
              (Some "com.synapse.tictic/v1.1.0/plugin.synx") (Some "plugins") None);
     ("v3", version_row "p1" "2.0.0" "2.0.0" VersionStatus.PUBLISHED 1700000300000
              (Some "com.synapse.tictic/v2.0.0/plugin.synx") (Some "plugins") None)]
    [].

(** The world [w] behind a connection that drops the request made at
    interaction [n]. *)
Definition drop_request (n : nat) (w : World) : World :=
  {| env := {| config := config (env w);
               sha256_hex := sha256_hex (env w);
               AdmZip := AdmZip (env w);
               JSON_parse := JSON_parse (env w);
               clock := clock (env w);
               uuid := uuid (env w);
               fault := λ k, if Nat.eqb k n then Some "connection reset"
                             else fault (env w) k |};
     tick := tick w;
     plugins_table := plugins_table w;
     plugin_versions_table := plugin_versions_table w;
     objects := objects w;
     calls := calls w |}.

(** The interaction at which a REJECT decision on the version [vrow] asks
    for the published versions of its plugin: after the two reads, the
    removal of the staged artifact when there is one, the clock and the
    update of the version. *)
Definition published_lookup (w : World) (vrow : plugin_versions.row) : nat :=
  (tick w + (if truthy (plugin_versions.temp_storage_path vrow) then 5 else 4))%nat.

(** The configuration of storage.service.spec.ts, with the bucket names of
    the schema script: STORAGE_TEMP_UPLOADS_BUCKET=temp-uploads. *)
Definition hyphenated (SUPABASE_URL : string) : SupabaseConfig :=
  {| projectUrl := SUPABASE_URL;
     signedUrlTtlSeconds := 3600;
     pluginsBucket := "plugins";
     iconsBucket := "icons";
     tempUploadsBucket := "temp-uploads" |}.

(** The store of [w_has_1_0_0] under that configuration. *)
Definition w_hyphenated : World :=
  world {| config := hyphenated "https://example.supabase.co";
           sha256_hex := sha256_hex developer_env;
           AdmZip := AdmZip developer_env;
           JSON_parse := JSON_parse developer_env;
           clock := clock developer_env;
           uuid := uuid developer_env;
           fault := fault developer_env |}
    [("p1", plugin_row "com.synapse.tictic" PluginStatus.PENDING_REVIEW None)]
    [("v1", version_row "p1" "1.0.0" "1.0.0" VersionStatus.SUBMITTED 1700000000000
              None None None)]
    [].

(** * Reasoning about runs *)

(** ** What a computation throws *)

Section raises.
Context {Σ : Type} (P : Exception → Prop).

Lemma raises_ret {A} (a : A) : raises P (ret (Σ:=Σ) a).
Proof. intros w e; discriminate. Qed.

Lemma raises_throw {A} e : P e → raises P (throw (Σ:=Σ) (A:=A) e).
Proof. intros HP w e' [= <-]; exact HP. Qed.

Lemma raises_bind {A B} (m : St Σ A) (k : A → St Σ B) :
  raises P m → (∀ a, raises P (k a)) → raises P (bind m k).
Proof.
  intros Hm Hk w e. unfold bind.
  specialize (Hm w). destruct (m w) as [[a|e'] w']; simpl in *.
  - apply Hk.
  - intros [= <-]. by apply Hm.
Qed.

Lemma raises_try_catch {A} (m : St Σ A) h :
  (∀ e, raises P (h e)) → raises P (try_catch m h).
Proof.
  intros Hh w e. unfold try_catch.
  destruct (m w) as [[a|e'] w']; simpl; [discriminate | apply Hh].
Qed.

Lemma raises_get : raises P (get (Σ:=Σ)).
Proof. intros w e; discriminate. Qed.

Lemma raises_modify f : raises P (modify (Σ:=Σ) f).
Proof. intros w e; discriminate. Qed.

End raises.

Lemma raises_interact {A} P (f : Env → nat → A) : raises P (interact f).
Proof. intros w e; discriminate. Qed.

Lemma raises_asks {A} P (f : Env → A) : raises P (asks f).
Proof. intros w e; discriminate. Qed.

(** Decompose a computation along its binds, conditionals and matches. *)
Ltac raises_step :=
  first
    [ apply raises_ret | apply raises_get | apply raises_modify
    | apply raises_interact | apply raises_asks
    | apply raises_throw; simpl; solve [auto | exact I]
    | apply raises_bind; [| intros ?]
    | apply raises_try_catch; intros ?
    | match goal with
      | |- raises _ (if ?b then _ else _) => destruct b
      | |- raises _ (match ?x with _ => _ end) => destruct x
      end ].
Ltac raises_auto := repeat raises_step.

Lemma raises_supabase_error P : raises P supabase_error.
Proof. apply raises_interact. Qed.

Lemma raises_update_version_row P id f : raises P (update_version_row id f).
Proof. unfold update_version_row, supabase_error. raises_auto. Qed.

Lemma raises_update_plugin_row P id f : raises P (update_plugin_row id f).
Proof. unfold update_plugin_row, supabase_error. raises_auto. Qed.

Lemma raises_db_read {R} P (q : World → string + R) : raises P (db_read q).
Proof. unfold db_read, supabase_error. raises_auto. Qed.

Lemma versions_update_raises id u :
  raises is_Error (PluginVersionsRepository.update id u).
Proof.
  unfold PluginVersionsRepository.update.
  apply raises_bind; [apply raises_update_version_row | intros ?]. raises_auto.
Qed.

Lemma plugins_update_raises id u : raises is_Error (PluginsRepository.update id u).
Proof.
  unfold PluginsRepository.update, Date_now.
  apply raises_bind; [apply raises_interact | intros ?].
  apply raises_bind; [apply raises_update_plugin_row | intros ?]. raises_auto.
Qed.

Lemma findPublishedVersions_raises P id :
  raises P (PluginVersionsRepository.findPublishedVersions id).
Proof.
  unfold PluginVersionsRepository.findPublishedVersions.
  apply raises_bind; [apply raises_db_read | intros ?]. raises_auto.
Qed.

Lemma handlePublishDecision_raises version plugin reviewedBy :
  raises is_Error (PluginReviewService.handlePublishDecision version plugin reviewedBy).
Proof.
  unfold PluginReviewService.handlePublishDecision, Date_now.
  apply raises_bind; [| intros ?].
  { destruct (truthy _); raises_auto. }
  apply raises_bind; [apply raises_interact | intros ?].
  apply raises_bind; [apply raises_interact | intros ?].
  apply raises_bind; [apply versions_update_raises | intros ?].
  apply raises_bind; [apply plugins_update_raises | intros ?].
  raises_auto.
Qed.

Lemma handleRejectDecision_raises version plugin decision :
  raises is_Error (PluginReviewService.handleRejectDecision version plugin decision).
Proof.
  unfold PluginReviewService.handleRejectDecision, Date_now.
  apply raises_bind; [| intros ?].
  { destruct (truthy _); raises_auto. }
  apply raises_bind; [apply raises_interact | intros ?].
  apply raises_bind; [apply versions_update_raises | intros ?].
  case_bool_decide; [| raises_auto].
  apply raises_bind; [apply findPublishedVersions_raises | intros [|first rest]].
  - apply raises_bind; [apply plugins_update_raises | intros ?]. raises_auto.
  - apply raises_bind; [apply plugins_update_raises | intros ?]. raises_auto.
Qed.

(** ** Running binds *)

Lemma bind_returned {Σ A B} (m : St Σ A) (k : A → St Σ B) w a w' :
  m w = (Returned a, w') → bind m k w = k a w'.
Proof. intros H. unfold bind. by rewrite H. Qed.

Lemma bind_thrown {Σ A B} (m : St Σ A) (k : A → St Σ B) w e w' :
  m w = (Thrown e, w') → bind m k w = (Thrown e, w').
Proof. intros H. unfold bind. by rewrite H. Qed.

(** Rewrite the run of the outermost bind with the run of its first
    computation, which [tac] proves. *)
Ltac run_bind tac :=
  cbv beta iota;
  match goal with
  | |- context [@bind ?S ?A ?B ?m ?k ?w] =>
      erewrite (@bind_returned S A B m k w); [| tac]
  end.

(** Side conditions of a run: the oracle is quiet, the row is there. *)
Ltac side := simpl; solve [done | eauto].

Lemma bind_inv_returned {Σ A B} (m : St Σ A) (k : A → St Σ B) w b w' :
  bind m k w = (Returned b, w') →
  ∃ a w1, m w = (Returned a, w1) ∧ k a w1 = (Returned b, w').
Proof.
  unfold bind. destruct (m w) as [[a|e] w1]; [eauto | discriminate].
Qed.

Lemma try_catch_inv_returned {Σ A} (m : St Σ A) h w a w' :
  try_catch m h w = (Returned a, w') →
  m w = (Returned a, w') ∨ ∃ e w1, m w = (Thrown e, w1) ∧ h e w1 = (Returned a, w').
Proof.
  unfold try_catch. destruct (m w) as [[a'|e] w1]; [left; congruence | right; eauto].
Qed.

(** ** What a computation leaves alone *)

Section keeps.
Context {X : Type} (f : World → X).

Lemma keeps_ret {A} (a : A) : keeps f (ret a).
Proof. by intros w. Qed.

Lemma keeps_throw {A} e : keeps f (throw (A:=A) e).
Proof. by intros w. Qed.

Lemma keeps_get : keeps f get.
Proof. by intros w. Qed.

Lemma keeps_asks {A} (g : Env → A) : keeps f (asks g).
Proof. by intros w. Qed.

Lemma keeps_modify g : (∀ w, f (g w) = f w) → keeps f (modify g).
Proof. intros H w. apply H. Qed.

Lemma keeps_bind {A B} (m : M A) (k : A → M B) :
  keeps f m → (∀ a, keeps f (k a)) → keeps f (bind m k).
Proof.
  intros Hm Hk w. unfold bind. specialize (Hm w).
  destruct (m w) as [[a|e] w']; simpl in *; [| done].
  by rewrite Hk.
Qed.

Lemma keeps_try_catch {A} (m : M A) h :
  keeps f m → (∀ e, keeps f (h e)) → keeps f (try_catch m h).
Proof.
  intros Hm Hh w. unfold try_catch. specialize (Hm w).
  destruct (m w) as [[a|e] w']; simpl in *; [done |].
  by rewrite Hh.
Qed.

Lemma keeps_interact {A} (g : Env → nat → A) :
  (∀ n w, f (set_tick n w) = f w) → keeps f (interact g).
Proof. intros H w. apply H. Qed.

End keeps.

Ltac keeps_step :=
  first
    [ apply keeps_ret | apply keeps_throw | apply keeps_get | apply keeps_asks
    | apply keeps_interact; solve [reflexivity | intros; reflexivity]
    | apply keeps_modify; solve [reflexivity | intros; reflexivity]
    | apply keeps_bind; [| intros ?]
    | apply keeps_try_catch; [| intros ?]
    | match goal with
      | |- keeps _ (if ?b then _ else _) => destruct b
      | |- keeps _ (match ?x with _ => _ end) => destruct x
      | |- keeps _ (let '(_, _) := ?x in _) => destruct x
      end ].
Ltac keeps_auto := repeat keeps_step.

Lemma keeps_db_read {X R} (f : World → X) (q : World → string + R) :
  (∀ n w, f (set_tick n w) = f w) → keeps f (db_read q).
Proof.
  intros H. unfold db_read, supabase_error.
  apply keeps_bind; [by apply keeps_interact | intros ?]. keeps_auto.
Qed.

Lemma versions_findById_keeps id : keeps data (PluginVersionsRepository.findById id).
Proof.
  unfold PluginVersionsRepository.findById.
  apply keeps_bind; [by apply keeps_db_read | intros ?]. keeps_auto.
Qed.

Lemma plugins_findById_keeps id : keeps data (PluginsRepository.findById id).
Proof.
  unfold PluginsRepository.findById.
  apply keeps_bind; [by apply keeps_db_read | intros ?]. keeps_auto.
Qed.

Lemma getVersionForReview_keeps id :
  keeps data (PluginReviewService.getVersionForReview id).
Proof.
  unfold PluginReviewService.getVersionForReview.
  apply keeps_bind; [apply versions_findById_keeps | intros ?]. keeps_auto.
Qed.

(** ** Runs of the repository requests *)

Lemma db_read_run {R} (q : World → string + R) w :
  fault (env w) (tick w) = None →
  db_read q w = (Returned (q (set_tick (S (tick w)) w)), set_tick (S (tick w)) w).
Proof.
  intros Hf. unfold db_read, supabase_error, interact, bind. simpl. by rewrite Hf.
Qed.

Lemma versions_findById_run id r w :
  fault (env w) (tick w) = None →
  plugin_versions_table w !! id = Some r →
  PluginVersionsRepository.findById id w
  = (Returned (Some (PluginVersionsRepository.mapToEntity (id, r))),
     set_tick (S (tick w)) w).
Proof.
  intros Hf Hr. unfold PluginVersionsRepository.findById.
  run_bind ltac:(by apply db_read_run).
  unfold PluginVersionsRepository.by_id. simpl. by rewrite Hr.
Qed.

Lemma plugins_findById_run id r w :
  fault (env w) (tick w) = None →
  plugins_table w !! id = Some r →
  PluginsRepository.findById id w
  = (Returned (Some (PluginsRepository.mapToEntity (id, r))), set_tick (S (tick w)) w).
Proof.
  intros Hf Hr. unfold PluginsRepository.findById.
  run_bind ltac:(by apply db_read_run).
  unfold PluginsRepository.by_id. simpl. by rewrite Hr.
Qed.

(** What [findById] returns is a row of the table, under the key asked. *)
Lemma versions_findById_inv id w v w1 :
  PluginVersionsRepository.findById id w = (Returned (Some v), w1) →
  ∃ r, plugin_versions_table w !! id = Some r
       ∧ v = PluginVersionsRepository.mapToEntity (id, r)
       ∧ w1 = set_tick (S (tick w)) w.
Proof.
  unfold PluginVersionsRepository.findById, db_read, supabase_error, interact, bind, get, ret.
  simpl. destruct (fault (env w) (tick w)); simpl; [discriminate |].
  unfold PluginVersionsRepository.by_id. simpl.
  destruct (plugin_versions_table w !! id) as [r|]; simpl; [| discriminate].
  intros [= <- <-]. eauto.
Qed.

Lemma plugins_findById_inv id w p w1 :
  PluginsRepository.findById id w = (Returned (Some p), w1) →
  ∃ r, plugins_table w !! id = Some r
       ∧ p = PluginsRepository.mapToEntity (id, r)
       ∧ w1 = set_tick (S (tick w)) w.
Proof.
  unfold PluginsRepository.findById, db_read, supabase_error, interact, bind, get, ret.
  simpl. destruct (fault (env w) (tick w)); simpl; [discriminate |].
  unfold PluginsRepository.by_id. simpl.
  destruct (plugins_table w !! id) as [r|]; simpl; [| discriminate].
  intros [= <- <-]. eauto.
Qed.

Lemma getVersionForReview_inv id w v w1 :
  PluginReviewService.getVersionForReview id w = (Returned v, w1) →
  ∃ r, plugin_versions_table w !! id = Some r
       ∧ v = PluginVersionsRepository.mapToEntity (id, r)
       ∧ w1 = set_tick (S (tick w)) w.
Proof.
  unfold PluginReviewService.getVersionForReview. intros H.
  apply bind_inv_returned in H as (o & w' & Hfind & Hk).
  destruct o as [v'|]; [| discriminate].
  injection Hk as <- <-. by apply versions_findById_inv.
Qed.

Lemma versions_update_run id u r w :
  fault (env w) (tick w) = None →
  plugin_versions_table w !! id = Some r →
  PluginVersionsRepository.update id u w
  = (Returned (PluginVersionsRepository.mapToEntity
                 (id, PluginVersionsRepository.updateData u r)),
     set_plugin_versions
       (<[id := PluginVersionsRepository.updateData u r]> (plugin_versions_table w))
       (set_tick (S (tick w)) w)).
Proof.
  intros Hf Hr.
  unfold PluginVersionsRepository.update, update_version_row, supabase_error,
    interact, bind, get.
  simpl. rewrite Hf. simpl. rewrite Hr. reflexivity.
Qed.

Lemma versions_update_inv id u w x w' :
  PluginVersionsRepository.update id u w = (Returned x, w') →
  ∃ r, plugin_versions_table w !! id = Some r
       ∧ w' = set_plugin_versions
                (<[id := PluginVersionsRepository.updateData u r]> (plugin_versions_table w))
                (set_tick (S (tick w)) w).
Proof.
  unfold PluginVersionsRepository.update, update_version_row, supabase_error,
    interact, bind, get.
  simpl. destruct (fault (env w) (tick w)); simpl; [discriminate |].
  destruct (plugin_versions_table w !! id) as [r|]; simpl; [| discriminate].
  intros [= _ <-]. eauto.
Qed.

Lemma plugins_update_run id dto r w :
  fault (env w) (S (tick w)) = None →
  plugins_table w !! id = Some r →
  PluginsRepository.update id dto w
  = (Returned (PluginsRepository.mapToEntity
                 (id, PluginsRepository.updateData (clock (env w) (tick w)) dto r)),
     set_plugins
       (<[id := PluginsRepository.updateData (clock (env w) (tick w)) dto r]> (plugins_table w))
       (set_tick (S (S (tick w))) w)).
Proof.
  intros Hf Hr.
  unfold PluginsRepository.update, update_plugin_row, Date_now, supabase_error,
    interact, bind, get.
  simpl. rewrite Hf. simpl. rewrite Hr. reflexivity.
Qed.

Lemma plugins_update_inv id dto w x w' :
  PluginsRepository.update id dto w = (Returned x, w') →
  ∃ r, plugins_table w !! id = Some r
       ∧ w' = set_plugins
                (<[id := PluginsRepository.updateData (clock (env w) (tick w)) dto r]>
                   (plugins_table w))
                (set_tick (S (S (tick w))) w).
Proof.
  unfold PluginsRepository.update, update_plugin_row, Date_now, supabase_error,
    interact, bind, get.
  simpl. destruct (fault (env w) (S (tick w))); simpl; [discriminate |].
  destruct (plugins_table w !! id) as [r|]; simpl; [| discriminate].
  intros [= _ <-]. eauto.
Qed.

Lemma isValidTransition_false s d :
  PluginReviewService.isValidTransition s d = false ↔ terminal s.
Proof.
  unfold terminal. destruct s; simpl; split; try done; try (intros [|[|]]; done); auto.
Qed.

(** The run of [submitReviewDecision_with] once the version and its
    plugin have been read. *)
Lemma submitReviewDecision_with_run safetyCheck versionId decision w version w1 plugin w2 :
  PluginReviewService.getVersionForReview versionId w = (Returned version, w1) →
  PluginsRepository.findById (PluginVersion.pluginId version) w1 = (Returned (Some plugin), w2) →
  PluginReviewService.submitReviewDecision_with safetyCheck versionId decision w =
    if negb (PluginReviewService.isValidTransition (PluginVersion.status version) (rd_decision decision))
    then (Thrown (InvalidTransitionException
            ("Version status is " +:+ VersionStatus.to_string (PluginVersion.status version)
             +:+ ", cannot transition to " +:+ ReviewDecision.to_string (rd_decision decision))), w2)
    else if bool_decide (rd_decision decision = ReviewDecision.PUBLISH) && negb (safetyCheck version)
    then (Thrown (InvalidTransitionException safety_check_failed), w2)
    else match rd_decision decision with
         | ReviewDecision.PUBLISH =>
             PluginReviewService.handlePublishDecision version plugin (rd_reviewedBy decision) w2
         | ReviewDecision.REJECT =>
             PluginReviewService.handleRejectDecision version plugin decision w2
         end.
Proof.
  intros H1 H2. unfold PluginReviewService.submitReviewDecision_with.
  unfold bind at 1. rewrite H1. unfold bind at 1. rewrite H2.
  destruct (negb (PluginReviewService.isValidTransition _ _)); [reflexivity |].
  destruct (_ && _); [reflexivity |].
  destruct (rd_decision decision); reflexivity.
Qed.

(** ** What a computation returns *)

Lemma returns_ret {Σ A} (Q : A → Prop) (a : A) : Q a → returns (Σ:=Σ) Q (ret a).
Proof. intros HQ w a' w' [= <- _]. exact HQ. Qed.

Lemma returns_throw {Σ A} (Q : A → Prop) e : returns (Σ:=Σ) Q (throw e).
Proof. intros w a w'. discriminate. Qed.

Lemma returns_bind {Σ A B} (Q : B → Prop) (m : St Σ A) (k : A → St Σ B) :
  (∀ a, returns Q (k a)) → returns Q (bind m k).
Proof.
  intros Hk w b w' H. apply bind_inv_returned in H as (a & w1 & _ & H).
  by eapply Hk.
Qed.

Lemma moveArtifact_returns sourcePath packageId version :
  returns (λ p, p = StorageService.getArtifactPath packageId version)
    (StorageService.moveArtifact sourcePath packageId version).
Proof.
  unfold StorageService.moveArtifact.
  apply returns_bind; intros cfg. apply returns_bind; intros [msg|sourceData].
  { apply returns_throw. }
  apply returns_bind; intros [msg|]; [apply returns_throw |].
  apply returns_bind; intros _. by apply returns_ret.
Qed.

Lemma storage_upload_keeps_tables bucket path data :
  keeps tables (storage_upload bucket path data).
Proof. unfold storage_upload, supabase_error. keeps_auto. Qed.

Lemma storage_download_keeps_tables bucket path :
  keeps tables (storage_download bucket path).
Proof. unfold storage_download, supabase_error. keeps_auto. Qed.

Lemma storage_remove_keeps_tables bucket path :
  keeps tables (storage_remove bucket path).
Proof. unfold storage_remove, supabase_error. keeps_auto. Qed.

Lemma storage_sign_keeps_tables bucket path : keeps tables (storage_sign bucket path).
Proof. unfold storage_sign, supabase_error. keeps_auto. Qed.

Lemma deleteArtifact_keeps_tables path bucket :
  keeps tables (StorageService.deleteArtifact path bucket).
Proof.
  unfold StorageService.deleteArtifact.
  apply keeps_bind; [apply storage_remove_keeps_tables | intros ?]. keeps_auto.
Qed.

Lemma moveArtifact_keeps_tables sourcePath packageId version :
  keeps tables (StorageService.moveArtifact sourcePath packageId version).
Proof.
  unfold StorageService.moveArtifact.
  apply keeps_bind; [keeps_auto | intros cfg].
  apply keeps_bind; [apply storage_download_keeps_tables | intros [msg|sourceData]].
  { keeps_auto. }
  apply keeps_bind; [apply storage_upload_keeps_tables | intros [msg|]].
  { keeps_auto. }
  apply keeps_bind; [apply deleteArtifact_keeps_tables | intros ?]. keeps_auto.
Qed.

Lemma tables_eq w w' :
  tables w' = tables w →
  plugins_table w' = plugins_table w ∧ plugin_versions_table w' = plugin_versions_table w.
Proof. unfold tables. intros [= -> ->]. done. Qed.

Lemma publish_move_inv version plugin w w' :
  try_catch
    (storagePath <- StorageService.moveArtifact
                      (default "" (PluginVersion.tempStoragePath version))
                      (Plugin.packageId plugin) (PluginVersion.version version) ;;
     PluginVersionsRepository.update (PluginVersion.id version) (moved storagePath) ;;;
     ret tt)
    (λ _, throw (Error "Failed to move artifact to permanent storage")) w
  = (Returned tt, w') →
  plugins_table w' = plugins_table w
  ∧ ∃ r, plugin_versions_table w !! PluginVersion.id version = Some r
         ∧ plugin_versions_table w'
           = <[PluginVersion.id version :=
                 PluginVersionsRepository.updateData
                   (moved (StorageService.getArtifactPath
                             (Plugin.packageId plugin) (PluginVersion.version version))) r]>
               (plugin_versions_table w).
Proof.
  intros H. apply try_catch_inv_returned in H as [H | (e & w1 & _ & H)]; [| discriminate].
  apply bind_inv_returned in H as (sp & w1 & Hmove & H).
  apply bind_inv_returned in H as (x & w2 & Hupd & H). injection H as <-.
  pose proof (moveArtifact_returns _ _ _ _ _ _ Hmove) as ->.
  pose proof (moveArtifact_keeps_tables
    (default "" (PluginVersion.tempStoragePath version))
    (Plugin.packageId plugin) (PluginVersion.version version) w) as Hk.
  rewrite Hmove in Hk. apply tables_eq in Hk as [Hp Hv]. simpl in Hp, Hv.
  apply versions_update_inv in Hupd as (r & Hr & ->). simpl.
  rewrite Hv in Hr. rewrite Hp, Hv. eauto.
Qed.

(** ** Selecting the published versions of a plugin *)

Lemma interact_run {A} (f : Env → nat → A) w :
  interact f w = (Returned (f (env w) (tick w)), set_tick (S (tick w)) w).
Proof. reflexivity. Qed.

Lemma elem_of_select_versions p w id r :
  (id, r) ∈ select_versions p w ↔ p (id, r) = true ∧ plugin_versions_table w !! id = Some r.
Proof.
  unfold select_versions. rewrite list_elem_of_filter, elem_of_map_to_list. done.
Qed.

Lemma published_of_true pluginId id r :
  published_of pluginId (id, r) = true
  ↔ plugin_versions.plugin_id r = pluginId
    ∧ plugin_versions.status r = VersionStatus.PUBLISHED.
Proof.
  unfold published_of. simpl.
  rewrite andb_true_iff, String.eqb_eq, bool_decide_eq_true. done.
Qed.

Lemma findPublishedVersions_run pluginId w :
  fault (env w) (tick w) = None →
  PluginVersionsRepository.findPublishedVersions pluginId w
  = (Returned (PluginVersionsRepository.mapToEntity
                 <$> merge_sort created_desc (select_versions (published_of pluginId) w)),
     set_tick (S (tick w)) w).
Proof.
  intros Hf. unfold PluginVersionsRepository.findPublishedVersions.
  run_bind ltac:(by apply db_read_run). reflexivity.
Qed.

(** The head of a list sorted by [created_at], newest first, is a newest
    element. *)
Lemma merge_sort_head_newest l x rest y :
  merge_sort created_desc l = x :: rest → y ∈ l → created_desc x y.
Proof.
  intros Hs Hy.
  pose proof (StronglySorted_merge_sort created_desc l) as Hsorted.
  assert (Hy' : y ∈ merge_sort created_desc l) by (by rewrite merge_sort_Permutation).
  rewrite Hs in Hsorted, Hy'.
  apply StronglySorted_inv in Hsorted as [_ Hall].
  apply elem_of_cons in Hy' as [-> | Hin].
  - unfold created_desc. lia.
  - by eapply Forall_forall in Hall.
Qed.

Lemma merge_sort_nil {A} (R : relation A) `{∀ x y, Decision (R x y)} l :
  merge_sort R l = [] → l = [].
Proof.
  intros Hs. apply Permutation_nil_r. rewrite <- Hs. by rewrite merge_sort_Permutation.
Qed.

Lemma merge_sort_head_elem {A} (R : relation A) `{∀ x y, Decision (R x y)} l x rest :
  merge_sort R l = x :: rest → x ∈ l.
Proof.
  intros Hs. rewrite <- (merge_sort_Permutation R l). rewrite Hs. by left.
Qed.

(** The temp artifact of a rejected version is deleted on a best-effort
    basis: the block always returns and touches neither table. *)
Lemma reject_cleanup_run (version : PluginVersion.t) w :
  ∃ w1,
    (if truthy (PluginVersion.tempStoragePath version) then
       try_catch
         (StorageService.deleteArtifact
            (default "" (PluginVersion.tempStoragePath version)) "temp_uploads")
         (λ _, ret tt)
     else ret tt) w = (Returned tt, w1)
    ∧ tables w1 = tables w ∧ env w1 = env w.
Proof.
  destruct (truthy _); [| by eexists].
  unfold try_catch, StorageService.deleteArtifact, storage_remove, supabase_error,
    interact, bind, modify, ret, throw.
  simpl. destruct (fault (env w) (tick w)); simpl; by eexists.
Qed.

Lemma select_other_published w x pluginId versionId row' id r :
  plugin_versions_table x = <[versionId := row']> (plugin_versions_table w) →
  plugin_versions.status row' ≠ VersionStatus.PUBLISHED →
  (id, r) ∈ select_versions (published_of pluginId) x
  ↔ other_published w pluginId versionId id r.
Proof.
  intros Hx Hst. rewrite elem_of_select_versions, published_of_true.
  unfold other_published. rewrite Hx, lookup_insert_Some. split.
  - intros [[Hpid Hpub] [[<- <-] | [Hne Hr]]]; [done | done].
  - intros (Hr & Hne & Hpid & Hpub). split; [done |]. right. done.
Qed.

(** ** The submission workflow *)

Lemma bind_inv_thrown {Σ A B} (m : St Σ A) (k : A → St Σ B) w e w' :
  bind m k w = (Thrown e, w') →
  m w = (Thrown e, w') ∨ ∃ a w1, m w = (Returned a, w1) ∧ k a w1 = (Thrown e, w').
Proof.
  unfold bind. destruct (m w) as [[a|e'] w1]; [right; eauto | intros [= <- <-]; by left].
Qed.

Lemma lift_inv {A} (m : M A) s w r s' w' :
  DeveloperService.lift m (s, w) = (r, (s', w')) → s' = s ∧ m w = (r, w').
Proof.
  unfold DeveloperService.lift. simpl. destruct (m w) as [r0 w0]. by intros [= <- <- <-].
Qed.

(** What [uploadArtifact] returns names the staged object. *)
Lemma uploadArtifact_inv buffer contentType packageId version w staged w' :
  StorageService.uploadArtifact buffer contentType packageId version w = (Returned staged, w') →
  ar_storagePath staged = StorageService.getArtifactPath packageId version
  ∧ ar_bucket staged = tempUploadsBucket (config (env w))
  ∧ ar_tempPath staged
    = "temp_" +:+ String_of_number (clock (env w) (tick w)) +:+ "/"
      +:+ StorageService.getArtifactPath packageId version
  ∧ objects w' !! (tempUploadsBucket (config (env w)), ar_tempPath staged) = Some buffer.
Proof.
  unfold StorageService.uploadArtifact, StorageService.calculateChecksum, Date_now,
    storage_upload, supabase_error, interact, asks, bind, modify, ret, throw.
  simpl. destruct (fault (env w) (S (tick w))); simpl; [discriminate |].
  intros [= <- <-]. simpl. split_and!; try done. apply lookup_insert_eq.
Qed.

(** When the [try] block of [submitPluginSynx] throws, either nothing was
    staged, or the state holds what [uploadArtifact] returned. *)
Lemma submitPluginSynx_try_thrown file packageId w error state w1 :
  DeveloperService.submitPluginSynx_try file packageId
    (DeveloperService.initialState packageId, w) = (Thrown error, (state, w1)) →
  artifactUploadResult state = None
  ∨ ∃ version wa wb staged,
      artifactUploadResult state = Some staged
      ∧ StorageService.uploadArtifact (buffer file) (mimetype file) packageId version wa
        = (Returned staged, wb).
Proof.
  unfold DeveloperService.submitPluginSynx_try. intros H.
  apply bind_inv_thrown in H as [H | (pkg & [s1 wp] & Hpkg & H)].
  { apply lift_inv in H as [-> _]. by left. }
  apply lift_inv in Hpkg as [-> Hpkg].
  apply bind_inv_thrown in H as [H | ([] & [s2 w2] & Hicon & H)].
  { left. destruct (iconData pkg) as [data|]; [| discriminate].
    destruct (truthy (iconName pkg)); [| discriminate].
    apply bind_inv_thrown in H as [H | (h & [s wh] & Hh & H)].
    { apply lift_inv in H as [-> _]. done. }
    apply lift_inv in Hh as [-> _].
    apply bind_inv_thrown in H as [H | (k & [s wk] & Hk & H)].
    { apply lift_inv in H as [-> _]. done. }
    discriminate. }
  assert (Hs2 : artifactUploadResult s2 = None).
  { destruct (iconData pkg) as [data|]; [| by injection Hicon as <- <-].
    destruct (truthy (iconName pkg)); [| by injection Hicon as <- <-].
    apply bind_inv_returned in Hicon as (h & [s wh] & Hh & Hicon).
    apply lift_inv in Hh as [-> _].
    apply bind_inv_returned in Hicon as (k & [s wk] & Hk & Hicon).
    apply lift_inv in Hk as [-> _].
    by injection Hicon as <- <-. }
  apply bind_inv_thrown in H as [H | (staged & [s3 w3] & Hup & H)].
  { apply lift_inv in H as [-> _]. by left. }
  apply lift_inv in Hup as [-> Hup].
  apply bind_inv_thrown in H as [H | ([] & [s4 w4] & Hset & H)]; [discriminate |].
  injection Hset as <- <-.
  apply bind_inv_thrown in H as [H | ([s5 w5] & [s5' w5'] & Hget & H)]; [discriminate |].
  injection Hget as <- <- <- <-.
  apply bind_inv_thrown in H as [H | (resp & [s6 w6] & Hsub & H)].
  { apply lift_inv in H as [-> _]. right. simpl. eauto 10. }
  apply lift_inv in Hsub as [-> _].
  apply bind_inv_thrown in H as [H | ([] & [s7 w7] & Hclear & H)]; discriminate.
Qed.

(** The cleanup never throws: a removal that fails is swallowed. *)
Lemma cleanupFailedUpload_run state w :
  ∃ icon_removed temp_removed w2,
    DeveloperService.cleanupFailedUpload state w = (Returned tt, w2)
    ∧ calls w2 = (calls w ++ cleanup_calls state icon_removed temp_removed)%list
    ∧ objects w2 = cleanup_objects state icon_removed temp_removed (objects w)
    ∧ tables w2 = tables w.
Proof.
  exists (acknowledged w (tick w)),
         (acknowledged w (if truthy (uploadedIconKey state) then S (tick w) else tick w)).
  unfold DeveloperService.cleanupFailedUpload, cleanup_calls, cleanup_objects, acknowledged.
  unfold try_catch, StorageService.deleteArtifact, storage_remove, supabase_error,
    interact, bind, modify, ret, throw.
  destruct (truthy (uploadedIconKey state));
    destruct (truthy (ar_tempPath <$> artifactUploadResult state)); simpl;
    repeat (destruct (fault (env w) _); simpl);
    eexists; (split_and!; [reflexivity | | reflexivity | reflexivity]);
    simpl; rewrite <- ?app_assoc, ?app_nil_r; reflexivity.
Qed.

Lemma keeps_run {X A} (f : World → X) (m : M A) w r w' :
  keeps f m → m w = (r, w') → f w' = f w.
Proof. intros Hk Hrun. specialize (Hk w). by rewrite Hrun in Hk. Qed.

Lemma storage_sign_keeps bucket path : keeps (λ w, (tables w, env w)) (storage_sign bucket path).
Proof. unfold storage_sign, supabase_error. keeps_auto. Qed.

Lemma getSignedUrl_keeps storagePath bucket :
  keeps (λ w, (tables w, env w)) (StorageService.getSignedUrl storagePath bucket).
Proof.
  unfold StorageService.getSignedUrl, Date_now.
  destruct (String.eqb _ _); [keeps_auto |].
  apply keeps_bind; [keeps_auto | intros cfg].
  apply keeps_bind; [apply storage_sign_keeps | intros [signedURL|]]; keeps_auto.
Qed.

Lemma toPluginDetailResponse_keeps plugin version :
  keeps (λ w, (tables w, env w)) (PluginsService.toPluginDetailResponse plugin version).
Proof.
  unfold PluginsService.toPluginDetailResponse.
  apply keeps_bind; [| intros ?; keeps_auto].
  destruct (_ && _); [| keeps_auto].
  apply keeps_try_catch; [| intros ?; keeps_auto].
  apply keeps_bind; [apply getSignedUrl_keeps | intros ?]. keeps_auto.
Qed.

Lemma toPluginDetailResponse_returns plugin version :
  returns (λ r, r_versionId r = PluginVersion.id version
                ∧ r_version r = PluginVersion.version version)
    (PluginsService.toPluginDetailResponse plugin version).
Proof.
  unfold PluginsService.toPluginDetailResponse.
  apply returns_bind; intros signed. by apply returns_ret.
Qed.

Lemma plugins_update_keeps_versions id dto :
  keeps plugin_versions_table (PluginsRepository.update id dto).
Proof.
  unfold PluginsRepository.update, update_plugin_row, Date_now, supabase_error. keeps_auto.
Qed.

(** The row a successful [create] inserts. *)
Lemma versions_create_inv dto w v w' :
  PluginVersionsRepository.create dto w = (Returned v, w') →
  ∃ row,
    plugin_versions_table w' !! PluginVersion.id v = Some row
    ∧ PluginVersion.version v = cv_version dto
    ∧ plugin_versions.status row = VersionStatus.SUBMITTED
    ∧ plugin_versions.storage_path row = or_null (cv_storagePath dto)
    ∧ plugin_versions.storage_bucket row = or_null (cv_storageBucket dto)
    ∧ plugin_versions.temp_storage_path row = or_null (cv_tempStoragePath dto).
Proof.
  unfold PluginVersionsRepository.create, insert_version, randomUUID, Date_now,
    supabase_error, interact, bind, get, modify, ret, throw.
  simpl. destruct (fault (env w) (S (S (tick w)))); simpl; [discriminate |].
  repeat (case_bool_decide; simpl; [discriminate |]).
  intros [= <- <-]. simpl. eexists. split; [apply lookup_insert_eq |]. done.
Qed.

Lemma submitPlugin_created packageId name description author iconKey category tags
    sourceUrl version manifest minAppVersion releaseNotes storagePath storageBucket
    tempStoragePath fileSizeBytes checksumSha256 w response w' :
  PluginsService.submitPlugin packageId name description author iconKey category tags
    sourceUrl version manifest minAppVersion releaseNotes storagePath storageBucket
    tempStoragePath fileSizeBytes checksumSha256 w = (Returned response, w') →
  r_version response = version
  ∧ ∃ row,
      plugin_versions_table w' !! r_versionId response = Some row
      ∧ plugin_versions.status row = VersionStatus.SUBMITTED
      ∧ plugin_versions.storage_path row = or_null storagePath
      ∧ plugin_versions.storage_bucket row = or_null storageBucket
      ∧ plugin_versions.temp_storage_path row = or_null tempStoragePath.
Proof.
  unfold PluginsService.submitPlugin. intros H.
  apply bind_inv_returned in H as (found & w1 & _ & H).
  apply bind_inv_returned in H as (plugin & w2 & _ & H).
  apply bind_inv_returned in H as (versionData & w3 & Hcreate & H).
  apply bind_inv_returned in H as (plugin' & w4 & Hupd & H).
  apply versions_create_inv in Hcreate as (row & Hrow & Hver & Hrest). simpl in *.
  pose proof (toPluginDetailResponse_returns _ _ _ _ _ H) as [Hid Hv].
  pose proof (keeps_run _ _ _ _ _ (toPluginDetailResponse_keeps plugin' versionData) H) as Hk.
  injection Hk as _ Hk4 _.
  assert (Hk3 : plugin_versions_table w4 = plugin_versions_table w3).
  { case_bool_decide.
    - by apply (keeps_run _ _ _ _ _ (plugins_update_keeps_versions _ _) Hupd).
    - by injection Hupd as _ <-. }
  split; [congruence |]. exists row. rewrite Hid, Hk4, Hk3. done.
Qed.

Lemma storage_upload_keeps_env bucket path data : keeps env (storage_upload bucket path data).
Proof. unfold storage_upload, supabase_error. keeps_auto. Qed.

Lemma extractPackage_keeps_env buffer : keeps env (SynxPackageService.extractPackage buffer).
Proof. unfold SynxPackageService.extractPackage. keeps_auto. Qed.

Lemma uploadIcon_keeps_env iconData iconName iconKey :
  keeps env (StorageService.uploadIcon iconData iconName iconKey).
Proof.
  unfold StorageService.uploadIcon.
  apply keeps_bind; [keeps_auto | intros bucket].
  apply keeps_bind.
  { apply keeps_try_catch; [| intros ?; keeps_auto].
    apply keeps_bind; [| intros ?; keeps_auto].
    intros w. pose proof (getSignedUrl_keeps (iconKey +:+ StorageService.extension iconName)
                            bucket w) as H.
    by injection H. }
  intros [|]; [keeps_auto |].
  apply keeps_bind; [apply storage_upload_keeps_env | intros ?]. keeps_auto.
Qed.

Lemma getArtifactPath_truthy packageId version :
  or_null (Some (StorageService.getArtifactPath packageId version))
  = Some (StorageService.getArtifactPath packageId version).
Proof.
  unfold or_null, truthy, StorageService.getArtifactPath.
  destruct packageId; reflexivity.
Qed.

Lemma try_catch_inv_thrown {Σ A} (m : St Σ A) h w e w' :
  try_catch m h w = (Thrown e, w') →
  ∃ e0 w1, m w = (Thrown e0, w1) ∧ h e0 w1 = (Thrown e, w').
Proof.
  unfold try_catch. destruct (m w) as [[a|e0] w1]; [discriminate | eauto].
Qed.

Lemma raises_run {Σ A} (P : Exception → Prop) (m : St Σ A) w e w' :
  raises P m → m w = (Thrown e, w') → P e.
Proof. intros Hr H. apply (Hr w e). by rewrite H. Qed.

(** * The claims *)

(** C10.  The automated safety check returns true for every version
    record, so no run of [submitReviewDecision] ends in the safety-check
    veto: the [InvalidTransition] of a failed safety check is never thrown,
    whatever the version, the decision and the state of the stores. *)
Theorem safety_check_always_passes :
  (∀ version, PluginReviewService.performAutomatedSafetyCheck version = true) ∧
  (∀ versionId decision w,
     outcome (PluginReviewService.submitReviewDecision versionId decision w)
     ≠ Thrown (InvalidTransitionException safety_check_failed)).
Proof.
  split; [reflexivity |].
  intros versionId decision w Hrun.
  unfold outcome, PluginReviewService.submitReviewDecision in Hrun.
  destruct (PluginReviewService.getVersionForReview versionId w)
    as [[version|e] w1] eqn:H1.
  2:{ unfold PluginReviewService.submitReviewDecision_with, bind in Hrun.
      rewrite H1 in Hrun. simpl in Hrun.
      unfold PluginReviewService.getVersionForReview, bind in H1.
      destruct (PluginVersionsRepository.findById versionId w) as [[[v|]|e'] w'] eqn:Hf;
        simpl in H1; try discriminate.
      - unfold throw in H1. congruence.
      - exfalso. revert Hf. unfold PluginVersionsRepository.findById, bind.
        destruct (db_read _ w) as [[r|e''] w''] eqn:Hd; simpl; [discriminate |].
        pose proof (raises_db_read (λ _, False)
          (λ w, single (PluginVersionsRepository.by_id versionId w)) w e'') as Hr.
        rewrite Hd in Hr. intros _. by apply Hr. }
  destruct (PluginsRepository.findById (PluginVersion.pluginId version) w1)
    as [[[plugin|]|e] w2] eqn:H2.
  - rewrite (submitReviewDecision_with_run _ _ _ _ _ _ _ _ H1 H2) in Hrun.
    destruct (negb (PluginReviewService.isValidTransition _ _)); [discriminate |].
    simpl in Hrun. rewrite andb_false_r in Hrun.
    destruct (rd_decision decision).
    + by apply (handlePublishDecision_raises _ _ _ _ _ Hrun).
    + by apply (handleRejectDecision_raises _ _ _ _ _ Hrun).
  - unfold PluginReviewService.submitReviewDecision_with, bind in Hrun.
    rewrite H1, H2 in Hrun. discriminate.
  - exfalso. revert H2. unfold PluginsRepository.findById, bind.
    destruct (db_read _ w1) as [[r|e''] w''] eqn:Hd; simpl; [discriminate |].
    pose proof (raises_db_read (λ _, False)
      (λ w, single (PluginsRepository.by_id (PluginVersion.pluginId version) w)) w1 e'') as Hr.
    rewrite Hd in Hr. intros _. by apply Hr.
Qed.

(** Once the target version and its owning plugin have been read,
    [submitReviewDecision] throws [InvalidTransition] exactly when the
    version's status is PUBLISHED, REJECTED or FLAGGED, or the decision is
    PUBLISH and the safety check fails on the version; and when it does,
    the plugin rows, the version rows and the stored objects are those of
    before the call and no storage request was made. *)
Lemma invalid_transition_after_reads
    safetyCheck versionId decision w version w1 plugin w2 :
  PluginReviewService.getVersionForReview versionId w = (Returned version, w1) →
  PluginsRepository.findById (PluginVersion.pluginId version) w1 = (Returned (Some plugin), w2) →
  let run := PluginReviewService.submitReviewDecision_with safetyCheck versionId decision w in
  ((∃ msg, outcome run = Thrown (InvalidTransitionException msg)) ↔
   (terminal (PluginVersion.status version) ∨
    (rd_decision decision = ReviewDecision.PUBLISH ∧ safetyCheck version = false)))
  ∧ ((∃ msg, outcome run = Thrown (InvalidTransitionException msg)) →
     data (final run) = data w).
Proof.
  intros H1 H2 run.
  assert (Hdata : data w2 = data w).
  { pose proof (getVersionForReview_keeps versionId w) as E1.
    pose proof (plugins_findById_keeps (PluginVersion.pluginId version) w1) as E2.
    rewrite H1 in E1. rewrite H2 in E2. simpl in *. congruence. }
  subst run. rewrite (submitReviewDecision_with_run _ _ _ _ _ _ _ _ H1 H2).
  destruct (PluginReviewService.isValidTransition _ _) eqn:Hvalid; simpl.
  - assert (Hnt : ¬ terminal (PluginVersion.status version)).
    { rewrite <- isValidTransition_false. rewrite Hvalid. discriminate. }
    destruct (rd_decision decision) eqn:Hd; simpl.
    + destruct (safetyCheck version) eqn:Hs; simpl.
      * split; [split |].
        -- intros [msg Hm]. exfalso.
           by apply (handlePublishDecision_raises _ _ _ _ _ Hm).
        -- intros [? | [_ ?]]; [done | discriminate].
        -- intros [msg Hm]. exfalso.
           by apply (handlePublishDecision_raises _ _ _ _ _ Hm).
      * split; [split |]; eauto.
    + split; [split |].
      * intros [msg Hm]. exfalso.
        by apply (handleRejectDecision_raises _ _ _ _ _ Hm).
      * intros [? | [? _]]; [done | discriminate].
      * intros [msg Hm]. exfalso.
        by apply (handleRejectDecision_raises _ _ _ _ _ Hm).
  - split; [split |]; eauto.
    intros _. left. exact (proj1 (isValidTransition_false _ _) Hvalid).
Qed.

(** The read of the version throws only [ResourceNotFound]; the read of
    the plugin never throws. *)
Lemma getVersionForReview_thrown versionId w e w1 :
  PluginReviewService.getVersionForReview versionId w = (Thrown e, w1) →
  e = ResourceNotFoundException "PluginVersion" "id" versionId.
Proof.
  unfold PluginReviewService.getVersionForReview. intros H.
  apply bind_inv_thrown in H as [H | ([v|] & w' & _ & H)].
  - exfalso. unfold PluginVersionsRepository.findById in H.
    apply bind_inv_thrown in H as [H | (r & w' & _ & H)]; [| discriminate].
    destruct (raises_run _ _ _ _ _ (raises_db_read (λ _, False) _) H).
  - discriminate.
  - by injection H as <- _.
Qed.

Lemma plugins_findById_returns id w :
  ∃ found w1, PluginsRepository.findById id w = (Returned found, w1).
Proof.
  destruct (PluginsRepository.findById id w) as [[found|e] w1] eqn:H; [by eexists _, _ |].
  exfalso. unfold PluginsRepository.findById in H.
  apply bind_inv_thrown in H as [H | (r & w' & _ & H)]; [| discriminate].
  destruct (raises_run _ _ _ _ _ (raises_db_read (λ _, False) _) H).
Qed.

(** C4, as the code has it.  [submitReviewDecision] reads the target
    version and then its owning plugin, and throws [ResourceNotFound] when
    either read yields nothing.  It throws [InvalidTransition] exactly
    when both reads succeeded and the version's status is PUBLISHED,
    REJECTED or FLAGGED, or the decision is PUBLISH and the safety check
    fails on the version; and when it does, the plugin rows, the version
    rows and the stored objects are those of before the call and no
    storage request was made. *)
Theorem submitReviewDecision_invalid_transition safetyCheck versionId decision w :
  let run := PluginReviewService.submitReviewDecision_with safetyCheck versionId decision w in
  ((∃ msg, outcome run = Thrown (InvalidTransitionException msg)) ↔
   ∃ version w1 plugin w2,
     PluginReviewService.getVersionForReview versionId w = (Returned version, w1)
     ∧ PluginsRepository.findById (PluginVersion.pluginId version) w1
       = (Returned (Some plugin), w2)
     ∧ (terminal (PluginVersion.status version)
        ∨ (rd_decision decision = ReviewDecision.PUBLISH ∧ safetyCheck version = false)))
  ∧ ((∃ msg, outcome run = Thrown (InvalidTransitionException msg)) →
     data (final run) = data w)
  ∧ (∀ e w1,
       PluginReviewService.getVersionForReview versionId w = (Thrown e, w1) →
       outcome run = Thrown (ResourceNotFoundException "PluginVersion" "id" versionId))
  ∧ (∀ version w1 w2,
       PluginReviewService.getVersionForReview versionId w = (Returned version, w1) →
       PluginsRepository.findById (PluginVersion.pluginId version) w1 = (Returned None, w2) →
       outcome run
       = Thrown (ResourceNotFoundException "Plugin" "id" (PluginVersion.pluginId version))).
Proof.
  intros run.
  destruct (PluginReviewService.getVersionForReview versionId w) as [[version|e] w1] eqn:H1.
  2:{ pose proof (getVersionForReview_thrown _ _ _ _ H1) as ->.
      assert (Hrun : outcome run
                     = Thrown (ResourceNotFoundException "PluginVersion" "id" versionId)).
      { subst run. unfold PluginReviewService.submitReviewDecision_with, bind, outcome.
        by rewrite H1. }
      split_and!.
      - split; [intros [msg Hm]; congruence | intros (? & ? & ? & ? & ? & _); discriminate].
      - intros [msg Hm]. congruence.
      - done.
      - intros; discriminate. }
  destruct (plugins_findById_returns (PluginVersion.pluginId version) w1)
    as ([plugin|] & w2 & H2).
  - destruct (invalid_transition_after_reads safetyCheck versionId decision w
                version w1 plugin w2 H1 H2) as [Hiff Hdata].
    fold run in Hiff, Hdata. split_and!.
    + rewrite Hiff. split.
      * intros Hc. by exists version, w1, plugin, w2.
      * intros (v & w1' & p & w2' & [= <- <-] & _ & Hc). done.
    + done.
    + intros; discriminate.
    + intros v w1' w2' [= <- <-]. rewrite H2. discriminate.
  - assert (Hrun : outcome run
                   = Thrown (ResourceNotFoundException "Plugin" "id"
                               (PluginVersion.pluginId version))).
    { subst run. unfold PluginReviewService.submitReviewDecision_with, bind, outcome.
      by rewrite H1, H2. }
    split_and!.
    + split; [intros [msg Hm]; congruence |].
      intros (v & w1' & p & w2' & [= <- <-] & Hp & _). rewrite H2 in Hp. discriminate.
    + intros [msg Hm]. congruence.
    + intros; discriminate.
    + intros v w1' w2' [= <- <-] _. done.
Qed.

(** C4, as stated, fails: for a PUBLISHED version whose plugin row is
    there but cannot be read, a review decision ends in [ResourceNotFound],
    not in [InvalidTransition]. *)
Lemma not_found_comes_before_invalid_transition :
  let w := drop_request 1 w_three_floors in
  let run := PluginReviewService.submitReviewDecision "v3" reject_by_admin w in
  plugin_versions.status <$> plugin_versions_table w !! "v3" = Some VersionStatus.PUBLISHED
  ∧ is_Some (plugins_table w !! "p1")
  ∧ outcome run = Thrown (ResourceNotFoundException "Plugin" "id" "p1")
  ∧ ¬ ∃ msg, outcome run = Thrown (InvalidTransitionException msg).
Proof.
  intros w run.
  assert (H : outcome run = Thrown (ResourceNotFoundException "Plugin" "id" "p1"))
    by (vm_compute; reflexivity).
  split_and!; [vm_compute; reflexivity | vm_compute; eauto | exact H |].
  intros [msg Hm]. rewrite H in Hm. discriminate.
Qed.

(** C5, as the code has it.  [flagVersion] has no status guard: for every
    version that exists, whatever its current status, with its owning
    plugin present and the stores reporting no error, [flagVersion]
    returns and leaves the version FLAGGED with [is_flagged] set and the
    reason recorded. *)
Theorem flagVersion_from_any_status versionId reason flaggedBy w row prow :
  plugin_versions_table w !! versionId = Some row →
  plugins_table w !! plugin_versions.plugin_id row = Some prow →
  (∀ n, fault (env w) n = None) →
  let run := PluginReviewService.flagVersion versionId reason flaggedBy w in
  outcome run = Returned tt
  ∧ ∃ row', plugin_versions_table (final run) !! versionId = Some row'
            ∧ plugin_versions.status row' = VersionStatus.FLAGGED
            ∧ plugin_versions.is_flagged row' = true
            ∧ plugin_versions.flag_reason row' = Some reason.
Proof.
  intros Hv Hp Hf run. subst run. unfold PluginReviewService.flagVersion.
  run_bind ltac:(unfold PluginReviewService.getVersionForReview;
                 run_bind ltac:(apply versions_findById_run; side); reflexivity).
  run_bind ltac:(apply plugins_findById_run; side).
  run_bind ltac:(apply versions_update_run; side).
  case_bool_decide.
  - run_bind ltac:(apply plugins_update_run; side).
    split; [reflexivity |]. eexists. split; [apply lookup_insert_eq |]. done.
  - split; [reflexivity |]. eexists. split; [apply lookup_insert_eq |]. done.
Qed.

Lemma flagVersion_from_any_status_witness :
  let w := w_one_version VersionStatus.SUBMITTED None None in
  let row := version_row "p1" "1.0.0" "1.0.0" VersionStatus.SUBMITTED 1700000000000
               None None None in
  let run := PluginReviewService.flagVersion "v1" "malware" "admin" w in
  plugin_versions_table w !! "v1" = Some row
  ∧ plugins_table w !! "p1"
    = Some (plugin_row "com.synapse.tictic" PluginStatus.PENDING_REVIEW None)
  ∧ (∀ n, fault (env w) n = None)
  ∧ outcome run = Returned tt
  ∧ ∃ row', plugin_versions_table (final run) !! "v1" = Some row'
            ∧ plugin_versions.status row' = VersionStatus.FLAGGED
            ∧ plugin_versions.is_flagged row' = true
            ∧ plugin_versions.flag_reason row' = Some "malware".
Proof.
  intros w row run.
  assert (Hv : plugin_versions_table w !! "v1" = Some row) by (vm_compute; reflexivity).
  assert (Hp : plugins_table w !! plugin_versions.plugin_id row
               = Some (plugin_row "com.synapse.tictic" PluginStatus.PENDING_REVIEW None))
    by (vm_compute; reflexivity).
  assert (Hf : ∀ n, fault (env w) n = None) by reflexivity.
  split; [exact Hv | split; [exact Hp | split; [exact Hf |]]].
  exact (flagVersion_from_any_status "v1" "malware" "admin" w row _ Hv Hp Hf).
Defined.

(** C5, as stated, fails: a version in SUBMITTED status is moved to
    FLAGGED by [flagVersion]. *)
Lemma flagVersion_flags_a_submitted_version :
  let w := w_one_version VersionStatus.SUBMITTED None None in
  let run := PluginReviewService.flagVersion "v1" "malware" "admin" w in
  plugin_versions.status <$> plugin_versions_table w !! "v1" = Some VersionStatus.SUBMITTED
  ∧ outcome run = Returned tt
  ∧ plugin_versions.status <$> plugin_versions_table (final run) !! "v1"
    = Some VersionStatus.FLAGGED.
Proof. vm_compute. auto. Qed.

(** C2, as the code has it.  A PUBLISH decision that returns found the
    version pending and leaves it PUBLISHED, with the owning plugin
    PUBLISHED and pointing at it.  When the version had a non-empty
    [temp_storage_path] the artifact was moved: [temp_storage_path] is
    null, [storage_path] is the permanent path and [storage_bucket] is
    "plugins".  When it had none, the three columns are left as they
    were, no request is made on the blob store and no object changes. *)
Theorem publish_decision_result versionId decision w :
  rd_decision decision = ReviewDecision.PUBLISH →
  let run := PluginReviewService.submitReviewDecision versionId decision w in
  outcome run = Returned tt →
  ∃ row0 row prow,
    plugin_versions_table w !! versionId = Some row0
    ∧ pending (plugin_versions.status row0)
    ∧ plugin_versions_table (final run) !! versionId = Some row
    ∧ plugin_versions.status row = VersionStatus.PUBLISHED
    ∧ (if truthy (plugin_versions.temp_storage_path row0) then
         plugin_versions.temp_storage_path row = None
         ∧ plugin_versions.storage_path row
           = Some (StorageService.getArtifactPath (plugins.package_id prow)
                     (plugin_versions.version row0))
         ∧ plugin_versions.storage_bucket row = Some "plugins"
       else
         plugin_versions.temp_storage_path row = plugin_versions.temp_storage_path row0
         ∧ plugin_versions.storage_path row = plugin_versions.storage_path row0
         ∧ plugin_versions.storage_bucket row = plugin_versions.storage_bucket row0
         ∧ objects (final run) = objects w
         ∧ calls (final run) = calls w)
    ∧ plugins_table (final run) !! plugin_versions.plugin_id row0 = Some prow
    ∧ plugins.latest_version_id prow = Some versionId
    ∧ plugins.status prow = PluginStatus.PUBLISHED.
Proof.
  intros Hd run Hok. subst run. unfold outcome, final in *.
  destruct (PluginReviewService.submitReviewDecision versionId decision w)
    as [r wf] eqn:Hrun. simpl in Hok. subst r.
  unfold PluginReviewService.submitReviewDecision,
    PluginReviewService.submitReviewDecision_with in Hrun.
  apply bind_inv_returned in Hrun as (version & w1 & H1 & Hrun).
  apply getVersionForReview_inv in H1 as (row0 & Hrow0 & -> & ->).
  apply bind_inv_returned in Hrun as (found & w2 & H2 & Hrun).
  destruct found as [plugin|]; [| discriminate].
  apply plugins_findById_inv in H2 as (prow0 & Hprow0 & -> & ->).
  rewrite Hd in Hrun. simpl in Hrun, Hprow0.
  destruct (PluginReviewService.isValidTransition (plugin_versions.status row0)
              ReviewDecision.PUBLISH) eqn:Hvalid; [| discriminate].
  simpl in Hrun.
  unfold PluginReviewService.handlePublishDecision in Hrun.
  apply bind_inv_returned in Hrun as ([] & w3 & Hblock & Hrun).
  apply bind_inv_returned in Hrun as (reviewedAt & w4 & [= <- <-] & Hrun).
  apply bind_inv_returned in Hrun as (publishedAt & w5 & [= <- <-] & Hrun).
  apply bind_inv_returned in Hrun as (x & w6 & Hupd & Hrun).
  apply bind_inv_returned in Hrun as (y & w7 & Hpupd & Hrun).
  injection Hrun as <-.
  apply versions_update_inv in Hupd as (r5 & Hr5 & ->).
  apply plugins_update_inv in Hpupd as (p6 & Hp6 & ->).
  simpl in *.
  assert (Hpending : pending (plugin_versions.status row0)).
  { unfold pending. destruct (plugin_versions.status row0); try discriminate; auto. }
  destruct (truthy (plugin_versions.temp_storage_path row0)) eqn:Htemp.
  - apply (publish_move_inv
             (PluginVersionsRepository.mapToEntity (versionId, row0))
             (PluginsRepository.mapToEntity (plugin_versions.plugin_id row0, prow0)))
      in Hblock as (Hp & r & Hr & Hv).
    simpl in *. rewrite Hrow0 in Hr. injection Hr as <-.
    rewrite Hv, lookup_insert_eq in Hr5. injection Hr5 as <-.
    rewrite Hp, Hprow0 in Hp6. injection Hp6 as <-.
    eexists row0, _, _.
    split_and!; [done | done | apply lookup_insert_eq | done | | apply lookup_insert_eq | done | done].
    rewrite Htemp. done.
  - injection Hblock as <-. simpl in *.
    rewrite Hrow0 in Hr5. injection Hr5 as <-.
    rewrite Hprow0 in Hp6. injection Hp6 as <-.
    eexists row0, _, _.
    split_and!; [done | done | apply lookup_insert_eq | done | | apply lookup_insert_eq | done | done].
    rewrite Htemp. done.
Qed.

Lemma publish_decision_result_witness :
  let run := PluginReviewService.submitReviewDecision "v1" publish_by_admin w_staged in
  rd_decision publish_by_admin = ReviewDecision.PUBLISH
  ∧ outcome run = Returned tt
  ∧ ∃ row0 row prow,
      plugin_versions_table w_staged !! "v1" = Some row0
      ∧ pending (plugin_versions.status row0)
      ∧ plugin_versions_table (final run) !! "v1" = Some row
      ∧ plugin_versions.status row = VersionStatus.PUBLISHED
      ∧ (if truthy (plugin_versions.temp_storage_path row0) then
           plugin_versions.temp_storage_path row = None
           ∧ plugin_versions.storage_path row
             = Some (StorageService.getArtifactPath (plugins.package_id prow)
                       (plugin_versions.version row0))
           ∧ plugin_versions.storage_bucket row = Some "plugins"
         else
           plugin_versions.temp_storage_path row = plugin_versions.temp_storage_path row0
           ∧ plugin_versions.storage_path row = plugin_versions.storage_path row0
           ∧ plugin_versions.storage_bucket row = plugin_versions.storage_bucket row0
           ∧ objects (final run) = objects w_staged
           ∧ calls (final run) = calls w_staged)
      ∧ plugins_table (final run) !! plugin_versions.plugin_id row0 = Some prow
      ∧ plugins.latest_version_id prow = Some "v1"
      ∧ plugins.status prow = PluginStatus.PUBLISHED.
Proof.
  intros run.
  assert (Hd : rd_decision publish_by_admin = ReviewDecision.PUBLISH) by reflexivity.
  assert (Hok : outcome run = Returned tt) by (vm_compute; reflexivity).
  split; [exact Hd | split; [exact Hok |]].
  exact (publish_decision_result "v1" publish_by_admin w_staged Hd Hok).
Defined.

(** C2, as stated, fails: a pending version that has no staged artifact is
    published with [storage_path] still null. *)
Lemma publish_without_artifact_keeps_storagePath_null :
  let w := w_one_version VersionStatus.SUBMITTED None None in
  let run := PluginReviewService.submitReviewDecision "v1" publish_by_admin w in
  outcome run = Returned tt
  ∧ plugin_versions.status <$> plugin_versions_table (final run) !! "v1"
    = Some VersionStatus.PUBLISHED
  ∧ plugin_versions.storage_path <$> plugin_versions_table (final run) !! "v1"
    = Some None.
Proof. vm_compute. auto. Qed.

(** What [findPublishedVersions] answers: the PUBLISHED versions of the
    plugin, most recent first, or nothing when the read fails. *)
Lemma findPublishedVersions_answer pluginId w :
  PluginVersionsRepository.findPublishedVersions pluginId w
  = (Returned (match fault (env w) (tick w) with
               | None => PluginVersionsRepository.mapToEntity
                         <$> merge_sort created_desc
                               (select_versions (published_of pluginId) w)
               | Some _ => []
               end),
     set_tick (S (tick w)) w).
Proof.
  unfold PluginVersionsRepository.findPublishedVersions, db_read, supabase_error,
    interact, bind, get, ret.
  simpl. by destruct (fault (env w) (tick w)).
Qed.

(** The removal of the staged artifact of a rejected version takes one
    interaction, when the version has one. *)
Lemma reject_cleanup_tick (version : PluginVersion.t) w w1 :
  (if truthy (PluginVersion.tempStoragePath version) then
     try_catch
       (StorageService.deleteArtifact
          (default "" (PluginVersion.tempStoragePath version)) "temp_uploads")
       (λ _, ret tt)
   else ret tt) w = (Returned tt, w1) →
  tick w1 = (tick w + (if truthy (PluginVersion.tempStoragePath version) then 1 else 0))%nat
  ∧ env w1 = env w ∧ tables w1 = tables w.
Proof.
  unfold try_catch, StorageService.deleteArtifact, storage_remove, supabase_error,
    interact, bind, modify, ret, throw.
  destruct (truthy (PluginVersion.tempStoragePath version)).
  - simpl. destruct (fault (env w) (tick w)); simpl; intros H; injection H as <-; simpl;
      split_and!; try done; lia.
  - intros H; injection H as <-. split_and!; try done; lia.
Qed.

(** A decision on a version that is not in review is refused, and nothing
    is written. *)
Lemma decision_on_a_reviewed_version_is_refused versionId decision w vrow :
  plugin_versions_table w !! versionId = Some vrow →
  ¬ pending (plugin_versions.status vrow) →
  let run := PluginReviewService.submitReviewDecision versionId decision w in
  (∃ e, outcome run = Thrown e
        ∧ (is_InvalidTransition e = true ∨ ∃ r f v, e = ResourceNotFoundException r f v))
  ∧ data (final run) = data w.
Proof.
  intros Hvrow Hnp run. subst run. unfold PluginReviewService.submitReviewDecision.
  destruct (PluginReviewService.getVersionForReview versionId w) as [[version|e] w1] eqn:H1.
  2:{ pose proof (getVersionForReview_thrown _ _ _ _ H1) as ->.
      pose proof (getVersionForReview_keeps versionId w) as Hk. rewrite H1 in Hk.
      unfold PluginReviewService.submitReviewDecision_with, bind, outcome, final.
      rewrite H1. simpl in *. split; [| done]. eexists. split; [done |]. right. eauto. }
  pose proof (getVersionForReview_keeps versionId w) as Hk1. rewrite H1 in Hk1.
  destruct (plugins_findById_returns (PluginVersion.pluginId version) w1)
    as ([plugin|] & w2 & H2).
  - destruct (invalid_transition_after_reads
                PluginReviewService.performAutomatedSafetyCheck versionId decision w
                version w1 plugin w2 H1 H2) as [Hiff Hdata].
    assert (Hthrown : ∃ msg,
              outcome (PluginReviewService.submitReviewDecision_with
                         PluginReviewService.performAutomatedSafetyCheck versionId decision w)
              = Thrown (InvalidTransitionException msg)).
    { apply Hiff. left.
      apply getVersionForReview_inv in H1 as (r & Hr & -> & _).
      rewrite Hvrow in Hr. injection Hr as <-. simpl.
      unfold terminal, pending in *. destruct (plugin_versions.status vrow); tauto. }
    split; [| by apply Hdata].
    destruct Hthrown as [msg Hm]. eexists. split; [exact Hm |]. by left.
  - pose proof (plugins_findById_keeps (PluginVersion.pluginId version) w1) as Hk2.
    rewrite H2 in Hk2.
    unfold PluginReviewService.submitReviewDecision_with, bind, outcome, final.
    rewrite H1, H2. simpl in *. split; [| congruence].
    eexists. split; [done |]. right. eauto.
Qed.

(** C3, as the code has it.  A REJECT decision on the version a plugin
    names as its latest is carried out only when that version is in
    review; on a PUBLISHED, REJECTED or FLAGGED version it throws
    [InvalidTransition] (or [ResourceNotFound], when a read fails) and
    writes nothing.  When it is carried out, the plugin's PUBLISHED
    versions are looked up, and a lookup that fails counts as finding
    none: if the lookup is answered and the plugin has other PUBLISHED
    versions, [latest_version_id] becomes one of them that no other is
    more recently created than, and the plugin's status is kept; if it has
    none, or the lookup fails, [latest_version_id] becomes null and the
    plugin's status REJECTED. *)
Theorem reject_latest_reassigns versionId decision w vrow prow :
  rd_decision decision = ReviewDecision.REJECT →
  plugin_versions_table w !! versionId = Some vrow →
  plugins_table w !! plugin_versions.plugin_id vrow = Some prow →
  plugins.latest_version_id prow = Some versionId →
  let pluginId := plugin_versions.plugin_id vrow in
  let run := PluginReviewService.submitReviewDecision versionId decision w in
  (¬ pending (plugin_versions.status vrow) →
   (∃ e, outcome run = Thrown e
         ∧ (is_InvalidTransition e = true ∨ ∃ r f v, e = ResourceNotFoundException r f v))
   ∧ data (final run) = data w)
  ∧ (outcome run = Returned tt →
     pending (plugin_versions.status vrow)
     ∧ ∃ prow', plugins_table (final run) !! pluginId = Some prow'
       ∧ match fault (env w) (published_lookup w vrow) with
         | None =>
             ((∃ id r, other_published w pluginId versionId id r) →
              ∃ id r, other_published w pluginId versionId id r
                      ∧ (∀ id' r', other_published w pluginId versionId id' r' →
                           plugin_versions.created_at r' ≤ plugin_versions.created_at r)
                      ∧ plugins.latest_version_id prow' = Some id
                      ∧ plugins.status prow' = plugins.status prow)
             ∧ ((¬ ∃ id r, other_published w pluginId versionId id r) →
                plugins.latest_version_id prow' = None
                ∧ plugins.status prow' = PluginStatus.REJECTED)
         | Some _ =>
             plugins.latest_version_id prow' = None
             ∧ plugins.status prow' = PluginStatus.REJECTED
         end).
Proof.
  intros Hd Hvrow Hprow Hlatest pluginId run. subst pluginId. split.
  { intros Hnp. by apply (decision_on_a_reviewed_version_is_refused _ _ _ vrow). }
  intros Hok. subst run. unfold outcome, final in *.
  destruct (PluginReviewService.submitReviewDecision versionId decision w)
    as [res w'] eqn:Hrun. simpl in Hok. subst res. simpl.
  unfold PluginReviewService.submitReviewDecision,
    PluginReviewService.submitReviewDecision_with in Hrun.
  apply bind_inv_returned in Hrun as (version & w1 & H1 & Hrun).
  apply getVersionForReview_inv in H1 as (row0 & Hrow0 & -> & ->).
  rewrite Hvrow in Hrow0. injection Hrow0 as <-.
  apply bind_inv_returned in Hrun as (found & w2 & H2 & Hrun).
  destruct found as [plugin|]; [| discriminate].
  apply plugins_findById_inv in H2 as (prow0 & Hprow0 & -> & ->).
  simpl in Hprow0. rewrite Hprow in Hprow0. injection Hprow0 as <-.
  rewrite Hd in Hrun. simpl in Hrun.
  destruct (PluginReviewService.isValidTransition (plugin_versions.status vrow)
              ReviewDecision.REJECT) eqn:Hvalid; [| discriminate].
  split.
  { unfold pending. destruct (plugin_versions.status vrow); try discriminate; auto. }
  simpl in Hrun. unfold PluginReviewService.handleRejectDecision in Hrun.
  apply bind_inv_returned in Hrun as ([] & w3 & Hblock & Hrun).
  apply reject_cleanup_tick in Hblock as (Htick3 & Henv3 & Htab3).
  apply tables_eq in Htab3 as [Hp3 Hv3]. simpl in Htick3, Henv3, Hp3, Hv3.
  apply bind_inv_returned in Hrun as (reviewedAt & w4 & [= <- <-] & Hrun).
  apply bind_inv_returned in Hrun as (x & w5 & Hupd & Hrun).
  apply versions_update_inv in Hupd as (r4 & Hr4 & ->).
  simpl in Hr4, Hrun. rewrite Hv3, Hvrow in Hr4. injection Hr4 as <-.
  rewrite Hlatest, bool_decide_eq_true_2 in Hrun by done.
  apply bind_inv_returned in Hrun as (published & w6 & Hpub & Hrun).
  rewrite findPublishedVersions_answer in Hpub. injection Hpub as <- <-.
  simpl in Hrun. rewrite Henv3 in Hrun.
  replace (S (S (tick w3))) with (published_lookup w vrow) in Hrun.
  2:{ unfold published_lookup. rewrite Htick3.
      destruct (truthy (plugin_versions.temp_storage_path vrow)); lia. }
  destruct (fault (env w) (published_lookup w vrow)) as [msg|].
  { apply bind_inv_returned in Hrun as (y & w7 & Hpupd & Hrun). injection Hrun as <-.
    apply plugins_update_inv in Hpupd as (p6 & Hp6 & ->). simpl in Hp6 |- *.
    eexists. split; [apply lookup_insert_eq |]. done. }
  match type of Hrun with
  | context [merge_sort created_desc (select_versions (published_of ?pid) ?x)] =>
      assert (Hsel : ∀ id r, (id, r) ∈ select_versions (published_of pid) x
                             ↔ other_published w pid versionId id r)
        by (intros id r; eapply select_other_published;
            [simpl; rewrite Hv3; reflexivity | simpl; discriminate]);
      destruct (merge_sort created_desc (select_versions (published_of pid) x))
        as [|[fid frow] rest] eqn:Hsort
  end.
  - apply merge_sort_nil in Hsort. rewrite fmap_nil in Hrun.
    apply bind_inv_returned in Hrun as (y & w7 & Hpupd & Hrun). injection Hrun as <-.
    apply plugins_update_inv in Hpupd as (p6 & Hp6 & ->). simpl in Hp6 |- *.
    eexists. split; [apply lookup_insert_eq |]. split; [| done].
    intros (id & r & Hother). apply Hsel in Hother. rewrite Hsort in Hother.
    by apply elem_of_nil in Hother.
  - rewrite fmap_cons in Hrun.
    apply bind_inv_returned in Hrun as (y & w7 & Hpupd & Hrun). injection Hrun as <-.
    apply plugins_update_inv in Hpupd as (p6 & Hp6 & ->). simpl in Hp6 |- *.
    rewrite Hp3, Hprow in Hp6. injection Hp6 as <-.
    eexists. split; [apply lookup_insert_eq |]. split.
    + intros _. exists fid, frow. split_and!.
      * apply Hsel. by eapply merge_sort_head_elem.
      * intros id' r' Hother. apply Hsel in Hother.
        apply (merge_sort_head_newest _ _ _ _ Hsort Hother).
      * done.
      * done.
    + intros Hnone. exfalso. apply Hnone. exists fid, frow.
      apply Hsel. by eapply merge_sort_head_elem.
Qed.

Lemma reject_latest_reassigns_witness :
  (let w := w_three_floors in
   let vrow := version_row "p1" "2.0.0" "2.0.0" VersionStatus.PUBLISHED 1700000300000
                 (Some "com.synapse.tictic/v2.0.0/plugin.synx") (Some "plugins") None in
   let prow := plugin_row "com.synapse.tictic" PluginStatus.PUBLISHED (Some "v3") in
   let pluginId := plugin_versions.plugin_id vrow in
   let run := PluginReviewService.submitReviewDecision "v3" reject_by_admin w in
   rd_decision reject_by_admin = ReviewDecision.REJECT
   ∧ plugin_versions_table w !! "v3" = Some vrow
   ∧ plugins_table w !! plugin_versions.plugin_id vrow = Some prow
   ∧ plugins.latest_version_id prow = Some "v3"
   ∧ ¬ pending (plugin_versions.status vrow)
   ∧ (¬ pending (plugin_versions.status vrow) →
      (∃ e : Exception,
         outcome run = Thrown e
         ∧ (is_InvalidTransition e = true
            ∨ ∃ r f v : string, e = ResourceNotFoundException r f v))
      ∧ data (final run) = data w)
   ∧ (outcome run = Returned tt →
      pending (plugin_versions.status vrow)
      ∧ ∃ prow' : plugins.row, plugins_table (final run) !! pluginId = Some prow'
        ∧ match fault (env w) (published_lookup w vrow) with
          | None =>
              ((∃ (id : string) (r : plugin_versions.row),
                  other_published w pluginId "v3" id r) →
               ∃ (id : string) (r : plugin_versions.row),
                 other_published w pluginId "v3" id r
                 ∧ (∀ (id' : string) (r' : plugin_versions.row),
                      other_published w pluginId "v3" id' r' →
                      plugin_versions.created_at r' ≤ plugin_versions.created_at r)
                 ∧ plugins.latest_version_id prow' = Some id
                 ∧ plugins.status prow' = plugins.status prow)
              ∧ ((¬ ∃ (id : string) (r : plugin_versions.row),
                      other_published w pluginId "v3" id r) →
                 plugins.latest_version_id prow' = None
                 ∧ plugins.status prow' = PluginStatus.REJECTED)
          | Some _ =>
              plugins.latest_version_id prow' = None
              ∧ plugins.status prow' = PluginStatus.REJECTED
          end))
  ∧ (let w := w_three_versions in
     let vrow := version_row "p1" "3.0.0" "1.0.0" VersionStatus.PENDING_REVIEW 1700000300000
                   None None None in
     let prow := plugin_row "com.synapse.tictic" PluginStatus.PUBLISHED (Some "v1") in
     let pluginId := plugin_versions.plugin_id vrow in
     let run := PluginReviewService.submitReviewDecision "v1" reject_by_admin w in
     rd_decision reject_by_admin = ReviewDecision.REJECT
     ∧ plugin_versions_table w !! "v1" = Some vrow
     ∧ plugins_table w !! plugin_versions.plugin_id vrow = Some prow
     ∧ plugins.latest_version_id prow = Some "v1"
     ∧ outcome run = Returned tt
     ∧ (¬ pending (plugin_versions.status vrow) →
        (∃ e : Exception,
           outcome run = Thrown e
           ∧ (is_InvalidTransition e = true
              ∨ ∃ r f v : string, e = ResourceNotFoundException r f v))
        ∧ data (final run) = data w)
     ∧ (outcome run = Returned tt →
        pending (plugin_versions.status vrow)
        ∧ ∃ prow' : plugins.row, plugins_table (final run) !! pluginId = Some prow'
          ∧ match fault (env w) (published_lookup w vrow) with
            | None =>
                ((∃ (id : string) (r : plugin_versions.row),
                    other_published w pluginId "v1" id r) →
                 ∃ (id : string) (r : plugin_versions.row),
                   other_published w pluginId "v1" id r
                   ∧ (∀ (id' : string) (r' : plugin_versions.row),
                        other_published w pluginId "v1" id' r' →
                        plugin_versions.created_at r' ≤ plugin_versions.created_at r)
                   ∧ plugins.latest_version_id prow' = Some id
                   ∧ plugins.status prow' = plugins.status prow)
                ∧ ((¬ ∃ (id : string) (r : plugin_versions.row),
                        other_published w pluginId "v1" id r) →
                   plugins.latest_version_id prow' = None
                   ∧ plugins.status prow' = PluginStatus.REJECTED)
            | Some _ =>
                plugins.latest_version_id prow' = None
                ∧ plugins.status prow' = PluginStatus.REJECTED
            end)).
Proof.
  split.
  - intros w vrow prow pluginId run.
    assert (Hd : rd_decision reject_by_admin = ReviewDecision.REJECT) by reflexivity.
    assert (Hv : plugin_versions_table w !! "v3" = Some vrow) by (vm_compute; reflexivity).
    assert (Hp : plugins_table w !! plugin_versions.plugin_id vrow = Some prow)
      by (vm_compute; reflexivity).
    assert (Hl : plugins.latest_version_id prow = Some "v3") by reflexivity.
    assert (Hn : ¬ pending (plugin_versions.status vrow))
      by (intros [H | H]; discriminate H).
    split_and!; [exact Hd | exact Hv | exact Hp | exact Hl | exact Hn | |];
      apply (reject_latest_reassigns "v3" reject_by_admin w vrow prow Hd Hv Hp Hl).
  - intros w vrow prow pluginId run.
    assert (Hd : rd_decision reject_by_admin = ReviewDecision.REJECT) by reflexivity.
    assert (Hv : plugin_versions_table w !! "v1" = Some vrow) by (vm_compute; reflexivity).
    assert (Hp : plugins_table w !! plugin_versions.plugin_id vrow = Some prow)
      by (vm_compute; reflexivity).
    assert (Hl : plugins.latest_version_id prow = Some "v1") by reflexivity.
    assert (Hok : outcome run = Returned tt) by (vm_compute; reflexivity).
    split_and!; [exact Hd | exact Hv | exact Hp | exact Hl | exact Hok | |];
      apply (reject_latest_reassigns "v1" reject_by_admin w vrow prow Hd Hv Hp Hl).
Defined.

(** C3, as stated, fails twice.  In a store the services wrote, the latest
    version of a plugin is PUBLISHED: a REJECT decision on it is refused
    and nothing is promoted, whatever other PUBLISHED versions there are.
    And when the latest version is in review and the lookup of the
    published versions fails, the plugin loses its latest version and is
    REJECTED although it has other PUBLISHED versions. *)
Lemma rejecting_the_latest_version_need_not_promote :
  (let w := w_three_floors in
   let run := PluginReviewService.submitReviewDecision "v3" reject_by_admin w in
   plugins.latest_version_id <$> plugins_table w !! "p1" = Some (Some "v3")
   ∧ other_published w "p1" "v3" "v2"
       (version_row "p1" "1.1.0" "1.2.0" VersionStatus.PUBLISHED 1700000200000
          (Some "com.synapse.tictic/v1.1.0/plugin.synx") (Some "plugins") None)
   ∧ outcome run
     = Thrown (InvalidTransitionException
                 "Version status is PUBLISHED, cannot transition to REJECT")
   ∧ plugins.latest_version_id <$> plugins_table (final run) !! "p1" = Some (Some "v3"))
  ∧ (let w := drop_request 4 w_three_versions in
     let run := PluginReviewService.submitReviewDecision "v1" reject_by_admin w in
     plugins.latest_version_id <$> plugins_table w !! "p1" = Some (Some "v1")
     ∧ other_published w "p1" "v1" "v3"
         (version_row "p1" "2.0.0" "1.0.0" VersionStatus.PUBLISHED 1700000200000
            None None None)
     ∧ outcome run = Returned tt
     ∧ plugin_versions.status <$> plugin_versions_table (final run) !! "v3"
       = Some VersionStatus.PUBLISHED
     ∧ plugins.latest_version_id <$> plugins_table (final run) !! "p1" = Some None
     ∧ plugins.status <$> plugins_table (final run) !! "p1"
       = Some PluginStatus.REJECTED).
Proof.
  split; intros w run; split_and!; try (vm_compute; reflexivity);
    unfold other_published; split_and!; try (vm_compute; reflexivity); discriminate.
Qed.


(** C9, as the code has it.  [deleteArtifact] does not look at whether the
    object is there: it makes one removal request and throws exactly when
    the store reports an error for it, with the store's message, for an
    absent object as for a present one.  For a path that holds no object,
    the stored objects and the tables are those of before the call,
    whether the request was acknowledged or refused. *)
Theorem deleteArtifact_absent_object storagePath bucket w :
  objects w !! (bucket, storagePath) = None →
  let run := StorageService.deleteArtifact storagePath bucket w in
  outcome run
  = match fault (env w) (tick w) with
    | None => Returned tt
    | Some msg => Thrown (Error ("Artifact deletion failed: " +:+ msg))
    end
  ∧ calls (final run) = (calls w ++ [Remove bucket storagePath (acknowledged w (tick w))])%list
  ∧ objects (final run) = objects w
  ∧ tables (final run) = tables w
  ∧ ∀ data,
      outcome (StorageService.deleteArtifact storagePath bucket
                 (set_objects (<[(bucket, storagePath) := data]> (objects w)) w))
      = outcome run.
Proof.
  intros Habsent run. subst run.
  unfold StorageService.deleteArtifact, storage_remove, supabase_error, interact, bind,
    modify, ret, throw, outcome, final, acknowledged.
  simpl. destruct (fault (env w) (tick w)) as [msg|]; simpl; split_and!; try done.
  by apply delete_id.
Qed.

Lemma deleteArtifact_absent_object_witness :
  let w := w_staged in
  let run := StorageService.deleteArtifact "no/such/plugin.synx" "temp_uploads" w in
  objects w !! ("temp_uploads", "no/such/plugin.synx") = None
  ∧ outcome run
    = match fault (env w) (tick w) with
      | None => Returned tt
      | Some msg => Thrown (Error ("Artifact deletion failed: " +:+ msg))
      end
  ∧ calls (final run)
    = (calls w
       ++ [Remove "temp_uploads" "no/such/plugin.synx" (acknowledged w (tick w))])%list
  ∧ objects (final run) = objects w
  ∧ tables (final run) = tables w
  ∧ ∀ data : Buffer,
      outcome (StorageService.deleteArtifact "no/such/plugin.synx" "temp_uploads"
                 (set_objects
                    (<[("temp_uploads", "no/such/plugin.synx") := data]> (objects w)) w))
      = outcome run.
Proof.
  intros w run.
  assert (Ha : objects w !! ("temp_uploads", "no/such/plugin.synx") = None)
    by (vm_compute; reflexivity).
  split; [exact Ha |].
  exact (deleteArtifact_absent_object "no/such/plugin.synx" "temp_uploads" w Ha).
Defined.

(** C9, as stated, fails: when the store refuses the request,
    [deleteArtifact] throws although the path holds no object. *)
Lemma deleteArtifact_throws_for_an_absent_object :
  let w := drop_request 0 w_staged in
  let run := StorageService.deleteArtifact "no/such/plugin.synx" "temp_uploads" w in
  objects w !! ("temp_uploads", "no/such/plugin.synx") = None
  ∧ outcome run = Thrown (Error "Artifact deletion failed: connection reset").
Proof. split; vm_compute; reflexivity. Qed.

(** C7, on the code.  [uploadArtifact] stages the artifact in the
    configured temp-uploads bucket; the cleanup of a failed submission
    asks for its removal from the bucket "temp_uploads".  With the bucket
    named temp-uploads, as the schema script and the tests of the storage
    service name it, a submission that fails after staging (here on a
    version that exists already) rethrows the original error and has every
    request acknowledged, and the staged artifact is still stored.  With
    the bucket named temp_uploads the same submission leaves nothing
    staged. *)
Theorem cleanup_misses_the_configured_temp_bucket :
  let packageId := "com.synapse.tictic" in
  let icon := "9f86d081884c7d659a2feaa0c55ad015a3bf4f1b2b0b822cd15d6c15b0f00a08.png" in
  let tempPath := "temp_1700000000002/com.synapse.tictic/v1.0.0/plugin.synx" in
  let conflict := VersionConflictException packageId "1.0.0" in
  let run := DeveloperService.submitPluginSynx tictic_synx packageId w_hyphenated in
  let run' := DeveloperService.submitPluginSynx tictic_synx packageId w_has_1_0_0 in
  tempUploadsBucket (config (env w_hyphenated)) = "temp-uploads"
  ∧ outcome run = Thrown conflict
  ∧ calls (final run)
    = [Sign "icons" icon false; Upload "icons" icon true;
       Upload "temp-uploads" tempPath true;
       Remove "icons" icon true; Remove "temp_uploads" tempPath true]
  ∧ objects (final run) !! ("temp-uploads", tempPath) = Some (buffer tictic_synx)
  ∧ tempUploadsBucket (config (env w_has_1_0_0)) = "temp_uploads"
  ∧ outcome run' = Thrown conflict
  ∧ calls (final run')
    = [Sign "icons" icon false; Upload "icons" icon true;
       Upload "temp_uploads" tempPath true;
       Remove "icons" icon true; Remove "temp_uploads" tempPath true]
  ∧ objects (final run') = ∅.
Proof. split_and!; vm_compute; reflexivity. Qed.

(** C6, as the code has it.  The version row a successful
    [submitPluginSynx] creates is SUBMITTED and already has its storage
    location set: [storage_path] is the deterministic artifact path,
    [storage_bucket] the configured temp-uploads bucket, and
    [temp_storage_path] the path the artifact was staged at. *)
Theorem submitPluginSynx_created_version file packageId w response :
  let run := DeveloperService.submitPluginSynx file packageId w in
  outcome run = Returned response →
  ∃ row (now : Z),
    plugin_versions_table (final run) !! r_versionId response = Some row
    ∧ plugin_versions.status row = VersionStatus.SUBMITTED
    ∧ plugin_versions.storage_path row
      = Some (StorageService.getArtifactPath packageId (r_version response))
    ∧ plugin_versions.storage_bucket row
      = or_null (Some (tempUploadsBucket (config (env w))))
    ∧ plugin_versions.temp_storage_path row
      = Some ("temp_" +:+ String_of_number now +:+ "/"
              +:+ StorageService.getArtifactPath packageId (r_version response)).
Proof.
  intros run Hok. subst run. unfold outcome, final, DeveloperService.submitPluginSynx in *.
  destruct (DeveloperService.submitPluginSynx_try file packageId
              (DeveloperService.initialState packageId, w)) as [[r|e] [state wf]] eqn:H;
    simpl in *.
  2:{ exfalso. revert Hok. unfold bind.
      destruct (DeveloperService.cleanupFailedUpload state wf) as [[[]|e'] w']; discriminate. }
  injection Hok as ->.
  unfold DeveloperService.submitPluginSynx_try in H.
  apply bind_inv_returned in H as (pkg & [s1 w1] & Hpkg & H).
  apply lift_inv in Hpkg as [-> Hpkg].
  apply bind_inv_returned in H as ([] & [s2 w2] & Hicon & H).
  assert (Henv2 : env w2 = env w).
  { rewrite <- (keeps_run _ _ _ _ _ (extractPackage_keeps_env (buffer file)) Hpkg).
    destruct (iconData pkg) as [data|]; [| by injection Hicon as <- <-].
    destruct (truthy (iconName pkg)); [| by injection Hicon as <- <-].
    apply bind_inv_returned in Hicon as (h & [s wh] & Hh & Hicon).
    apply lift_inv in Hh as [-> Hh]. injection Hh as <- <-.
    apply bind_inv_returned in Hicon as (k & [s wk] & Hk & Hicon).
    apply lift_inv in Hk as [-> Hk]. injection Hicon as _ <-.
    apply (keeps_run _ _ _ _ _ (uploadIcon_keeps_env _ _ _) Hk). }
  apply bind_inv_returned in H as (staged & [s3 w3] & Hup & H).
  apply lift_inv in Hup as [-> Hup].
  apply bind_inv_returned in H as ([] & [s4 w4] & Hset & H). injection Hset as <- <-.
  apply bind_inv_returned in H as ([s5 w5] & [s5' w5'] & Hget & H).
  injection Hget as <- <- <- <-.
  apply bind_inv_returned in H as (resp & [s6 w6] & Hsub & H).
  apply lift_inv in Hsub as [-> Hsub].
  apply bind_inv_returned in H as ([] & [s7 w7] & Hclear & H).
  injection H as <- <- <-. injection Hclear as _ <-.
  apply uploadArtifact_inv in Hup as (Hsp & Hsb & Htp & _).
  apply submitPlugin_created in Hsub as (Hver & row & Hrow & Hst & Hpath & Hbucket & Htemp).
  exists row, (clock (env w2) (tick w2)).
  rewrite Hsp, Hsb, Htp, ?Henv2 in *. rewrite Hver.
  split_and!; [done | done | | done | done].
  by rewrite Hpath, getArtifactPath_truthy.
Qed.

Lemma submitPluginSynx_created_version_witness :
  let run := DeveloperService.submitPluginSynx tictic_synx "com.synapse.tictic" w_empty in
  let response := first_submission_response in
  outcome run = Returned response
  ∧ ∃ row (now : Z),
      plugin_versions_table (final run) !! r_versionId response = Some row
      ∧ plugin_versions.status row = VersionStatus.SUBMITTED
      ∧ plugin_versions.storage_path row
        = Some (StorageService.getArtifactPath "com.synapse.tictic" (r_version response))
      ∧ plugin_versions.storage_bucket row
        = or_null (Some (tempUploadsBucket (config (env w_empty))))
      ∧ plugin_versions.temp_storage_path row
        = Some ("temp_" +:+ String_of_number now +:+ "/"
                +:+ StorageService.getArtifactPath "com.synapse.tictic"
                      (r_version response)).
Proof.
  intros run response.
  assert (Hok : outcome run = Returned response) by (vm_compute; reflexivity).
  split; [exact Hok |].
  exact (submitPluginSynx_created_version tictic_synx "com.synapse.tictic" w_empty
           response Hok).
Defined.

(** C6, as stated, fails: the version a submission has just created is
    SUBMITTED and its [storage_path] and [storage_bucket] are not null. *)
Lemma submitted_version_has_storage_location :
  let run := DeveloperService.submitPluginSynx tictic_synx "com.synapse.tictic" w_empty in
  let created := plugin_versions_table (final run) !! "uuid-9" in
  r_versionId <$> returned run = Some "uuid-9"
  ∧ plugin_versions.status <$> created = Some VersionStatus.SUBMITTED
  ∧ plugin_versions.storage_path <$> created
    = Some (Some "com.synapse.tictic/v1.0.0/plugin.synx")
  ∧ plugin_versions.storage_bucket <$> created = Some (Some "temp_uploads").
Proof. vm_compute. auto. Qed.

(** On versions whose components have one digit the resolver picks the
    highest floor the app reaches, or fails with InvalidVersion. *)
Example resolver_on_single_digit_versions :
  r_versionId <$> returned (PluginsService.getPluginByPackageId "com.synapse.tictic"
                              (Some "1.5.0") w_three_floors) = Some "v2"
  ∧ r_versionId <$> returned (PluginsService.getPluginByPackageId "com.synapse.tictic"
                                (Some "2.0.0") w_three_floors) = Some "v3"
  ∧ returned (PluginsService.getPluginByPackageId "com.synapse.tictic"
                (Some "0.9.0") w_three_floors) = None.
Proof. split_and!; vm_compute; reflexivity. Qed.

(** C1, on the code.  The [ORDER BY] of the resolver ranks 1.10.0 above
    1.9.0, as numbers, but its [WHERE] clause compares the two version
    texts: with an app at 1.9.0 the resolver returns a version that needs
    1.10.0, and with an app at 1.10.0 it finds no compatible version for a
    plugin whose published version needs 1.9.0. *)
Theorem resolver_filters_min_app_version_as_text :
  (a ← int_array "1.10.0"; b ← int_array "1.9.0"; Some (array_cmp a b)) = Some Gt
  ∧ text_le "1.10.0" "1.9.0" = true
  ∧ r_minAppVersion
      <$> returned (PluginsService.getPluginByPackageId "com.synapse.tictic" (Some "1.9.0")
                      w_needs_1_10)
    = Some "1.10.0"
  ∧ outcome (PluginsService.getPluginByPackageId "com.synapse.tictic" (Some "1.10.0")
               w_needs_1_9)
    = Thrown (InvalidVersionException
        ("No compatible version found for plugin 'com.synapse.tictic' with app version "
         +:+ "'1.10.0'. The plugin requires a newer version of the app.")).
Proof. split_and!; vm_compute; reflexivity. Qed.

(** * Further properties of the code *)

(** ** Helpers *)

Lemma run_eq {Σ A} (r : Outcome A * Σ) (a : Outcome A) : r.1 = a → r = (a, r.2).
Proof. destruct r as [o w]. simpl. by intros ->. Qed.

Lemma append_cons c (s t : string) : String c s +:+ t = String c (s +:+ t).
Proof. reflexivity. Qed.

Lemma append_empty_r (s : string) : s +:+ "" = s.
Proof. induction s as [|c s IH]; [done |]. by rewrite append_cons, IH. Qed.

Lemma append_length (a b : string) :
  String.length (a +:+ b) = (String.length a + String.length b)%nat.
Proof. induction a as [|c a IH]; [done |]. rewrite append_cons. simpl. by rewrite IH. Qed.

(** ** The artifact store adapter *)


Lemma uploadArtifact_keeps_env buffer contentType packageId version :
  keeps env (StorageService.uploadArtifact buffer contentType packageId version).
Proof.
  unfold StorageService.uploadArtifact, StorageService.calculateChecksum, Date_now.
  apply keeps_bind; [keeps_auto | intros ?].
  apply keeps_bind; [keeps_auto | intros ?].
  apply keeps_bind; [keeps_auto | intros ?].
  apply keeps_bind; [apply storage_upload_keeps_env | intros ?]. keeps_auto.
Qed.

(** What a successful move did to the objects. *)
Lemma moveArtifact_inv sourcePath packageId version w path w' :
  StorageService.moveArtifact sourcePath packageId version w = (Returned path, w') →
  ∃ data,
    objects w !! (tempUploadsBucket (config (env w)), sourcePath) = Some data
    ∧ path = StorageService.getArtifactPath packageId version
    ∧ objects w'
      = delete (tempUploadsBucket (config (env w)), sourcePath)
          (<[(pluginsBucket (config (env w)), path) := data]> (objects w)).
Proof.
  unfold StorageService.moveArtifact, StorageService.deleteArtifact, storage_download,
    storage_upload, storage_remove, supabase_error, interact, asks, bind, get, modify,
    ret, throw.
  simpl. destruct (fault (env w) (tick w)); simpl; [discriminate |].
  destruct (objects w !! _) as [data|] eqn:Hdata; simpl; [| discriminate].
  destruct (fault (env w) (S (tick w))); simpl; [discriminate |].
  destruct (fault (env w) (S (S (tick w)))); simpl; [discriminate |].
  intros [= <- <-]. exists data. done.
Qed.

(** X2.  An artifact staged by [uploadArtifact] and then promoted by
    [moveArtifact] arrives intact: the permanent bucket holds the very
    bytes that were uploaded, under the artifact path, and the staging
    copy is gone. *)
Theorem staged_artifact_is_promoted_intact
    buffer contentType packageId version w staged w1 path w2 :
  StorageService.uploadArtifact buffer contentType packageId version w
    = (Returned staged, w1) →
  StorageService.moveArtifact (ar_tempPath staged) packageId version w1
    = (Returned path, w2) →
  path = ar_storagePath staged
  ∧ objects w2 !! (pluginsBucket (config (env w)), path) = Some buffer
  ∧ objects w2 !! (ar_bucket staged, ar_tempPath staged) = None.
Proof.
  intros Hup Hmove.
  pose proof (keeps_run _ _ _ _ _ (uploadArtifact_keeps_env _ _ _ _) Hup) as Henv.
  apply uploadArtifact_inv in Hup as (Hpath & Hbucket & Htemp & Hobj).
  apply moveArtifact_inv in Hmove as (data & Hdata & -> & Hobjects).
  rewrite Henv in Hdata, Hobjects. rewrite Hobj in Hdata. injection Hdata as <-.
  split; [done |]. rewrite Hobjects, Hbucket. split; [| apply lookup_delete_eq].
  rewrite lookup_delete_ne; [apply lookup_insert_eq |].
  intros [= _ Heq]. apply (f_equal String.length) in Heq.
  rewrite Htemp in Heq. rewrite !append_length in Heq. simpl in Heq. lia.
Qed.

Lemma staged_artifact_is_promoted_intact_witness :
  let up := StorageService.uploadArtifact [] "application/zip" "com.synapse.tictic" "1.0.0"
              w_empty in
  let staged :=
    {| ar_storagePath := "com.synapse.tictic/v1.0.0/plugin.synx";
       ar_bucket := "temp_uploads";
       ar_fileSizeBytes := 0;
       ar_checksumSha256 := "9f86d081884c7d659a2feaa0c55ad015a3bf4f1b2b0b822cd15d6c15b0f00a08";
       ar_contentType := "application/zip";
       ar_tempPath := "temp_1700000000000/com.synapse.tictic/v1.0.0/plugin.synx" |} in
  let move := StorageService.moveArtifact (ar_tempPath staged) "com.synapse.tictic" "1.0.0"
                up.2 in
  let path := "com.synapse.tictic/v1.0.0/plugin.synx" in
  up = (Returned staged, up.2)
  ∧ move = (Returned path, move.2)
  ∧ path = ar_storagePath staged
  ∧ objects move.2 !! (pluginsBucket (config (env w_empty)), path) = Some []
  ∧ objects move.2 !! (ar_bucket staged, ar_tempPath staged) = None.
Proof.
  intros up staged move path.
  assert (H1 : up.1 = Returned staged) by (vm_compute; reflexivity).
  pose proof (run_eq up _ H1) as Hup.
  assert (H2 : move.1 = Returned path) by (vm_compute; reflexivity).
  pose proof (run_eq move _ H2) as Hmove.
  split; [exact Hup | split; [exact Hmove |]].
  exact (staged_artifact_is_promoted_intact [] "application/zip" "com.synapse.tictic"
           "1.0.0" w_empty staged up.2 path move.2 Hup Hmove).
Defined.

(** [trimStart] strips the white space of ECMAScript, beyond that of
    ASCII: here a space, a no-break space (U+00A0), a line separator
    (U+2028) and a byte order mark (U+FEFF), in UTF-8; a zero-width space
    (U+200B) is not white space. *)
Example trimStart_strips_the_white_space_of_ECMAScript :
  trimStart (String " " (String "194" (String "160"
              (String "226" (String "128" (String "168"
                (String "239" (String "187" (String "191" "a b")))))))))
  = "a b"
  ∧ trimStart (String "226" (String "128" (String "139" "")))
    = String "226" (String "128" (String "139" "")).
Proof. split; reflexivity. Qed.


(** X4.  [uploadIcon] stores the icon under [iconKey] followed by the
    extension of [iconName].  It first asks for a signed URL of that path
    in the icons bucket, which it gets exactly when the path is not blank,
    the store answers and the path holds an object.  When it gets one, the
    icon there is reused: the call returns the path, nothing is uploaded
    and no object changes.  When it gets none, the data is uploaded to the
    icons bucket under that path; a refused upload throws and changes no
    object.  The tables are never touched. *)
Theorem uploadIcon_reuses_or_uploads iconData iconName iconKey w :
  let run := StorageService.uploadIcon iconData iconName iconKey w in
  let path := iconKey +:+ StorageService.extension iconName in
  let bucket := iconsBucket (config (env w)) in
  let signed := if String.eqb bucket "" then pluginsBucket (config (env w)) else bucket in
  let probe := StorageService.getSignedUrl path bucket w in
  tables (final run) = tables w
  ∧ ((∃ url, outcome probe = Returned url)
     ↔ trimStart path ≠ "" ∧ fault (env w) (tick w) = None
       ∧ is_Some (objects w !! (signed, path)))
  ∧ match outcome probe with
    | Returned _ =>
        outcome run = Returned path
        ∧ objects (final run) = objects w
        ∧ calls (final run) = calls (final probe)
    | Thrown _ =>
        calls (final run)
        = (calls (final probe)
           ++ [Upload bucket path (acknowledged w (tick (final probe)))])%list
        ∧ match fault (env w) (tick (final probe)) with
          | None =>
              outcome run = Returned path
              ∧ objects (final run) = <[(bucket, path) := iconData]> (objects w)
          | Some msg =>
              outcome run = Thrown (Error ("Icon upload failed: " +:+ msg))
              ∧ objects (final run) = objects w
          end
    end.
Proof.
  unfold StorageService.uploadIcon, StorageService.getSignedUrl, outcome, final, acknowledged.
  unfold try_catch, storage_sign, storage_upload, Date_now, supabase_error, interact,
    asks, bind, get, modify, ret, throw.
  simpl.
  destruct (String.eqb (trimStart _) "") eqn:Hblank; simpl.
  { apply String.eqb_eq in Hblank.
    destruct (fault (env w) (tick w)) as [msg|]; simpl; split_and!; try done;
      (split; [intros [? ?]; discriminate | intros [? _]; done]). }
  apply String.eqb_neq in Hblank.
  destruct (fault (env w) (tick w)) as [msg|]; simpl.
  { destruct (fault (env w) (S (tick w))) as [msg'|]; simpl; split_and!; try done;
      (split; [intros [? ?]; discriminate | intros (_ & ? & _); done]). }
  destruct (objects w !! _) as [old|] eqn:Hold; simpl.
  { split_and!; try done. split; [| by eexists].
    intros _. split_and!; [done | done | by eexists]. }
  destruct (fault (env w) (S (tick w))) as [msg'|]; simpl; split_and!; try done;
    (split; [intros [? ?]; discriminate | intros (_ & _ & [? ?]); done]).
Qed.

(** X5.  [extension] is the suffix of the file name that starts at its
    last dot, and the empty string for a name without a dot. *)
Theorem extension_is_the_suffix_from_the_last_dot iconName :
  ∃ stem,
    iconName = stem +:+ StorageService.extension iconName
    ∧ (StorageService.extension iconName = ""
       ∧ ¬ In "."%char (String.list_ascii_of_string iconName)
       ∨ ∃ ext, StorageService.extension iconName = String "."%char ext
                ∧ ¬ In "."%char (String.list_ascii_of_string ext)).
Proof.
  induction iconName as [|c rest (stem & Hstem & IH)]; simpl.
  { exists "". split; [done |]. left. split; [done | by intros []]. }
  destruct (StorageService.extension rest) as [|d ext'] eqn:Hext.
  - destruct IH as [[_ Hnodot] | (ext & Hdot & _)]; [| discriminate].
    destruct (Ascii.eqb c ".") eqn:Hc.
    + apply Ascii.eqb_eq in Hc as ->. exists "". split; [done |]. right. by exists rest.
    + apply Ascii.eqb_neq in Hc. exists (String c rest).
      split; [by rewrite append_empty_r |]. left. split; [done |].
      simpl. intros [Heq | Hin]; [by apply Hc | by apply Hnodot].
  - destruct IH as [[Hempty _] | (ext & Hdot & Hnodot)]; [discriminate |].
    exists (String c stem). split; [by rewrite append_cons, <- Hstem |].
    right. exists ext. done.
Qed.

(** ** The package reader *)

Lemma prefix_spec (p s : string) :
  String.prefix p s = true ↔ ∃ b, s = p +:+ b.
Proof.
  revert p. induction s as [|d s IH]; intros [|c p]; simpl.
  - split; [intros _; by exists "" | done].
  - split; [done | intros [b Hb]; by rewrite append_cons in Hb].
  - split; [intros _; by exists (String d s) | done].
  - destruct (ascii_dec c d) as [<- | Hne].
    + rewrite IH. split.
      * intros [b ->]. by exists b.
      * intros [b Hb]. rewrite append_cons in Hb. injection Hb as ->. by exists b.
    + split; [done |]. intros [b Hb]. rewrite append_cons in Hb. by injection Hb.
Qed.

Lemma includes_cons c (s sub : string) :
  SynxPackageService.includes (String c s) sub
  = String.prefix sub (String c s) || SynxPackageService.includes s sub.
Proof. reflexivity. Qed.

Lemma includes_spec (s sub : string) :
  SynxPackageService.includes s sub = true ↔ ∃ a b, s = a +:+ sub +:+ b.
Proof.
  induction s as [|c s IH].
  - change (SynxPackageService.includes "" sub) with (String.prefix sub "" || false).
    rewrite orb_false_r, prefix_spec. split.
    + intros [b Hb]. by exists "", b.
    + intros (a & b & Hab). destruct a as [|d a]; [by exists b |].
      rewrite append_cons in Hab. discriminate.
  - rewrite includes_cons, orb_true_iff, prefix_spec, IH. split.
    + intros [[b Hb] | (a & b & ->)]; [by exists "", b |].
      by exists (String c a), b.
    + intros (a & b & Hab). destruct a as [|d a]; [left; by exists b |].
      rewrite append_cons in Hab. injection Hab as -> ->. right. by exists a, b.
Qed.

Lemma entries_loop_inv parse entries result found result' found' :
  SynxPackageService.entries_loop parse entries result found = inr (result', found') →
  Forall safe_entry entries
  ∧ (found'.1 = true →
     found.1 = true ∧ manifest result' = manifest result
     ∨ ∃ e, e ∈ entries ∧ isDirectory e = false ∧ entryName e = "manifest.json"
            ∧ parse (getData e) = Some (manifest result')
            ∧ truthy (m_name (manifest result')) = true
            ∧ truthy (m_version (manifest result')) = true)
  ∧ (found'.2 = true →
     found.2 = true ∧ jsCode result' = jsCode result
     ∨ ∃ e, e ∈ entries ∧ isDirectory e = false ∧ entryName e = "plugin.js"
            ∧ jsCode result' = getData e).
Proof.
  revert result found.
  induction entries as [|entry rest IH]; intros result found; simpl.
  { intros [= <- <-]. split; [constructor |]. split; intros ?; by left. }
  destruct (isDirectory entry) eqn:Hdir.
  { intros H. apply IH in H as (Hsafe & Hm & Hj). split_and!.
    - constructor; [| done]. intros Hd. congruence.
    - intros Hf. destruct (Hm Hf) as [? | (e & He & ?)]; [by left |].
      right. exists e. split; [by right | done].
    - intros Hf. destruct (Hj Hf) as [? | (e & He & ?)]; [by left |].
      right. exists e. split; [by right | done]. }
  destruct (SynxPackageService.includes (entryName entry) ".."
            || String.prefix "/" (entryName entry)) eqn:Hslip; [discriminate |].
  apply orb_false_iff in Hslip as [Hdots Hroot].
  assert (Hentry : safe_entry entry).
  { intros _. split.
    - intros a b Hab.
      assert (SynxPackageService.includes (entryName entry) ".." = true)
        by (apply includes_spec; eauto).
      congruence.
    - intros b Hb.
      assert (String.prefix "/" (entryName entry) = true) by (apply prefix_spec; eauto).
      congruence. }
  destruct (String.eqb (entryName entry) "manifest.json") eqn:Hman.
  { apply String.eqb_eq in Hman.
    unfold SynxPackageService.extractManifest.
    destruct (parse (getData entry)) as [m|] eqn:Hparse; [| discriminate].
    destruct (truthy (m_name m)) eqn:Hname; simpl; [| discriminate].
    destruct (truthy (m_version m)) eqn:Hversion; simpl; [| discriminate].
    intros H. apply IH in H as (Hsafe & Hm & Hj). simpl in *. split_and!.
    - by constructor.
    - intros Hf. right. destruct (Hm Hf) as [[_ Heq] | (e & He & ?)].
      + exists entry. rewrite Heq. split_and!; try done. by left.
      + exists e. split; [by right | done].
    - intros Hf. destruct (Hj Hf) as [? | (e & He & ?)]; [by left |].
      right. exists e. split; [by right | done]. }
  destruct (String.eqb (entryName entry) "plugin.js") eqn:Hjs.
  { apply String.eqb_eq in Hjs.
    intros H. apply IH in H as (Hsafe & Hm & Hj). simpl in *. split_and!.
    - by constructor.
    - intros Hf. destruct (Hm Hf) as [? | (e & He & ?)]; [by left |].
      right. exists e. split; [by right | done].
    - intros Hf. right. destruct (Hj Hf) as [[_ Heq] | (e & He & ?)].
      + exists entry. rewrite Heq. split_and!; try done. by left.
      + exists e. split; [by right | done]. }
  assert (Hother : ∀ result0,
    manifest result0 = manifest result → jsCode result0 = jsCode result →
    SynxPackageService.entries_loop parse rest result0 found = inr (result', found') →
    Forall safe_entry (entry :: rest)
    ∧ (found'.1 = true →
       found.1 = true ∧ manifest result' = manifest result
       ∨ ∃ e, e ∈ entry :: rest ∧ isDirectory e = false ∧ entryName e = "manifest.json"
              ∧ parse (getData e) = Some (manifest result')
              ∧ truthy (m_name (manifest result')) = true
              ∧ truthy (m_version (manifest result')) = true)
    ∧ (found'.2 = true →
       found.2 = true ∧ jsCode result' = jsCode result
       ∨ ∃ e, e ∈ entry :: rest ∧ isDirectory e = false ∧ entryName e = "plugin.js"
              ∧ jsCode result' = getData e)).
  { intros result0 Hm0 Hj0 H. apply IH in H as (Hsafe & Hm & Hj).
    rewrite Hm0 in Hm. rewrite Hj0 in Hj. split_and!.
    - by constructor.
    - intros Hf. destruct (Hm Hf) as [? | (e & He & ?)]; [by left |].
      right. exists e. split; [by right | done].
    - intros Hf. destruct (Hj Hf) as [? | (e & He & ?)]; [by left |].
      right. exists e. split; [by right | done]. }
  destruct (_ || _); [by apply Hother |].
  destruct (String.eqb _ "README.md"); by apply Hother.
Qed.

Lemma entries_loop_error parse entries result found err :
  SynxPackageService.entries_loop parse entries result found = inl err → is_Error err.
Proof.
  revert result found.
  induction entries as [|entry rest IH]; intros result found; simpl; [discriminate |].
  destruct (isDirectory entry); [apply IH |].
  destruct (_ || _); [by intros [= <-] |].
  destruct (String.eqb _ "manifest.json").
  { unfold SynxPackageService.extractManifest.
    destruct (parse (getData entry)) as [m|]; [| by intros [= <-]].
    destruct (truthy (m_name m)); simpl; [| by intros [= <-]].
    destruct (truthy (m_version m)); simpl; [apply IH | by intros [= <-]]. }
  destruct (String.eqb _ "plugin.js"); [apply IH |].
  destruct (_ || _); [apply IH |].
  destruct (String.eqb _ "README.md"); apply IH.
Qed.

(** What an accepted package is. *)
Lemma extractPackage_inv buffer w pkg w' :
  SynxPackageService.extractPackage buffer w = (Returned pkg, w') →
  ∃ entries,
    AdmZip (env w) buffer = Some entries
    ∧ Forall safe_entry entries
    ∧ (∃ e, e ∈ entries ∧ isDirectory e = false ∧ entryName e = "manifest.json"
            ∧ JSON_parse (env w) (getData e) = Some (manifest pkg))
    ∧ truthy (m_name (manifest pkg)) = true
    ∧ truthy (m_version (manifest pkg)) = true
    ∧ (∃ e, e ∈ entries ∧ isDirectory e = false ∧ entryName e = "plugin.js"
            ∧ jsCode pkg = getData e).
Proof.
  unfold SynxPackageService.extractPackage, asks, bind, ret, throw.
  simpl. destruct (AdmZip (env w) buffer) as [entries|]; simpl; [| discriminate].
  destruct (SynxPackageService.entries_loop _ _ _ _)
    as [err | [result [foundManifest foundPluginJs]]] eqn:Hloop; simpl; [discriminate |].
  destruct foundManifest; simpl; [| discriminate].
  destruct foundPluginJs; simpl; [| discriminate].
  intros [= <- <-]. apply entries_loop_inv in Hloop as (Hsafe & Hm & Hj). simpl in *.
  destruct (Hm eq_refl) as [[? _] | (e & He & Hdir & Hname & Hparse & Hn & Hv)]; [done |].
  destruct (Hj eq_refl) as [[? _] | (e' & He' & Hdir' & Hname' & Hcode)]; [done |].
  exists entries. split_and!; [done | done | by exists e | done | done | by exists e'].
Qed.

(** ** The submission workflow, further *)

Lemma extractPackage_final buffer w : (SynxPackageService.extractPackage buffer w).2 = w.
Proof.
  unfold SynxPackageService.extractPackage, asks, bind, ret, throw. simpl.
  destruct (AdmZip (env w) buffer) as [entries|]; simpl; [| done].
  destruct (SynxPackageService.entries_loop _ _ _ _) as [err | [result [[] []]]]; done.
Qed.

Lemma extractPackage_raises buffer : raises is_Error (SynxPackageService.extractPackage buffer).
Proof.
  intros w e.
  unfold SynxPackageService.extractPackage, asks, bind, ret, throw. simpl.
  destruct (AdmZip (env w) buffer) as [entries|]; simpl; [| by intros [= <-]].
  destruct (SynxPackageService.entries_loop _ _ _ _)
    as [err | [result [[] []]]] eqn:Hloop; simpl; try (by intros [= <-]); try done.
  intros [= <-]. by eapply entries_loop_error.
Qed.


(** X7.  A package that [extractPackage] refuses is refused by
    [submitPluginSynx] with the same error and without any effect: no
    request goes to the stores, no row and no object changes.  The
    exception filter answers such an error with status 500 and the text
    "Internal server error", not with the reason of the refusal. *)
Theorem submitPluginSynx_refuses_invalid_package file packageId request w e w' w0 :
  SynxPackageService.extractPackage (buffer file) w = (Thrown e, w') →
  DeveloperService.submitPluginSynx file packageId w = (Thrown e, w)
  ∧ ∃ response,
      outcome (GlobalExceptionFilter.catch e request w0) = Returned response
      ∧ GlobalExceptionFilter.er_statusCode response = 500
      ∧ GlobalExceptionFilter.er_message response = "Internal server error".
Proof.
  intros Hpkg.
  pose proof (extractPackage_final (buffer file) w) as Hw. rewrite Hpkg in Hw.
  simpl in Hw. subst w'.
  pose proof (extractPackage_raises (buffer file) w e) as He. rewrite Hpkg in He.
  specialize (He eq_refl). split.
  - unfold DeveloperService.submitPluginSynx, DeveloperService.submitPluginSynx_try.
    unfold bind at 1. unfold DeveloperService.lift at 1. simpl. rewrite Hpkg. simpl.
    reflexivity.
  - destruct e; try done. eexists. split; [reflexivity |]. done.
Qed.

Lemma submitPluginSynx_refuses_invalid_package_witness :
  let file := {| originalname := "notes.txt"; mimetype := "text/plain"; buffer := [] |} in
  let w := w_one_version VersionStatus.SUBMITTED None None in
  let e := Error "File must be a valid ZIP archive" in
  let request := {| GlobalExceptionFilter.method := "POST";
                    GlobalExceptionFilter.url := "/api/v1/dev/plugins/submit" |} in
  SynxPackageService.extractPackage (buffer file) w = (Thrown e, w)
  ∧ DeveloperService.submitPluginSynx file "com.synapse.tictic" w = (Thrown e, w)
  ∧ ∃ response,
      outcome (GlobalExceptionFilter.catch e request w) = Returned response
      ∧ GlobalExceptionFilter.er_statusCode response = 500
      ∧ GlobalExceptionFilter.er_message response = "Internal server error".
Proof.
  intros file w e request.
  assert (Hpkg : SynxPackageService.extractPackage (buffer file) w = (Thrown e, w))
    by reflexivity.
  split; [exact Hpkg |].
  exact (submitPluginSynx_refuses_invalid_package file "com.synapse.tictic" request
           w e w w Hpkg).
Defined.

Lemma submitPlugin_keeps_objects packageId name description author iconKey category tags
    sourceUrl version manifest minAppVersion releaseNotes storagePath storageBucket
    tempStoragePath fileSizeBytes checksumSha256 :
  keeps (λ w, (objects w, env w))
    (PluginsService.submitPlugin packageId name description author iconKey category tags
       sourceUrl version manifest minAppVersion releaseNotes storagePath storageBucket
       tempStoragePath fileSizeBytes checksumSha256).
Proof.
  unfold PluginsService.submitPlugin, PluginsService.toPluginDetailResponse,
    PluginsRepository.findByPackageId, PluginsRepository.create, PluginsRepository.update,
    PluginVersionsRepository.findByPluginIdAndVersion, PluginVersionsRepository.create,
    StorageService.getSignedUrl, storage_sign, db_read, insert_plugin, insert_version,
    update_plugin_row, randomUUID, Date_now, supabase_error.
  keeps_auto.
Qed.

(** All that a successful [create] fixes about the row it inserts. *)
Lemma versions_create_row dto w v w' :
  PluginVersionsRepository.create dto w = (Returned v, w') →
  ∃ row,
    v = PluginVersionsRepository.mapToEntity (uuid (env w) (tick w), row)
    ∧ plugin_versions_table w !! uuid (env w) (tick w) = None
    ∧ plugin_versions_table w'
      = <[uuid (env w) (tick w) := row]> (plugin_versions_table w)
    ∧ plugins_table w' = plugins_table w
    ∧ is_Some (plugins_table w !! cv_pluginId dto)
    ∧ (∀ id r, plugin_versions_table w !! id = Some r →
         plugin_versions.plugin_id r = cv_pluginId dto →
         plugin_versions.version r ≠ cv_version dto)
    ∧ plugin_versions.plugin_id row = cv_pluginId dto
    ∧ plugin_versions.version row = cv_version dto
    ∧ plugin_versions.status row = VersionStatus.SUBMITTED
    ∧ plugin_versions.temp_storage_path row = or_null (cv_tempStoragePath dto)
    ∧ plugin_versions.file_size_bytes row = or_null_num (cv_fileSizeBytes dto)
    ∧ plugin_versions.checksum_sha256 row = or_null (cv_checksumSha256 dto)
    ∧ plugin_versions.min_app_version row = cv_minAppVersion dto
    ∧ plugin_versions.manifest row = cv_manifest dto.
Proof.
  unfold PluginVersionsRepository.create, insert_version, randomUUID, Date_now,
    supabase_error, interact, bind, get, modify, ret, throw.
  simpl. destruct (fault (env w) (S (S (tick w)))); simpl; [discriminate |].
  case_bool_decide as Hpk; simpl; [discriminate |].
  case_bool_decide as Huniq; simpl; [discriminate |].
  case_bool_decide as Hfk; simpl; [discriminate |].
  intros [= <- <-]. simpl. eexists. split; [reflexivity |].
  split_and!; try done.
  - by apply eq_None_not_Some.
  - destruct (plugins_table w !! cv_pluginId dto); [by eexists | done].
  - intros id r Hr Hpid Hver.
    assert (Hin : (id, r) ∈ @nil (string * plugin_versions.row)); [| by apply elem_of_nil in Hin].
    rewrite <- Huniq. apply elem_of_select_versions. split; [| done]. simpl.
    rewrite Hpid, Hver, !String.eqb_refl. done.
Qed.

Lemma plugins_findByPackageId_keeps {X} (f : World → X) packageId :
  (∀ n w, f (set_tick n w) = f w) →
  keeps f (PluginsRepository.findByPackageId packageId).
Proof.
  intros H. unfold PluginsRepository.findByPackageId.
  apply keeps_bind; [by apply keeps_db_read | intros ?]. keeps_auto.
Qed.

Lemma versions_findByPluginIdAndVersion_keeps {X} (f : World → X) pluginId version :
  (∀ n w, f (set_tick n w) = f w) →
  keeps f (PluginVersionsRepository.findByPluginIdAndVersion pluginId version).
Proof.
  intros H. unfold PluginVersionsRepository.findByPluginIdAndVersion.
  apply keeps_bind; [by apply keeps_db_read | intros ?]. keeps_auto.
Qed.

Lemma plugins_create_keeps dto : keeps plugin_versions_table (PluginsRepository.create dto).
Proof.
  unfold PluginsRepository.create, insert_plugin, randomUUID, Date_now, supabase_error.
  keeps_auto.
Qed.

(** The version row a successful [submitPlugin] leaves. *)
Lemma submitPlugin_created_row packageId name description author iconKey category tags
    sourceUrl version manifest minAppVersion releaseNotes storagePath storageBucket
    tempStoragePath fileSizeBytes checksumSha256 w response w' :
  PluginsService.submitPlugin packageId name description author iconKey category tags
    sourceUrl version manifest minAppVersion releaseNotes storagePath storageBucket
    tempStoragePath fileSizeBytes checksumSha256 w = (Returned response, w') →
  ∃ row,
    plugin_versions_table w' !! r_versionId response = Some row
    ∧ plugin_versions_table w !! r_versionId response = None
    ∧ plugin_versions.version row = version
    ∧ plugin_versions.temp_storage_path row = or_null tempStoragePath
    ∧ plugin_versions.file_size_bytes row = or_null_num fileSizeBytes
    ∧ plugin_versions.checksum_sha256 row = or_null checksumSha256
    ∧ plugin_versions.min_app_version row = minAppVersion
    ∧ plugin_versions.manifest row = manifest.
Proof.
  unfold PluginsService.submitPlugin. intros H.
  apply bind_inv_returned in H as (found & w1 & Hfind & H).
  apply bind_inv_returned in H as (plugin & w2 & Hplugin & H).
  apply bind_inv_returned in H as (versionData & w3 & Hcreate & H).
  apply bind_inv_returned in H as (plugin' & w4 & Hupd & H).
  apply versions_create_row in Hcreate
    as (row & -> & Hfresh & Hrow & _ & _ & _ & _ & Hver & _ & Htemp & Hsize & Hsum & Hmin & Hman).
  simpl in *.
  pose proof (toPluginDetailResponse_returns _ _ _ _ _ H) as [Hid _]. simpl in Hid.
  pose proof (keeps_run _ _ _ _ _ (toPluginDetailResponse_keeps plugin' _) H) as Hk.
  injection Hk as _ Hk4 _.
  assert (Hk3 : plugin_versions_table w4 = plugin_versions_table w3).
  { case_bool_decide.
    - by apply (keeps_run _ _ _ _ _ (plugins_update_keeps_versions _ _) Hupd).
    - by injection Hupd as _ <-. }
  assert (Hk2 : plugin_versions_table w2 = plugin_versions_table w).
  { rewrite <- (keeps_run plugin_versions_table _ _ _ _
                  (plugins_findByPackageId_keeps plugin_versions_table _ (λ _ _, eq_refl)) Hfind).
    refine (keeps_run plugin_versions_table _ _ _ _ _ Hplugin).
    destruct found; [| by apply plugins_create_keeps].
    apply keeps_bind; [by apply versions_findByPluginIdAndVersion_keeps | intros ?].
    keeps_auto. }
  exists row. rewrite Hid, Hk4, Hk3, Hrow. rewrite <- Hk2.
  split_and!; try done. apply lookup_insert_eq.
Qed.

Lemma uploadIcon_keeps_tables iconData iconName iconKey :
  keeps tables (StorageService.uploadIcon iconData iconName iconKey).
Proof.
  unfold StorageService.uploadIcon, StorageService.getSignedUrl, storage_sign,
    storage_upload, Date_now, supabase_error.
  keeps_auto.
Qed.

(** What a successful [uploadArtifact] did and answered. *)
Lemma uploadArtifact_returned buffer contentType packageId version w staged w' :
  StorageService.uploadArtifact buffer contentType packageId version w
    = (Returned staged, w') →
  tables w' = tables w
  ∧ objects w' = <[(ar_bucket staged, ar_tempPath staged) := buffer]> (objects w)
  ∧ ar_bucket staged = tempUploadsBucket (config (env w))
  ∧ ar_storagePath staged = StorageService.getArtifactPath packageId version
  ∧ ar_tempPath staged
    = "temp_" +:+ String_of_number (clock (env w) (tick w)) +:+ "/"
      +:+ StorageService.getArtifactPath packageId version
  ∧ ar_checksumSha256 staged = sha256_hex (env w) buffer
  ∧ ar_fileSizeBytes staged = Z.of_nat (length buffer).
Proof.
  unfold StorageService.uploadArtifact, StorageService.calculateChecksum, Date_now,
    storage_upload, supabase_error, interact, asks, bind, modify, ret, throw.
  simpl. destruct (fault (env w) (S (tick w))); simpl; [discriminate |].
  intros [= <- <-]. simpl. split_and!; done.
Qed.

(** A successful [submitPluginSynx], step by step: the package was read,
    the artifact staged, and [submitPlugin] answered. *)
Lemma submitPluginSynx_returned_inv file packageId w response wf :
  DeveloperService.submitPluginSynx file packageId w = (Returned response, wf) →
  ∃ pkg w2 staged w3 iconKey,
    SynxPackageService.extractPackage (buffer file) w = (Returned pkg, w)
    ∧ env w2 = env w
    ∧ tables w2 = tables w
    ∧ StorageService.uploadArtifact (buffer file) (mimetype file) packageId
        (or_default (m_version (manifest pkg)) "1.0.0") w2 = (Returned staged, w3)
    ∧ PluginsService.submitPlugin packageId
        (or_default (m_name (manifest pkg)) packageId)
        (or_default (m_description (manifest pkg)) "")
        (or_default (m_author (manifest pkg)) "Unknown")
        iconKey None None None
        (or_default (m_version (manifest pkg)) "1.0.0")
        (manifest pkg)
        (or_default (m_minAppVersion (manifest pkg)) "1.0.0")
        None
        (Some (ar_storagePath staged)) (Some (ar_bucket staged))
        (Some (ar_tempPath staged)) (Some (ar_fileSizeBytes staged))
        (Some (ar_checksumSha256 staged)) w3 = (Returned response, wf).
Proof.
  unfold DeveloperService.submitPluginSynx. intros Hrun.
  destruct (DeveloperService.submitPluginSynx_try file packageId
              (DeveloperService.initialState packageId, w)) as [[r|e] [state w']] eqn:H.
  2:{ exfalso. revert Hrun. unfold bind.
      destruct (DeveloperService.cleanupFailedUpload state w') as [[[]|e'] w'']; discriminate. }
  injection Hrun as -> ->.
  unfold DeveloperService.submitPluginSynx_try in H.
  apply bind_inv_returned in H as (pkg & [s1 w1] & Hpkg & H).
  apply lift_inv in Hpkg as [-> Hpkg].
  pose proof (extractPackage_final (buffer file) w) as Hw1. rewrite Hpkg in Hw1.
  simpl in Hw1. subst w1.
  apply bind_inv_returned in H as ([] & [s2 w2] & Hicon & H).
  assert (Hkeep2 : env w2 = env w ∧ tables w2 = tables w).
  { destruct (iconData pkg) as [data|]; [| by injection Hicon as <- <-].
    destruct (truthy (iconName pkg)); [| by injection Hicon as <- <-].
    apply bind_inv_returned in Hicon as (h & [s wh] & Hh & Hicon).
    apply lift_inv in Hh as [-> Hh]. injection Hh as <- <-.
    apply bind_inv_returned in Hicon as (k & [s wk] & Hk & Hicon).
    apply lift_inv in Hk as [-> Hk]. injection Hicon as _ <-.
    split; [apply (keeps_run _ _ _ _ _ (uploadIcon_keeps_env _ _ _) Hk) |].
    apply (keeps_run _ _ _ _ _ (uploadIcon_keeps_tables _ _ _) Hk). }
  destruct Hkeep2 as [Henv2 Htab2].
  apply bind_inv_returned in H as (staged & [s3 w3] & Hup & H).
  apply lift_inv in Hup as [-> Hup].
  apply bind_inv_returned in H as ([] & [s4 w4] & Hset & H). injection Hset as <- <-.
  apply bind_inv_returned in H as ([s5 w5] & [s5' w5'] & Hget & H).
  injection Hget as <- <- <- <-.
  apply bind_inv_returned in H as (resp & [s6 w6] & Hsub & H).
  apply lift_inv in Hsub as [-> Hsub].
  apply bind_inv_returned in H as ([] & [s7 w7] & Hclear & H).
  injection H as <- <- <-. injection Hclear as _ <-.
  eauto 10.
Qed.

(** X8.  After a successful [submitPluginSynx] the version row addresses
    what was stored: its [temp_storage_path] names an object of the
    temp-uploads bucket that holds exactly the bytes of the uploaded file,
    its [checksum_sha256] is their SHA-256 and its [file_size_bytes] their
    length (null for an empty file).  The row is new, and its version is
    the version of the package's manifest. *)
Theorem submitPluginSynx_records_what_it_stored file packageId w response :
  let run := DeveloperService.submitPluginSynx file packageId w in
  outcome run = Returned response →
  ∃ row tempPath pkg,
    plugin_versions_table (final run) !! r_versionId response = Some row
    ∧ plugin_versions_table w !! r_versionId response = None
    ∧ plugin_versions.temp_storage_path row = Some tempPath
    ∧ objects (final run) !! (tempUploadsBucket (config (env w)), tempPath)
      = Some (buffer file)
    ∧ plugin_versions.checksum_sha256 row
      = or_null (Some (sha256_hex (env w) (buffer file)))
    ∧ plugin_versions.file_size_bytes row
      = or_null_num (Some (Z.of_nat (length (buffer file))))
    ∧ SynxPackageService.extractPackage (buffer file) w = (Returned pkg, w)
    ∧ m_version (manifest pkg) = Some (plugin_versions.version row)
    ∧ plugin_versions.version row = r_version response.
Proof.
  intros run Hok. subst run. unfold outcome, final in *.
  destruct (DeveloperService.submitPluginSynx file packageId w) as [o wf] eqn:Hrun.
  simpl in *. subst o.
  apply submitPluginSynx_returned_inv in Hrun
    as (pkg & w2 & staged & w3 & iconKey & Hpkg & Henv2 & Htab2 & Hup & Hsub).
  pose proof (uploadArtifact_returned _ _ _ _ _ _ _ Hup)
    as (Ht3 & Hobj & Hbucket & Hsp & Htp & Hsum & Hsize).
  pose proof (keeps_run _ _ _ _ _ (submitPlugin_keeps_objects _ _ _ _ _ _ _ _ _ _ _ _ _ _ _ _ _)
                Hsub) as Hk.
  injection Hk as Hobjects _.
  pose proof (submitPlugin_created _ _ _ _ _ _ _ _ _ _ _ _ _ _ _ _ _ _ _ _ Hsub)
    as [Hrversion _].
  apply submitPlugin_created_row in Hsub
    as (row & Hrow & Hfresh & Hver & Htemp & Hfsize & Hcsum & _ & _).
  assert (Hvers : plugin_versions_table w3 = plugin_versions_table w).
  { apply tables_eq in Ht3 as [_ Hv3]. apply tables_eq in Htab2 as [_ Hv2]. congruence. }
  assert (Hmversion : m_version (manifest pkg)
                      = Some (or_default (m_version (manifest pkg)) "1.0.0")).
  { apply extractPackage_inv in Hpkg as (entries & _ & _ & _ & _ & Hv & _).
    unfold truthy in Hv. unfold or_default.
    destruct (m_version (manifest pkg)) as [v|]; [| done].
    destruct (String.eqb v ""); done. }
  assert (Htrue : or_null (Some (ar_tempPath staged)) = Some (ar_tempPath staged)).
  { rewrite Htp. unfold or_null, truthy. reflexivity. }
  exists row, (ar_tempPath staged), pkg.
  rewrite Hobjects, Hobj, Hbucket, Henv2, <- Hvers, Htemp, Hcsum, Hfsize, Hsum, Hsize, Henv2.
  split_and!; try done.
  - apply lookup_insert_eq.
  - by rewrite Hver.
  - congruence.
Qed.

Lemma submitPluginSynx_records_what_it_stored_witness :
  let run := DeveloperService.submitPluginSynx tictic_synx "com.synapse.tictic" w_empty in
  outcome run = Returned first_submission_response
  ∧ ∃ (row : plugin_versions.row) (tempPath : string) (pkg : SynxPackage),
      plugin_versions_table (final run) !! r_versionId first_submission_response = Some row
      ∧ plugin_versions_table w_empty !! r_versionId first_submission_response = None
      ∧ plugin_versions.temp_storage_path row = Some tempPath
      ∧ objects (final run) !! (tempUploadsBucket (config (env w_empty)), tempPath)
        = Some (buffer tictic_synx)
      ∧ plugin_versions.checksum_sha256 row
        = or_null (Some (sha256_hex (env w_empty) (buffer tictic_synx)))
      ∧ plugin_versions.file_size_bytes row
        = or_null_num (Some (Z.of_nat (length (buffer tictic_synx))))
      ∧ SynxPackageService.extractPackage (buffer tictic_synx) w_empty
        = (Returned pkg, w_empty)
      ∧ m_version (manifest pkg) = Some (plugin_versions.version row)
      ∧ plugin_versions.version row = r_version first_submission_response.
Proof.
  intros run.
  assert (Hok : outcome run = Returned first_submission_response)
    by (vm_compute; reflexivity).
  split; [exact Hok |].
  exact (submitPluginSynx_records_what_it_stored tictic_synx "com.synapse.tictic" w_empty
           first_submission_response Hok).
Defined.

(** ** Submitting a version *)

Lemma single_inv {R} (rows : list R) x : single rows = inr x → rows = [x].
Proof. destruct rows as [|y [|z rows]]; simpl; [discriminate | by intros [= ->] | discriminate]. Qed.

Lemma elem_of_select_plugins p w id r :
  (id, r) ∈ select_plugins p w ↔ p (id, r) = true ∧ plugins_table w !! id = Some r.
Proof.
  unfold select_plugins. rewrite list_elem_of_filter, elem_of_map_to_list. done.
Qed.

(** [findByPackageId] never throws; what it finds is the one row with
    that package id. *)
Lemma plugins_findByPackageId_run packageId w :
  ∃ found,
    PluginsRepository.findByPackageId packageId w = (Returned found, set_tick (S (tick w)) w)
    ∧ (∀ p, found = Some p →
         ∃ id r, p = PluginsRepository.mapToEntity (id, r)
                 ∧ select_plugins (λ x, String.eqb (plugins.package_id x.2) packageId) w
                   = [(id, r)])
    ∧ (fault (env w) (tick w) = None →
       ∀ id r, select_plugins (λ x, String.eqb (plugins.package_id x.2) packageId) w
               = [(id, r)] →
               found = Some (PluginsRepository.mapToEntity (id, r))).
Proof.
  unfold PluginsRepository.findByPackageId, db_read, supabase_error, interact, bind, get, ret.
  simpl. destruct (fault (env w) (tick w)) as [msg|]; simpl.
  { eexists. split; [reflexivity |]. split; [discriminate | discriminate]. }
  change (select_plugins ?p (set_tick ?n w)) with (select_plugins p w).
  destruct (single _) as [msg | [id r]] eqn:Hsingle; simpl.
  - eexists. split; [reflexivity |]. split; [discriminate |].
    intros _ id r Hsel. rewrite Hsel in Hsingle. discriminate.
  - apply single_inv in Hsingle. eexists. split; [reflexivity |]. split.
    + intros p [= <-]. eauto.
    + intros _ id' r' Hsel. rewrite Hsel in Hsingle. by injection Hsingle as -> ->.
Qed.

Lemma versions_findByPluginIdAndVersion_run pluginId version w :
  ∃ existing,
    PluginVersionsRepository.findByPluginIdAndVersion pluginId version w
      = (Returned existing, set_tick (S (tick w)) w)
    ∧ (fault (env w) (tick w) = None →
       ∀ id r, select_versions
                 (λ v, String.eqb (plugin_versions.plugin_id v.2) pluginId
                       && String.eqb (plugin_versions.version v.2) version) w
               = [(id, r)] →
               existing = Some (PluginVersionsRepository.mapToEntity (id, r))).
Proof.
  unfold PluginVersionsRepository.findByPluginIdAndVersion, db_read, supabase_error,
    interact, bind, get, ret.
  simpl. destruct (fault (env w) (tick w)) as [msg|]; simpl.
  { eexists. split; [reflexivity | discriminate]. }
  change (select_versions ?p (set_tick ?n w)) with (select_versions p w).
  eexists. split; [reflexivity |]. intros _ id r ->. reflexivity.
Qed.

(** [INSERT] refuses a second plugin with the same package id. *)
Lemma plugins_create_duplicate dto w id r :
  plugins_table w !! id = Some r → plugins.package_id r = cp_packageId dto →
  ∃ e w', PluginsRepository.create dto w = (Thrown e, w') ∧ is_Error e ∧ data w' = data w.
Proof.
  intros Hr Hpkg.
  unfold PluginsRepository.create, insert_plugin, randomUUID, Date_now,
    supabase_error, interact, bind, get, modify, ret, throw.
  simpl. destruct (fault (env w) (S (S (S (tick w))))); simpl; [by eexists _, _ |].
  case_bool_decide as Hpk; simpl; [by eexists _, _ |].
  case_bool_decide as Huniq; simpl; [by eexists _, _ |].
  exfalso.
  assert (Hin : (id, r) ∈ @nil (string * plugins.row)); [| by apply elem_of_nil in Hin].
  rewrite <- Huniq. apply elem_of_select_plugins. split; [| done]. simpl.
  rewrite Hpkg. apply String.eqb_refl.
Qed.

(** [INSERT] refuses a second row for the same plugin and version. *)
Lemma versions_create_duplicate dto w id r :
  plugin_versions_table w !! id = Some r →
  plugin_versions.plugin_id r = cv_pluginId dto →
  plugin_versions.version r = cv_version dto →
  ∃ e w', PluginVersionsRepository.create dto w = (Thrown e, w')
          ∧ is_Error e ∧ data w' = data w.
Proof.
  intros Hr Hpid Hver.
  unfold PluginVersionsRepository.create, insert_version, randomUUID, Date_now,
    supabase_error, interact, bind, get, modify, ret, throw.
  simpl. destruct (fault (env w) (S (S (tick w)))); simpl; [by eexists _, _ |].
  case_bool_decide as Hpk; simpl; [by eexists _, _ |].
  case_bool_decide as Huniq; simpl; [by eexists _, _ |].
  exfalso.
  assert (Hin : (id, r) ∈ @nil (string * plugin_versions.row));
    [| by apply elem_of_nil in Hin].
  rewrite <- Huniq. apply elem_of_select_versions. split; [| done]. simpl.
  rewrite Hpid, Hver, !String.eqb_refl. done.
Qed.

(** A filter that only one element of a duplicate-free list passes. *)
Lemma filter_singleton {A} (P : A → Prop) `{∀ x, Decision (P x)} (l : list A) x :
  NoDup l → x ∈ l → P x → (∀ y, y ∈ l → P y → y = x) → filter P l = [x].
Proof.
  intros Hnd Hin HP Honly.
  assert (Hnd' : NoDup (filter P l)) by (by apply NoDup_filter).
  assert (Hin' : x ∈ filter P l) by (by apply list_elem_of_filter).
  assert (Hall : ∀ y, y ∈ filter P l → y = x).
  { intros y Hy. apply list_elem_of_filter in Hy as [HPy Hy]. by apply Honly. }
  destruct (filter P l) as [|a [|b rest]].
  - by apply elem_of_nil in Hin'.
  - f_equal. apply Hall. by left.
  - exfalso. assert (a = x) as -> by (apply Hall; by left).
    assert (b = x) as -> by (apply Hall; right; by left).
    apply NoDup_cons in Hnd' as [Hnot _]. apply Hnot. by left.
Qed.

Lemma select_plugins_by_package_id w pid prow :
  package_ids_unique w → plugins_table w !! pid = Some prow →
  select_plugins (λ x, String.eqb (plugins.package_id x.2) (plugins.package_id prow)) w
  = [(pid, prow)].
Proof.
  intros Huniq Hrow. unfold select_plugins. apply filter_singleton.
  - apply NoDup_map_to_list.
  - by apply elem_of_map_to_list.
  - apply String.eqb_refl.
  - intros [id r] Hin Hpkg. apply elem_of_map_to_list in Hin. simpl in Hpkg.
    apply String.eqb_eq in Hpkg.
    assert (id = pid) as -> by (by eapply Huniq). congruence.
Qed.

Lemma select_versions_by_plugin_and_version w vid vrow :
  versions_unique w → plugin_versions_table w !! vid = Some vrow →
  select_versions
    (λ v, String.eqb (plugin_versions.plugin_id v.2) (plugin_versions.plugin_id vrow)
          && String.eqb (plugin_versions.version v.2) (plugin_versions.version vrow)) w
  = [(vid, vrow)].
Proof.
  intros Huniq Hrow. unfold select_versions. apply filter_singleton.
  - apply NoDup_map_to_list.
  - by apply elem_of_map_to_list.
  - simpl. by rewrite !String.eqb_refl.
  - intros [id r] Hin Hm. apply elem_of_map_to_list in Hin. simpl in Hm.
    apply andb_true_iff in Hm as [Hp Hv].
    apply String.eqb_eq in Hp. apply String.eqb_eq in Hv.
    assert (id = vid) as -> by (by eapply Huniq). congruence.
Qed.

(** A version that the plugin already has is not written again. *)
Lemma submitPlugin_existing_version
    packageId name description author iconKey category tags sourceUrl version manifest
    minAppVersion releaseNotes storagePath storageBucket tempStoragePath fileSizeBytes
    checksumSha256 w pid prow vid vrow :
  plugins_table w !! pid = Some prow →
  plugins.package_id prow = packageId →
  plugin_versions_table w !! vid = Some vrow →
  plugin_versions.plugin_id vrow = pid →
  plugin_versions.version vrow = version →
  let run :=
    PluginsService.submitPlugin packageId name description author iconKey category tags
      sourceUrl version manifest minAppVersion releaseNotes storagePath storageBucket
      tempStoragePath fileSizeBytes checksumSha256 w in
  ∃ e,
    outcome run = Thrown e
    ∧ (e = VersionConflictException packageId version ∨ is_Error e)
    ∧ data (final run) = data w
    ∧ (fault (env w) (tick w) = None → fault (env w) (S (tick w)) = None →
       package_ids_unique w → versions_unique w →
       e = VersionConflictException packageId version).
Proof.
  intros Hprow Hpkg Hvrow Hpid Hver run. unfold outcome, final.
  assert (∃ e w', run = (Thrown e, w')
          ∧ (e = VersionConflictException packageId version ∨ is_Error e)
          ∧ data w' = data w
          ∧ (fault (env w) (tick w) = None → fault (env w) (S (tick w)) = None →
             package_ids_unique w → versions_unique w →
             e = VersionConflictException packageId version))
    as (e & w' & -> & H); [| by exists e].
  subst run. unfold PluginsService.submitPlugin.
  destruct (plugins_findByPackageId_run packageId w) as (found & Hfind & Hfound & Hsome).
  unfold bind at 1. rewrite Hfind.
  destruct found as [plugin|].
  - destruct (Hfound plugin eq_refl) as (id & r & -> & Hsel).
    assert (Hin : (pid, prow) ∈ [(id, r)]).
    { rewrite <- Hsel. apply elem_of_select_plugins. split; [| done]. simpl.
      rewrite Hpkg. apply String.eqb_refl. }
    apply list_elem_of_singleton in Hin. injection Hin as <- <-.
    destruct (versions_findByPluginIdAndVersion_run pid version (set_tick (S (tick w)) w))
      as (existing & Hexisting & Hex).
    unfold bind at 1. unfold bind at 1. simpl. rewrite Hexisting.
    destruct existing as [v|]; simpl.
    + exists (VersionConflictException packageId version). eexists.
      split; [reflexivity |]. split_and!; auto.
    + edestruct (versions_create_duplicate
        {| cv_pluginId := pid; cv_version := version; cv_manifest := manifest;
           cv_minAppVersion := minAppVersion; cv_releaseNotes := releaseNotes;
           cv_storagePath := storagePath; cv_storageBucket := storageBucket;
           cv_tempStoragePath := tempStoragePath; cv_fileSizeBytes := fileSizeBytes;
           cv_checksumSha256 := checksumSha256 |}
        (set_tick (S (S (tick w))) (set_tick (S (tick w)) w)) vid vrow)
        as (e & w' & Hcreate & He & Hdata); [done | done | done |].
      unfold bind. simpl. rewrite Hcreate. exists e, w'. split_and!; auto.
      intros Hf1 Hf2 _ Hvu. exfalso.
      pose proof (select_versions_by_plugin_and_version w vid vrow Hvu Hvrow) as Hsv.
      rewrite Hpid, Hver in Hsv.
      specialize (Hex Hf2 vid vrow Hsv). discriminate.
  - edestruct (plugins_create_duplicate
      {| cp_packageId := packageId; cp_name := name; cp_description := Some description;
         cp_author := author; cp_iconKey := iconKey; cp_category := category;
         cp_tags := tags; cp_sourceUrl := sourceUrl |}
      (set_tick (S (tick w)) w) pid prow) as (e & w' & Hcreate & He & Hdata);
      [done | done |].
    unfold bind. rewrite Hcreate. exists e, w'. split_and!; auto.
    intros Hf1 _ Hpu _. exfalso.
    pose proof (select_plugins_by_package_id w pid prow Hpu Hprow) as Hsp.
    rewrite Hpkg in Hsp. specialize (Hsome Hf1 pid prow Hsp). discriminate.
Qed.

(** X9.  Submitting a version that the plugin already has never writes:
    whatever the stores answer, [submitPlugin] throws and leaves tables and
    objects as they were, and it makes no storage request.  When the
    database answers the two reads and holds the package id and the
    version once, the exception is [VersionConflictException]. *)
Theorem submitPlugin_refuses_existing_version
    packageId name description author iconKey category tags sourceUrl version manifest
    minAppVersion releaseNotes storagePath storageBucket tempStoragePath fileSizeBytes
    checksumSha256 w pid prow vid vrow :
  plugins_table w !! pid = Some prow →
  plugins.package_id prow = packageId →
  plugin_versions_table w !! vid = Some vrow →
  plugin_versions.plugin_id vrow = pid →
  plugin_versions.version vrow = version →
  let run :=
    PluginsService.submitPlugin packageId name description author iconKey category tags
      sourceUrl version manifest minAppVersion releaseNotes storagePath storageBucket
      tempStoragePath fileSizeBytes checksumSha256 w in
  ∃ e,
    outcome run = Thrown e
    ∧ (e = VersionConflictException packageId version ∨ is_Error e)
    ∧ data (final run) = data w
    ∧ (fault (env w) (tick w) = None → fault (env w) (S (tick w)) = None →
       package_ids_unique w → versions_unique w →
       e = VersionConflictException packageId version).
Proof.
  intros Hprow Hpkg Hvrow Hpid Hver.
  by apply (submitPlugin_existing_version packageId name description author iconKey
              category tags sourceUrl version manifest minAppVersion releaseNotes
              storagePath storageBucket tempStoragePath fileSizeBytes checksumSha256
              w pid prow vid vrow).
Qed.

Lemma submitPlugin_refuses_existing_version_witness :
  let w := w_has_1_0_0 in
  let prow := plugin_row "com.synapse.tictic" PluginStatus.PENDING_REVIEW None in
  let vrow := version_row "p1" "1.0.0" "1.0.0" VersionStatus.SUBMITTED 1700000000000
                None None None in
  let run :=
    PluginsService.submitPlugin "com.synapse.tictic" "Tic Tac Toe" "" "Synapse Team"
      None None None None "1.0.0" tictic_manifest "1.0.0" None None None None None None w in
  plugins_table w !! "p1" = Some prow
  ∧ plugins.package_id prow = "com.synapse.tictic"
  ∧ plugin_versions_table w !! "v1" = Some vrow
  ∧ plugin_versions.plugin_id vrow = "p1"
  ∧ plugin_versions.version vrow = "1.0.0"
  ∧ ∃ e : Exception,
      outcome run = Thrown e
      ∧ (e = VersionConflictException "com.synapse.tictic" "1.0.0" ∨ is_Error e)
      ∧ data (final run) = data w
      ∧ (fault (env w) (tick w) = None → fault (env w) (S (tick w)) = None →
         package_ids_unique w → versions_unique w →
         e = VersionConflictException "com.synapse.tictic" "1.0.0").
Proof.
  intros w prow vrow run.
  assert (H1 : plugins_table w !! "p1" = Some prow) by (vm_compute; reflexivity).
  assert (H2 : plugins.package_id prow = "com.synapse.tictic") by reflexivity.
  assert (H3 : plugin_versions_table w !! "v1" = Some vrow) by (vm_compute; reflexivity).
  assert (H4 : plugin_versions.plugin_id vrow = "p1") by reflexivity.
  assert (H5 : plugin_versions.version vrow = "1.0.0") by reflexivity.
  split_and!; [exact H1 | exact H2 | exact H3 | exact H4 | exact H5 |].
  exact (submitPlugin_refuses_existing_version "com.synapse.tictic" "Tic Tac Toe" ""
           "Synapse Team" None None None None "1.0.0" tictic_manifest "1.0.0" None None
           None None None None w "p1" prow "v1" vrow H1 H2 H3 H4 H5).
Defined.

Lemma toPluginDetailResponse_plugin plugin version :
  returns (λ r, r_id r = Plugin.id plugin
                ∧ r_packageId r = Plugin.packageId plugin
                ∧ r_status r = Plugin.status plugin
                ∧ r_versionId r = PluginVersion.id version
                ∧ r_minAppVersion r = PluginVersion.minAppVersion version)
    (PluginsService.toPluginDetailResponse plugin version).
Proof.
  unfold PluginsService.toPluginDetailResponse.
  apply returns_bind; intros signed. by apply returns_ret.
Qed.

(** The row a successful [PluginsRepository.create] inserts. *)
Lemma plugins_create_row dto w p w' :
  PluginsRepository.create dto w = (Returned p, w') →
  ∃ row,
    p = PluginsRepository.mapToEntity (uuid (env w) (tick w), row)
    ∧ plugins_table w !! uuid (env w) (tick w) = None
    ∧ plugins_table w' = <[uuid (env w) (tick w) := row]> (plugins_table w)
    ∧ plugin_versions_table w' = plugin_versions_table w
    ∧ (∀ id r, plugins_table w !! id = Some r →
         plugins.package_id r ≠ cp_packageId dto)
    ∧ plugins.package_id row = cp_packageId dto
    ∧ plugins.status row = PluginStatus.SUBMITTED
    ∧ plugins.latest_version_id row = None.
Proof.
  unfold PluginsRepository.create, insert_plugin, randomUUID, Date_now,
    supabase_error, interact, bind, get, modify, ret, throw.
  simpl. destruct (fault (env w) (S (S (S (tick w))))); simpl; [discriminate |].
  case_bool_decide as Hpk; simpl; [discriminate |].
  case_bool_decide as Huniq; simpl; [discriminate |].
  intros [= <- <-]. simpl. eexists. split; [reflexivity |].
  split_and!; try done.
  - by apply eq_None_not_Some.
  - intros id r Hr Hpkg.
    assert (Hin : (id, r) ∈ @nil (string * plugins.row)); [| by apply elem_of_nil in Hin].
    rewrite <- Huniq. apply elem_of_select_plugins. split; [| done]. simpl.
    rewrite Hpkg. apply String.eqb_refl.
Qed.

Lemma versions_create_keeps_plugins dto :
  keeps plugins_table (PluginVersionsRepository.create dto).
Proof.
  unfold PluginVersionsRepository.create, insert_version, randomUUID, Date_now,
    supabase_error.
  keeps_auto.
Qed.

(** X10.  A successful [submitPlugin] leaves the plugin in review, never
    published by the submission: a plugin it creates, or finds SUBMITTED,
    becomes PENDING_REVIEW, and a plugin in any other status keeps its row
    unchanged.  An existing plugin keeps its name, description, icon and
    latest version whatever the new manifest says, and no other plugin row
    changes. *)
Theorem submitPlugin_plugin_row
    packageId name description author iconKey category tags sourceUrl version manifest
    minAppVersion releaseNotes storagePath storageBucket tempStoragePath fileSizeBytes
    checksumSha256 w response w' :
  PluginsService.submitPlugin packageId name description author iconKey category tags
    sourceUrl version manifest minAppVersion releaseNotes storagePath storageBucket
    tempStoragePath fileSizeBytes checksumSha256 w = (Returned response, w') →
  ∃ prow',
    plugins_table w' !! r_id response = Some prow'
    ∧ plugins.package_id prow' = packageId
    ∧ r_status response = plugins.status prow'
    ∧ plugins.status prow' ≠ PluginStatus.SUBMITTED
    ∧ (∀ id, id ≠ r_id response → plugins_table w' !! id = plugins_table w !! id)
    ∧ match plugins_table w !! r_id response with
      | Some prow =>
          (if bool_decide (plugins.status prow = PluginStatus.SUBMITTED)
           then plugins.status prow' = PluginStatus.PENDING_REVIEW
           else prow' = prow)
          ∧ plugins.name prow' = plugins.name prow
          ∧ plugins.description prow' = plugins.description prow
          ∧ plugins.icon_key prow' = plugins.icon_key prow
          ∧ plugins.latest_version_id prow' = plugins.latest_version_id prow
      | None =>
          plugins.status prow' = PluginStatus.PENDING_REVIEW
          ∧ plugins.latest_version_id prow' = None
      end.
Proof.
  unfold PluginsService.submitPlugin. intros H.
  apply bind_inv_returned in H as (found & w1 & Hfind & H).
  apply bind_inv_returned in H as (plugin & w2 & Hplugin & H).
  apply bind_inv_returned in H as (versionData & w3 & Hcreate & H).
  apply bind_inv_returned in H as (plugin' & w4 & Hupd & H).
  pose proof (toPluginDetailResponse_plugin _ _ _ _ _ H) as (Hid & Hpk & Hst & _).
  pose proof (keeps_run _ _ _ _ _ (toPluginDetailResponse_keeps plugin' versionData) H) as Hk.
  injection Hk as Hk4 _ _.
  pose proof (keeps_run _ _ _ _ _ (versions_create_keeps_plugins _) Hcreate) as Hk3.
  destruct (plugins_findByPackageId_run packageId w) as (found' & Hfind' & Hfound & _).
  rewrite Hfind in Hfind'. injection Hfind' as <- ->.
  assert (Hphase : ∃ id row,
    plugin = PluginsRepository.mapToEntity (id, row)
    ∧ plugins.package_id row = packageId
    ∧ plugins_table w2 !! id = Some row
    ∧ (∀ id', id' ≠ id → plugins_table w2 !! id' = plugins_table w !! id')
    ∧ match plugins_table w !! id with
      | Some prow => row = prow
      | None => plugins.status row = PluginStatus.SUBMITTED
                ∧ plugins.latest_version_id row = None
      end).
  { destruct found as [p|].
    - destruct (Hfound p eq_refl) as (id & r & -> & Hsel).
      assert (Hin : (id, r) ∈ [(id, r)]) by (by left).
      rewrite <- Hsel in Hin. apply elem_of_select_plugins in Hin as [Hpkg Hr].
      simpl in Hpkg. apply String.eqb_eq in Hpkg.
      apply bind_inv_returned in Hplugin as (existing & wx & Hex & Hret).
      destruct existing; [discriminate |]. injection Hret as <- <-.
      pose proof (keeps_run plugins_table _ _ _ _
        (versions_findByPluginIdAndVersion_keeps plugins_table _ _ (λ _ _, eq_refl)) Hex) as Hkx.
      simpl in Hkx. exists id, r. rewrite Hkx, Hr. done.
    - apply plugins_create_row in Hplugin
        as (row & -> & Hfresh & Htab & _ & _ & Hpkg & Hstatus & Hlatest).
      simpl in *. exists (uuid (env w) (S (tick w))), row.
      rewrite Htab, Hfresh. split_and!; try done.
      + apply lookup_insert_eq.
      + intros id' Hne. by rewrite lookup_insert_ne. }
  destruct Hphase as (id & row & -> & Hpkg & Hrow2 & Hothers & Hbefore).
  simpl in Hupd. rewrite <- Hk3 in Hrow2, Hothers.
  case_bool_decide as Hsub.
  - apply bind_inv_returned in Hupd as (now & wn & Hnow & Hupd).
    injection Hnow as <- <-.
    unfold update_plugin_row, supabase_error, interact, bind, get, modify, ret, throw
      in Hupd.
    simpl in Hupd. destruct (fault (env w3) (S (tick w3))); simpl in Hupd; [discriminate |].
    rewrite Hrow2 in Hupd. simpl in Hupd. injection Hupd as <- <-.
    simpl in *. eexists. rewrite Hid, Hk4. simpl.
    split; [apply lookup_insert_eq |]. split_and!; try done.
    + intros id' Hne. rewrite lookup_insert_ne by done. by apply Hothers.
    + destruct (plugins_table w !! id) as [prow|]; [| by destruct Hbefore].
      subst row. rewrite bool_decide_eq_true_2 by done. done.
  - injection Hupd as <- <-. exists row. rewrite Hid, Hk4. simpl.
    split_and!; try done.
    destruct (plugins_table w !! id) as [prow|]; [| by destruct Hbefore].
    subst row. rewrite bool_decide_eq_false_2 by done. done.
Qed.

Lemma submitPlugin_plugin_row_witness :
  let run :=
    PluginsService.submitPlugin "com.synapse.tictic" "Noughts" "A new description"
      "Someone" (Some "new-icon.png") None None None "3.0.0" tictic_manifest "1.0.0"
      None None None None None None w_three_floors in
  let response := resubmission_response in
  run = (Returned response, run.2)
  ∧ ∃ prow' : plugins.row,
      plugins_table run.2 !! r_id response = Some prow'
      ∧ plugins.package_id prow' = "com.synapse.tictic"
      ∧ r_status response = plugins.status prow'
      ∧ plugins.status prow' ≠ PluginStatus.SUBMITTED
      ∧ (∀ id, id ≠ r_id response →
           plugins_table run.2 !! id = plugins_table w_three_floors !! id)
      ∧ match plugins_table w_three_floors !! r_id response with
        | Some prow =>
            (if bool_decide (plugins.status prow = PluginStatus.SUBMITTED)
             then plugins.status prow' = PluginStatus.PENDING_REVIEW
             else prow' = prow)
            ∧ plugins.name prow' = plugins.name prow
            ∧ plugins.description prow' = plugins.description prow
            ∧ plugins.icon_key prow' = plugins.icon_key prow
            ∧ plugins.latest_version_id prow' = plugins.latest_version_id prow
        | None =>
            plugins.status prow' = PluginStatus.PENDING_REVIEW
            ∧ plugins.latest_version_id prow' = None
        end.
Proof.
  intros run response.
  assert (H1 : run.1 = Returned response) by (vm_compute; reflexivity).
  pose proof (run_eq run _ H1) as Hrun.
  split; [exact Hrun |].
  exact (submitPlugin_plugin_row "com.synapse.tictic" "Noughts" "A new description"
           "Someone" (Some "new-icon.png") None None None "3.0.0" tictic_manifest "1.0.0"
           None None None None None None w_three_floors response run.2 Hrun).
Defined.

(** ** The resolver, further *)

Lemma array_cmp_antisym a b : array_cmp b a = CompOpp (array_cmp a b).
Proof.
  revert b. induction a as [|x a IH]; intros [|y b]; simpl; try done.
  rewrite (Z.compare_antisym x y). destruct (x ?= y); simpl; [apply IH | done | done].
Qed.

Lemma array_cmp_eq a b : array_cmp a b = Eq ↔ a = b.
Proof.
  revert b. induction a as [|x a IH]; intros [|y b]; simpl; try done.
  destruct (x ?= y) eqn:Hxy.
  - apply Z.compare_eq in Hxy as ->. rewrite IH. split; [by intros -> | by intros [= ->]].
  - split; [done |]. intros [= -> _]. by rewrite Z.compare_refl in Hxy.
  - split; [done |]. intros [= -> _]. by rewrite Z.compare_refl in Hxy.
Qed.

Lemma array_cmp_gt_trans a b c :
  array_cmp a b = Gt → array_cmp b c = Gt → array_cmp a c = Gt.
Proof.
  revert b c. induction a as [|x a IH]; intros [|y b] [|z c]; simpl; try done.
  destruct (x ?= y) eqn:Hxy; [| done |]; destruct (y ?= z) eqn:Hyz; try done.
  - apply Z.compare_eq in Hxy as ->. rewrite Hyz. apply IH.
  - apply Z.compare_eq in Hxy as ->. by rewrite Hyz.
  - apply Z.compare_eq in Hyz as <-. by rewrite Hxy.
  - intros _ _. assert ((x ?= z) = Gt) as ->; [| done].
    apply Z.compare_gt_iff. apply Z.compare_gt_iff in Hxy, Hyz. lia.
Qed.

Lemma compat_order_total : Total compat_order.
Proof.
  intros a b. unfold compat_order. rewrite (array_cmp_antisym a.1 b.1).
  destruct (array_cmp a.1 b.1); simpl; [lia | by right | by left].
Qed.

Lemma compat_order_trans : Transitive compat_order.
Proof.
  intros a b c. unfold compat_order.
  destruct (array_cmp a.1 b.1) eqn:Hab; [| done |];
    destruct (array_cmp b.1 c.1) eqn:Hbc; try done.
  - apply array_cmp_eq in Hab. apply array_cmp_eq in Hbc.
    rewrite Hab, Hbc. rewrite (proj2 (array_cmp_eq c.1 c.1) eq_refl). lia.
  - apply array_cmp_eq in Hab. rewrite Hab, Hbc. done.
  - apply array_cmp_eq in Hbc. rewrite <- Hbc, Hab. done.
  - by rewrite (array_cmp_gt_trans _ _ _ Hab Hbc).
Qed.

Lemma compatible_candidate_select pluginId appVersion w id r :
  (id, r) ∈ select_versions
    (λ v, String.eqb (plugin_versions.plugin_id v.2) pluginId
          && bool_decide (plugin_versions.status v.2 = VersionStatus.PUBLISHED)
          && text_le (plugin_versions.min_app_version v.2) appVersion) w
  ↔ compatible_candidate pluginId appVersion w id r.
Proof.
  rewrite elem_of_select_versions. unfold compatible_candidate. simpl.
  rewrite !andb_true_iff, String.eqb_eq, bool_decide_eq_true.
  split; [intros [[[? ?] ?] ?] | intros (? & ? & ? & ?)]; done.
Qed.

(** What the SQL function returns, when it returns rows. *)
Lemma find_latest_compatible_version_inv pluginId appVersion w rows :
  find_latest_compatible_version pluginId appVersion w = inr rows →
  (rows = [] ∧ ∀ id r, ¬ compatible_candidate pluginId appVersion w id r)
  ∨ ∃ id r k,
      rows = [(id, r)]
      ∧ compatible_candidate pluginId appVersion w id r
      ∧ int_array (plugin_versions.min_app_version r) = Some k
      ∧ ∀ id' r', compatible_candidate pluginId appVersion w id' r' →
          ∃ k', int_array (plugin_versions.min_app_version r') = Some k'
                ∧ (array_cmp k k' = Gt
                   ∨ (k = k' ∧ plugin_versions.created_at r'
                               ≤ plugin_versions.created_at r)).
Proof.
  unfold find_latest_compatible_version.
  set (rows0 := select_versions _ w).
  destruct (mapM _ rows0) as [keyed|] eqn:Hkeyed; [| discriminate].
  intros [= <-]. apply mapM_Some in Hkeyed.
  assert (Hkey : ∀ x, x ∈ keyed →
    x.2 ∈ rows0 ∧ int_array (plugin_versions.min_app_version x.2.2) = Some x.1).
  { intros x Hx. apply list_elem_of_lookup in Hx as [i Hi].
    destruct (Forall2_lookup_r _ _ _ _ _ Hkeyed Hi) as (v & Hv & Hf).
    destruct (int_array _) as [k|] eqn:Hk; [| discriminate].
    simpl in Hf. injection Hf as <-. simpl. split; [| done].
    by eapply list_elem_of_lookup_2. }
  assert (Hall : ∀ v, v ∈ rows0 → ∃ x, x ∈ keyed ∧ x.2 = v).
  { intros v Hv. apply list_elem_of_lookup in Hv as [i Hi].
    destruct (Forall2_lookup_l _ _ _ _ _ Hkeyed Hi) as (x & Hx & Hf).
    destruct (int_array _) as [k|]; [| discriminate]. simpl in Hf. injection Hf as <-.
    exists (k, v). split; [by eapply list_elem_of_lookup_2 | done]. }
  destruct (merge_sort compat_order keyed) as [|x rest] eqn:Hsorted.
  - left. split; [done |]. apply merge_sort_nil in Hsorted. subst keyed.
    intros id r Hc. apply compatible_candidate_select in Hc.
    destruct (Hall _ Hc) as (x & Hx & _). by apply elem_of_nil in Hx.
  - right. pose proof (merge_sort_head_elem _ _ _ _ Hsorted) as Hx.
    destruct (Hkey x Hx) as [Hrow Hk]. destruct x as [k [id r]]. simpl in *.
    exists id, r, k. split; [done |]. split; [by apply compatible_candidate_select |].
    split; [done |]. intros id' r' Hc. apply compatible_candidate_select in Hc.
    destruct (Hall _ Hc) as ([k' v'] & Hy & Heq). simpl in Heq. subst v'.
    destruct (Hkey _ Hy) as [_ Hk']. simpl in Hk'. exists k'. split; [done |].
    assert (Hord : compat_order (k, (id, r)) (k', (id', r'))).
    { pose proof (@StronglySorted_merge_sort _ compat_order _ compat_order_trans
                    compat_order_total keyed) as Hss.
      assert (Hy' : (k', (id', r')) ∈ merge_sort compat_order keyed)
        by (by rewrite merge_sort_Permutation).
      rewrite Hsorted in Hss, Hy'.
      apply StronglySorted_inv in Hss as [_ Hfa].
      apply elem_of_cons in Hy' as [[= <- <- <-] | Hin].
      - unfold compat_order. simpl.
        rewrite (proj2 (array_cmp_eq k' k') eq_refl). lia.
      - by eapply Forall_forall in Hfa. }
    unfold compat_order in Hord. simpl in Hord.
    destruct (array_cmp k k') eqn:Hcmp; [| done | by left].
    right. apply array_cmp_eq in Hcmp. done.
Qed.

(** X11.  The rows the SQL function [find_latest_compatible_version]
    returns: at most one, and then a PUBLISHED version of the plugin whose
    [min_app_version] is, as text, at most the app version asked, and, as
    an array of integers, the greatest among all such versions, the newest
    of them when several share it.  It returns no row only when no version
    passes the filter, and it raises an error only when the
    [min_app_version] of a version that passes the filter does not cast to
    an array of integers. *)
Theorem find_latest_compatible_version_picks_greatest_floor pluginId appVersion w :
  match find_latest_compatible_version pluginId appVersion w with
  | inr [] => ∀ id r, ¬ compatible_candidate pluginId appVersion w id r
  | inr [(id, r)] =>
      compatible_candidate pluginId appVersion w id r
      ∧ ∃ k, int_array (plugin_versions.min_app_version r) = Some k
             ∧ ∀ id' r', compatible_candidate pluginId appVersion w id' r' →
                 ∃ k', int_array (plugin_versions.min_app_version r') = Some k'
                       ∧ (array_cmp k k' = Gt
                          ∨ (k = k' ∧ plugin_versions.created_at r'
                                      ≤ plugin_versions.created_at r))
  | inr _ => False
  | inl _ =>
      ∃ id r, compatible_candidate pluginId appVersion w id r
              ∧ int_array (plugin_versions.min_app_version r) = None
  end.
Proof.
  destruct (find_latest_compatible_version pluginId appVersion w) as [msg|rows] eqn:H.
  - revert H. unfold find_latest_compatible_version.
    set (rows0 := select_versions _ w).
    destruct (mapM _ rows0) as [keyed|] eqn:Hkeyed; [discriminate |]. intros _.
    apply mapM_None_1, Exists_exists in Hkeyed as ([id r] & Hin & Hnone).
    exists id, r. split; [by apply compatible_candidate_select |].
    simpl in Hnone. by destruct (int_array _).
  - apply find_latest_compatible_version_inv in H
      as [[-> Hnone] | (id & r & k & -> & Hc & Hk & Hmax)]; [done |].
    split; [done |]. by exists k.
Qed.

(** ** Serving a plugin *)

Lemma versions_findLatestCompatibleVersion_inv pluginId appVersion w v w1 :
  PluginVersionsRepository.findLatestCompatibleVersion pluginId appVersion w
    = (Returned (Some v), w1) →
  w1 = set_tick (S (tick w)) w
  ∧ ∃ id r, v = PluginVersionsRepository.mapToEntity (id, r)
            ∧ find_latest_compatible_version pluginId appVersion w = inr [(id, r)].
Proof.
  unfold PluginVersionsRepository.findLatestCompatibleVersion, db_read, supabase_error,
    interact, bind, get, ret.
  simpl. destruct (fault (env w) (tick w)); simpl; [discriminate |].
  change (find_latest_compatible_version pluginId appVersion (set_tick (S (tick w)) w))
    with (find_latest_compatible_version pluginId appVersion w).
  destruct (find_latest_compatible_version pluginId appVersion w) as [msg|rows] eqn:Hrows;
    simpl; [discriminate |].
  apply find_latest_compatible_version_inv in Hrows
    as [[-> _] | (id & r & k & -> & _)]; simpl; [discriminate |].
  intros [= <- <-]. split; [done |]. by exists id, r.
Qed.

(** The download counter is bumped on a best-effort basis: the call never
    throws and touches at most the counter of that version. *)
Lemma incrementDownloadCount_run versionId w :
  ∃ w',
    try_catch (PluginsService.incrementDownloadCount versionId) (λ _, ret tt) w
      = (Returned tt, w')
    ∧ env w' = env w ∧ plugins_table w' = plugins_table w ∧ objects w' = objects w
    ∧ calls w' = calls w
    ∧ plugin_versions_table w'
      = (if acknowledged w (tick w) then alter count_download versionId else id)
          (plugin_versions_table w).
Proof.
  unfold PluginsService.incrementDownloadCount,
    PluginVersionsRepository.incrementDownloadCount, increment_download_count,
    try_catch, supabase_error, interact, bind, modify, ret, acknowledged.
  simpl. destruct (fault (env w) (tick w)); simpl; eexists; split_and!; reflexivity.
Qed.

(** A successful [getPluginByPackageId], step by step. *)
Lemma getPluginByPackageId_inv packageId appVersion w response w' :
  PluginsService.getPluginByPackageId packageId appVersion w = (Returned response, w') →
  ∃ pid prow vid vrow w3,
    plugins_table w !! pid = Some prow
    ∧ plugins.package_id prow = packageId
    ∧ plugins.status prow = PluginStatus.PUBLISHED
    ∧ plugin_versions_table w !! vid = Some vrow
    ∧ (if truthy appVersion
       then find_latest_compatible_version pid (default "" appVersion) w = inr [(vid, vrow)]
       else plugins.latest_version_id prow = Some vid)
    ∧ plugins_table w3 = plugins_table w
    ∧ plugin_versions_table w3
      = (if acknowledged w (S (S (tick w))) then alter count_download vid else id)
          (plugin_versions_table w)
    ∧ objects w3 = objects w
    ∧ PluginsService.toPluginDetailResponse
        (PluginsRepository.mapToEntity (pid, prow))
        (PluginVersionsRepository.mapToEntity (vid, vrow)) w3
      = (Returned response, w').
Proof.
  unfold PluginsService.getPluginByPackageId. intros H.
  destruct (plugins_findByPackageId_run packageId w) as (found & Hfind & Hfound & _).
  unfold bind in H at 1. rewrite Hfind in H.
  destruct found as [plugin|]; [| discriminate].
  destruct (Hfound plugin eq_refl) as (pid & prow & -> & Hsel).
  assert (Hin : (pid, prow) ∈ [(pid, prow)]) by (by left).
  rewrite <- Hsel in Hin. apply elem_of_select_plugins in Hin as [Hpkg Hprow].
  simpl in Hpkg. apply String.eqb_eq in Hpkg.
  simpl in H. case_bool_decide as Hpub; simpl in H; [| discriminate].
  apply bind_inv_returned in H as (version & w2 & Hversion & H).
  apply bind_inv_returned in H as ([] & w3 & Hinc & H).
  assert (Hv : ∃ vid vrow,
    version = PluginVersionsRepository.mapToEntity (vid, vrow)
    ∧ plugin_versions_table w !! vid = Some vrow
    ∧ (if truthy appVersion
       then find_latest_compatible_version pid (default "" appVersion) w = inr [(vid, vrow)]
       else plugins.latest_version_id prow = Some vid)
    ∧ w2 = set_tick (S (S (tick w))) (set_tick (S (tick w)) w)).
  { destruct (truthy appVersion) eqn:Happ.
    - apply bind_inv_returned in Hversion as (compatible & wc & Hc & Hret).
      destruct compatible as [v|]; [| discriminate]. injection Hret as <- <-.
      apply versions_findLatestCompatibleVersion_inv in Hc as (-> & vid & vrow & -> & Hrows).
      change (find_latest_compatible_version pid (default "" appVersion)
                (set_tick (S (tick w)) w))
        with (find_latest_compatible_version pid (default "" appVersion) w) in Hrows.
      exists vid, vrow. split_and!; try done.
      pose proof (find_latest_compatible_version_inv _ _ _ _ Hrows)
        as [[Hnil _] | (id & r & k & Heq & Hc & _)]; [discriminate |].
      injection Heq as <- <-. by destruct Hc.
    - destruct (truthy (plugins.latest_version_id prow)) eqn:Hlatest; simpl in Hversion;
        [| discriminate].
      apply bind_inv_returned in Hversion as (latest & wl & Hl & Hret).
      destruct latest as [v|]; [| discriminate]. injection Hret as <- <-.
      apply versions_findById_inv in Hl as (vrow & Hvrow & -> & ->).
      simpl in Hvrow.
      destruct (plugins.latest_version_id prow) as [vid|] eqn:Hlid; [| discriminate].
      exists vid, vrow. split_and!; done. }
  destruct Hv as (vid & vrow & -> & Hvrow & Hsel' & ->).
  destruct (incrementDownloadCount_run vid
              (set_tick (S (S (tick w))) (set_tick (S (tick w)) w)))
    as (w3' & Hinc' & Henv3 & Hp3 & Ho3 & Hc3 & Hv3).
  simpl in Hinc. rewrite Hinc in Hinc'. injection Hinc' as <-.
  exists pid, prow, vid, vrow, w3. split_and!; done.
Qed.

Lemma toPluginDetailResponse_keeps_objects plugin version :
  keeps objects (PluginsService.toPluginDetailResponse plugin version).
Proof.
  unfold PluginsService.toPluginDetailResponse, StorageService.getSignedUrl, storage_sign,
    Date_now, supabase_error.
  keeps_auto.
Qed.

Lemma toPluginDetailResponse_version plugin version :
  returns (λ r, r_versionId r = PluginVersion.id version
                ∧ r_downloadCount r = PluginVersion.downloadCount version)
    (PluginsService.toPluginDetailResponse plugin version).
Proof.
  unfold PluginsService.toPluginDetailResponse.
  apply returns_bind; intros signed. by apply returns_ret.
Qed.

(** X12.  What [getPluginByPackageId] serves is a plugin row with that
    package id whose status is PUBLISHED, and a version row: with an app
    version, a PUBLISHED version of that plugin that passed the filter of
    the resolver; without one, the version the plugin's
    [latest_version_id] names. *)
Theorem getPluginByPackageId_serves_published packageId appVersion w response w' :
  PluginsService.getPluginByPackageId packageId appVersion w = (Returned response, w') →
  ∃ prow vrow,
    plugins_table w !! r_id response = Some prow
    ∧ plugins.package_id prow = packageId
    ∧ plugins.status prow = PluginStatus.PUBLISHED
    ∧ r_status response = PluginStatus.PUBLISHED
    ∧ plugin_versions_table w !! r_versionId response = Some vrow
    ∧ r_minAppVersion response = plugin_versions.min_app_version vrow
    ∧ (if truthy appVersion
       then compatible_candidate (r_id response) (default "" appVersion) w
              (r_versionId response) vrow
       else plugins.latest_version_id prow = Some (r_versionId response)).
Proof.
  intros H. apply getPluginByPackageId_inv in H
    as (pid & prow & vid & vrow & w3 & Hprow & Hpkg & Hpub & Hvrow & Hsel & _ & _ & _ & H).
  pose proof (toPluginDetailResponse_plugin _ _ _ _ _ H) as (Hid & _ & Hst & Hvid & Hmin).
  simpl in *. exists prow, vrow. rewrite Hid, Hvid, Hst, Hmin. split_and!; try done.
  destruct (truthy appVersion); [| done].
  apply find_latest_compatible_version_inv in Hsel
    as [[Hnil _] | (id & r & k & Heq & Hc & _)]; [discriminate |].
  by injection Heq as <- <-.
Qed.

Lemma getPluginByPackageId_serves_published_witness :
  let run := PluginsService.getPluginByPackageId "com.synapse.tictic" (Some "1.5.0")
               w_three_floors in
  let response := served_response in
  run = (Returned response, run.2)
  ∧ ∃ (prow : plugins.row) (vrow : plugin_versions.row),
      plugins_table w_three_floors !! r_id response = Some prow
      ∧ plugins.package_id prow = "com.synapse.tictic"
      ∧ plugins.status prow = PluginStatus.PUBLISHED
      ∧ r_status response = PluginStatus.PUBLISHED
      ∧ plugin_versions_table w_three_floors !! r_versionId response = Some vrow
      ∧ r_minAppVersion response = plugin_versions.min_app_version vrow
      ∧ (if truthy (Some "1.5.0")
         then compatible_candidate (r_id response) (default "" (Some "1.5.0"))
                w_three_floors (r_versionId response) vrow
         else plugins.latest_version_id prow = Some (r_versionId response)).
Proof.
  intros run response.
  assert (H1 : run.1 = Returned response) by (vm_compute; reflexivity).
  pose proof (run_eq run _ H1) as Hrun.
  split; [exact Hrun |].
  exact (getPluginByPackageId_serves_published "com.synapse.tictic" (Some "1.5.0")
           w_three_floors response run.2 Hrun).
Defined.

(** X13.  A successful [getPluginByPackageId] reports the download count
    the version had before this request and then adds one to the counter
    of that version when the database acknowledges the request; it changes
    no other row, no plugin and no object. *)
Theorem getPluginByPackageId_counts_the_download packageId appVersion w response w' :
  PluginsService.getPluginByPackageId packageId appVersion w = (Returned response, w') →
  ∃ vrow,
    plugin_versions_table w !! r_versionId response = Some vrow
    ∧ r_downloadCount response = plugin_versions.download_count vrow
    ∧ plugins_table w' = plugins_table w
    ∧ objects w' = objects w
    ∧ plugin_versions_table w'
      = (if acknowledged w (S (S (tick w)))
         then <[r_versionId response := count_download vrow]>
         else id) (plugin_versions_table w).
Proof.
  intros H. apply getPluginByPackageId_inv in H
    as (pid & prow & vid & vrow & w3 & _ & _ & _ & Hvrow & _ & Hp3 & Hv3 & Ho3 & H).
  pose proof (keeps_run _ _ _ _ _ (toPluginDetailResponse_keeps _ _) H) as Hk.
  injection Hk as Hkp Hkv _.
  pose proof (keeps_run _ _ _ _ _ (toPluginDetailResponse_keeps_objects _ _) H) as Hko.
  pose proof (toPluginDetailResponse_version _ _ _ _ _ H) as [Hvid Hcount].
  simpl in Hvid, Hcount. rewrite Hvid, Hcount. exists vrow. rewrite Hkp, Hkv, Hko, Hp3, Hv3, Ho3.
  split_and!; try done.
  destruct (acknowledged _ _); [| done].
  apply map_eq. intros i. destruct (decide (i = vid)) as [-> | Hne].
  - by rewrite lookup_alter_eq, lookup_insert_eq, Hvrow.
  - by rewrite lookup_alter_ne, lookup_insert_ne.
Qed.

Lemma getPluginByPackageId_counts_the_download_witness :
  let w := w_three_floors in
  let run := PluginsService.getPluginByPackageId "com.synapse.tictic" (Some "1.5.0") w in
  let response := served_response in
  run = (Returned response, run.2)
  ∧ ∃ vrow : plugin_versions.row,
      plugin_versions_table w !! r_versionId response = Some vrow
      ∧ r_downloadCount response = plugin_versions.download_count vrow
      ∧ plugins_table run.2 = plugins_table w
      ∧ objects run.2 = objects w
      ∧ plugin_versions_table run.2
        = (if acknowledged w (S (S (tick w)))
           then <[r_versionId response := count_download vrow]>
           else id) (plugin_versions_table w).
Proof.
  intros w run response.
  assert (H1 : run.1 = Returned response) by (vm_compute; reflexivity).
  pose proof (run_eq run _ H1) as Hrun.
  split; [exact Hrun |].
  exact (getPluginByPackageId_counts_the_download "com.synapse.tictic" (Some "1.5.0")
           w response run.2 Hrun).
Defined.

Lemma toPluginDetailResponse_raises P plugin version :
  raises P (PluginsService.toPluginDetailResponse plugin version).
Proof. unfold PluginsService.toPluginDetailResponse. raises_auto. Qed.

Lemma getPluginByPackageId_raises packageId appVersion :
  raises (λ e, GlobalExceptionFilter.getStatus e = Some 404)
    (PluginsService.getPluginByPackageId packageId appVersion).
Proof.
  unfold PluginsService.getPluginByPackageId, PluginsRepository.findByPackageId,
    PluginVersionsRepository.findLatestCompatibleVersion, PluginVersionsRepository.findById,
    db_read, supabase_error.
  raises_auto; apply toPluginDetailResponse_raises.
Qed.

Lemma versions_findLatestCompatibleVersion_keeps {X} (f : World → X) pluginId appVersion :
  (∀ n w, f (set_tick n w) = f w) →
  keeps f (PluginVersionsRepository.findLatestCompatibleVersion pluginId appVersion).
Proof.
  intros H. unfold PluginVersionsRepository.findLatestCompatibleVersion.
  apply keeps_bind; [by apply keeps_db_read | intros ?]. keeps_auto.
Qed.

(** X14.  Whatever makes [getPluginByPackageId] fail, the client is answered
    404 with the message of the exception, and the failed request has
    changed no row and no object and sent nothing to the storage. *)
Theorem getPluginByPackageId_failures_are_404 packageId appVersion request w e w' w0 :
  PluginsService.getPluginByPackageId packageId appVersion w = (Thrown e, w') →
  data w' = data w
  ∧ ∃ timestamp w1,
      GlobalExceptionFilter.catch e request w0
      = (Returned {| GlobalExceptionFilter.er_statusCode := 404;
                     GlobalExceptionFilter.er_timestamp := timestamp;
                     GlobalExceptionFilter.er_path := GlobalExceptionFilter.url request;
                     GlobalExceptionFilter.er_method := GlobalExceptionFilter.method request;
                     GlobalExceptionFilter.er_message := message_of e |}, w1).
Proof.
  intros H. split.
  - revert H. unfold PluginsService.getPluginByPackageId. intros H.
    apply bind_inv_thrown in H as [H | (found & w1 & Hfind & H)].
    { exact (keeps_run data _ _ _ _
               (plugins_findByPackageId_keeps data _ (λ _ _, eq_refl)) H). }
    pose proof (keeps_run data _ _ _ _
                  (plugins_findByPackageId_keeps data _ (λ _ _, eq_refl)) Hfind) as <-.
    destruct found as [plugin|]; [| by injection H as _ <-].
    destruct (negb _); [by injection H as _ <- |].
    apply bind_inv_thrown in H as [H | (version & w2 & _ & H)].
    + refine (keeps_run data _ _ _ _ _ H).
      destruct (truthy appVersion).
      * apply keeps_bind; [by apply versions_findLatestCompatibleVersion_keeps | intros ?].
        keeps_auto.
      * destruct (negb _); [keeps_auto |].
        apply keeps_bind; [apply versions_findById_keeps | intros ?]. keeps_auto.
    + apply bind_inv_thrown in H as [H | ([] & w3 & _ & H)].
      * unfold try_catch in H.
        destruct (PluginsService.incrementDownloadCount _ w2) as [[[]|?] ?]; discriminate.
      * exfalso.
        exact (toPluginDetailResponse_raises (λ _, False) _ _ w3 e (f_equal fst H)).
  - pose proof (getPluginByPackageId_raises packageId appVersion w e (f_equal fst H)) as Hs.
    unfold GlobalExceptionFilter.catch, Date_now, interact, bind, ret. rewrite Hs. simpl.
    by eexists _, _.
Qed.

Lemma getPluginByPackageId_failures_are_404_witness :
  let w := w_three_floors in
  let run := PluginsService.getPluginByPackageId "com.synapse.tictic" (Some "0.0.9") w in
  let e := InvalidVersionException
             ("No compatible version found for plugin 'com.synapse.tictic' "
              +:+ "with app version '0.0.9'. "
              +:+ "The plugin requires a newer version of the app.") in
  let request := {| GlobalExceptionFilter.method := "GET";
                    GlobalExceptionFilter.url := "/plugins/com.synapse.tictic" |} in
  run = (Thrown e, run.2)
  ∧ data run.2 = data w
  ∧ ∃ (timestamp : Z) (w1 : World),
      GlobalExceptionFilter.catch e request w
      = (Returned {| GlobalExceptionFilter.er_statusCode := 404;
                     GlobalExceptionFilter.er_timestamp := timestamp;
                     GlobalExceptionFilter.er_path := GlobalExceptionFilter.url request;
                     GlobalExceptionFilter.er_method := GlobalExceptionFilter.method request;
                     GlobalExceptionFilter.er_message := message_of e |}, w1).
Proof.
  intros w run e request.
  assert (H1 : run.1 = Thrown e) by (vm_compute; reflexivity).
  pose proof (run_eq run _ H1) as Hrun.
  split; [exact Hrun |].
  exact (getPluginByPackageId_failures_are_404 "com.synapse.tictic" (Some "0.0.9") request
           w e run.2 w Hrun).
Defined.

(** ** Flagging *)

(** A successful [flagVersion], step by step. *)
Lemma flagVersion_inv versionId reason flaggedBy w w' :
  PluginReviewService.flagVersion versionId reason flaggedBy w = (Returned tt, w') →
  ∃ vrow prow,
    plugin_versions_table w !! versionId = Some vrow
    ∧ plugins_table w !! plugin_versions.plugin_id vrow = Some prow
    ∧ objects w' = objects w ∧ calls w' = calls w ∧ env w' = env w
    ∧ plugin_versions_table w'
      = <[versionId := PluginVersionsRepository.updateData
            {| uv_status := Some VersionStatus.FLAGGED;
               uv_storagePath := None; uv_storageBucket := None;
               uv_tempStoragePath := None; uv_rejectionReason := None;
               uv_reviewedBy := None; uv_reviewedAt := None; uv_publishedAt := None;
               uv_downloadCount := None;
               uv_isFlagged := Some true;
               uv_flagReason := Some (Some reason) |} vrow]> (plugin_versions_table w)
    ∧ plugins_table w'
      = (if bool_decide (Some versionId = plugins.latest_version_id prow)
         then <[plugin_versions.plugin_id vrow :=
                  PluginsRepository.updateData (clock (env w) (S (S (S (tick w)))))
                    {| up_name := None; up_description := None; up_iconKey := None;
                       up_category := None; up_tags := None; up_sourceUrl := None;
                       up_status := Some PluginStatus.REJECTED;
                       up_latestVersionId := Some None |} prow]>
         else id) (plugins_table w).
Proof.
  unfold PluginReviewService.flagVersion. intros H.
  apply bind_inv_returned in H as (version & w1 & H1 & H).
  apply getVersionForReview_inv in H1 as (vrow & Hvrow & -> & ->).
  apply bind_inv_returned in H as (found & w2 & H2 & H).
  destruct found as [plugin|]; [| discriminate].
  apply plugins_findById_inv in H2 as (prow & Hprow & -> & ->). simpl in Hprow.
  apply bind_inv_returned in H as (x & w3 & Hupd & H).
  apply versions_update_inv in Hupd as (r & Hr & ->). simpl in Hr.
  rewrite Hvrow in Hr. injection Hr as <-.
  exists vrow, prow. simpl in H. case_bool_decide as Hlatest.
  - apply bind_inv_returned in H as (y & w4 & Hpupd & H). injection H as <-.
    apply plugins_update_inv in Hpupd as (p & Hp & ->). simpl in Hp.
    rewrite Hprow in Hp. injection Hp as <-. simpl. split_and!; done.
  - injection H as <-. simpl. split_and!; done.
Qed.

(** X15.  Flagging the version a plugin points at as its latest takes the
    plugin out of the store: the plugin becomes REJECTED with no latest
    version, whatever other versions of it are PUBLISHED, and
    [getPluginByPackageId] then answers "not found" for its package id,
    with or without an app version. *)
Theorem flagging_the_latest_version_unlists_the_plugin
    versionId reason flaggedBy appVersion w w' vrow prow :
  plugin_versions_table w !! versionId = Some vrow →
  plugins_table w !! plugin_versions.plugin_id vrow = Some prow →
  plugins.latest_version_id prow = Some versionId →
  PluginReviewService.flagVersion versionId reason flaggedBy w = (Returned tt, w') →
  (∃ prow', plugins_table w' !! plugin_versions.plugin_id vrow = Some prow'
            ∧ plugins.package_id prow' = plugins.package_id prow
            ∧ plugins.status prow' = PluginStatus.REJECTED
            ∧ plugins.latest_version_id prow' = None)
  ∧ ∃ w'',
      PluginsService.getPluginByPackageId (plugins.package_id prow) appVersion w'
      = (Thrown (ResourceNotFoundException "Plugin" "packageId" (plugins.package_id prow)),
         w'').
Proof.
  intros Hvrow Hprow Hlatest H.
  apply flagVersion_inv in H as (vrow' & prow' & Hvrow' & Hprow' & _ & _ & _ & _ & Hp).
  rewrite Hvrow in Hvrow'. injection Hvrow' as <-.
  rewrite Hprow in Hprow'. injection Hprow' as <-.
  rewrite Hlatest, bool_decide_eq_true_2 in Hp by done.
  assert (Hrow : ∃ prow', plugins_table w' !! plugin_versions.plugin_id vrow = Some prow'
                          ∧ plugins.package_id prow' = plugins.package_id prow
                          ∧ plugins.status prow' = PluginStatus.REJECTED
                          ∧ plugins.latest_version_id prow' = None).
  { eexists. rewrite Hp, lookup_insert_eq. split_and!; done. }
  split; [exact Hrow |]. destruct Hrow as (prow' & Hprow' & Hpkg & Hst & _).
  unfold PluginsService.getPluginByPackageId.
  destruct (plugins_findByPackageId_run (plugins.package_id prow) w')
    as (found & Hfind & Hfound & _).
  unfold bind at 1. rewrite Hfind.
  destruct found as [plugin|]; [| by eexists].
  destruct (Hfound plugin eq_refl) as (id & r & -> & Hsel).
  assert (Hin : (plugin_versions.plugin_id vrow, prow') ∈ [(id, r)]).
  { rewrite <- Hsel. apply elem_of_select_plugins. split; [| done]. simpl.
    rewrite Hpkg. apply String.eqb_refl. }
  apply list_elem_of_singleton in Hin. injection Hin as <- <-.
  simpl. rewrite Hst. simpl. by eexists.
Qed.

Lemma flagging_the_latest_version_unlists_the_plugin_witness :
  let w := w_three_floors in
  let vrow := version_row "p1" "2.0.0" "2.0.0" VersionStatus.PUBLISHED 1700000300000
                (Some "com.synapse.tictic/v2.0.0/plugin.synx") (Some "plugins") None in
  let prow := plugin_row "com.synapse.tictic" PluginStatus.PUBLISHED (Some "v3") in
  let run := PluginReviewService.flagVersion "v3" "malware" "admin" w in
  plugin_versions_table w !! "v3" = Some vrow
  ∧ plugins_table w !! "p1" = Some prow
  ∧ run = (Returned tt, run.2)
  ∧ (∃ prow' : plugins.row,
       plugins_table run.2 !! plugin_versions.plugin_id vrow = Some prow'
       ∧ plugins.package_id prow' = plugins.package_id prow
       ∧ plugins.status prow' = PluginStatus.REJECTED
       ∧ plugins.latest_version_id prow' = None)
  ∧ ∃ w'' : World,
      PluginsService.getPluginByPackageId (plugins.package_id prow) (Some "1.5.0") run.2
      = (Thrown (ResourceNotFoundException "Plugin" "packageId" (plugins.package_id prow)),
         w'').
Proof.
  intros w vrow prow run.
  assert (H1 : plugin_versions_table w !! "v3" = Some vrow) by (vm_compute; reflexivity).
  assert (H2 : plugins_table w !! plugin_versions.plugin_id vrow = Some prow)
    by (vm_compute; reflexivity).
  assert (H3 : plugins.latest_version_id prow = Some "v3") by reflexivity.
  assert (H4 : run.1 = Returned tt) by (vm_compute; reflexivity).
  pose proof (run_eq run _ H4) as Hrun.
  split_and!; [exact H1 | exact H2 | exact Hrun |..];
    apply (flagging_the_latest_version_unlists_the_plugin "v3" "malware" "admin"
             (Some "1.5.0") w run.2 vrow prow H1 H2 H3 Hrun).
Defined.

(** X16.  [unflagVersion] clears [is_flagged] and [flag_reason] and nothing
    else: the version keeps the status it had, so a version that was
    flagged stays FLAGGED, and the plugin that lost it as its latest
    version is not restored. *)
Theorem unflagVersion_only_clears_the_flag versionId w w' :
  PluginReviewService.unflagVersion versionId w = (Returned tt, w') →
  plugins_table w' = plugins_table w
  ∧ objects w' = objects w
  ∧ ∃ vrow vrow',
      plugin_versions_table w !! versionId = Some vrow
      ∧ plugin_versions_table w' = <[versionId := vrow']> (plugin_versions_table w)
      ∧ plugin_versions.is_flagged vrow' = false
      ∧ plugin_versions.flag_reason vrow' = None
      ∧ plugin_versions.status vrow' = plugin_versions.status vrow
      ∧ set_flag (plugin_versions.is_flagged vrow) (plugin_versions.flag_reason vrow) vrow'
        = vrow.
Proof.
  unfold PluginReviewService.unflagVersion. intros H.
  apply bind_inv_returned in H as (version & w1 & H1 & H).
  apply getVersionForReview_inv in H1 as (vrow & Hvrow & -> & ->).
  apply bind_inv_returned in H as (x & w3 & Hupd & H). injection H as <-.
  apply versions_update_inv in Hupd as (r & Hr & ->). simpl in Hr.
  rewrite Hvrow in Hr. injection Hr as <-. simpl.
  split_and!; [done | done |]. eexists vrow, _. split_and!; try done.
  by destruct vrow.
Qed.

Lemma unflagVersion_only_clears_the_flag_witness :
  let w := w_one_version VersionStatus.FLAGGED None None in
  let run := PluginReviewService.unflagVersion "v1" w in
  run = (Returned tt, run.2)
  ∧ plugins_table run.2 = plugins_table w
  ∧ objects run.2 = objects w
  ∧ ∃ (vrow vrow' : plugin_versions.row),
      plugin_versions_table w !! "v1" = Some vrow
      ∧ plugin_versions_table run.2 = <[ "v1" := vrow']> (plugin_versions_table w)
      ∧ plugin_versions.is_flagged vrow' = false
      ∧ plugin_versions.flag_reason vrow' = None
      ∧ plugin_versions.status vrow' = plugin_versions.status vrow
      ∧ set_flag (plugin_versions.is_flagged vrow) (plugin_versions.flag_reason vrow) vrow'
        = vrow.
Proof.
  intros w run.
  assert (H1 : run.1 = Returned tt) by (vm_compute; reflexivity).
  pose proof (run_eq run _ H1) as Hrun.
  split; [exact Hrun |].
  exact (unflagVersion_only_clears_the_flag "v1" w run.2 Hrun).
Defined.

(** ** Review decisions *)

Lemma findPublishedVersions_keeps {X} (f : World → X) pluginId :
  (∀ n w, f (set_tick n w) = f w) →
  keeps f (PluginVersionsRepository.findPublishedVersions pluginId).
Proof.
  intros H. unfold PluginVersionsRepository.findPublishedVersions.
  apply keeps_bind; [by apply keeps_db_read | intros ?]. keeps_auto.
Qed.

(** What a review decision that returned leaves behind: the version has
    the status decided and its plugin is there. *)
Lemma submitReviewDecision_returned versionId decision w w' :
  PluginReviewService.submitReviewDecision versionId decision w = (Returned tt, w') →
  ∃ vrow vrow' prow',
    plugin_versions_table w !! versionId = Some vrow
    ∧ pending (plugin_versions.status vrow)
    ∧ plugin_versions_table w' !! versionId = Some vrow'
    ∧ plugin_versions.status vrow' = decided (rd_decision decision)
    ∧ plugin_versions.plugin_id vrow' = plugin_versions.plugin_id vrow
    ∧ plugins_table w' !! plugin_versions.plugin_id vrow = Some prow'.
Proof.
  unfold PluginReviewService.submitReviewDecision,
    PluginReviewService.submitReviewDecision_with. intros Hrun.
  apply bind_inv_returned in Hrun as (version & w1 & H1 & Hrun).
  apply getVersionForReview_inv in H1 as (row0 & Hrow0 & -> & ->).
  apply bind_inv_returned in Hrun as (found & w2 & H2 & Hrun).
  destruct found as [plugin|]; [| discriminate].
  apply plugins_findById_inv in H2 as (prow0 & Hprow0 & -> & ->).
  simpl in Hrun, Hprow0.
  destruct (PluginReviewService.isValidTransition (plugin_versions.status row0)
              (rd_decision decision)) eqn:Hvalid; [| discriminate].
  assert (Hpending : pending (plugin_versions.status row0)).
  { unfold pending. destruct (plugin_versions.status row0); try discriminate; auto. }
  simpl in Hrun. rewrite andb_false_r in Hrun.
  exists row0. destruct (rd_decision decision); simpl.
  - unfold PluginReviewService.handlePublishDecision in Hrun.
    apply bind_inv_returned in Hrun as ([] & w3 & Hblock & Hrun).
    apply bind_inv_returned in Hrun as (reviewedAt & w4 & [= <- <-] & Hrun).
    apply bind_inv_returned in Hrun as (publishedAt & w5 & [= <- <-] & Hrun).
    apply bind_inv_returned in Hrun as (x & w6 & Hupd & Hrun).
    apply bind_inv_returned in Hrun as (y & w7 & Hpupd & Hrun).
    injection Hrun as <-.
    apply versions_update_inv in Hupd as (r5 & Hr5 & ->).
    apply plugins_update_inv in Hpupd as (p6 & Hp6 & ->).
    simpl in *.
    assert (Hpid : plugin_versions.plugin_id r5 = plugin_versions.plugin_id row0).
    { destruct (truthy (plugin_versions.temp_storage_path row0)).
      - apply (publish_move_inv
                 (PluginVersionsRepository.mapToEntity (versionId, row0))
                 (PluginsRepository.mapToEntity (plugin_versions.plugin_id row0, prow0)))
          in Hblock as (Hp & r & Hr & Hv).
        simpl in *. rewrite Hrow0 in Hr. injection Hr as <-.
        rewrite Hv, lookup_insert_eq in Hr5. by injection Hr5 as <-.
      - injection Hblock as <-. simpl in *. rewrite Hrow0 in Hr5. by injection Hr5 as <-. }
    eexists _, _.
    split_and!; [done | done | apply lookup_insert_eq | done | done | apply lookup_insert_eq].
  - unfold PluginReviewService.handleRejectDecision in Hrun.
    apply bind_inv_returned in Hrun as ([] & w3 & Hblock & Hrun).
    destruct (reject_cleanup_run (PluginVersionsRepository.mapToEntity (versionId, row0))
                (set_tick (S (S (tick w))) (set_tick (S (tick w)) w)))
      as (w3' & Hblock' & Htables & _).
    rewrite Hblock in Hblock'. injection Hblock' as <-.
    apply tables_eq in Htables as [Hp3 Hv3]. simpl in Hp3, Hv3.
    apply bind_inv_returned in Hrun as (reviewedAt & w4 & [= <- <-] & Hrun).
    apply bind_inv_returned in Hrun as (x & w5 & Hupd & Hrun).
    apply versions_update_inv in Hupd as (r4 & Hr4 & ->).
    simpl in Hr4, Hrun. rewrite Hv3, Hrow0 in Hr4. injection Hr4 as <-.
    case_bool_decide as Hlatest.
    + apply bind_inv_returned in Hrun as (published & w6 & Hpub & Hrun).
      pose proof (keeps_run tables _ _ _ _
                    (findPublishedVersions_keeps tables _ (λ _ _, eq_refl)) Hpub) as Hk6.
      apply tables_eq in Hk6 as [Hp6 Hv6]. simpl in Hp6, Hv6.
      assert (Hfinal : ∃ dto x w7,
                PluginsRepository.update (plugin_versions.plugin_id row0) dto w6
                = (Returned x, w7) ∧ w' = w7).
      { destruct published as [|first rest];
          apply bind_inv_returned in Hrun as (y & w7 & Hpupd & Hrun);
          injection Hrun as <-; by eexists _, _, _. }
      destruct Hfinal as (dto & y & w7 & Hpupd & ->).
      apply plugins_update_inv in Hpupd as (p6 & Hp6' & ->). simpl.
      eexists _, _.
      split_and!; [done | done | | | | apply lookup_insert_eq].
      * rewrite Hv6. apply lookup_insert_eq.
      * done.
      * done.
    + injection Hrun as <-. simpl. eexists _, prow0.
      split_and!; [done | done | apply lookup_insert_eq | done | done |].
      by rewrite Hp3.
Qed.

(** X17.  A version is reviewed at most once.  After a review decision
    that returned, the version has the status decided, and every further
    decision on it, of either kind, throws and changes no row and no
    object; when the two reads of the database succeed, what it throws is
    the invalid-transition exception naming that status. *)
Theorem a_version_is_reviewed_at_most_once versionId decision decision' w w' :
  PluginReviewService.submitReviewDecision versionId decision w = (Returned tt, w') →
  ∃ e w'',
    PluginReviewService.submitReviewDecision versionId decision' w' = (Thrown e, w'')
    ∧ data w'' = data w'
    ∧ (fault (env w') (tick w') = None → fault (env w') (S (tick w')) = None →
       e = InvalidTransitionException
             ("Version status is "
              +:+ VersionStatus.to_string (decided (rd_decision decision))
              +:+ ", cannot transition to "
              +:+ ReviewDecision.to_string (rd_decision decision'))).
Proof.
  intros H.
  apply submitReviewDecision_returned in H
    as (vrow & vrow' & prow' & _ & _ & Hvrow' & Hst & Hpid & Hprow').
  rewrite <- Hpid in Hprow'.
  assert (Hinvalid : PluginReviewService.isValidTransition (plugin_versions.status vrow')
                       (rd_decision decision') = false).
  { rewrite Hst. by destruct (rd_decision decision). }
  unfold PluginReviewService.submitReviewDecision,
    PluginReviewService.submitReviewDecision_with.
  destruct (PluginReviewService.getVersionForReview versionId w')
    as [[version|e1] w1] eqn:H1.
  - pose proof (keeps_run data _ _ _ _ (getVersionForReview_keeps versionId) H1) as Hk1.
    unfold bind at 1. rewrite H1.
    apply getVersionForReview_inv in H1 as (r & Hr & -> & ->).
    rewrite Hvrow' in Hr. injection Hr as <-.
    change (PluginVersion.pluginId (PluginVersionsRepository.mapToEntity (versionId, vrow')))
      with (plugin_versions.plugin_id vrow').
    change (PluginVersion.status (PluginVersionsRepository.mapToEntity (versionId, vrow')))
      with (plugin_versions.status vrow').
    destruct (PluginsRepository.findById (plugin_versions.plugin_id vrow')
                (set_tick (S (tick w')) w')) as [[found|e2] w2] eqn:H2.
    + pose proof (keeps_run data _ _ _ _ (plugins_findById_keeps _) H2) as Hk2.
      unfold bind at 1. rewrite H2.
      destruct found as [plugin|].
      * rewrite Hinvalid. simpl. eexists _, _. split; [reflexivity |].
        split; [congruence |]. intros _ _. by rewrite Hst.
      * eexists _, _. split; [reflexivity |]. split; [congruence |]. intros _ Hf2.
        rewrite (plugins_findById_run _ prow') in H2 by done. discriminate.
    + pose proof (keeps_run data _ _ _ _ (plugins_findById_keeps _) H2) as Hk2.
      unfold bind at 1. rewrite H2.
      eexists _, _. split; [reflexivity |]. split; [congruence |]. intros _ Hf2.
      rewrite (plugins_findById_run _ prow') in H2 by done. discriminate.
  - pose proof (keeps_run data _ _ _ _ (getVersionForReview_keeps versionId) H1) as Hk1.
    unfold bind at 1. rewrite H1.
    eexists _, _. split; [reflexivity |]. split; [done |]. intros Hf1 _.
    revert H1. unfold PluginReviewService.getVersionForReview, bind.
    rewrite (versions_findById_run _ vrow') by done. discriminate.
Qed.

Lemma a_version_is_reviewed_at_most_once_witness :
  let w := w_staged in
  let run := PluginReviewService.submitReviewDecision "v1" publish_by_admin w in
  run = (Returned tt, run.2)
  ∧ ∃ (e : Exception) (w'' : World),
      PluginReviewService.submitReviewDecision "v1" reject_by_admin run.2 = (Thrown e, w'')
      ∧ data w'' = data run.2
      ∧ (fault (env run.2) (tick run.2) = None →
         fault (env run.2) (S (tick run.2)) = None →
         e = InvalidTransitionException
               ("Version status is "
                +:+ VersionStatus.to_string (decided (rd_decision publish_by_admin))
                +:+ ", cannot transition to "
                +:+ ReviewDecision.to_string (rd_decision reject_by_admin))).
Proof.
  intros w run.
  assert (H1 : run.1 = Returned tt) by (vm_compute; reflexivity).
  pose proof (run_eq run _ H1) as Hrun.
  split; [exact Hrun |].
  exact (a_version_is_reviewed_at_most_once "v1" publish_by_admin reject_by_admin
           w run.2 Hrun).
Defined.

(** ** The review queue *)

(** [findById] never throws. *)
Lemma plugins_findById_total id w :
  ∃ found, PluginsRepository.findById id w = (Returned found, set_tick (S (tick w)) w).
Proof.
  unfold PluginsRepository.findById, db_read, supabase_error, interact, bind, get, ret.
  simpl. destruct (fault (env w) (tick w)); simpl; by eexists.
Qed.

(** What ties an item of the queue to the version row it shows. *)
Lemma reviewItems_run versions result w :
  ∃ items w',
    PluginReviewService.reviewItems versions result w = (Returned (result ++ items)%list, w')
    ∧ data w' = data w
    ∧ Forall2 shows items versions.
Proof.
  revert result w. induction versions as [|version rest IH]; intros result w.
  - exists [], w. rewrite app_nil_r. split_and!; [done | done | constructor].
  - simpl. destruct (plugins_findById_total (PluginVersion.pluginId version) w)
      as (plugin & Hfind).
    unfold bind at 1. rewrite Hfind.
    edestruct IH as (items & w' & -> & Hdata & Hitems).
    eexists (_ :: items), w'. rewrite <- app_assoc. split_and!; [done | done |].
    constructor; [| done]. unfold shows. simpl. split_and!; done.
Qed.

(** X18.  [getReviewQueue] never throws and changes nothing.  Its items
    show rows of the version table, one item per row and in the order of
    the rows: every row shown is SUBMITTED or PENDING_REVIEW, no row is
    shown twice, the rows are ordered by creation time, oldest first, and
    when the database answers the first request every row in one of the
    two statuses is shown. *)
Theorem getReviewQueue_lists_pending_versions_oldest_first w :
  ∃ items w' rows,
    PluginReviewService.getReviewQueue w = (Returned items, w')
    ∧ data w' = data w
    ∧ Forall2 (λ item row, shows item (PluginVersionsRepository.mapToEntity row)) items rows
    ∧ Forall (λ row, plugin_versions_table w !! row.1 = Some row.2
                     ∧ pending (plugin_versions.status row.2)) rows
    ∧ NoDup rows
    ∧ StronglySorted created_asc rows
    ∧ (fault (env w) (tick w) = None →
       ∀ id r, plugin_versions_table w !! id = Some r →
               pending (plugin_versions.status r) → (id, r) ∈ rows).
Proof.
  unfold PluginReviewService.getReviewQueue,
    PluginVersionsRepository.findVersionsInReviewQueue.
  set (p := λ v : string * plugin_versions.row,
              bool_decide (plugin_versions.status v.2
                           ∈ [VersionStatus.SUBMITTED; VersionStatus.PENDING_REVIEW])).
  assert (Hp : ∀ id r, p (id, r) = true ↔ pending (plugin_versions.status r)).
  { intros id r. unfold p, pending. rewrite bool_decide_eq_true. simpl.
    rewrite !elem_of_cons, elem_of_nil. tauto. }
  assert (Hread : ∃ rows,
    db_read (λ w, inr (merge_sort created_asc (select_versions p w))) w
    = (Returned (match fault (env w) (tick w) with
                 | Some msg => inl msg
                 | None => inr rows
                 end), set_tick (S (tick w)) w)
    ∧ rows = merge_sort created_asc (select_versions p w)).
  { eexists. split; [| reflexivity].
    unfold db_read, supabase_error, interact, bind, get, ret. simpl.
    by destruct (fault (env w) (tick w)). }
  destruct Hread as (sorted & Hread & Hsorted).
  unfold bind at 1. unfold bind at 1. rewrite Hread. simpl.
  set (rows := default [] (data_of (match fault (env w) (tick w) with
                                    | Some msg => inl msg
                                    | None => inr sorted
                                    end))).
  destruct (reviewItems_run (PluginVersionsRepository.mapToEntity <$> rows) []
              (set_tick (S (tick w)) w)) as (items & w' & Hrun & Hdata & Hitems).
  exists items, w', rows. rewrite Hrun. simpl.
  assert (Hsub : ∀ x, x ∈ rows → x ∈ select_versions p w).
  { intros x. unfold rows. destruct (fault (env w) (tick w)); simpl.
    - by intros ?%elem_of_nil.
    - rewrite Hsorted. by rewrite merge_sort_Permutation. }
  split_and!.
  - done.
  - done.
  - exact (proj1 (Forall2_fmap_r PluginVersionsRepository.mapToEntity shows items rows)
             Hitems).
  - apply Forall_forall. intros [id r] Hin%Hsub.
    apply elem_of_select_versions in Hin as [Hpr Hr]. simpl. split; [done |]. exact (proj1 (Hp id r) Hpr).
  - unfold rows. destruct (fault (env w) (tick w)); simpl; [constructor |].
    rewrite Hsorted, merge_sort_Permutation. unfold select_versions.
    apply NoDup_filter, NoDup_map_to_list.
  - unfold rows. destruct (fault (env w) (tick w)); simpl; [constructor |].
    rewrite Hsorted. apply StronglySorted_merge_sort; apply _.
  - intros Hf id r Hr Hpending. unfold rows. rewrite Hf. simpl.
    rewrite Hsorted, merge_sort_Permutation. apply elem_of_select_versions.
    split; [exact (proj2 (Hp id r) Hpending) | done].
Qed.

(** ** Paging through the store *)

Lemma slice_page {A} (l : list A) (start size : Z) :
  0 ≤ start → 0 ≤ size →
  slice l start (start + size) = take (Z.to_nat size) (drop (Z.to_nat start) l).
Proof.
  intros Hstart Hsize. unfold slice.
  destruct (Z.ltb_spec start 0) as [? | _]; [lia |].
  destruct (Z.ltb_spec (start + size) 0) as [? | _]; [lia |].
  destruct (decide (Z.of_nat (length l) ≤ start)) as [Hout | Hin].
  - rewrite (drop_ge l (Z.to_nat start)) by lia. rewrite take_nil.
    replace (Z.to_nat _) with 0%nat by lia. done.
  - replace (Z.to_nat (start `min` Z.of_nat (length l))) with (Z.to_nat start) by lia.
    destruct (decide (start + size ≤ Z.of_nat (length l))) as [Hfull | Hshort].
    + f_equal. lia.
    + rewrite !take_ge; [done | |]; rewrite length_drop; lia.
Qed.

(** The pages of a list: [n] pages of [size] items cover it when
    [n * size] reaches its length. *)
Lemma pages_tile {A} (l : list A) (size n : nat) :
  (length l ≤ n * size)%nat →
  mjoin ((λ p, take size (drop (p * size) l)) <$> seq 0 n) = l.
Proof.
  revert l. induction n as [|n IH]; intros l Hlen.
  - destruct l; [done | simpl in Hlen; lia].
  - change (seq 0 (S n)) with (0%nat :: seq 1 n). rewrite <- fmap_S_seq.
    rewrite fmap_cons, <- list_fmap_compose. simpl mjoin.
    trans (take size l ++ drop size l)%list; [| apply take_drop]. f_equal.
    etrans; [| apply (IH (drop size l)); rewrite length_drop; lia].
    f_equal. apply list_fmap_ext. intros _ p _. simpl.
    by rewrite drop_drop.
Qed.

Lemma ceil_div_pos (a b : Z) :
  0 ≤ a → 0 < b →
  ∃ n : nat, ceil_div a b = Finite (Z.of_nat n)
             ∧ a ≤ Z.of_nat n * b ∧ (Z.of_nat n - 1) * b < a.
Proof.
  intros Ha Hb. unfold ceil_div.
  destruct (Z.eqb_spec b 0) as [? | _]; [lia |].
  pose proof (Z.div_mod (- a) b ltac:(lia)) as Hdiv.
  pose proof (Z.mod_pos_bound (- a) b Hb) as Hmod.
  exists (Z.to_nat (- ((- a) `div` b))).
  assert ((- a) `div` b ≤ 0) by (apply Z.div_le_upper_bound; lia).
  rewrite Z2Nat.id by lia. split_and!; [done | nia | nia].
Qed.

(** The three queries behind the listing never throw and change nothing;
    what they return are PUBLISHED rows of the table, each once, newest
    first. *)
Lemma published_listing_run (p : string * plugins.row → bool) w :
  (∀ x, p x = true → plugins.status x.2 = PluginStatus.PUBLISHED) →
  ∃ rows,
    (r <- db_read (λ w, inr (merge_sort plugin_created_desc (select_plugins p w))) ;;
     ret (PluginsRepository.mapToEntity <$> default [] (data_of r))) w
    = (Returned (PluginsRepository.mapToEntity <$> rows), set_tick (S (tick w)) w)
    ∧ Forall (λ row, plugins_table w !! row.1 = Some row.2
                     ∧ plugins.status row.2 = PluginStatus.PUBLISHED) rows
    ∧ NoDup rows
    ∧ StronglySorted plugin_created_desc rows
    ∧ (fault (env w) (tick w) = None →
       ∀ id r, plugins_table w !! id = Some r → p (id, r) = true → (id, r) ∈ rows).
Proof.
  intros Hp.
  unfold db_read, supabase_error, interact, bind, get, ret. simpl.
  destruct (fault (env w) (tick w)) as [msg|]; simpl.
  - exists []. split_and!; [done | constructor | constructor | constructor | done].
  - eexists. split; [reflexivity |]. split_and!.
    + apply Forall_forall. intros [id r]. rewrite merge_sort_Permutation.
      intros [Hpr Hr]%elem_of_select_plugins. split; [done |]. by apply Hp in Hpr.
    + rewrite merge_sort_Permutation. apply NoDup_filter, NoDup_map_to_list.
    + apply StronglySorted_merge_sort; apply _.
    + intros _ id r Hr Hpr. rewrite merge_sort_Permutation.
      by apply elem_of_select_plugins.
Qed.

(** A request for a page: the query never throws, and the response is cut
    out of its answer. *)
Lemma listPublishedPlugins_run ilike category search w :
  ∃ rows,
    Forall (λ row, plugins_table w !! row.1 = Some row.2
                   ∧ plugins.status row.2 = PluginStatus.PUBLISHED) rows
    ∧ NoDup rows
    ∧ StronglySorted plugin_created_desc rows
    ∧ (fault (env w) (tick w) = None → truthy search = false → truthy category = false →
       ∀ id r, plugins_table w !! id = Some r →
               plugins.status r = PluginStatus.PUBLISHED → (id, r) ∈ rows)
    ∧ ∀ page pageSize,
        let actualPageSize := default defaultPageSize pageSize `min` maxPageSize in
        let start := default 0 page * actualPageSize in
        PluginsService.listPublishedPlugins ilike category search page pageSize w
        = (Returned
             {| pg_data :=
                  PluginsService.toPluginResponse
                  <$> slice (PluginsRepository.mapToEntity <$> rows)
                        start (start + actualPageSize);
                pg_total := Z.of_nat (length rows);
                pg_page := default 0 page;
                pg_pageSize := actualPageSize;
                pg_totalPages := ceil_div (Z.of_nat (length rows)) actualPageSize |},
           set_tick (S (tick w)) w).
Proof.
  set (query :=
    if truthy search && negb (String.eqb (trimStart (default "" search)) "") then
      PluginsRepository.searchPublishedPlugins ilike (default "" search)
        PluginStatus.PUBLISHED
    else if truthy category && negb (String.eqb (trimStart (default "" category)) "") then
      PluginsRepository.findByCategoryAndStatus (default "" category) PluginStatus.PUBLISHED
    else PluginsRepository.findByStatus PluginStatus.PUBLISHED).
  assert (Hquery : ∃ rows,
    query w = (Returned (PluginsRepository.mapToEntity <$> rows), set_tick (S (tick w)) w)
    ∧ Forall (λ row, plugins_table w !! row.1 = Some row.2
                     ∧ plugins.status row.2 = PluginStatus.PUBLISHED) rows
    ∧ NoDup rows
    ∧ StronglySorted plugin_created_desc rows
    ∧ (fault (env w) (tick w) = None → truthy search = false → truthy category = false →
       ∀ id r, plugins_table w !! id = Some r →
               plugins.status r = PluginStatus.PUBLISHED → (id, r) ∈ rows)).
  { unfold query.
    destruct (truthy search && negb (String.eqb (trimStart (default "" search)) ""))
      eqn:Hs;
      [| destruct (truthy category
                   && negb (String.eqb (trimStart (default "" category)) "")) eqn:Hc].
    - destruct (published_listing_run
        (λ p, bool_decide (plugins.status p.2 = PluginStatus.PUBLISHED)
              && ilike (default "" search) p.2) w)
        as (rows & Hrun & Hrows & Hnodup & Hsorted & _).
      { intros x [Hx _]%andb_prop. by apply bool_decide_eq_true in Hx. }
      exists rows. split_and!; [exact Hrun | done | done | done |].
      intros _ Hts. rewrite Hts in Hs. discriminate.
    - destruct (published_listing_run
        (λ p, bool_decide (plugins.category p.2 = Some (default "" category))
              && bool_decide (plugins.status p.2 = PluginStatus.PUBLISHED)) w)
        as (rows & Hrun & Hrows & Hnodup & Hsorted & _).
      { intros x [_ Hx]%andb_prop. by apply bool_decide_eq_true in Hx. }
      exists rows. split_and!; [exact Hrun | done | done | done |].
      intros _ _ Htc. rewrite Htc in Hc. discriminate.
    - destruct (published_listing_run
        (λ p, bool_decide (plugins.status p.2 = PluginStatus.PUBLISHED)) w)
        as (rows & Hrun & Hrows & Hnodup & Hsorted & Hall).
      { intros x Hx. by apply bool_decide_eq_true in Hx. }
      exists rows. split_and!; [exact Hrun | done | done | done |].
      intros Hf _ _ id r Hr Hst. apply Hall; [done | done |].
      by apply bool_decide_eq_true. }
  destruct Hquery as (rows & Hrun & Hrows & Hnodup & Hsorted & Hall).
  exists rows. split_and!; [done | done | done | done |].
  intros page pageSize. unfold PluginsService.listPublishedPlugins.
  cbv zeta. unfold bind at 1.
  match goal with
  | |- context [let (_, _) := ?m in _] =>
      replace m with (Returned (PluginsRepository.mapToEntity <$> rows),
                      set_tick (S (tick w)) w) by (symmetry; exact Hrun)
  end.
  by rewrite length_fmap.
Qed.

(** X19.  The store can be paged through.  For a given filter and state
    there is one listing, of PUBLISHED plugin rows only, each once and
    newest first, such that every request for a page, with any page
    number from 0 and any page size from 1, returns without changing
    anything and reports the size of the listing, a page size of at most
    100, as many items as the page size allows (the items of the listing
    from position page times page size), and the same number of pages;
    and the pages up to that number, put one after the other, are the
    listing.  With no filter and no database error, every PUBLISHED plugin
    is in the listing. *)
Theorem listPublishedPlugins_pages_tile_the_listing ilike category search pageSize w :
  0 < pageSize →
  let size := Z.to_nat (pageSize `min` maxPageSize) in
  ∃ (rows : list (string * plugins.row)) (totalPages : nat),
    let listing :=
      (PluginsService.toPluginResponse ∘ PluginsRepository.mapToEntity) <$> rows in
    Forall (λ row, plugins_table w !! row.1 = Some row.2
                   ∧ plugins.status row.2 = PluginStatus.PUBLISHED) rows
    ∧ NoDup rows
    ∧ StronglySorted plugin_created_desc rows
    ∧ (fault (env w) (tick w) = None → truthy search = false → truthy category = false →
       ∀ id r, plugins_table w !! id = Some r →
               plugins.status r = PluginStatus.PUBLISHED → (id, r) ∈ rows)
    ∧ (∀ page, 0 ≤ page →
         ∃ w',
           PluginsService.listPublishedPlugins ilike category search
             (Some page) (Some pageSize) w
           = (Returned {| pg_data := take size (drop (Z.to_nat page * size) listing);
                          pg_total := Z.of_nat (length listing);
                          pg_page := page;
                          pg_pageSize := Z.of_nat size;
                          pg_totalPages := Finite (Z.of_nat totalPages) |}, w')
           ∧ data w' = data w)
    ∧ (size ≤ 100)%nat
    ∧ mjoin ((λ page, take size (drop (page * size) listing)) <$> seq 0 totalPages)
      = listing.
Proof.
  intros Hsize size.
  assert (Hpos : (0 < size)%nat) by (unfold size, maxPageSize; lia).
  assert (Hsz : Z.of_nat size = pageSize `min` maxPageSize)
    by (unfold size, maxPageSize; lia).
  destruct (listPublishedPlugins_run ilike category search w)
    as (rows & Hrows & Hnodup & Hsorted & Hall & Hrun).
  destruct (ceil_div_pos (Z.of_nat (length rows)) (Z.of_nat size)) as (n & Hn & Hup & _);
    [lia | lia |].
  exists rows, n. simpl. split_and!; try done.
  - intros page Hpage. exists (set_tick (S (tick w)) w). split; [| done].
    rewrite Hrun. simpl. do 2 f_equal. rewrite !length_fmap, <- Hsz, Hn.
    f_equal. rewrite slice_page by lia.
    rewrite fmap_take, fmap_drop, <- list_fmap_compose, Nat2Z.id.
    do 2 f_equal. lia.
  - unfold size, maxPageSize. lia.
  - apply pages_tile. rewrite length_fmap. nia.
Qed.

Lemma listPublishedPlugins_pages_tile_the_listing_witness :
  let w := w_three_floors in
  let ilike := λ (_ : string) (_ : plugins.row), false in
  let pageSize := 2 in
  let size := Z.to_nat (pageSize `min` maxPageSize) in
  0 < pageSize
  ∧ ∃ (rows : list (string * plugins.row)) (totalPages : nat),
      let listing :=
        (PluginsService.toPluginResponse ∘ PluginsRepository.mapToEntity) <$> rows in
      Forall (λ row, plugins_table w !! row.1 = Some row.2
                     ∧ plugins.status row.2 = PluginStatus.PUBLISHED) rows
      ∧ NoDup rows
      ∧ StronglySorted plugin_created_desc rows
      ∧ (fault (env w) (tick w) = None → truthy None = false → truthy None = false →
         ∀ id r, plugins_table w !! id = Some r →
                 plugins.status r = PluginStatus.PUBLISHED → (id, r) ∈ rows)
      ∧ (∀ page, 0 ≤ page →
           ∃ w' : World,
             PluginsService.listPublishedPlugins ilike None None
               (Some page) (Some pageSize) w
             = (Returned {| pg_data := take size (drop (Z.to_nat page * size) listing);
                            pg_total := Z.of_nat (length listing);
                            pg_page := page;
                            pg_pageSize := Z.of_nat size;
                            pg_totalPages := Finite (Z.of_nat totalPages) |}, w')
             ∧ data w' = data w)
      ∧ (size ≤ 100)%nat
      ∧ mjoin ((λ page, take size (drop (page * size) listing)) <$> seq 0 totalPages)
        = listing.
Proof.
  intros w ilike pageSize size.
  assert (H1 : 0 < pageSize) by (unfold pageSize; lia).
  split; [exact H1 |].
  exact (listPublishedPlugins_pages_tile_the_listing ilike None None pageSize w H1).
Defined.



(** ** Submitting an uploaded file *)

Lemma uploadArtifact_keeps_tables buffer contentType packageId version :
  keeps tables (StorageService.uploadArtifact buffer contentType packageId version).
Proof.
  unfold StorageService.uploadArtifact, StorageService.calculateChecksum, Date_now.
  apply keeps_bind; [keeps_auto | intros ?].
  apply keeps_bind; [keeps_auto | intros ?].
  apply keeps_bind; [keeps_auto | intros ?].
  apply keeps_bind; [apply storage_upload_keeps_tables | intros ?]. keeps_auto.
Qed.

(** X21.  [submitPluginWithStorage] never writes a version that the plugin
    already has: it throws and leaves both tables as they were.  When the
    database answers its two reads and holds the package id and the
    version once, the duplicate is found before any storage operation:
    the exception is [VersionConflictException], nothing was uploaded and
    no request went to the storage.  The version is that of the manifest,
    and "1.0.0" when the manifest has none. *)
Theorem submitPluginWithStorage_checks_duplicates_before_storage
    file packageId manifest jsCode name description author minAppVersion
    w pid prow vid vrow :
  let version := or_default (m_version manifest) "1.0.0" in
  plugins_table w !! pid = Some prow →
  plugins.package_id prow = packageId →
  plugin_versions_table w !! vid = Some vrow →
  plugin_versions.plugin_id vrow = pid →
  plugin_versions.version vrow = version →
  ∃ e w',
    submitPluginWithStorage file packageId manifest jsCode name description author
      minAppVersion w = (Thrown e, w')
    ∧ tables w' = tables w
    ∧ (fault (env w) (tick w) = None → fault (env w) (S (tick w)) = None →
       package_ids_unique w → versions_unique w →
       e = VersionConflictException packageId version ∧ data w' = data w).
Proof.
  intros version Hprow Hpkg Hvrow Hpid Hver.
  assert (Hrest : ∀ w1, tables w1 = tables w →
    ∃ e w',
      (uploadResult <- StorageService.uploadArtifact (buffer file) (mimetype file)
                         packageId version ;;
       PluginsService.submitPlugin packageId name description author None None None None
         version manifest minAppVersion None
         (Some (ar_storagePath uploadResult)) (Some (ar_bucket uploadResult))
         (Some (ar_tempPath uploadResult)) (Some (ar_fileSizeBytes uploadResult))
         (Some (ar_checksumSha256 uploadResult))) w1 = (Thrown e, w')
      ∧ tables w' = tables w).
  { intros w1 Hw1.
    destruct (StorageService.uploadArtifact (buffer file) (mimetype file) packageId
                version w1) as [[staged|e] w2] eqn:Hup;
      pose proof (keeps_run tables _ _ _ _ (uploadArtifact_keeps_tables _ _ _ _) Hup) as Hk;
      unfold bind; rewrite Hup.
    - apply tables_eq in Hw1 as [Hp1 Hv1]. pose proof Hk as [Hp2 Hv2]%tables_eq.
      destruct (submitPlugin_existing_version packageId name description author None None
                  None None version manifest minAppVersion None
                  (Some (ar_storagePath staged)) (Some (ar_bucket staged))
                  (Some (ar_tempPath staged)) (Some (ar_fileSizeBytes staged))
                  (Some (ar_checksumSha256 staged)) w2 pid prow vid vrow)
        as (e & He & _ & Hdata & _); [congruence | done | congruence | done | done |].
      unfold outcome, final in *.
      destruct (PluginsService.submitPlugin _ _ _ _ _ _ _ _ _ _ _ _ _ _ _ _ _ w2)
        as [r wf]. simpl in He, Hdata. subst r. exists e, wf. split; [done |].
      unfold data in Hdata. unfold tables. injection Hdata as -> -> _ _.
      by rewrite Hp2, Hv2, Hp1, Hv1.
    - exists e, w2. split; [done | congruence]. }
  unfold submitPluginWithStorage. fold version.
  destruct (plugins_findByPackageId_run packageId w) as (found & Hfind & Hfound & Hsome).
  unfold bind at 1. unfold bind at 1. rewrite Hfind.
  destruct found as [plugin|].
  - destruct (Hfound plugin eq_refl) as (id & r & -> & Hsel).
    assert (Hin : (pid, prow) ∈ [(id, r)]).
    { rewrite <- Hsel. apply elem_of_select_plugins. split; [| done]. simpl.
      rewrite Hpkg. apply String.eqb_refl. }
    apply list_elem_of_singleton in Hin. injection Hin as <- <-.
    destruct (versions_findByPluginIdAndVersion_run pid version (set_tick (S (tick w)) w))
      as (existing & Hexisting & Hex).
    unfold bind at 1. simpl. rewrite Hexisting.
    destruct existing as [v|]; simpl.
    + eexists _, _. split; [reflexivity |]. split; [done |]. done.
    + destruct (Hrest (set_tick (S (S (tick w))) (set_tick (S (tick w)) w)) eq_refl)
        as (e & w' & Hrun & Htables).
      exists e, w'. split; [exact Hrun |]. split; [done |].
      intros Hf1 Hf2 _ Hvu. exfalso.
      pose proof (select_versions_by_plugin_and_version w vid vrow Hvu Hvrow) as Hsv.
      rewrite Hpid, Hver in Hsv.
      specialize (Hex Hf2 vid vrow Hsv). discriminate.
  - destruct (Hrest (set_tick (S (tick w)) w) eq_refl) as (e & w' & Hrun & Htables).
    exists e, w'. split; [exact Hrun |]. split; [done |].
    intros Hf1 _ Hpu _. exfalso.
    pose proof (select_plugins_by_package_id w pid prow Hpu Hprow) as Hsp.
    rewrite Hpkg in Hsp. specialize (Hsome Hf1 pid prow Hsp). discriminate.
Qed.

Lemma submitPluginWithStorage_checks_duplicates_before_storage_witness :
  let w := w_has_1_0_0 in
  let prow := plugin_row "com.synapse.tictic" PluginStatus.PENDING_REVIEW None in
  let vrow := version_row "p1" "1.0.0" "1.0.0" VersionStatus.SUBMITTED 1700000000000
                None None None in
  let version := or_default (m_version tictic_manifest) "1.0.0" in
  plugins_table w !! "p1" = Some prow
  ∧ plugins.package_id prow = "com.synapse.tictic"
  ∧ plugin_versions_table w !! "v1" = Some vrow
  ∧ plugin_versions.plugin_id vrow = "p1"
  ∧ plugin_versions.version vrow = version
  ∧ ∃ (e : Exception) (w' : World),
      submitPluginWithStorage tictic_synx "com.synapse.tictic" tictic_manifest
        "export default {}" "Tic Tac Toe" "" "Synapse Team" "1.0.0" w = (Thrown e, w')
      ∧ tables w' = tables w
      ∧ (fault (env w) (tick w) = None → fault (env w) (S (tick w)) = None →
         package_ids_unique w → versions_unique w →
         e = VersionConflictException "com.synapse.tictic" version ∧ data w' = data w).
Proof.
  intros w prow vrow version.
  assert (H1 : plugins_table w !! "p1" = Some prow) by (vm_compute; reflexivity).
  assert (H2 : plugins.package_id prow = "com.synapse.tictic") by reflexivity.
  assert (H3 : plugin_versions_table w !! "v1" = Some vrow) by (vm_compute; reflexivity).
  assert (H4 : plugin_versions.plugin_id vrow = "p1") by reflexivity.
  assert (H5 : plugin_versions.version vrow = version) by reflexivity.
  split_and!; [exact H1 | exact H2 | exact H3 | exact H4 | exact H5 |].
  exact (submitPluginWithStorage_checks_duplicates_before_storage tictic_synx
           "com.synapse.tictic" tictic_manifest "export default {}" "Tic Tac Toe" ""
           "Synapse Team" "1.0.0" w "p1" prow "v1" vrow H1 H2 H3 H4 H5).
Defined.

(** ** The health check *)

(** X22.  [isHealthy] reports the database up only when the request
    succeeds and the plugins table has a row: on an empty table
    [.single()] reports an error, and the check fails although the
    database answered.  Every failure is reported as "Database health
    check failed" with the detail "Database connection failed"; the
    message of the database is not passed on.  The check changes
    nothing. *)
Theorem isHealthy_needs_a_plugin_row w :
  ∃ r,
    DatabaseHealthService.isHealthy w = (Returned r, set_tick (S (tick w)) w)
    ∧ match r with
      | inr result =>
          fault (env w) (tick w) = None
          ∧ plugins_table w ≠ ∅
          ∧ result = DatabaseHealthService.getStatus "database" true None
      | inl error =>
          (is_Some (fault (env w) (tick w)) ∨ plugins_table w = ∅)
          ∧ error = DatabaseHealthService.MkHealthCheckError "Database health check failed"
                      (DatabaseHealthService.getStatus "database" false
                         (Some "Database connection failed"))
      end.
Proof.
  unfold DatabaseHealthService.isHealthy, db_read, supabase_error, interact, bind, get, ret.
  simpl. destruct (fault (env w) (tick w)) as [msg|] eqn:Hf; simpl.
  { eexists. split; [reflexivity |]. simpl. split; [left; by eexists | done]. }
  destruct (map_to_list (plugins_table w)) as [|row rows] eqn:Hrows; simpl.
  - eexists. split; [reflexivity |]. simpl. split; [| done].
    right. by apply map_to_list_empty_iff.
  - eexists. split; [reflexivity |]. simpl. split_and!; [done | | done].
    intros Hempty. rewrite Hempty, map_to_list_empty in Hrows. discriminate.
Qed.

(** ** Semantic versions *)



(** ** A logic of runs *)

Lemma hoare_ret {Σ A} (P : Σ → Prop) (a : A) (Q : A → Σ → Prop) (E : Σ → Prop) :
  (∀ w, P w → Q a w) → hoare P (ret a) Q E.
Proof. intros H w HP. by apply H. Qed.

Lemma hoare_throw {Σ A} (P : Σ → Prop) e (Q : A → Σ → Prop) (E : Σ → Prop) :
  (∀ w, P w → E w) → hoare P (throw e) Q E.
Proof. intros H w HP. by apply H. Qed.

Lemma hoare_bind {Σ A B} (P : Σ → Prop) (m : St Σ A) (k : A → St Σ B)
    (R : A → Σ → Prop) (Q : B → Σ → Prop) (E : Σ → Prop) :
  hoare P m R E → (∀ a, hoare (R a) (k a) Q E) → hoare P (bind m k) Q E.
Proof.
  intros Hm Hk w HP. unfold bind. specialize (Hm w HP).
  destruct (m w) as [[a|e] w1]; [by apply Hk | done].
Qed.

Lemma hoare_try_catch {Σ A} (P : Σ → Prop) (m : St Σ A) h
    (Q : A → Σ → Prop) (E' E : Σ → Prop) :
  hoare P m Q E' → (∀ e, hoare E' (h e) Q E) → hoare P (try_catch m h) Q E.
Proof.
  intros Hm Hh w HP. unfold try_catch. specialize (Hm w HP).
  destruct (m w) as [[a|e] w1]; [done | by apply Hh].
Qed.

Lemma hoare_conseq {Σ A} (P P' : Σ → Prop) (m : St Σ A)
    (Q Q' : A → Σ → Prop) (E E' : Σ → Prop) :
  hoare P' m Q' E' →
  (∀ w, P w → P' w) → (∀ a w, Q' a w → Q a w) → (∀ w, E' w → E w) →
  hoare P m Q E.
Proof.
  intros Hm HP HQ HE w Hw. specialize (Hm w (HP w Hw)).
  destruct (m w) as [[a|e] w1]; auto.
Qed.

Lemma hoare_modify {Σ} (P : Σ → Prop) (f : Σ → Σ) (Q : unit → Σ → Prop) (E : Σ → Prop) :
  (∀ w, P w → Q tt (f w)) → hoare P (modify f) Q E.
Proof. intros H w HP. by apply H. Qed.

Lemma hoare_get {Σ} (P : Σ → Prop) (Q : Σ → Σ → Prop) (E : Σ → Prop) :
  (∀ w, P w → Q w w) → hoare P get Q E.
Proof. intros H w HP. by apply H. Qed.

Lemma hoare_lift {A} (P : World → Prop) (m : M A) (Q : A → World → Prop) (E : World → Prop) :
  hoare P m Q E →
  hoare (λ sw, P sw.2) (DeveloperService.lift m) (λ a sw, Q a sw.2) (λ sw, E sw.2).
Proof.
  intros Hm [s w] HP. unfold DeveloperService.lift. simpl in *. specialize (Hm w HP).
  by destruct (m w) as [[a|e] w1].
Qed.

(** A computation that keeps [f] keeps every assertion that depends on
    [f] alone, and what its result says about such a state. *)
Lemma hoare_read {X A} (f : World → X) (m : M A) (P E : World → Prop)
    (R : A → World → Prop) :
  keeps f m →
  (∀ w w', f w' = f w → P w → P w') →
  (∀ w, P w → E w) →
  (∀ w a w', P w → m w = (Returned a, w') → R a w') →
  hoare P m (λ a w, P w ∧ R a w) E.
Proof.
  intros Hk HP HE HR w Hw. pose proof (Hk w) as Hf. pose proof (HR w) as HR'.
  destruct (m w) as [[a|e] w']; simpl in Hf; eauto.
Qed.

Lemma hoare_keeps {X A} (f : World → X) (m : M A) (P E : World → Prop) :
  keeps f m → (∀ w w', f w' = f w → P w → P w') → (∀ w, P w → E w) →
  hoare P m (λ _, P) E.
Proof.
  intros Hk HP HE w Hw. pose proof (Hk w) as Hf.
  destruct (m w) as [[a|e] w']; simpl in Hf; eauto.
Qed.

(** ** The consistency of the store *)

Lemma consistent_tables w w' : tables w' = tables w → consistent w → consistent w'.
Proof.
  intros [Hp Hv]%tables_eq.
  unfold consistent, package_ids_unique, versions_unique, versions_reference_plugins,
    latest_is_published.
  by rewrite Hp, Hv.
Qed.

Lemma has_version_tables vid pid s w w' :
  tables w' = tables w → has_version vid pid s w → has_version vid pid s w'.
Proof. intros [_ Hv]%tables_eq. unfold has_version. by rewrite Hv. Qed.

Lemma consistent_insert_plugin w w' id row :
  consistent w →
  plugins_table w !! id = None →
  (∀ id' r', plugins_table w !! id' = Some r' →
     plugins.package_id r' ≠ plugins.package_id row) →
  plugins.latest_version_id row = None →
  plugins_table w' = <[id := row]> (plugins_table w) →
  plugin_versions_table w' = plugin_versions_table w →
  consistent w'.
Proof.
  intros (Hpu & Hvu & Href & Hlat) Hfresh Hpkg Hnone Hp Hv. split_and!.
  - intros id1 id2 r1 r2. rewrite Hp, !lookup_insert_Some.
    intros [[<- <-] | [? H1]] [[<- <-] | [? H2]] Heq; try done.
    + by destruct (Hpkg _ _ H2).
    + by destruct (Hpkg _ _ H1).
    + by eapply Hpu.
  - unfold versions_unique. rewrite Hv. exact Hvu.
  - intros vid r. rewrite Hv, Hp. intros Hr. destruct (Href vid r Hr) as [p Hpr].
    destruct (decide (id = plugin_versions.plugin_id r)) as [<- | Hne].
    + rewrite lookup_insert_eq. by eexists.
    + rewrite lookup_insert_ne by done. by eexists.
  - intros pid p v. rewrite Hp, lookup_insert_Some, Hv.
    intros [[<- <-] | [? Hpr]] Hl; [congruence | eauto].
Qed.

Lemma consistent_insert_version w w' id row :
  consistent w →
  plugin_versions_table w !! id = None →
  is_Some (plugins_table w !! plugin_versions.plugin_id row) →
  (∀ id' r', plugin_versions_table w !! id' = Some r' →
     plugin_versions.plugin_id r' = plugin_versions.plugin_id row →
     plugin_versions.version r' ≠ plugin_versions.version row) →
  plugin_versions_table w' = <[id := row]> (plugin_versions_table w) →
  plugins_table w' = plugins_table w →
  consistent w'.
Proof.
  intros (Hpu & Hvu & Href & Hlat) Hfresh Hfk Huniq Hv Hp. split_and!.
  - unfold package_ids_unique. rewrite Hp. exact Hpu.
  - intros id1 id2 r1 r2. rewrite Hv, !lookup_insert_Some.
    intros [[<- <-] | [? H1]] [[<- <-] | [? H2]] Hpid Hver; try done.
    + by destruct (Huniq _ _ H2).
    + by destruct (Huniq _ _ H1).
    + by eapply Hvu.
  - intros vid r. rewrite Hv, Hp, lookup_insert_Some.
    intros [[<- <-] | [? Hr]]; [done | by eapply Href].
  - intros pid p v. rewrite Hp. intros Hpr Hl.
    destruct (Hlat pid p v Hpr Hl) as (r & Hr & Hown).
    exists r. split; [| done]. rewrite Hv, lookup_insert_ne; [done | congruence].
Qed.

Lemma consistent_update_version w w' id r r' :
  consistent w →
  plugin_versions_table w !! id = Some r →
  plugin_versions.plugin_id r' = plugin_versions.plugin_id r →
  plugin_versions.version r' = plugin_versions.version r →
  plugin_versions.status r' = VersionStatus.PUBLISHED
  ∨ plugin_versions.status r ≠ VersionStatus.PUBLISHED
  ∨ (∀ pid p, plugins_table w !! pid = Some p → plugins.latest_version_id p ≠ Some id) →
  plugin_versions_table w' = <[id := r']> (plugin_versions_table w) →
  plugins_table w' = plugins_table w →
  consistent w'.
Proof.
  intros (Hpu & Hvu & Href & Hlat) Hr Hpid Hver Hst Hv Hp. split_and!.
  - unfold package_ids_unique. rewrite Hp. exact Hpu.
  - intros id1 id2 r1 r2. rewrite Hv, !lookup_insert_Some.
    intros [[<- <-] | [? H1]] [[<- <-] | [? H2]] Hpid' Hver'; try done.
    + eapply (Hvu id id2 r r2); congruence.
    + eapply (Hvu id1 id r1 r); congruence.
    + by eapply Hvu.
  - intros vid x. rewrite Hv, Hp, lookup_insert_Some.
    intros [[<- <-] | [? Hx]]; [rewrite Hpid; by eapply Href | by eapply Href].
  - intros pid p v. rewrite Hp. intros Hpr Hl.
    destruct (Hlat pid p v Hpr Hl) as (x & Hx & Hown & Hpub).
    destruct (decide (v = id)) as [-> | Hne].
    + rewrite Hr in Hx. injection Hx as <-. exists r'.
      rewrite Hv, lookup_insert_eq. split_and!; [done | congruence |].
      destruct Hst as [? | [? | Hno]]; [done | done |]. by destruct (Hno pid p Hpr).
    + exists x. by rewrite Hv, lookup_insert_ne.
Qed.

Lemma consistent_update_plugin w w' id p p' :
  consistent w →
  plugins_table w !! id = Some p →
  plugins.package_id p' = plugins.package_id p →
  (∀ v, plugins.latest_version_id p' = Some v →
     plugins.latest_version_id p = Some v
     ∨ ∃ r, plugin_versions_table w !! v = Some r
            ∧ plugin_versions.plugin_id r = id
            ∧ plugin_versions.status r = VersionStatus.PUBLISHED) →
  plugins_table w' = <[id := p']> (plugins_table w) →
  plugin_versions_table w' = plugin_versions_table w →
  consistent w'.
Proof.
  intros (Hpu & Hvu & Href & Hlat) Hpr Hpkg Hnew Hp Hv. split_and!.
  - intros id1 id2 r1 r2. rewrite Hp, !lookup_insert_Some.
    intros [[<- <-] | [? H1]] [[<- <-] | [? H2]] Heq; try done.
    + eapply (Hpu id id2 p r2); congruence.
    + eapply (Hpu id1 id r1 p); congruence.
    + by eapply Hpu.
  - unfold versions_unique. rewrite Hv. exact Hvu.
  - intros vid r. rewrite Hv, Hp. intros Hr. destruct (Href vid r Hr) as [x Hx].
    destruct (decide (id = plugin_versions.plugin_id r)) as [<- | Hne].
    + rewrite lookup_insert_eq. by eexists.
    + rewrite lookup_insert_ne by done. by eexists.
  - intros pid x v. rewrite Hp, lookup_insert_Some, Hv.
    intros [[<- <-] | [? Hx]] Hl; [| by eapply Hlat].
    destruct (Hnew v Hl) as [Hold | Hown]; [by eapply Hlat | done].
Qed.

(** *** The requests that write *)

Lemma plugins_create_thrown dto w e w' :
  PluginsRepository.create dto w = (Thrown e, w') → tables w' = tables w.
Proof.
  unfold PluginsRepository.create, insert_plugin, randomUUID, Date_now,
    supabase_error, interact, bind, get, modify, ret, throw.
  simpl. destruct (fault (env w) (S (S (S (tick w))))); simpl; [by intros [= _ <-] |].
  case_bool_decide; simpl; [by intros [= _ <-] |].
  case_bool_decide; simpl; [by intros [= _ <-] | discriminate].
Qed.

Lemma versions_create_thrown dto w e w' :
  PluginVersionsRepository.create dto w = (Thrown e, w') → tables w' = tables w.
Proof.
  unfold PluginVersionsRepository.create, insert_version, randomUUID, Date_now,
    supabase_error, interact, bind, get, modify, ret, throw.
  simpl. destruct (fault (env w) (S (S (tick w)))); simpl; [by intros [= _ <-] |].
  case_bool_decide; simpl; [by intros [= _ <-] |].
  case_bool_decide; simpl; [by intros [= _ <-] |].
  case_bool_decide; simpl; [by intros [= _ <-] | discriminate].
Qed.

Lemma versions_update_thrown id u w e w' :
  PluginVersionsRepository.update id u w = (Thrown e, w') → tables w' = tables w.
Proof.
  unfold PluginVersionsRepository.update, update_version_row, supabase_error,
    interact, bind, get, modify, ret, throw.
  simpl. destruct (fault (env w) (tick w)); simpl; [by intros [= _ <-] |].
  destruct (plugin_versions_table w !! id); simpl; [discriminate | by intros [= _ <-]].
Qed.

Lemma plugins_update_thrown id dto w e w' :
  PluginsRepository.update id dto w = (Thrown e, w') → tables w' = tables w.
Proof.
  unfold PluginsRepository.update, update_plugin_row, Date_now, supabase_error,
    interact, bind, get, modify, ret, throw.
  simpl. destruct (fault (env w) (S (tick w))); simpl; [by intros [= _ <-] |].
  destruct (plugins_table w !! id); simpl; [discriminate | by intros [= _ <-]].
Qed.

Lemma plugins_create_hoare dto :
  hoare consistent (PluginsRepository.create dto) (λ _, consistent) consistent.
Proof.
  intros w Hc. destruct (PluginsRepository.create dto w) as [[p|e] w'] eqn:H.
  - apply plugins_create_row in H
      as (row & _ & Hfresh & Hp & Hv & Hpkg & Hrow & _ & Hlatest).
    apply (consistent_insert_plugin w w' (uuid (env w) (tick w)) row);
      [done | done | | done | done | done].
    intros id' r' Hr'. rewrite Hrow. by eapply Hpkg.
  - apply plugins_create_thrown in H. by eapply consistent_tables.
Qed.

Lemma versions_create_hoare dto :
  hoare consistent (PluginVersionsRepository.create dto) (λ _, consistent) consistent.
Proof.
  intros w Hc. destruct (PluginVersionsRepository.create dto w) as [[v|e] w'] eqn:H.
  - apply versions_create_row in H
      as (row & _ & Hfresh & Hv & Hp & Hfk & Huniq & Hpid & Hver & _).
    apply (consistent_insert_version w w' (uuid (env w) (tick w)) row);
      [done | done | by rewrite Hpid | | done | done].
    intros id' r' Hr'. rewrite Hpid, Hver. by eapply Huniq.
  - apply versions_create_thrown in H. by eapply consistent_tables.
Qed.

(** An update of a version that leaves it PUBLISHED, or finds it in
    another status. *)
Lemma versions_update_hoare vid u pid s :
  default s (uv_status u) = VersionStatus.PUBLISHED ∨ s ≠ VersionStatus.PUBLISHED →
  hoare (λ w, consistent w ∧ has_version vid pid s w)
    (PluginVersionsRepository.update vid u)
    (λ _ w, consistent w ∧ has_version vid pid (default s (uv_status u)) w)
    (λ w, consistent w ∧ has_version vid pid s w).
Proof.
  intros Hok w [Hc (r & Hr & Hpid & Hst)].
  destruct (PluginVersionsRepository.update vid u w) as [[x|e] w'] eqn:H.
  - apply versions_update_inv in H as (r0 & Hr0 & ->). simpl.
    rewrite Hr in Hr0. injection Hr0 as <-. split.
    + apply (consistent_update_version w _ vid r (PluginVersionsRepository.updateData u r));
        [done | done | done | done | simpl; rewrite Hst; tauto | done | done].
    + eexists. simpl. rewrite lookup_insert_eq. split_and!; [done | done |].
      simpl. by rewrite Hst.
  - apply versions_update_thrown in H. split.
    + by eapply consistent_tables.
    + eapply has_version_tables; [done |]. by exists r.
Qed.

(** An update of a plugin that leaves its latest version alone, clears
    it, or sets it to a PUBLISHED version of the plugin. *)
Lemma plugins_update_hoare pid dto (P : World → Prop) :
  (∀ w v, P w → up_latestVersionId dto = Some (Some v) →
          has_version v pid VersionStatus.PUBLISHED w) →
  hoare (λ w, consistent w ∧ P w)
    (PluginsRepository.update pid dto) (λ _, consistent) consistent.
Proof.
  intros Hnew w [Hc HP].
  destruct (PluginsRepository.update pid dto w) as [[x|e] w'] eqn:H.
  - apply plugins_update_inv in H as (p & Hp & ->).
    apply (consistent_update_plugin w _ pid p
             (PluginsRepository.updateData (clock (env w) (tick w)) dto p));
      [done | done | done | | done | done].
    simpl. intros v. destruct (up_latestVersionId dto) as [[v'|]|] eqn:Hdto; simpl.
    + intros [= ->]. right. exact (Hnew w v HP eq_refl).
    + discriminate.
    + by left.
  - apply plugins_update_thrown in H. by eapply consistent_tables.
Qed.

Lemma hoare_tables {A} (m : M A) :
  keeps tables m → hoare consistent m (λ _, consistent) consistent.
Proof. intros Hk. apply (hoare_keeps tables); [done | apply consistent_tables | done]. Qed.

(** The assertion most steps of a review carry. *)
Lemma versioned_tables vid pid s w w' :
  tables w' = tables w →
  consistent w ∧ has_version vid pid s w → consistent w' ∧ has_version vid pid s w'.
Proof.
  intros Ht [Hc Hv]. split; [by eapply consistent_tables | by eapply has_version_tables].
Qed.

Lemma hoare_versioned {A} (m : M A) vid pid s :
  keeps tables m →
  hoare (λ w, consistent w ∧ has_version vid pid s w) m
    (λ _ w, consistent w ∧ has_version vid pid s w) consistent.
Proof.
  intros Hk. apply (hoare_keeps tables); [done | apply versioned_tables | by intros w []].
Qed.

Lemma keeps_tables_of_data {A} (m : M A) : keeps data m → keeps tables m.
Proof. intros Hk w. specialize (Hk w). unfold data, tables in *. congruence. Qed.

Lemma keeps_tables_of_env {A} (m : M A) :
  keeps (λ w, (tables w, env w)) m → keeps tables m.
Proof. intros Hk w. specialize (Hk w). congruence. Qed.

(** *** The operations of the services *)

Lemma submitPlugin_hoare packageId name description author iconKey category tags
    sourceUrl version manifest minAppVersion releaseNotes storagePath storageBucket
    tempStoragePath fileSizeBytes checksumSha256 :
  hoare consistent
    (PluginsService.submitPlugin packageId name description author iconKey category tags
       sourceUrl version manifest minAppVersion releaseNotes storagePath storageBucket
       tempStoragePath fileSizeBytes checksumSha256)
    (λ _, consistent) consistent.
Proof.
  unfold PluginsService.submitPlugin.
  apply (hoare_bind _ _ _ (λ _, consistent)).
  { apply hoare_tables. by apply plugins_findByPackageId_keeps. }
  intros found. apply (hoare_bind _ _ _ (λ _, consistent)).
  { destruct found as [plugin|]; [| apply plugins_create_hoare].
    apply (hoare_bind _ _ _ (λ _, consistent)).
    { apply hoare_tables. by apply versions_findByPluginIdAndVersion_keeps. }
    intros [existing|]; [by apply hoare_throw | by apply hoare_ret]. }
  intros plugin. apply (hoare_bind _ _ _ (λ _, consistent)); [apply versions_create_hoare |].
  intros versionData. apply (hoare_bind _ _ _ (λ _, consistent)).
  { case_bool_decide; [| by apply hoare_ret].
    apply (hoare_conseq _ (λ w, consistent w ∧ True) _ _ (λ _, consistent) _ consistent);
      [| done | done | done].
    apply plugins_update_hoare. intros w v _. discriminate. }
  intros plugin'. apply hoare_tables.
  apply keeps_tables_of_env, toPluginDetailResponse_keeps.
Qed.

Lemma alter_lookup {A} (f : A → A) (m : gmap string A) k :
  alter f k m = match m !! k with
                | Some x => <[k := f x]> m
                | None => m
                end.
Proof.
  apply map_eq. intros i. destruct (decide (i = k)) as [-> | Hne].
  - rewrite lookup_alter_eq. destruct (m !! k) as [x|] eqn:Hk; [| by rewrite Hk].
    by rewrite lookup_insert_eq.
  - rewrite lookup_alter_ne by done. destruct (m !! k); [| done].
    by rewrite lookup_insert_ne.
Qed.

Lemma incrementDownloadCount_hoare versionId :
  hoare consistent
    (try_catch (PluginsService.incrementDownloadCount versionId) (λ _, ret tt))
    (λ _, consistent) consistent.
Proof.
  intros w Hc.
  destruct (incrementDownloadCount_run versionId w) as (w' & -> & _ & Hp & _ & _ & Hv).
  destruct (acknowledged w (tick w)).
  - rewrite alter_lookup in Hv.
    destruct (plugin_versions_table w !! versionId) as [r|] eqn:Hr.
    + apply (consistent_update_version w w' versionId r (count_download r));
        [done | done | done | done | | done | done].
      simpl. destruct (decide (plugin_versions.status r = VersionStatus.PUBLISHED)); tauto.
    + eapply consistent_tables; [| done]. unfold tables. by rewrite Hp, Hv.
  - eapply consistent_tables; [| done]. unfold tables. by rewrite Hp, Hv.
Qed.

Lemma getPluginByPackageId_hoare packageId appVersion :
  hoare consistent (PluginsService.getPluginByPackageId packageId appVersion)
    (λ _, consistent) consistent.
Proof.
  unfold PluginsService.getPluginByPackageId.
  apply (hoare_bind _ _ _ (λ _, consistent)).
  { apply hoare_tables. by apply plugins_findByPackageId_keeps. }
  intros [plugin|]; [| by apply hoare_throw].
  destruct (negb _); [by apply hoare_throw |].
  apply (hoare_bind _ _ _ (λ _, consistent)).
  { apply hoare_tables. destruct (truthy appVersion).
    - apply keeps_bind; [by apply versions_findLatestCompatibleVersion_keeps | intros ?].
      keeps_auto.
    - destruct (negb _); [keeps_auto |].
      apply keeps_bind; [apply keeps_tables_of_data, versions_findById_keeps | intros ?].
      keeps_auto. }
  intros version. apply (hoare_bind _ _ _ (λ _, consistent)).
  { apply incrementDownloadCount_hoare. }
  intros []. apply hoare_tables.
  apply keeps_tables_of_env, toPluginDetailResponse_keeps.
Qed.

Lemma submitPluginWithStorage_hoare file packageId manifest jsCode name description
    author minAppVersion :
  hoare consistent
    (submitPluginWithStorage file packageId manifest jsCode name description author
       minAppVersion)
    (λ _, consistent) consistent.
Proof.
  unfold submitPluginWithStorage. cbv zeta.
  apply (hoare_bind _ _ _ (λ _, consistent)).
  { apply hoare_tables. by apply plugins_findByPackageId_keeps. }
  intros found. apply (hoare_bind _ _ _ (λ _, consistent)).
  { destruct found as [plugin|]; [| by apply hoare_ret].
    apply (hoare_bind _ _ _ (λ _, consistent)).
    { apply hoare_tables. by apply versions_findByPluginIdAndVersion_keeps. }
    intros [existing|]; [by apply hoare_throw | by apply hoare_ret]. }
  intros []. apply (hoare_bind _ _ _ (λ _, consistent)).
  { apply hoare_tables, uploadArtifact_keeps_tables. }
  intros uploadResult. apply submitPlugin_hoare.
Qed.

Lemma extractPackage_keeps_tables buffer :
  keeps tables (SynxPackageService.extractPackage buffer).
Proof. intros w. by rewrite extractPackage_final. Qed.

Lemma cleanupFailedUpload_keeps_tables state :
  keeps tables (DeveloperService.cleanupFailedUpload state).
Proof.
  unfold DeveloperService.cleanupFailedUpload.
  apply keeps_bind; [| intros ?].
  - destruct (truthy _); [| keeps_auto].
    apply keeps_try_catch; [apply deleteArtifact_keeps_tables | intros ?; keeps_auto].
  - destruct (truthy _); [| keeps_auto].
    apply keeps_try_catch; [apply deleteArtifact_keeps_tables | intros ?; keeps_auto].
Qed.

Lemma submitPluginSynx_try_hoare file packageId :
  hoare (λ sw, consistent sw.2) (DeveloperService.submitPluginSynx_try file packageId)
    (λ _ sw, consistent sw.2) (λ sw, consistent sw.2).
Proof.
  unfold DeveloperService.submitPluginSynx_try.
  apply (hoare_bind _ _ _ (λ _ sw, consistent sw.2)).
  { apply (hoare_lift consistent _ (λ _, consistent) consistent).
    apply hoare_tables, extractPackage_keeps_tables. }
  intros pkg. cbv zeta.
  apply (hoare_bind _ _ _ (λ _ sw, consistent sw.2)).
  { destruct (iconData pkg) as [data|]; [| by apply hoare_ret].
    destruct (truthy (iconName pkg)); [| by apply hoare_ret].
    apply (hoare_bind _ _ _ (λ _ sw, consistent sw.2)).
    { apply (hoare_lift consistent _ (λ _, consistent) consistent).
      apply hoare_tables. unfold StorageService.calculateChecksum. keeps_auto. }
    intros iconHash. apply (hoare_bind _ _ _ (λ _ sw, consistent sw.2)).
    { apply (hoare_lift consistent _ (λ _, consistent) consistent).
      apply hoare_tables, uploadIcon_keeps_tables. }
    intros iconKey. by apply hoare_modify. }
  intros []. apply (hoare_bind _ _ _ (λ _ sw, consistent sw.2)).
  { apply (hoare_lift consistent _ (λ _, consistent) consistent).
    apply hoare_tables, uploadArtifact_keeps_tables. }
  intros uploadResult. apply (hoare_bind _ _ _ (λ _ sw, consistent sw.2)).
  { by apply hoare_modify. }
  intros []. apply (hoare_bind _ _ _ (λ _ sw, consistent sw.2)).
  { by apply hoare_get. }
  intros sw. apply (hoare_bind _ _ _ (λ _ sw, consistent sw.2)).
  { apply (hoare_lift consistent _ (λ _, consistent) consistent).
    apply submitPlugin_hoare. }
  intros response. apply (hoare_bind _ _ _ (λ _ sw, consistent sw.2)).
  { unfold DeveloperService.clearState.
    apply (hoare_bind _ _ _ (λ _ sw, consistent sw.2)); [by apply hoare_modify |].
    intros []. by apply hoare_modify. }
  intros []. by apply hoare_ret.
Qed.

Lemma submitPluginSynx_hoare file packageId :
  hoare consistent (DeveloperService.submitPluginSynx file packageId)
    (λ _, consistent) consistent.
Proof.
  intros w Hc. unfold DeveloperService.submitPluginSynx.
  pose proof (submitPluginSynx_try_hoare file packageId
                (DeveloperService.initialState packageId, w) Hc) as Htry.
  destruct (DeveloperService.submitPluginSynx_try file packageId
              (DeveloperService.initialState packageId, w)) as [[response|error] [state w1]];
    [done |].
  simpl in Htry.
  assert (Hcleanup : hoare consistent
            (DeveloperService.cleanupFailedUpload state ;;; throw error)
            (λ _ : PluginDetailResponse, consistent) consistent).
  { apply (hoare_bind _ _ _ (λ _, consistent)).
    - apply hoare_tables, cleanupFailedUpload_keeps_tables.
    - intros []. by apply hoare_throw. }
  exact (Hcleanup w1 Htry).
Qed.

(** *** Reviews *)

(** What [findPublishedVersions] returns are PUBLISHED versions of the
    plugin. *)
Lemma findPublishedVersions_inv pluginId w published w' :
  PluginVersionsRepository.findPublishedVersions pluginId w = (Returned published, w') →
  ∀ v, v ∈ published →
       has_version (PluginVersion.id v) pluginId VersionStatus.PUBLISHED w.
Proof.
  unfold PluginVersionsRepository.findPublishedVersions, db_read, supabase_error,
    interact, bind, get, ret.
  simpl. destruct (fault (env w) (tick w)); simpl; intros [= <- <-] v Hv.
  { by apply elem_of_nil in Hv. }
  apply list_elem_of_fmap in Hv as ([id r] & -> & Hin).
  rewrite merge_sort_Permutation in Hin.
  apply elem_of_select_versions in Hin as [Hsel Hr]. simpl in Hsel.
  apply andb_prop in Hsel as [Hpid Hst].
  apply String.eqb_eq in Hpid. apply bool_decide_eq_true in Hst.
  by exists r.
Qed.

Lemma getVersionForReview_hoare versionId :
  hoare consistent (PluginReviewService.getVersionForReview versionId)
    (λ version w,
       (consistent w
        ∧ has_version versionId (PluginVersion.pluginId version)
            (PluginVersion.status version) w)
       ∧ PluginVersion.id version = versionId)
    consistent.
Proof.
  intros w Hc.
  pose proof (keeps_tables_of_data _ (getVersionForReview_keeps versionId) w) as Hk.
  destruct (PluginReviewService.getVersionForReview versionId w) as [[v|e] w1] eqn:H;
    simpl in Hk; [| by eapply consistent_tables].
  apply getVersionForReview_inv in H as (r & Hr & -> & ->).
  split; [| done]. split; [done |]. by exists r.
Qed.

Lemma Date_now_keeps_tables : keeps tables Date_now.
Proof. by apply keeps_interact. Qed.

Lemma handlePublishDecision_hoare version plugin reviewedBy s :
  hoare (λ w, consistent w
              ∧ has_version (PluginVersion.id version) (Plugin.id plugin) s w)
    (PluginReviewService.handlePublishDecision version plugin reviewedBy)
    (λ _, consistent) consistent.
Proof.
  set (P0 := λ w, consistent w
                  ∧ has_version (PluginVersion.id version) (Plugin.id plugin) s w).
  unfold PluginReviewService.handlePublishDecision.
  apply (hoare_bind _ _ _ (λ _, P0)).
  { destruct (truthy _); [| by apply hoare_ret].
    apply (hoare_try_catch _ _ _ _ consistent); [| intros ?; by apply hoare_throw].
    apply (hoare_bind _ _ _ (λ _, P0)).
    { apply hoare_versioned, moveArtifact_keeps_tables. }
    intros storagePath. apply (hoare_bind _ _ _ (λ _, P0)); [| intros ?; by apply hoare_ret].
    eapply hoare_conseq;
      [apply (versions_update_hoare (PluginVersion.id version) _ (Plugin.id plugin) s) | ..].
    - simpl. destruct (decide (s = VersionStatus.PUBLISHED)); tauto.
    - done.
    - done.
    - by intros w []. }
  intros []. apply (hoare_bind _ _ _ (λ _, P0)).
  { apply hoare_versioned, Date_now_keeps_tables. }
  intros reviewedAt. apply (hoare_bind _ _ _ (λ _, P0)).
  { apply hoare_versioned, Date_now_keeps_tables. }
  intros publishedAt.
  apply (hoare_bind _ _ _
           (λ _ w, consistent w
                   ∧ has_version (PluginVersion.id version) (Plugin.id plugin)
                       VersionStatus.PUBLISHED w)).
  { eapply hoare_conseq;
      [apply (versions_update_hoare (PluginVersion.id version) _ (Plugin.id plugin) s) | ..].
    - simpl. by left.
    - done.
    - done.
    - by intros w []. }
  intros updated. apply (hoare_bind _ _ _ (λ _, consistent)); [| intros ?; by apply hoare_ret].
  apply plugins_update_hoare. simpl. by intros w v Hv [= <-].
Qed.

Lemma handleRejectDecision_hoare version plugin decision s :
  s ≠ VersionStatus.PUBLISHED →
  hoare (λ w, consistent w
              ∧ has_version (PluginVersion.id version) (Plugin.id plugin) s w)
    (PluginReviewService.handleRejectDecision version plugin decision)
    (λ _, consistent) consistent.
Proof.
  intros Hs.
  set (P0 := λ w, consistent w
                  ∧ has_version (PluginVersion.id version) (Plugin.id plugin) s w).
  unfold PluginReviewService.handleRejectDecision.
  apply (hoare_bind _ _ _ (λ _, P0)).
  { apply hoare_versioned. destruct (truthy _); [| keeps_auto].
    apply keeps_try_catch; [apply deleteArtifact_keeps_tables | intros ?; keeps_auto]. }
  intros []. apply (hoare_bind _ _ _ (λ _, P0)).
  { apply hoare_versioned, Date_now_keeps_tables. }
  intros reviewedAt. apply (hoare_bind _ _ _ (λ _, consistent)).
  { eapply hoare_conseq;
      [apply (versions_update_hoare (PluginVersion.id version) _ (Plugin.id plugin) s) | ..].
    - by right.
    - done.
    - by intros ? w [].
    - by intros w []. }
  intros updated. case_bool_decide; [| by apply hoare_ret].
  apply (hoare_bind _ _ _
           (λ published w,
              consistent w
              ∧ ∀ v, v ∈ published →
                     has_version (PluginVersion.id v) (Plugin.id plugin)
                       VersionStatus.PUBLISHED w)).
  { apply (hoare_read tables).
    - by apply findPublishedVersions_keeps.
    - apply consistent_tables.
    - done.
    - intros w published w' _ Hrun v Hv.
      pose proof (keeps_run tables _ _ _ _
                    (findPublishedVersions_keeps tables _ (λ _ _, eq_refl)) Hrun) as Hk.
      eapply has_version_tables; [done |].
      by eapply findPublishedVersions_inv. }
  intros [|first rest].
  - apply (hoare_bind _ _ _ (λ _, consistent)); [| intros ?; by apply hoare_ret].
    apply plugins_update_hoare. simpl. intros w v _. discriminate.
  - apply (hoare_bind _ _ _ (λ _, consistent)); [| intros ?; by apply hoare_ret].
    apply plugins_update_hoare. simpl. intros w v Hv [= <-]. apply Hv. by left.
Qed.

Lemma submitReviewDecision_hoare versionId decision :
  hoare consistent (PluginReviewService.submitReviewDecision versionId decision)
    (λ _, consistent) consistent.
Proof.
  unfold PluginReviewService.submitReviewDecision,
    PluginReviewService.submitReviewDecision_with.
  eapply hoare_bind; [apply getVersionForReview_hoare |].
  intros version.
  apply (hoare_bind _ _ _
           (λ found w,
              (consistent w
               ∧ has_version (PluginVersion.id version) (PluginVersion.pluginId version)
                   (PluginVersion.status version) w)
              ∧ ∀ plugin, found = Some plugin →
                          Plugin.id plugin = PluginVersion.pluginId version)).
  { eapply hoare_conseq;
      [apply (hoare_read tables _
                (λ w, consistent w
                      ∧ has_version (PluginVersion.id version)
                          (PluginVersion.pluginId version) (PluginVersion.status version) w)
                consistent
                (λ found _, ∀ plugin, found = Some plugin →
                                      Plugin.id plugin = PluginVersion.pluginId version))
      | | done | done].
    - apply keeps_tables_of_data, plugins_findById_keeps.
    - intros w w' Ht. by apply versioned_tables.
    - by intros w [].
    - intros w found w' _ Hrun plugin ->.
      by apply plugins_findById_inv in Hrun as (r & _ & -> & _).
    - intros w [Hv <-]. done. }
  intros [plugin|]; [| apply hoare_throw; by intros w [[] _]].
  destruct (PluginReviewService.isValidTransition _ _) eqn:Hvalid; simpl;
    [| apply hoare_throw; by intros w [[] _]].
  rewrite andb_false_r.
  destruct (rd_decision decision).
  - eapply hoare_conseq;
      [apply (handlePublishDecision_hoare version plugin _ (PluginVersion.status version))
      | | done | done].
    intros w [[Hc Hv] Hid]. rewrite (Hid plugin eq_refl). done.
  - eapply hoare_conseq;
      [apply (handleRejectDecision_hoare version plugin _ (PluginVersion.status version))
      | | done | done].
    + intros Hpub. rewrite Hpub in Hvalid. discriminate.
    + intros w [[Hc Hv] Hid]. rewrite (Hid plugin eq_refl). done.
Qed.

Lemma unflagVersion_hoare versionId :
  hoare consistent (PluginReviewService.unflagVersion versionId)
    (λ _, consistent) consistent.
Proof.
  unfold PluginReviewService.unflagVersion.
  eapply hoare_bind; [apply getVersionForReview_hoare |].
  intros version.
  apply (hoare_bind _ _ _ (λ _, consistent)); [| intros ?; by apply hoare_ret].
  eapply hoare_conseq;
    [apply (versions_update_hoare versionId _ (PluginVersion.pluginId version)
              (PluginVersion.status version)) | ..].
  - simpl. destruct (decide (PluginVersion.status version = VersionStatus.PUBLISHED)); tauto.
  - by intros w [Hv _].
  - by intros ? w [].
  - by intros w [].
Qed.

(** A flagging that returns has written both rows. *)
Lemma flagVersion_hoare versionId reason flaggedBy :
  hoare consistent (PluginReviewService.flagVersion versionId reason flaggedBy)
    (λ _, consistent) (λ _, True).
Proof.
  intros w Hc.
  destruct (PluginReviewService.flagVersion versionId reason flaggedBy w)
    as [[[]|e] w'] eqn:H; [| done].
  apply flagVersion_inv in H as (vrow & prow & Hvrow & Hprow & _ & _ & _ & Hv & Hp).
  set (pid := plugin_versions.plugin_id vrow) in *.
  set (w0 := set_plugins (plugins_table w') w).
  assert (Hc0 : consistent w0).
  { subst w0. case_bool_decide as Hlatest.
    - eapply (consistent_update_plugin w _ pid prow); [done | done | | | done | done].
      + done.
      + simpl. discriminate.
    - eapply consistent_tables; [| done]. unfold tables. simpl. by rewrite Hp. }
  match type of Hv with
  | _ = <[_ := ?r']> _ =>
      apply (consistent_update_version w0 w' versionId vrow r' Hc0);
        [done | done | done | | done | done]
  end.
  right. right. intros q p Hq Hl.
  destruct Hc as (_ & _ & _ & Hlat).
  assert (Hq0 : q ≠ pid ∨ bool_decide (Some versionId = plugins.latest_version_id prow)
                          = false).
  { case_bool_decide as Hlatest; [| by right]. left. intros ->.
    subst w0. simpl in Hq. rewrite Hp, lookup_insert_eq in Hq. by injection Hq as <-. }
  assert (Hqw : plugins_table w !! q = Some p).
  { subst w0. simpl in Hq. rewrite Hp in Hq. case_bool_decide as Hlatest.
    - destruct Hq0 as [Hne | ?]; [| done]. by rewrite lookup_insert_ne in Hq.
    - done. }
  destruct (Hlat q p versionId Hqw Hl) as (r & Hr & Hown & _).
  rewrite Hvrow in Hr. injection Hr as <-. fold pid in Hown. subst q.
  rewrite Hprow in Hqw. injection Hqw as <-.
  destruct Hq0 as [? | Hfalse]; [done |].
  rewrite Hl, bool_decide_eq_true_2 in Hfalse; done.
Qed.

Lemma hoare_final {A} (P Q : World → Prop) (m : M A) w :
  hoare P m (λ _, Q) Q → P w → Q (final (m w)).
Proof. intros Hm HP. specialize (Hm w HP). unfold final. by destruct (m w) as [[a|e] w']. Qed.

(** X24.  The services keep the store consistent.  From a store in which
    package ids are unique, no plugin has a version twice, every version
    belongs to a plugin that is there, and every [latest_version_id]
    names a PUBLISHED version of its plugin, each of [submitPlugin],
    [submitPluginWithStorage], [submitPluginSynx], [getPluginByPackageId],
    [submitReviewDecision] and [unflagVersion] ends in such a store,
    whether it returns or throws and whatever the stores answer; and so
    does [flagVersion] when it returns, given the id of a version as the
    store holds it ([flagVersion] compares the id it was given, as text,
    with the [latest_version_id] of the plugin). *)
Theorem services_keep_the_store_consistent w :
  consistent w →
  (∀ packageId name description author iconKey category tags sourceUrl version manifest
     minAppVersion releaseNotes storagePath storageBucket tempStoragePath fileSizeBytes
     checksumSha256,
     consistent (final (PluginsService.submitPlugin packageId name description author
                          iconKey category tags sourceUrl version manifest minAppVersion
                          releaseNotes storagePath storageBucket tempStoragePath
                          fileSizeBytes checksumSha256 w)))
  ∧ (∀ file packageId manifest jsCode name description author minAppVersion,
       consistent (final (submitPluginWithStorage file packageId manifest jsCode name
                            description author minAppVersion w)))
  ∧ (∀ file packageId,
       consistent (final (DeveloperService.submitPluginSynx file packageId w)))
  ∧ (∀ packageId appVersion,
       consistent (final (PluginsService.getPluginByPackageId packageId appVersion w)))
  ∧ (∀ versionId decision,
       consistent (final (PluginReviewService.submitReviewDecision versionId decision w)))
  ∧ (∀ versionId, consistent (final (PluginReviewService.unflagVersion versionId w)))
  ∧ (∀ versionId reason flaggedBy,
       is_Some (plugin_versions_table w !! versionId) →
       outcome (PluginReviewService.flagVersion versionId reason flaggedBy w) = Returned tt →
       consistent (final (PluginReviewService.flagVersion versionId reason flaggedBy w))).
Proof.
  intros Hc. split_and!; intros.
  - apply (hoare_final consistent); [apply submitPlugin_hoare | done].
  - apply (hoare_final consistent); [apply submitPluginWithStorage_hoare | done].
  - apply (hoare_final consistent); [apply submitPluginSynx_hoare | done].
  - apply (hoare_final consistent); [apply getPluginByPackageId_hoare | done].
  - apply (hoare_final consistent); [apply submitReviewDecision_hoare | done].
  - apply (hoare_final consistent); [apply unflagVersion_hoare | done].
  - pose proof (flagVersion_hoare versionId reason flaggedBy w Hc) as Hflag.
    unfold outcome, final in *.
    by destruct (PluginReviewService.flagVersion versionId reason flaggedBy w)
      as [[[]|e] w'].
Qed.

Lemma services_keep_the_store_consistent_witness :
  let w := w_three_floors in
  consistent w
  ∧ (∀ packageId name description author iconKey category tags sourceUrl version manifest
       minAppVersion releaseNotes storagePath storageBucket tempStoragePath fileSizeBytes
       checksumSha256,
       consistent (final (PluginsService.submitPlugin packageId name description author
                            iconKey category tags sourceUrl version manifest minAppVersion
                            releaseNotes storagePath storageBucket tempStoragePath
                            fileSizeBytes checksumSha256 w)))
  ∧ (∀ file packageId manifest jsCode name description author minAppVersion,
       consistent (final (submitPluginWithStorage file packageId manifest jsCode name
                            description author minAppVersion w)))
  ∧ (∀ file packageId,
       consistent (final (DeveloperService.submitPluginSynx file packageId w)))
  ∧ (∀ packageId appVersion,
       consistent (final (PluginsService.getPluginByPackageId packageId appVersion w)))
  ∧ (∀ versionId decision,
       consistent (final (PluginReviewService.submitReviewDecision versionId decision w)))
  ∧ (∀ versionId, consistent (final (PluginReviewService.unflagVersion versionId w)))
  ∧ (∀ versionId reason flaggedBy,
       is_Some (plugin_versions_table w !! versionId) →
       outcome (PluginReviewService.flagVersion versionId reason flaggedBy w)
       = Returned tt →
       consistent (final (PluginReviewService.flagVersion versionId reason flaggedBy w))).
Proof.
  intros w.
  assert (H1 : consistent w) by (apply (bool_decide_unpack (consistent w)); vm_compute; exact I).
  split; [exact H1 |].
  exact (services_keep_the_store_consistent w H1).
Defined.

(** X25.  From a consistent store, whatever [getPluginByPackageId] serves,
    with or without an app version, is a PUBLISHED version of the plugin
    asked for, and that plugin is PUBLISHED. *)
Theorem store_serves_only_published_versions packageId appVersion w response w' :
  consistent w →
  PluginsService.getPluginByPackageId packageId appVersion w = (Returned response, w') →
  ∃ prow vrow,
    plugins_table w !! r_id response = Some prow
    ∧ plugins.package_id prow = packageId
    ∧ plugins.status prow = PluginStatus.PUBLISHED
    ∧ plugin_versions_table w !! r_versionId response = Some vrow
    ∧ plugin_versions.plugin_id vrow = r_id response
    ∧ plugin_versions.status vrow = VersionStatus.PUBLISHED
    ∧ r_version response = plugin_versions.version vrow.
Proof.
  intros (_ & _ & _ & Hlat) H. apply getPluginByPackageId_inv in H
    as (pid & prow & vid & vrow & w3 & Hprow & Hpkg & Hpub & Hvrow & Hsel & _ & _ & _ & H).
  pose proof (toPluginDetailResponse_plugin _ _ _ _ _ H) as (Hid & _ & _ & Hvid & _).
  pose proof (toPluginDetailResponse_returns _ _ _ _ _ H) as [_ Hver].
  simpl in *. exists prow, vrow. rewrite Hid, Hvid, Hver. split_and!; try done.
  - destruct (truthy appVersion).
    + apply find_latest_compatible_version_inv in Hsel
        as [[Hnil _] | (id & r & k & Heq & Hc & _)]; [discriminate |].
      injection Heq as <- <-. by destruct Hc as (_ & ? & _).
    + destruct (Hlat pid prow vid Hprow Hsel) as (r & Hr & Hown & _). congruence.
  - destruct (truthy appVersion).
    + apply find_latest_compatible_version_inv in Hsel
        as [[Hnil _] | (id & r & k & Heq & Hc & _)]; [discriminate |].
      injection Heq as <- <-. by destruct Hc as (_ & _ & ? & _).
    + destruct (Hlat pid prow vid Hprow Hsel) as (r & Hr & _ & Hst). congruence.
Qed.

Lemma store_serves_only_published_versions_witness :
  let w := w_three_floors in
  let run := PluginsService.getPluginByPackageId "com.synapse.tictic" None w in
  let response := latest_response in
  consistent w
  ∧ run = (Returned response, run.2)
  ∧ ∃ (prow : plugins.row) (vrow : plugin_versions.row),
      plugins_table w !! r_id response = Some prow
      ∧ plugins.package_id prow = "com.synapse.tictic"
      ∧ plugins.status prow = PluginStatus.PUBLISHED
      ∧ plugin_versions_table w !! r_versionId response = Some vrow
      ∧ plugin_versions.plugin_id vrow = r_id response
      ∧ plugin_versions.status vrow = VersionStatus.PUBLISHED
      ∧ r_version response = plugin_versions.version vrow.
Proof.
  intros w run response.
  assert (H1 : consistent w) by (apply (bool_decide_unpack (consistent w)); vm_compute; exact I).
  assert (H2 : run.1 = Returned response) by (vm_compute; reflexivity).
  pose proof (run_eq run _ H2) as Hrun.
  split; [exact H1 |]. split; [exact Hrun |].
  exact (store_serves_only_published_versions "com.synapse.tictic" None w response run.2
           H1 Hrun).
Defined.

(** ** The versions and the statistics of a plugin *)







(** ** Rejecting a version *)

(** The temp artifact of a rejected version is removed from the bucket
    "temp_uploads" when the store accepts the request. *)
Lemma reject_cleanup_objects (version : PluginVersion.t) w w1 :
  (if truthy (PluginVersion.tempStoragePath version) then
     try_catch
       (StorageService.deleteArtifact
          (default "" (PluginVersion.tempStoragePath version)) "temp_uploads")
       (λ _, ret tt)
   else ret tt) w = (Returned tt, w1) →
  objects w1 = objects w
  ∨ ∃ temp, PluginVersion.tempStoragePath version = Some temp
            ∧ objects w1 = delete ("temp_uploads", temp) (objects w).
Proof.
  unfold try_catch, StorageService.deleteArtifact, storage_remove, supabase_error,
    interact, bind, modify, ret, throw.
  destruct (PluginVersion.tempStoragePath version) as [temp|] eqn:Htemp; simpl;
    [| intros H; injection H as <-; by left].
  match goal with
  | |- context [if ?c then _ else _] => destruct c
  end; [| intros H; injection H as <-; by left].
  destruct (fault (env w) (tick w)); simpl; intros H; injection H as <-; simpl.
  - by left.
  - right. by exists temp.
Qed.

(** X28.  A REJECT decision that returns found the version pending and
    changed no other version: the version is REJECTED, its
    [temp_storage_path] is null, the reviewer is recorded, and the reason
    when one was given; its permanent location, its plugin and its
    version number are as before.  The staged artifact was removed from
    the bucket "temp_uploads" or, when the store refused or the version
    had none, no object changed: the rejection does not depend on it. *)
Theorem reject_decision_result versionId decision w w' :
  rd_decision decision = ReviewDecision.REJECT →
  PluginReviewService.submitReviewDecision versionId decision w = (Returned tt, w') →
  ∃ row0 row,
    plugin_versions_table w !! versionId = Some row0
    ∧ pending (plugin_versions.status row0)
    ∧ plugin_versions_table w' = <[versionId := row]> (plugin_versions_table w)
    ∧ plugin_versions.status row = VersionStatus.REJECTED
    ∧ plugin_versions.temp_storage_path row = None
    ∧ plugin_versions.reviewed_by row = Some (rd_reviewedBy decision)
    ∧ plugin_versions.rejection_reason row
      = match rd_rejectionReason decision with
        | Some reason => Some reason
        | None => plugin_versions.rejection_reason row0
        end
    ∧ plugin_versions.storage_path row = plugin_versions.storage_path row0
    ∧ plugin_versions.plugin_id row = plugin_versions.plugin_id row0
    ∧ plugin_versions.version row = plugin_versions.version row0
    ∧ (objects w' = objects w
       ∨ ∃ temp, plugin_versions.temp_storage_path row0 = Some temp
                 ∧ objects w' = delete ("temp_uploads", temp) (objects w)).
Proof.
  intros Hd. unfold PluginReviewService.submitReviewDecision,
    PluginReviewService.submitReviewDecision_with. intros Hrun.
  apply bind_inv_returned in Hrun as (version & w1 & H1 & Hrun).
  apply getVersionForReview_inv in H1 as (row0 & Hrow0 & -> & ->).
  apply bind_inv_returned in Hrun as (found & w2 & H2 & Hrun).
  destruct found as [plugin|]; [| discriminate].
  apply plugins_findById_inv in H2 as (prow0 & Hprow0 & -> & ->).
  rewrite Hd in Hrun. simpl in Hrun, Hprow0.
  destruct (PluginReviewService.isValidTransition (plugin_versions.status row0)
              ReviewDecision.REJECT) eqn:Hvalid; [| discriminate].
  assert (Hpending : pending (plugin_versions.status row0)).
  { unfold pending. destruct (plugin_versions.status row0); try discriminate; auto. }
  simpl in Hrun. unfold PluginReviewService.handleRejectDecision in Hrun.
  apply bind_inv_returned in Hrun as ([] & w3 & Hblock & Hrun).
  pose proof (reject_cleanup_objects _ _ _ Hblock) as Hobjects.
  destruct (reject_cleanup_run (PluginVersionsRepository.mapToEntity (versionId, row0))
              (set_tick (S (S (tick w))) (set_tick (S (tick w)) w)))
    as (w3' & Hblock' & Htables & _).
  rewrite Hblock in Hblock'. injection Hblock' as <-.
  apply tables_eq in Htables as [Hp3 Hv3]. simpl in Hp3, Hv3, Hobjects.
  apply bind_inv_returned in Hrun as (reviewedAt & w4 & [= <- <-] & Hrun).
  apply bind_inv_returned in Hrun as (x & w5 & Hupd & Hrun).
  apply versions_update_inv in Hupd as (r4 & Hr4 & ->).
  simpl in Hr4, Hrun. rewrite Hv3, Hrow0 in Hr4. injection Hr4 as <-.
  assert (Hrest : plugin_versions_table w'
                  = <[versionId := PluginVersionsRepository.updateData
                        {| uv_status := Some VersionStatus.REJECTED;
                           uv_storagePath := None; uv_storageBucket := None;
                           uv_tempStoragePath := Some None;
                           uv_rejectionReason := Some <$> rd_rejectionReason decision;
                           uv_reviewedBy := Some (Some (rd_reviewedBy decision));
                           uv_reviewedAt :=
                             Some (Some (clock (env w3) (tick w3)));
                           uv_publishedAt := None;
                           uv_downloadCount := None; uv_isFlagged := None;
                           uv_flagReason := None |} row0]> (plugin_versions_table w)
                  ∧ objects w' = objects w3).
  { case_bool_decide as Hlatest.
    - apply bind_inv_returned in Hrun as (published & w6 & Hpub & Hrun).
      pose proof (keeps_run (λ w, (plugin_versions_table w, objects w)) _ _ _ _
                    (findPublishedVersions_keeps
                       (λ w, (plugin_versions_table w, objects w)) _ (λ _ _, eq_refl))
                    Hpub) as Hk6.
      simpl in Hk6. injection Hk6 as Hv6 Ho6.
      assert (Hfinal : ∃ dto x w7,
                PluginsRepository.update (plugin_versions.plugin_id row0) dto w6
                = (Returned x, w7) ∧ w' = w7).
      { destruct published as [|first rest];
          apply bind_inv_returned in Hrun as (y & w7 & Hpupd & Hrun);
          injection Hrun as <-; by eexists _, _, _. }
      destruct Hfinal as (dto & y & w7 & Hpupd & ->).
      apply plugins_update_inv in Hpupd as (p6 & _ & ->). simpl.
      rewrite Hv6, Ho6, Hv3. done.
    - injection Hrun as <-. simpl. by rewrite Hv3. }
  destruct Hrest as [Hv Ho]. eexists row0, _.
  split_and!; [done | done | exact Hv | done | done | done | | done | done | done |].
  - simpl. by destruct (rd_rejectionReason decision).
  - rewrite Ho. done.
Qed.

Lemma reject_decision_result_witness :
  let w := w_staged in
  let run := PluginReviewService.submitReviewDecision "v1" reject_by_admin w in
  rd_decision reject_by_admin = ReviewDecision.REJECT
  ∧ run = (Returned tt, run.2)
  ∧ ∃ (row0 row : plugin_versions.row),
      plugin_versions_table w !! "v1" = Some row0
      ∧ pending (plugin_versions.status row0)
      ∧ plugin_versions_table run.2 = <[ "v1" := row]> (plugin_versions_table w)
      ∧ plugin_versions.status row = VersionStatus.REJECTED
      ∧ plugin_versions.temp_storage_path row = None
      ∧ plugin_versions.reviewed_by row = Some (rd_reviewedBy reject_by_admin)
      ∧ plugin_versions.rejection_reason row
        = match rd_rejectionReason reject_by_admin with
          | Some reason => Some reason
          | None => plugin_versions.rejection_reason row0
          end
      ∧ plugin_versions.storage_path row = plugin_versions.storage_path row0
      ∧ plugin_versions.plugin_id row = plugin_versions.plugin_id row0
      ∧ plugin_versions.version row = plugin_versions.version row0
      ∧ (objects run.2 = objects w
         ∨ ∃ temp : string,
             plugin_versions.temp_storage_path row0 = Some temp
             ∧ objects run.2 = delete ("temp_uploads", temp) (objects w)).
Proof.
  intros w run.
  assert (H1 : rd_decision reject_by_admin = ReviewDecision.REJECT) by reflexivity.
  assert (H2 : run.1 = Returned tt) by (vm_compute; reflexivity).
  pose proof (run_eq run _ H2) as Hrun.
  split; [exact H1 |]. split; [exact Hrun |].
  exact (reject_decision_result "v1" reject_by_admin w run.2 H1 Hrun).
Defined.

(** ** A flagging that fails half way *)

(** X29.  [flagVersion] writes the version before the plugin, and does not
    undo the first when the second fails.  When the version is the latest
    of its plugin and the store refuses the update of the plugin,
    [flagVersion] throws, the version is FLAGGED all the same, and the
    plugin still names it as its latest version: the store is left with a
    [latest_version_id] that names a version that is not PUBLISHED. *)
Theorem flagVersion_is_not_atomic versionId reason flaggedBy w vrow prow msg :
  plugin_versions_table w !! versionId = Some vrow →
  plugins_table w !! plugin_versions.plugin_id vrow = Some prow →
  plugins.latest_version_id prow = Some versionId →
  fault (env w) (tick w) = None →
  fault (env w) (S (tick w)) = None →
  fault (env w) (S (S (tick w))) = None →
  fault (env w) (S (S (S (S (tick w))))) = Some msg →
  ∃ w' vrow',
    PluginReviewService.flagVersion versionId reason flaggedBy w
    = (Thrown (Error ("Failed to update plugin: " +:+ msg)), w')
    ∧ plugins_table w' = plugins_table w
    ∧ plugin_versions_table w' = <[versionId := vrow']> (plugin_versions_table w)
    ∧ plugin_versions.status vrow' = VersionStatus.FLAGGED
    ∧ plugin_versions.is_flagged vrow' = true
    ∧ ¬ latest_is_published w'.
Proof.
  intros Hvrow Hprow Hlatest Hf0 Hf1 Hf2 Hf4.
  unfold PluginReviewService.flagVersion, PluginReviewService.getVersionForReview.
  unfold bind at 1. unfold bind at 1.
  rewrite (versions_findById_run versionId vrow w Hf0 Hvrow). simpl.
  unfold bind at 1.
  rewrite (plugins_findById_run (plugin_versions.plugin_id vrow) prow
             (set_tick (S (tick w)) w) Hf1 Hprow).
  simpl. unfold bind at 1.
  rewrite (versions_update_run versionId _ vrow
             (set_tick (S (S (tick w))) (set_tick (S (tick w)) w)) Hf2 Hvrow).
  simpl. rewrite Hlatest, bool_decide_eq_true_2 by done.
  unfold PluginsRepository.update, update_plugin_row, Date_now, supabase_error,
    interact, bind, get, modify, ret, throw.
  simpl. rewrite Hf4. simpl.
  eexists _, _. split; [reflexivity |]. simpl. split_and!; [done | done | done | done |].
  intros Hlat.
  destruct (Hlat (plugin_versions.plugin_id vrow) prow versionId Hprow Hlatest)
    as (r & Hr & _ & Hst).
  simpl in Hr. rewrite lookup_insert_eq in Hr. injection Hr as <-. discriminate.
Qed.

Lemma flagVersion_is_not_atomic_witness :
  let w := w_update_refused in
  let vrow := version_row "p1" "2.0.0" "2.0.0" VersionStatus.PUBLISHED 1700000300000
                (Some "com.synapse.tictic/v2.0.0/plugin.synx") (Some "plugins") None in
  let prow := plugin_row "com.synapse.tictic" PluginStatus.PUBLISHED (Some "v3") in
  plugin_versions_table w !! "v3" = Some vrow
  ∧ plugins_table w !! plugin_versions.plugin_id vrow = Some prow
  ∧ plugins.latest_version_id prow = Some "v3"
  ∧ fault (env w) (tick w) = None
  ∧ fault (env w) (S (tick w)) = None
  ∧ fault (env w) (S (S (tick w))) = None
  ∧ fault (env w) (S (S (S (S (tick w))))) = Some "connection reset"
  ∧ ∃ (w' : World) (vrow' : plugin_versions.row),
      PluginReviewService.flagVersion "v3" "malware" "admin" w
      = (Thrown (Error ("Failed to update plugin: " +:+ "connection reset")), w')
      ∧ plugins_table w' = plugins_table w
      ∧ plugin_versions_table w' = <[ "v3" := vrow']> (plugin_versions_table w)
      ∧ plugin_versions.status vrow' = VersionStatus.FLAGGED
      ∧ plugin_versions.is_flagged vrow' = true
      ∧ ¬ latest_is_published w'.
Proof.
  intros w vrow prow.
  assert (H1 : plugin_versions_table w !! "v3" = Some vrow) by (vm_compute; reflexivity).
  assert (H2 : plugins_table w !! plugin_versions.plugin_id vrow = Some prow)
    by (vm_compute; reflexivity).
  assert (H3 : plugins.latest_version_id prow = Some "v3") by reflexivity.
  assert (H4 : fault (env w) (tick w) = None) by reflexivity.
  assert (H5 : fault (env w) (S (tick w)) = None) by reflexivity.
  assert (H6 : fault (env w) (S (S (tick w))) = None) by reflexivity.
  assert (H7 : fault (env w) (S (S (S (S (tick w))))) = Some "connection reset")
    by reflexivity.
  split_and!; [exact H1 | exact H2 | exact H3 | exact H4 | exact H5 | exact H6 | exact H7 |].
  exact (flagVersion_is_not_atomic "v3" "malware" "admin" w vrow prow "connection reset"
           H1 H2 H3 H4 H5 H6 H7).
Defined.

(** ** A publication whose artifact cannot be moved *)

Lemma versions_update_message id u w e w' :
  PluginVersionsRepository.update id u w = (Thrown e, w') →
  ∃ msg, e = Error ("Failed to update plugin version: " +:+ msg).
Proof.
  unfold PluginVersionsRepository.update. intros H.
  apply bind_inv_thrown in H as [H | ([msg | row] & w1 & _ & H)].
  - destruct (raises_run _ _ _ _ _ (raises_update_version_row (λ _, False) _ _) H).
  - injection H as <- _. by exists msg.
  - discriminate.
Qed.

Lemma plugins_update_message id dto w e w' :
  PluginsRepository.update id dto w = (Thrown e, w') →
  ∃ msg, e = Error ("Failed to update plugin: " +:+ msg).
Proof.
  unfold PluginsRepository.update, Date_now. intros H.
  apply bind_inv_thrown in H as [H | (now & w1 & _ & H)]; [discriminate |].
  apply bind_inv_thrown in H as [H | ([msg | row] & w2 & _ & H)].
  - destruct (raises_run _ _ _ _ _ (raises_update_plugin_row (λ _, False) _ _) H).
  - injection H as <- _. by exists msg.
  - discriminate.
Qed.

(** X30.  The error "Failed to move artifact to permanent storage" means
    that nothing was decided: a review decision that throws it was a
    PUBLISH of a version with a staged artifact, and it has left both
    tables as they were, so the version is still in the review queue. *)
Theorem failed_move_leaves_the_version_in_review versionId decision w w' :
  PluginReviewService.submitReviewDecision versionId decision w
  = (Thrown (Error "Failed to move artifact to permanent storage"), w') →
  rd_decision decision = ReviewDecision.PUBLISH
  ∧ tables w' = tables w
  ∧ ∃ row, plugin_versions_table w' !! versionId = Some row
           ∧ pending (plugin_versions.status row)
           ∧ truthy (plugin_versions.temp_storage_path row) = true.
Proof.
  unfold PluginReviewService.submitReviewDecision,
    PluginReviewService.submitReviewDecision_with. intros Hrun.
  apply bind_inv_thrown in Hrun as [Hrun | (version & w1 & H1 & Hrun)].
  { exfalso. revert Hrun. unfold PluginReviewService.getVersionForReview. intros Hrun.
    apply bind_inv_thrown in Hrun as [Hrun | ([v|] & w1 & _ & Hrun)]; [| discriminate..].
    unfold PluginVersionsRepository.findById in Hrun.
    apply bind_inv_thrown in Hrun as [Hrun | (r & w1 & _ & Hrun)]; [| discriminate].
    destruct (raises_run _ _ _ _ _ (raises_db_read (λ _, False) _) Hrun). }
  apply getVersionForReview_inv in H1 as (row0 & Hrow0 & -> & ->).
  apply bind_inv_thrown in Hrun as [Hrun | (found & w2 & H2 & Hrun)].
  { exfalso. unfold PluginsRepository.findById in Hrun.
    apply bind_inv_thrown in Hrun as [Hrun | (r & w1 & _ & Hrun)]; [| discriminate].
    destruct (raises_run _ _ _ _ _ (raises_db_read (λ _, False) _) Hrun). }
  destruct found as [plugin|]; [| discriminate].
  apply plugins_findById_inv in H2 as (prow0 & Hprow0 & -> & ->).
  simpl in Hrun.
  destruct (PluginReviewService.isValidTransition (plugin_versions.status row0)
              (rd_decision decision)) eqn:Hvalid; [| discriminate].
  assert (Hpending : pending (plugin_versions.status row0)).
  { unfold pending. destruct (plugin_versions.status row0); try discriminate; auto. }
  simpl in Hrun. rewrite andb_false_r in Hrun.
  destruct (rd_decision decision).
  - split; [done |].
    unfold PluginReviewService.handlePublishDecision in Hrun.
    apply bind_inv_thrown in Hrun as [Hblock | ([] & w3 & _ & Hrun)].
    + simpl in Hblock.
      destruct (truthy (plugin_versions.temp_storage_path row0)) eqn:Htemp;
        [| discriminate].
      apply try_catch_inv_thrown in Hblock as (e0 & w3 & Htry & Hthrow).
      injection Hthrow as ->.
      assert (Htables : tables w' = tables w).
      { apply bind_inv_thrown in Htry as [Hmove | (sp & w4 & Hmove & Htry)].
        - exact (keeps_run tables _ _ _ _ (moveArtifact_keeps_tables _ _ _) Hmove).
        - pose proof (keeps_run tables _ _ _ _ (moveArtifact_keeps_tables _ _ _) Hmove)
            as Hk.
          apply bind_inv_thrown in Htry as [Hupd | (x & w5 & _ & Htry)]; [| discriminate].
          apply versions_update_thrown in Hupd. by rewrite Hupd, Hk. }
      split; [done |]. exists row0. apply tables_eq in Htables as [_ ->]. done.
    + exfalso.
      apply bind_inv_thrown in Hrun as [Hrun | (reviewedAt & w4 & _ & Hrun)];
        [discriminate |].
      apply bind_inv_thrown in Hrun as [Hrun | (publishedAt & w5 & _ & Hrun)];
        [discriminate |].
      apply bind_inv_thrown in Hrun as [Hrun | (x & w6 & _ & Hrun)].
      { apply versions_update_message in Hrun as (msg & Hmsg). discriminate. }
      apply bind_inv_thrown in Hrun as [Hrun | (y & w7 & _ & Hrun)]; [| discriminate].
      apply plugins_update_message in Hrun as (msg & Hmsg). discriminate.
  - exfalso. unfold PluginReviewService.handleRejectDecision in Hrun.
    apply bind_inv_thrown in Hrun as [Hblock | ([] & w3 & _ & Hrun)].
    { destruct (reject_cleanup_run (PluginVersionsRepository.mapToEntity (versionId, row0))
                  (set_tick (S (S (tick w))) (set_tick (S (tick w)) w)))
        as (w3 & Hblock' & _).
      rewrite Hblock in Hblock'. discriminate. }
    apply bind_inv_thrown in Hrun as [Hrun | (reviewedAt & w4 & _ & Hrun)];
      [discriminate |].
    apply bind_inv_thrown in Hrun as [Hrun | (x & w5 & _ & Hrun)].
    { apply versions_update_message in Hrun as (msg & Hmsg). discriminate. }
    simpl in Hrun. case_bool_decide; [| discriminate].
    apply bind_inv_thrown in Hrun as [Hrun | (published & w6 & _ & Hrun)].
    { destruct (raises_run _ _ _ _ _ (findPublishedVersions_raises (λ _, False) _) Hrun). }
    destruct published as [|first rest];
      (apply bind_inv_thrown in Hrun as [Hrun | (y & w7 & _ & Hrun)]; [| discriminate]);
      apply plugins_update_message in Hrun as (msg & Hmsg); discriminate.
Qed.

Lemma failed_move_leaves_the_version_in_review_witness :
  let w := w_one_version VersionStatus.SUBMITTED None (Some "temp_1/plugin.synx") in
  let run := PluginReviewService.submitReviewDecision "v1" publish_by_admin w in
  run = (Thrown (Error "Failed to move artifact to permanent storage"), run.2)
  ∧ rd_decision publish_by_admin = ReviewDecision.PUBLISH
  ∧ tables run.2 = tables w
  ∧ ∃ row : plugin_versions.row,
      plugin_versions_table run.2 !! "v1" = Some row
      ∧ pending (plugin_versions.status row)
      ∧ truthy (plugin_versions.temp_storage_path row) = true.
Proof.
  intros w run.
  assert (H1 : run.1 = Thrown (Error "Failed to move artifact to permanent storage"))
    by (vm_compute; reflexivity).
  pose proof (run_eq run _ H1) as Hrun.
  split; [exact Hrun |].
  exact (failed_move_leaves_the_version_in_review "v1" publish_by_admin w run.2 Hrun).
Defined.
